(** * Dynamic website generator: a shallow embedding of the generation pipeline

    The development follows the TypeScript sources of the backend:
    data-filter, intent-analyzer, data-source-verifier, architecture-planner,
    website-validator, vercel-deployer, website-generator and server.

    Conventions of the embedding.
    - Text is [string]: the bytes of the text in UTF-8, so that a character
      of ASCII is one element and any other character a run of elements
      above 127.  Lengths and positions count elements, which is what
      JavaScript counts on ASCII text.  [trim] and the character classes of
      regular expressions are the ASCII ones; [toLowerCase] and
      [toUpperCase] change the letters of ASCII and the characters outside
      ASCII whose other case holds a letter of ASCII.
    - A JavaScript value obtained from [JSON.parse] is a [json] tree.  A
      number is the decimal fraction that writes it, an integer [Z] being
      one of them, and is taken exactly: the rounding of a literal to the
      64 bits of the machine is not part of the model.  [undefined] is the
      [None] of [option json].
    - Property access reads the own properties of an object; reading a
      property of [null] throws, reading one of any other value that is not an
      object gives [undefined].  Inherited members (toString, length, ...)
      are not part of the model.
    - A [try]/[catch] is a match on a [result]; an awaited model call is an
      input of the function that stands for what the call produced. *)

From Stdlib Require Import String Ascii List ZArith Lia Bool Arith.
From Stdlib Require Import DecimalString DecimalFacts DecimalPos DecimalZ.
Import ListNotations.

Open Scope string_scope.
Open Scope list_scope.

(* ################################################################# *)
(** * JavaScript strings and values *)

Module Js.

(** ** Characters *)

Definition code (c : ascii) : nat := nat_of_ascii c.

Definition in_range (lo hi : nat) (c : ascii) : bool :=
  (lo <=? code c)%nat && (code c <=? hi)%nat.

Definition is_upper : ascii -> bool := in_range 65 90.
Definition is_lower : ascii -> bool := in_range 97 122.
Definition is_digit : ascii -> bool := in_range 48 57.
Definition is_alpha (c : ascii) : bool := is_upper c || is_lower c.

(** [\w] *)
Definition is_word (c : ascii) : bool :=
  is_alpha c || is_digit c || (c =? "_")%char.

(** [\s]: tab, line feed, vertical tab, form feed, carriage return, space *)
Definition is_space (c : ascii) : bool :=
  in_range 9 13 c || (c =? " ")%char.

Definition lower_char (c : ascii) : ascii :=
  if is_upper c then ascii_of_nat (code c + 32) else c.

Definition upper_char (c : ascii) : ascii :=
  if is_lower c then ascii_of_nat (code c - 32) else c.

(** ** Strings *)

Fixpoint map_chars (f : ascii -> ascii) (s : string) : string :=
  match s with
  | EmptyString => EmptyString
  | String c s' => String (f c) (map_chars f s')
  end.

(** The letters of ASCII in lower case, every other element as it is: what
    the [i] flag of a regular expression compares (without the [u] flag it
    never takes a character outside ASCII for one of ASCII), and what
    [toLowerCase] gives on ASCII text *)
Definition fold_case : string -> string := map_chars lower_char.

(** An element of ASCII text *)
Definition is_ascii (c : ascii) : bool := (code c <? 128)%nat.

(** The text of the given bytes *)
Fixpoint bytes (l : list nat) : string :=
  match l with
  | [] => EmptyString
  | n :: r => String (ascii_of_nat n) (bytes r)
  end.

(** The Kelvin sign, U+212A *)
Definition kelvin_sign : string := bytes [226; 132; 170].

(** The characters outside ASCII whose lower case holds a letter of ASCII,
    with their lower case: the Kelvin sign, and the capital I with a dot
    above (U+0130), which becomes i and a combining dot (U+0307) *)
Definition lower_special : list (string * string) :=
  [ (kelvin_sign, "k");
    (bytes [196; 176], String "i" (bytes [204; 135])) ].

(** The characters outside ASCII whose upper case holds a letter of ASCII,
    with their upper case: the sharp s (U+00DF), the dotless i (U+0131),
    the n with an apostrophe (U+0149), the long s (U+017F), the j with a
    caron (U+01F0), the letters U+1E96 to U+1E9A and the ligatures U+FB00
    to U+FB06 *)
Definition upper_special : list (string * string) :=
  [ (bytes [195; 159], "SS");
    (bytes [196; 177], "I");
    (bytes [197; 137], (bytes [202; 188] ++ "N")%string);
    (bytes [197; 191], "S");
    (bytes [199; 176], String "J" (bytes [204; 140]));
    (bytes [225; 186; 150], String "H" (bytes [204; 177]));
    (bytes [225; 186; 151], String "T" (bytes [204; 136]));
    (bytes [225; 186; 152], String "W" (bytes [204; 138]));
    (bytes [225; 186; 153], String "Y" (bytes [204; 138]));
    (bytes [225; 186; 154], String "A" (bytes [202; 190]));
    (bytes [239; 172; 128], "FF");
    (bytes [239; 172; 129], "FI");
    (bytes [239; 172; 130], "FL");
    (bytes [239; 172; 131], "FFI");
    (bytes [239; 172; 132], "FFL");
    (bytes [239; 172; 133], "ST");
    (bytes [239; 172; 134], "ST") ].

(** The text in the other case: a character of [special] becomes its entry,
    an element of any other character goes through [plain].  [skip] counts
    the elements of a character of [special] that are still to pass. *)
Fixpoint recase (special : list (string * string)) (plain : ascii -> ascii)
    (skip : nat) (s : string) : string :=
  match s with
  | EmptyString => EmptyString
  | String c r =>
      match skip with
      | S k => recase special plain k r
      | O =>
          match find (fun entry => prefix (fst entry) s) special with
          | Some (from, to) =>
              (to ++ recase special plain (String.length from - 1) r)%string
          | None => String (plain c) (recase special plain 0 r)
          end
      end
  end.

(** [s.toLowerCase()] and [s.toUpperCase()].  A letter outside ASCII whose
    other case lies outside ASCII as well is left as it is. *)
Definition toLowerCase : string -> string := recase lower_special lower_char 0.
Definition toUpperCase : string -> string := recase upper_special upper_char 0.

(** [s.startsWith(t)] *)
Definition startsWith (s t : string) : bool := prefix t s.

(** [s.includes(t)] *)
Fixpoint includes (s t : string) : bool :=
  prefix t s ||
  match s with
  | EmptyString => false
  | String _ s' => includes s' t
  end.

(** [s.endsWith(t)] *)
Fixpoint endsWith (s t : string) : bool :=
  (s =? t) ||
  match s with
  | EmptyString => false
  | String _ s' => endsWith s' t
  end.

Fixpoint trimStart (s : string) : string :=
  match s with
  | String c s' => if is_space c then trimStart s' else s
  | EmptyString => EmptyString
  end.

Fixpoint trimEnd (s : string) : string :=
  match s with
  | EmptyString => EmptyString
  | String c s' =>
      match trimEnd s' with
      | EmptyString => if is_space c then EmptyString else String c EmptyString
      | r => String c r
      end
  end.

Definition trim (s : string) : string := trimStart (trimEnd s).

(** [s.slice(0, n)] and [s.substring(0, n)] for a natural [n] *)
Definition take (n : nat) (s : string) : string := substring 0 n s.

(** [parts.join(sep)] on strings *)
Definition join (sep : string) (parts : list string) : string :=
  String.concat sep parts.

Definition nonempty (s : string) : bool :=
  match s with EmptyString => false | _ => true end.

(** ** Numbers and text *)

(** [String(n)] for an integer *)
Definition string_of_Z (n : Z) : string :=
  NilZero.string_of_int (Z.to_int n).

Definition digit_value (c : ascii) : Z := Z.of_nat (code c - 48).

(** Value of the longest run of decimal digits at the head of [s], if the run
    is not empty. *)
Fixpoint digits_from (acc : option Z) (s : string) : option Z :=
  match s with
  | String c s' =>
      if is_digit c
      then digits_from
             (Some (10 * match acc with Some a => a | None => 0 end
                    + digit_value c)%Z) s'
      else acc
  | EmptyString => acc
  end.

(** [parseInt(s, 10)]; [None] is NaN. *)
Definition parseInt (s : string) : option Z :=
  match trimStart s with
  | String "-" r => option_map Z.opp (digits_from None r)
  | String "+" r => digits_from None r
  | r => digits_from None r
  end.

Fixpoint all_digits (s : string) : bool :=
  match s with
  | EmptyString => true
  | String c s' => is_digit c && all_digits s'
  end.

(** The digits at the head of [s], and the text behind them *)
Fixpoint span_digits (s : string) : string * string :=
  match s with
  | String c r =>
      if is_digit c
      then let (ds, rest) := span_digits r in (String c ds, rest)
      else (EmptyString, s)
  | EmptyString => (EmptyString, EmptyString)
  end.

(** The text behind the first [n] characters *)
Definition drop (n : nat) (s : string) : string :=
  substring n (String.length s - n) s.

Definition hex_value (c : ascii) : option nat :=
  if is_digit c then Some (code c - 48)
  else if in_range 97 102 c then Some (code c - 87)
  else if in_range 65 70 c then Some (code c - 55)
  else None.

(** ** Numbers

    A number is [mantissa / 10 ^ scale], which is what a decimal literal
    denotes; an integer is written with scale 0.  Numbers are compared by
    value: 1.50 and 1.5 are the same number.  The literals are not rounded to
    the 64-bit format, and the two infinities have no value. *)

Record number : Type := { mantissa : Z; scale : nat }.

Definition of_Z (n : Z) : number := {| mantissa := n; scale := 0 |}.

Coercion of_Z : Z >-> number.

Bind Scope Z_scope with number.

Definition pow10 (e : nat) : Z := (10 ^ Z.of_nat e)%Z.

(** [x < y] *)
Definition num_ltb (x y : number) : bool :=
  (mantissa x * pow10 (scale y) <? mantissa y * pow10 (scale x))%Z.

(** [x <= y] *)
Definition num_leb (x y : number) : bool :=
  (mantissa x * pow10 (scale y) <=? mantissa y * pow10 (scale x))%Z.

(** [x === y] *)
Definition num_eqb (x y : number) : bool :=
  (mantissa x * pow10 (scale y) =? mantissa y * pow10 (scale x))%Z.

(** [ToIntegerOrInfinity(x)]: the fraction is dropped. *)
Definition trunc (x : number) : Z := Z.quot (mantissa x) (pow10 (scale x)).

(** The normal form of [m / 10 ^ e]: no zero at the end of the fraction *)
Fixpoint strip (m : Z) (e : nat) : number :=
  match e with
  | O => {| mantissa := m; scale := 0 |}
  | S e' =>
      if (m mod 10 =? 0)%Z then strip (m / 10) e'
      else {| mantissa := m; scale := e |}
  end.

Definition normalize (x : number) : number := strip (mantissa x) (scale x).

Definition canonical (x : number) : bool :=
  match scale x with
  | O => true
  | S _ => negb (mantissa x mod 10 =? 0)%Z
  end.

(** The value of a run of decimal digits; 0 for the empty run *)
Definition digits_value (ds : string) : Z :=
  match NilEmpty.uint_of_string ds with
  | Some u => Z.of_N (N.of_uint u)
  | None => 0%Z
  end.

(** The number of a decimal literal: sign, digits in front of the point,
    digits behind it, exponent *)
Definition decimal (neg : bool) (int frac : string) (exponent : Z) : number :=
  let m := digits_value (int ++ frac) in
  let m := if neg then (- m)%Z else m in
  let e := (Z.of_nat (String.length frac) - exponent)%Z in
  if (e <? 0)%Z then of_Z (m * 10 ^ (- e))%Z else strip m (Z.to_nat e).

(** The fraction of a literal: a point and digits, or nothing *)
Definition fraction_part (s : string) : string * string :=
  match s with
  | String "." r => span_digits r
  | _ => (EmptyString, s)
  end.

(** The exponent of a literal, 0 when there is none; no value for an [e]
    that no digit follows *)
Definition exponent_part (s : string) : option (Z * string) :=
  match s with
  | String c r =>
      if (c =? "e")%char || (c =? "E")%char then
        let (neg, r') :=
          match r with
          | String "-" t => (true, t)
          | String "+" t => (false, t)
          | _ => (false, r)
          end in
        let (ds, rest) := span_digits r' in
        if nonempty ds
        then Some (if neg then (- digits_value ds)%Z else digits_value ds, rest)
        else None
      else Some (0%Z, s)
  | EmptyString => Some (0%Z, s)
  end.

Fixpoint zeros (n : nat) : string :=
  match n with
  | O => EmptyString
  | S k => String "0" (zeros k)
  end.

(** The digits [ds] with the point behind the first one and the exponent
    [x] *)
Definition exponential (ds : string) (x : Z) : string :=
  match ds with
  | String d rest =>
      String d (if nonempty rest then "." ++ rest else "") ++ "e" ++
      (if (x <? 0)%Z then "-" else "+") ++ string_of_Z (Z.abs x)
  | EmptyString => EmptyString
  end.

(** [String(x)] for a number in normal form that is no integer: with the [k]
    digits [ds] and the point in front of the last [e] of them, the text is
    plain when the point stands behind 1 to 21 digits or in front of fewer
    than six zeros, and has an exponent otherwise. *)
Definition fraction_digits (ds : string) (e : nat) : string :=
  let k := String.length ds in
  if (e <? k)%nat then
    if (k - e <=? 21)%nat then take (k - e) ds ++ "." ++ drop (k - e) ds
    else exponential ds (Z.of_nat (k - e) - 1)
  else if (e - k <? 6)%nat then "0." ++ zeros (e - k) ++ ds
  else exponential ds (Z.of_nat k - Z.of_nat e - 1).

Definition fraction_text (m : Z) (e : nat) : string :=
  (if (m <? 0)%Z then "-" else "") ++ fraction_digits (string_of_Z (Z.abs m)) e.

(** [String(x)] *)
Definition number_to_string (x : number) : string :=
  let y := normalize x in
  match scale y with
  | O => string_of_Z (mantissa y)
  | S _ => fraction_text (mantissa y) (scale y)
  end.

(** The value of a run of digits in the base [base], if every character is
    a digit of that base *)
Fixpoint radix_value (base : nat) (acc : Z) (s : string) : option Z :=
  match s with
  | EmptyString => Some acc
  | String c r =>
      match hex_value c with
      | Some v =>
          if (v <? base)%nat
          then radix_value base (acc * Z.of_nat base + Z.of_nat v)%Z r
          else None
      | None => None
      end
  end.

(** A literal with a radix prefix: [0x], [0o] or [0b] and at least one digit *)
Definition radix_literal (t : string) : option Z :=
  match t with
  | String "0" (String p r) =>
      let base :=
        if (p =? "x")%char || (p =? "X")%char then 16
        else if (p =? "o")%char || (p =? "O")%char then 8
        else if (p =? "b")%char || (p =? "B")%char then 2
        else 0 in
      if (0 <? base)%nat && nonempty r then radix_value base 0%Z r else None
  | _ => None
  end.

(** A decimal literal that is the whole text: a sign, digits with or without
    a point, an exponent *)
Definition decimal_literal (t : string) : option number :=
  let (neg, body) :=
    match t with
    | String "-" r => (true, r)
    | String "+" r => (false, r)
    | _ => (false, t)
    end in
  let (int, r1) := span_digits body in
  let (frac, r2) := fraction_part r1 in
  if negb (nonempty int) && negb (nonempty frac) then None
  else match exponent_part r2 with
       | Some (x, EmptyString) => Some (decimal neg int frac x)
       | _ => None
       end.

(** [Number(s)]: surrounding white space is dropped, the empty string is 0,
    a literal is its value; any other text is NaN ([None]). *)
Definition string_to_number (s : string) : option number :=
  match trim s with
  | EmptyString => Some (of_Z 0)
  | t =>
      match radix_literal t with
      | Some n => Some (of_Z n)
      | None => decimal_literal t
      end
  end.

(** ** Values *)

Unset Elimination Schemes.

Inductive json : Type :=
| JNull
| JBool (b : bool)
| JNum (x : number)
| JStr (s : string)
| JArr (items : list json)
| JObj (fields : list (string * json)).

Set Elimination Schemes.

(** A possibly [undefined] value *)
Definition value := option json.

Fixpoint lookup {A : Type} (k : string) (fields : list (string * A)) : option A :=
  match fields with
  | [] => None
  | (k', v) :: rest => if (k' =? k) then Some v else lookup k rest
  end.

Fixpoint remove_key {A : Type} (k : string) (fields : list (string * A))
  : list (string * A) :=
  match fields with
  | [] => []
  | (k', v) :: rest =>
      if (k' =? k) then remove_key k rest else (k', v) :: remove_key k rest
  end.

Definition truthy (v : json) : bool :=
  match v with
  | JNull => false
  | JBool b => b
  | JNum x => negb (mantissa x =? 0)%Z
  | JStr s => nonempty s
  | JArr _ => true
  | JObj _ => true
  end.

Definition truthy_value (v : value) : bool :=
  match v with Some j => truthy j | None => false end.

(** [a || b] *)
Definition or_else (a b : value) : value :=
  if truthy_value a then a else b.

Definition is_string (v : value) : bool :=
  match v with Some (JStr _) => true | _ => false end.

Definition is_number (v : value) : bool :=
  match v with Some (JNum _) => true | _ => false end.

(** [typeof v === "object"] *)
Definition is_object_type (v : value) : bool :=
  match v with
  | Some JNull | Some (JArr _) | Some (JObj _) => true
  | _ => false
  end.

(** [String(v)].  Inside [Array.prototype.join] a [null] element is the empty
    string, which is [join_item]. *)
Fixpoint to_String (v : json) : string :=
  match v with
  | JNull => "null"
  | JBool true => "true"
  | JBool false => "false"
  | JNum x => number_to_string x
  | JStr s => s
  | JArr items =>
      join ","
        ((fix items_text (l : list json) : list string :=
            match l with
            | [] => []
            | JNull :: r => "" :: items_text r
            | x :: r => to_String x :: items_text r
            end) items)
  | JObj _ => "[object Object]"
  end.

Definition join_item (v : json) : string :=
  match v with JNull => "" | _ => to_String v end.

(** [items.join(sep)] on values *)
Definition join_values (sep : string) (items : list json) : string :=
  join sep (map join_item items).

Definition value_to_String (v : value) : string :=
  match v with Some j => to_String j | None => "undefined" end.

(** [Number(v)]; [None] is NaN *)
Definition to_number (v : json) : option number :=
  match v with
  | JNull => Some (of_Z 0)
  | JBool b => Some (of_Z (if b then 1 else 0))
  | JNum x => Some x
  | JStr s => string_to_number s
  | JArr _ => string_to_number (to_String v)
  | JObj _ => None
  end.

(** [a === b] where [b] comes from another parse than [a]: two arrays or two
    objects are never the same reference. *)
Definition strict_equal (a : value) (b : value) : bool :=
  match a, b with
  | None, None => true
  | Some JNull, Some JNull => true
  | Some (JBool x), Some (JBool y) => Bool.eqb x y
  | Some (JNum x), Some (JNum y) => num_eqb x y
  | Some (JStr x), Some (JStr y) => (x =? y)
  | _, _ => false
  end.

(** [items.slice(0, n)] for an integer [n], which is the integer part of
    the bound: a negative [n] counts from the end. *)
Definition slice_to {A : Type} (n : Z) (items : list A) : list A :=
  if (n <? 0)%Z
  then firstn (Z.to_nat (Z.of_nat (length items) + n)) items
  else firstn (Z.to_nat n) items.

(** ** Exceptions *)

Inductive exn : Type :=
| TypeError
| Error (message : string).

Inductive result (A : Type) : Type :=
| Ok (a : A)
| Throw (e : exn).

Arguments Ok {A} a.
Arguments Throw {A} e.

Definition bind {A B : Type} (m : result A) (k : A -> result B) : result B :=
  match m with
  | Ok a => k a
  | Throw e => Throw e
  end.

(** [v.k] and [v[k]] *)
Definition get (v : json) (k : string) : result value :=
  match v with
  | JNull => Throw TypeError
  | JObj fields => Ok (lookup k fields)
  | _ => Ok None
  end.

(** [v.k] for a value known not to be [null] *)
Definition field (v : json) (k : string) : value :=
  match v with
  | JObj fields => lookup k fields
  | _ => None
  end.

(** [items.filter(p)] with a callback that may throw *)
Fixpoint filterM {A : Type} (p : A -> result bool) (items : list A)
  : result (list A) :=
  match items with
  | [] => Ok []
  | x :: rest =>
      bind (p x) (fun keep =>
      bind (filterM p rest) (fun rest' =>
      Ok (if keep then x :: rest' else rest')))
  end.

(** [items.some(p)] *)
Definition some {A : Type} (p : A -> bool) (items : list A) : bool :=
  existsb p items.

End Js.

Import Js.

Notation "x <- m ;; k" := (Js.bind m (fun x => k))
  (at level 61, m at next level, right associativity).

(* ################################################################# *)
(** * data-filter: [detectDataSource] and [filterData] *)

Module DataFilter.

(** [DataItem]: a record of a collection *)
Abbreviation DataItem := json.

Definition detectDataSource (intent : string) : string :=
  let lowerIntent := toLowerCase intent in
  let has := includes lowerIntent in
  if has "movie" || has "movies" ||
     has "film" || has "films" ||
     has "cinema" || has "browse" && has "movie" ||
     has "action" && (has "movie" || has "genre") ||
     has "genre" && has "movie"
  then "movies"
  else if has "testimonial" || has "testimonials" ||
          has "review" && negb (has "movie") ||
          has "customer feedback" || has "customer review"
  then "testimonials"
  else if has "actor" || has "actress" ||
          has "movie star" || has "celebrity actor"
  then "actors"
  else if has "director" || has "filmmaker" || has "directed by"
  then "directors"
  else if has "company website" || has "business website" ||
          has "our company" || has "our business" ||
          has "company's mission" || has "company's vision" ||
          has "our mission" || has "our vision" ||
          has "our services" || has "company's services"
  then "companies"
  else if (has "company" || has "business" || has "corporate") &&
          (has "mission" || has "vision" || has "about" || has "our")
  then "companies"
  else if (has " product" || has "products") &&
          negb (has "movie") && negb (has "film")
  then
    if has "company" || has "business"
    then if has "products for" || has "show me products"
         then "products"
         else "companies"
    else "products"
  else if has "company" || has "business" ||
          has "corporate" || has "mission" ||
          has "vision" || has "about us"
  then "companies"
  else if negb (has "movie") && negb (has "film") &&
          (has "trial" || has "sign up" ||
           has "software" || has "app" ||
           has "service" || has "tool")
  then "products"
  else "movies".

(** [String(item.k || "").toLowerCase().includes(needle)], the test shared by
    the location, industry and category filters. *)
Definition field_includes (k : string) (needle : string) (item : DataItem)
  : result bool :=
  v <- get item k ;;
  Ok (includes (toLowerCase (value_to_String (or_else v (Some (JStr ""))))) needle).

(** [f.toLowerCase()] on a truthy filter value: only a string has the
    method. *)
Definition lower_of (v : json) : result string :=
  match v with
  | JStr s => Ok (toLowerCase s)
  | _ => Throw TypeError
  end.

Definition year_matches (year : json) (item : DataItem) : result bool :=
  y1 <- get item "Year" ;;
  y2 <- (if truthy_value y1 then Ok y1 else get item "year") ;;
  let itemYear := or_else y1 y2 in
  let yearStr := take 4 (value_to_String (or_else itemYear (Some (JStr "")))) in
  Ok (match parseInt yearStr with
      | Some n => strict_equal (Some (JNum n)) (Some year)
      | None => false
      end).

Definition genre_matches (gLower : string) (item : DataItem) : result bool :=
  g1 <- get item "Genre" ;;
  g2 <- (if truthy_value g1 then Ok g1 else get item "genre") ;;
  let itemGenre := or_else (or_else g1 g2) (Some (JStr "")) in
  Ok (includes (toLowerCase (value_to_String itemGenre)) gLower).

Definition personas_matches (personasFilter : string) (item : DataItem)
  : result bool :=
  p <- get item "personas" ;;
  Ok (match or_else p (Some (JArr [])) with
      | Some (JArr ps) =>
          some (fun x => includes (toLowerCase (to_String x)) personasFilter) ps
      | other => includes (toLowerCase (value_to_String other)) personasFilter
      end).

(** [Array.isArray(v) ? v : [v]] *)
Definition as_array (v : value) : list json :=
  match v with
  | Some (JArr l) => l
  | Some x => [x]
  | None => [JNull]
  end.

Definition business_matches (item : DataItem) : result bool :=
  p <- get item "personas" ;;
  u <- get item "useCases" ;;
  let personas := or_else p (Some (JArr [])) in
  let useCases := or_else u (Some (JArr [])) in
  let allText :=
    toLowerCase (join_values " " (as_array personas ++ as_array useCases)) in
  Ok (includes allText "business").

(** One step of the loop over [Object.keys(otherFilters)] *)
Definition other_matches (key : string) (v : json) (item : DataItem)
  : result bool :=
  itemValue <- get item key ;;
  Ok (match v with
      | JStr s =>
          includes
            (toLowerCase (value_to_String (or_else itemValue (Some (JStr "")))))
            (toLowerCase (to_String v))
      | _ => strict_equal itemValue (Some v)
      end).

Fixpoint apply_other (others : list (string * json)) (filtered : list DataItem)
  : result (list DataItem) :=
  match others with
  | [] => Ok filtered
  | (key, v) :: rest =>
      match v with
      | JNull => apply_other rest filtered
      | _ =>
          filtered' <- filterM (other_matches key v) filtered ;;
          apply_other rest filtered'
      end
  end.

(** The keys taken out of the spread object by the destructuring pattern *)
Definition otherFilters (filters : list (string * json)) : list (string * json) :=
  remove_key "limit"
    (remove_key "category"
       (remove_key "location" (remove_key "genre" (remove_key "year" filters)))).

(** The filters of a collection followed by the declared ones: the value of
    [filtered] when the code reaches the limit test. *)
Definition applyFilters (dataSource : string) (filters : list (string * json))
  (allData : list DataItem) : result (list DataItem) :=
  let year := lookup "year" filters in
  let genre := lookup "genre" filters in
  let location := lookup "location" filters in
  let category := lookup "category" filters in
  let others := otherFilters filters in
  filtered <-
    (if dataSource =? "movies" then
       f1 <- match year with
             | Some y => if truthy y then filterM (year_matches y) allData
                         else Ok allData
             | None => Ok allData
             end ;;
       match genre with
       | Some g =>
           if truthy g then
             gLower <- lower_of g ;;
             filterM (genre_matches gLower) f1
           else Ok f1
       | None => Ok f1
       end
     else if dataSource =? "companies" then
       f1 <- match location with
             | Some l =>
                 if truthy l then
                   match l with
                   | JStr s =>
                       if negb (trim s =? "")
                       then filterM (field_includes "location" (trim (toLowerCase s))) allData
                       else Ok allData
                   | _ => Throw TypeError
                   end
                 else Ok allData
             | None => Ok allData
             end ;;
       match lookup "industry" others with
       | Some (JStr s) =>
           if nonempty s
           then filterM (field_includes "industry" (toLowerCase s)) f1
           else Ok f1
       | _ => Ok f1
       end
     else if dataSource =? "products" then
       f1 <- match category with
             | Some c =>
                 if truthy c then
                   catLower <- lower_of c ;;
                   filterM (field_includes "category" catLower) allData
                 else Ok allData
             | None => Ok allData
             end ;;
       f2 <- match lookup "personas" filters with
             | Some p =>
                 if truthy p
                 then filterM (personas_matches (toLowerCase (to_String p))) f1
                 else Ok f1
             | None => Ok f1
             end ;;
       if truthy_value (lookup "business" filters) ||
          match lookup "personas" filters with
          | Some (JStr s) => includes (toLowerCase s) "business"
          | _ => false
          end
       then filterM business_matches f2
       else Ok f2
     else if (dataSource =? "actors") || (dataSource =? "directors") then
       match location with
       | Some l =>
           if truthy l then
             locLower <- lower_of l ;;
             filterM (field_includes "location" locLower) allData
           else Ok allData
       | None => Ok allData
       end
     else Ok allData) ;;
  apply_other others filtered.

(** [filtered.length > limit] *)
Definition length_exceeds {A : Type} (items : list A) (limit : json) : bool :=
  match to_number limit with
  | Some x => num_ltb x (of_Z (Z.of_nat (length items)))
  | None => false
  end.

(** [items.slice(0, limit)]: a limit that is NaN is 0. *)
Definition slice_limit {A : Type} (limit : json) (items : list A) : list A :=
  match to_number limit with
  | Some x => slice_to (trunc x) items
  | None => []
  end.

(** [filterData(dataSource, filters, dataRoot)], where [allData] is what
    [loadData(dataSource, dataRoot)] returned. *)
Definition filterData (dataSource : string) (filters : list (string * json))
  (allData : list DataItem) : result (list DataItem) :=
  let limit := lookup "limit" filters in
  filtered <- applyFilters dataSource filters allData ;;
  let filtered :=
    match limit with
    | Some l =>
        if truthy l && length_exceeds filtered l
        then slice_limit l filtered
        else filtered
    | None => filtered
    end in
  if (length filtered =? 0)%nat && (0 <? length allData)%nat
  then Ok (slice_limit (match or_else limit (Some (JNum 100)) with
                        | Some l => l
                        | None => JNum 100
                        end) allData)
  else Ok filtered.

End DataFilter.

(* ################################################################# *)
(** * Regular expressions

    A backtracking matcher for the fragment the sources use.  [run r prev s]
    lists, in the order in which a backtracking engine tries them, the places
    where a match of [r] that starts in front of [s] can end; [prev] is the
    character in front of [s], which [\b] and [^] look at.  The first element
    is the match JavaScript reports. *)

Module Regex.

Inductive regex : Type :=
| Eps
| Chr (p : ascii -> bool)         (* one character of a class *)
| Seq (r1 r2 : regex)
| Alt (r1 r2 : regex)             (* r1|r2 *)
| Many (p : ascii -> bool)        (* [p]*  *)
| ManyLazy (p : ascii -> bool)    (* [p]*? *)
| WordB                           (* \b *)
| Bol (multiline : bool)          (* ^ *)
| Eol (multiline : bool)          (* $ *)
| Ahead (r : regex).              (* (?=r) *)

Definition place : Type := option ascii * string.

Definition is_line_end (c : ascii) : bool :=
  (c =? "010")%char || (c =? "013")%char.

Definition word_before (prev : option ascii) : bool :=
  match prev with Some c => is_word c | None => false end.

Definition word_after (s : string) : bool :=
  match s with String c _ => is_word c | EmptyString => false end.

Fixpoint many (p : ascii -> bool) (prev : option ascii) (s : string)
  : list place :=
  match s with
  | String c s' =>
      if p c then many p (Some c) s' ++ [(prev, s)] else [(prev, s)]
  | EmptyString => [(prev, s)]
  end.

Fixpoint many_lazy (p : ascii -> bool) (prev : option ascii) (s : string)
  : list place :=
  match s with
  | String c s' =>
      (prev, s) :: (if p c then many_lazy p (Some c) s' else [])
  | EmptyString => [(prev, s)]
  end.

Fixpoint run (r : regex) (prev : option ascii) (s : string) : list place :=
  match r with
  | Eps => [(prev, s)]
  | Chr p =>
      match s with
      | String c s' => if p c then [(Some c, s')] else []
      | EmptyString => []
      end
  | Seq r1 r2 =>
      flat_map (fun pl : place => run r2 (fst pl) (snd pl)) (run r1 prev s)
  | Alt r1 r2 => run r1 prev s ++ run r2 prev s
  | Many p => many p prev s
  | ManyLazy p => many_lazy p prev s
  | WordB => if xorb (word_before prev) (word_after s) then [(prev, s)] else []
  | Bol multiline =>
      match prev with
      | None => [(prev, s)]
      | Some c => if multiline && is_line_end c then [(prev, s)] else []
      end
  | Eol multiline =>
      match s with
      | EmptyString => [(prev, s)]
      | String c _ => if multiline && is_line_end c then [(prev, s)] else []
      end
  | Ahead r' =>
      match run r' prev s with
      | [] => []
      | _ :: _ => [(prev, s)]
      end
  end.

(** Builders *)

Definition Opt (r : regex) : regex := Alt r Eps.            (* r? *)
Definition Plus (p : ascii -> bool) : regex := Seq (Chr p) (Many p).  (* [p]+ *)
Definition chr (c : ascii) : regex := Chr (Ascii.eqb c).
(** a character of an expression with the [i] flag *)
Definition chr_i (c : ascii) : regex :=
  Chr (fun x => Ascii.eqb (lower_char x) (lower_char c)).

Fixpoint lit (s : string) : regex :=
  match s with
  | EmptyString => Eps
  | String c EmptyString => chr c
  | String c s' => Seq (chr c) (lit s')
  end.

Fixpoint lit_i (s : string) : regex :=
  match s with
  | EmptyString => Eps
  | String c EmptyString => chr_i c
  | String c s' => Seq (chr_i c) (lit_i s')
  end.

Fixpoint seqs (rs : list regex) : regex :=
  match rs with
  | [] => Eps
  | [r] => r
  | r :: rest => Seq r (seqs rest)
  end.

Fixpoint alts (rs : list regex) : regex :=
  match rs with
  | [] => Chr (fun _ => false)
  | [r] => r
  | r :: rest => Alt r (alts rest)
  end.

(** The text consumed between [s] and a later place [s'] *)
Definition consumed (s s' : string) : string :=
  take (String.length s - String.length s') s.

(** A match that starts exactly in front of [s] *)
Definition match_here (r : regex) (prev : option ascii) (s : string)
  : option string :=
  match run r prev s with
  | [] => None
  | (_, s') :: _ => Some (consumed s s')
  end.

(** [s.match(r)] without the [g] flag: the text of the leftmost match *)
Fixpoint search_from (r : regex) (prev : option ascii) (s : string)
  : option string :=
  match match_here r prev s with
  | Some m => Some m
  | None =>
      match s with
      | String c s' => search_from r (Some c) s'
      | EmptyString => None
      end
  end.

Definition search (r : regex) (s : string) : option string :=
  search_from r None s.

(** [r.test(s)] *)
Definition test (r : regex) (s : string) : bool :=
  match search r s with Some _ => true | None => false end.

(** [s.match(r)] with the [g] flag: the successive matches, each search
    resuming where the previous match ended (one character further after an
    empty match).  [skip] counts the characters still covered by the last
    match. *)
Fixpoint match_all_from (r : regex) (prev : option ascii) (s : string)
  (skip : nat) : list string :=
  match skip with
  | S k =>
      match s with
      | String c s' => match_all_from r (Some c) s' k
      | EmptyString => []
      end
  | O =>
      match match_here r prev s with
      | Some m =>
          m :: match s with
               | String c s' => match_all_from r (Some c) s' (String.length m - 1)
               | EmptyString => []
               end
      | None =>
          match s with
          | String c s' => match_all_from r (Some c) s' 0
          | EmptyString => []
          end
      end
  end.

Definition match_all (r : regex) (s : string) : list string :=
  match_all_from r None s 0.

(** [s.replace(r, "")] with the [g] flag *)
Fixpoint remove_all_from (r : regex) (prev : option ascii) (s : string)
  (skip : nat) : string :=
  match skip with
  | S k =>
      match s with
      | String c s' => remove_all_from r (Some c) s' k
      | EmptyString => EmptyString
      end
  | O =>
      match s with
      | String c s' =>
          match match_here r prev s with
          | Some EmptyString | None => String c (remove_all_from r (Some c) s' 0)
          | Some m => remove_all_from r (Some c) s' (String.length m - 1)
          end
      | EmptyString => EmptyString
      end
  end.

Definition remove_all (r : regex) (s : string) : string :=
  remove_all_from r None s 0.

(** The first capture group of [pre(grp)post] matched in front of [s] *)
Definition group_here (pre grp post : regex) (prev : option ascii) (s : string)
  : option string :=
  match
    flat_map (fun a : place =>
      flat_map (fun b : place =>
        map (fun _ : place => consumed (snd a) (snd b)) (run post (fst b) (snd b)))
        (run grp (fst a) (snd a)))
      (run pre prev s)
  with
  | [] => None
  | g :: _ => Some g
  end.

Fixpoint search_group_from (pre grp post : regex) (prev : option ascii)
  (s : string) : option string :=
  match group_here pre grp post prev s with
  | Some g => Some g
  | None =>
      match s with
      | String c s' => search_group_from pre grp post (Some c) s'
      | EmptyString => None
      end
  end.

Definition search_group (pre grp post : regex) (s : string) : option string :=
  search_group_from pre grp post None s.

End Regex.

(* ################################################################# *)
(** * intent-analyzer: [analyzeIntent] *)

Module IntentAnalyzer.

Import Regex.

Record IntentAnalysisResult : Type := {
  dataSource : string;
  filters : json;
  limit : number
}.

Definition validSources : list string :=
  ["movies"; "companies"; "products"; "actors"; "directors"; "testimonials"].

(** [/\b(19|20)\d{2}\b/] *)
Definition yearPattern : regex :=
  seqs [WordB; Alt (lit "19") (lit "20"); Chr is_digit; Chr is_digit; WordB].

Definition genres : list string :=
  ["action"; "sci-fi"; "science fiction"; "drama"; "comedy"; "horror"].

(** [/(?:in|from|at|located in)\s+([A-Z][a-z]+(?:\s+[A-Z][a-z]+)?(?:\s*,\s*[A-Z][a-z]+)?)/i]:
    what stands in front of the group, and the group. *)
Definition locationLead : regex :=
  Seq (alts [lit_i "in"; lit_i "from"; lit_i "at"; lit_i "located in"])
      (Plus is_space).

Definition locationName : regex :=
  seqs [Chr is_alpha; Plus is_alpha;
        Opt (seqs [Plus is_space; Chr is_alpha; Plus is_alpha]);
        Opt (seqs [Many is_space; chr ","; Many is_space;
                   Chr is_alpha; Plus is_alpha])].

(** [/(Delhi|Mumbai|...|Paris)/i] *)
Definition cityPattern : regex :=
  alts (map lit_i
    ["Delhi"; "Mumbai"; "Bangalore"; "Pune"; "Hyderabad"; "Chennai";
     "Kolkata"; "New York"; "San Francisco"; "London"; "Paris"]).

(** The [catch] block: the heuristic extraction *)
Definition heuristicAnalysis (userIntent : string) : IntentAnalysisResult :=
  let intent := toLowerCase userIntent in
  let year : option Z :=
    match search yearPattern intent with
    | Some m => parseInt m
    | None => None
    end in
  let genre : option string :=
    match find (fun g => includes intent g) genres with
    | Some g => Some (if g =? "science fiction" then "sci-fi" else g)
    | None => None
    end in
  let location : option string :=
    match search_group locationLead locationName Eps intent with
    | Some g => Some g
    | None => search cityPattern intent
    end in
  let yearField :=
    match year with
    | Some y => if (y =? 0)%Z then [] else [("year", JNum y)]
    | None => []
    end in
  let genreField :=
    match genre with
    | Some g => if nonempty g then [("genre", JStr g)] else []
    | None => []
    end in
  let locationField :=
    match location with
    | Some l => if nonempty l then [("location", JStr l)] else []
    | None => []
    end in
  {| dataSource := DataFilter.detectDataSource userIntent;
     filters := JObj (yearField ++ genreField ++ locationField);
     limit := 100%Z |}.

(** The initial value of [limit] *)
Definition acceptedLimit (pl : value) : number :=
  match pl with
  | Some (JNum x) => if num_ltb 0%Z x && num_leb x 500%Z then x else 100%Z
  | _ => 100%Z
  end.

(** The first correction: a request for "all" with a limit under 50 *)
Definition raiseForAll (userIntentLower : string) (limit : number) : number :=
  if (includes userIntentLower "all" ||
      includes userIntentLower "all data" ||
      includes userIntentLower "all companies" ||
      includes userIntentLower "all products" ||
      includes userIntentLower "show all" ||
      includes userIntentLower "all services") &&
     num_ltb limit 50%Z
  then 100%Z else limit.

(** The second correction: a limit of 1 that the request does not ask for *)
Definition raiseForSingle (userIntentLower : string) (limit : number) : number :=
  if num_eqb limit 1%Z &&
     negb (includes userIntentLower "one") &&
     negb (includes userIntentLower "single") &&
     negb (includes userIntentLower "just one")
  then 100%Z else limit.

(** The check of [filters.location] against the request *)
Definition checkLocation (userIntentLower : string) (filters : json) : json :=
  match field filters "location", filters with
  | Some l, JObj fields =>
      if truthy l then
        let locationValue := toLowerCase (to_String l) in
        let hasLocationKeywords :=
          includes userIntentLower "in " ||
          includes userIntentLower "from " ||
          includes userIntentLower "located" ||
          includes userIntentLower "at " in
        if negb (includes userIntentLower locationValue) && negb hasLocationKeywords
        then JObj (remove_key "location" fields)
        else filters
      else filters
  | _, _ => filters
  end.

(** The statements of the [try] block that follow [JSON.parse] *)
Definition interpretReply (userIntent : string) (parsed : json)
  : result IntentAnalysisResult :=
  let detectedSource := DataFilter.detectDataSource userIntent in
  pf <- get parsed "filters" ;;
  let filters : json :=
    match pf with
    | Some f => if truthy f && is_object_type pf then f else JObj []
    | None => JObj []
    end in
  pl <- get parsed "limit" ;;
  let userIntentLower := toLowerCase userIntent in
  let limit : number :=
    raiseForSingle userIntentLower
      (raiseForAll userIntentLower (acceptedLimit pl)) in
  pd <- get parsed "dataSource" ;;
  let dataSource : string :=
    match pd with
    | Some (JStr s) => if existsb (String.eqb s) validSources then s else detectedSource
    | _ => detectedSource
    end in
  Ok {| dataSource := dataSource;
        filters := checkLocation userIntentLower filters;
        limit := limit |}.

(** [analyzeIntent(userIntent, provider)].  [reply] is what [JSON.parse]
    returned for the model's reply; it is [None] when the [try] block threw
    before that: no credentials, a failed call, a reply that is not JSON. *)
Definition analyzeIntent (userIntent : string) (reply : option json)
  : IntentAnalysisResult :=
  match reply with
  | Some parsed =>
      match interpretReply userIntent parsed with
      | Ok r => r
      | Throw _ => heuristicAnalysis userIntent
      end
  | None => heuristicAnalysis userIntent
  end.

End IntentAnalyzer.

(* ################################################################# *)
(** * data-source-verifier: [verifyDataSource] *)

(** What an awaited [client.messages.create] produced: the call threw, or it
    returned a message whose first content block is a text block ([Some]) or
    is not ([None]). *)
Inductive ModelOutcome : Type :=
| CallFailed (e : exn)
| Replied (text : option string).

Module DataSourceVerifier.

Definition verifyDataSource (detectedSource userIntent : string)
  (availableSources : list string) (outcome : ModelOutcome) : string :=
  match outcome with
  | CallFailed _ => detectedSource
  | Replied content =>
      let text := match content with Some t => trim t | None => "" end in
      if includes (toUpperCase text) "CORRECT" ||
         (toLowerCase text =? toLowerCase detectedSource)
      then detectedSource
      else
        let lowerText := toLowerCase text in
        match find (fun source => includes lowerText (toLowerCase source))
                   availableSources with
        | Some source => source
        | None => detectedSource
        end
  end.

End DataSourceVerifier.

(* ################################################################# *)
(** * architecture-planner: [planArchitecture] *)

Module ArchitecturePlanner.

Import Regex.

Inductive FileKind : Type := page | asset | script | style | data.

Record PlannedFile : Type := {
  fileName : string;
  purpose : string;
  kind : FileKind
}.

Definition ArchitecturePlan := list PlannedFile.

Definition words (ws : list string) : regex :=
  seqs [WordB; alts (map lit ws); WordB].

(** [/\b(portfolio|company|...|team|testimonials)\b/] *)
Definition anyPageWord : regex :=
  words ["portfolio"; "company"; "business"; "multi-page"; "website"; "about";
         "contact"; "products"; "services"; "mission"; "vision"; "team";
         "testimonials"].

(** [/\b(portfolio|company|business|multi-page|website)\b/] *)
Definition siteWord : regex :=
  words ["portfolio"; "company"; "business"; "multi-page"; "website"].

(** [/\b(about|contact|products|services|mission|vision)\b/g] *)
Definition sectionWord : regex :=
  words ["about"; "contact"; "products"; "services"; "mission"; "vision"].

Definition isSimpleRequest (intentLower : string) : bool :=
  negb (test anyPageWord intentLower).

Definition isComplexRequest (intentLower : string) : bool :=
  test siteWord intentLower ||
  (2 <=? length (match_all sectionWord intentLower))%nat.

Definition requestedPages (intentLower : string) : list string :=
  let has := includes intentLower in
  (if has "about" || has "mission" || has "vision" then ["about.html"] else []) ++
  (if has "product" || has "service" || has "browse" then ["browse.html"] else []) ++
  (if has "detail" || has "individual" then ["details.html"] else []) ++
  (if has "contact" then ["contact.html"] else []).

(** [f.fileName === page] for an entry that is not [null] *)
Definition named (page : string) (f : json) : bool :=
  match f with
  | JObj fields => strict_equal (lookup "fileName" fields) (Some (JStr page))
  | _ => false
  end.

Definition pagePurpose (page : string) : string :=
  if page =? "about.html" then "About page with mission and vision"
  else if page =? "browse.html" then "Browse page for products/services"
  else if page =? "details.html" then "Detail pages for individual items"
  else "Contact page with location and email".

(** The loop that pushes the missing pages onto [parsed.files] *)
Fixpoint addPages (missing : list string) (files : list json) : list json :=
  match missing with
  | [] => files
  | p :: rest =>
      addPages rest
        (if negb (some (named p) files)
         then files ++ [JObj [("fileName", JStr p);
                              ("purpose", JStr (pagePurpose p));
                              ("kind", JStr "page")]]
         else files)
  end.

Definition withRequestedPages (intent : string) (files : list json) : list json :=
  let intentLower := toLowerCase intent in
  if negb (isSimpleRequest intentLower) then
    let requested := requestedPages intentLower in
    if isComplexRequest intentLower && (0 <? length requested)%nat then
      let missingPages :=
        filter (fun p => negb (some (named p) files)) requested in
      if (0 <? length missingPages)%nat then addPages missingPages files else files
    else files
  else files.

(** The [map] callback that builds a [PlannedFile] from an entry *)
Definition toPlannedFile (f : json) : PlannedFile :=
  {| fileName := value_to_String (field f "fileName");
     purpose := value_to_String (or_else (field f "purpose") (Some (JStr "Generated file")));
     kind := match field f "kind" with
             | Some (JStr k) =>
                 if k =? "page" then page
                 else if k =? "asset" then asset
                 else if k =? "script" then script
                 else if k =? "style" then style
                 else asset
             | _ => asset
             end |}.

Definition isCode (f : PlannedFile) : bool :=
  endsWith (fileName f) ".html" || endsWith (fileName f) ".js".

Definition ensureFile (name purpose : string) (kind : FileKind)
  (files : list PlannedFile) : list PlannedFile :=
  if negb (some (fun f => fileName f =? name) files)
  then files ++ [{| fileName := name; purpose := purpose; kind := kind |}]
  else files.

Definition indexPurpose : string :=
  "Home/landing page listing content with search and filters".
Definition scriptPurpose : string :=
  "Client-side interactions, search, filters, and data rendering".

(** The plan of the [catch] block *)
Definition minimalPlan : ArchitecturePlan :=
  [ {| fileName := "index.html"; purpose := indexPurpose; kind := page |};
    {| fileName := "app.js"; purpose := scriptPurpose; kind := script |} ].

Fixpoint mapM {A B : Type} (f : A -> result B) (l : list A) : result (list B) :=
  match l with
  | [] => Ok []
  | x :: rest =>
      y <- f x ;;
      ys <- mapM f rest ;;
      Ok (y :: ys)
  end.

(** The statements of the [try] block that follow [JSON.parse] *)
Definition planFromReply (intent : string) (parsed : json)
  : result ArchitecturePlan :=
  pfiles <- get parsed "files" ;;
  match pfiles with
  | Some (JArr files) =>
      (* the log line reads [f.fileName] of every entry *)
      _ <- mapM (fun f => get f "fileName") files ;;
      let files := withRequestedPages intent files in
      let planned := filter isCode (map toPlannedFile files) in
      Ok (ensureFile "app.js" scriptPurpose script
            (ensureFile "index.html" indexPurpose page planned))
  | _ => Throw (Error "Invalid architecture response: missing files array")
  end.

(** [planArchitecture(intent, filteredData, dataSource, provider)].  The data
    sample is built in front of the [try] block and reads properties of each
    of the first 30 records, which throws on a [null] record.  [reply] is what
    [JSON.parse] returned for the model's reply, [None] when the [try] block
    threw before that. *)
Definition planArchitecture (intent : string) (filteredData : list json)
  (reply : option json) : result ArchitecturePlan :=
  _ <- mapM (fun item => get item "id") (firstn 30 filteredData) ;;
  match reply with
  | Some parsed =>
      match planFromReply intent parsed with
      | Ok plan => Ok plan
      | Throw _ => Ok minimalPlan
      end
  | None => Ok minimalPlan
  end.

(** Number of entries of a plan that carry a given file name *)
Definition occurrences (name : string) (plan : ArchitecturePlan) : nat :=
  length (filter (fun f => fileName f =? name) plan).

(** The entries of the reply's [files] array, as the planner's [map] callback
    reads them *)
Definition listedFiles (reply : option json) : list PlannedFile :=
  match reply with
  | Some (JObj fields) =>
      match lookup "files" fields with
      | Some (JArr files) => map toPlannedFile files
      | _ => []
      end
  | _ => []
  end.

End ArchitecturePlanner.

(* ################################################################# *)
(** * The file system *)

Module Fs.

(** Files by path, the latest write first, and the directories.  A path in
    [unreadable] makes a read fail, one in [unwritable] makes a write fail.
    A file is named by the normal form of its path, which is what [join]
    gives: the sources build every path they use with [path.join]. *)
Record Disk : Type := {
  files : list (string * string);
  dirs : list string;
  unreadable : list string;
  unwritable : list string
}.

(** The segments of a path: the texts between its slashes, [cur] being the
    part of the segment read so far *)
Fixpoint segments (cur : string) (p : string) : list string :=
  match p with
  | EmptyString => [cur]
  | String c r =>
      if (c =? "/")%char then cur :: segments EmptyString r
      else segments (cur ++ String c EmptyString) r
  end.

(** One step of the normalisation, the segments kept so far being listed
    last first: an empty segment and [.] are dropped, [..] takes back the
    last segment, and is kept itself where there is none to take back and
    the path is relative. *)
Definition resolve (allowAboveRoot : bool) (kept : list string) (seg : string)
  : list string :=
  if (seg =? "") || (seg =? ".") then kept
  else if seg =? ".." then
    match kept with
    | last :: before =>
        if last =? ".." then seg :: kept else before
    | [] => if allowAboveRoot then [seg] else []
    end
  else seg :: kept.

(** [path.normalize(p)] of the POSIX flavour *)
Definition normalize (p : string) : string :=
  match p with
  | EmptyString => "."
  | String first _ =>
      let isAbsolute := (first =? "/")%char in
      let trailingSeparator := endsWith p "/" in
      let body :=
        String.concat "/"
          (rev (fold_left (resolve (negb isAbsolute)) (segments EmptyString p) [])) in
      match body with
      | EmptyString =>
          if isAbsolute then "/" else if trailingSeparator then "./" else "."
      | _ =>
          (if isAbsolute then "/" else "") ++ body ++
          (if trailingSeparator then "/" else "")
      end
  end.

(** [path.join(a, b)] of the POSIX flavour: the arguments that are not empty,
    a slash between them, normalised *)
Definition join (a b : string) : string :=
  match a, b with
  | EmptyString, EmptyString => "."
  | EmptyString, _ => normalize b
  | _, EmptyString => normalize a
  | _, _ => normalize (a ++ "/" ++ b)
  end.

Definition listed (p : string) (l : list string) : bool :=
  existsb (String.eqb p) l.

Definition existsSync (d : Disk) (p : string) : bool :=
  match lookup p (files d) with
  | Some _ => true
  | None => listed p (dirs d)
  end.

Definition readFileSync (d : Disk) (p : string) : result string :=
  if listed p (unreadable d) then Throw (Error "EACCES: permission denied")
  else match lookup p (files d) with
       | Some c => Ok c
       | None => Throw (Error "ENOENT: no such file or directory")
       end.

(** [fs.writeFileSync(p, content)].  The directory of the file is not looked
    for: a write into a directory that is missing succeeds in the model. *)
Definition writeFileSync (d : Disk) (p : string) (content : string)
  : result Disk :=
  if listed p (unwritable d) then Throw (Error "EACCES: permission denied")
  else Ok {| files := (p, content) :: files d;
             dirs := dirs d;
             unreadable := unreadable d;
             unwritable := unwritable d |}.

(** [fs.mkdirSync(p, { recursive: true })] *)
Definition mkdirSync (d : Disk) (p : string) : result Disk :=
  if listed p (unwritable d) then Throw (Error "EACCES: permission denied")
  else Ok {| files := files d;
             dirs := p :: dirs d;
             unreadable := unreadable d;
             unwritable := unwritable d |}.

End Fs.

(* ################################################################# *)
(** * website-validator: [validateAndFixWebsite] *)

Module WebsiteValidator.

Import Regex.

Record ValidationResult : Type := {
  hasIssues : bool;
  issues : list json;
  fixedFiles : list string
}.

Definition noIssues : ValidationResult :=
  {| hasIssues := false; issues := []; fixedFiles := [] |}.

Definition newline : ascii := "010"%char.

(** [/^```[\w]*\n?/gm] *)
Definition openingFence : regex :=
  seqs [Bol true; lit "```"; Many is_word; Opt (chr newline)].

(** [/\n?```$/gm] *)
Definition closingFence : regex :=
  seqs [Opt (chr newline); lit "```"; Eol true].

Definition cleanCode (fixedCode : string) : string :=
  let code := trim fixedCode in
  if includes code "```"
  then trim (remove_all closingFence (remove_all openingFence code))
  else code.

(** The loop in front of the [try] block that fills [fileContents] *)
Fixpoint readGenerated (d : Fs.Disk) (projectDir : string)
  (generatedFiles : list (string * string)) : result (list (string * string)) :=
  match generatedFiles with
  | [] => Ok []
  | (name, _) :: rest =>
      let filePath := Fs.join projectDir name in
      if Fs.existsSync d filePath then
        content <- Fs.readFileSync d filePath ;;
        more <- readGenerated d projectDir rest ;;
        Ok ((name, content) :: more)
      else readGenerated d projectDir rest
  end.

(** The state of the [for] loop over the issues: the disk, the number of fix
    calls made so far, and [fixedFiles]. *)
Record Progress : Type := {
  disk : Fs.Disk;
  calls : nat;
  fixed : list string
}.

(** [generatedFiles.find((f) => f.fileName === issue.fileName)] *)
Definition findFile (generatedFiles : list (string * string)) (fileName : value)
  : option string :=
  match fileName with
  | Some (JStr n) =>
      if existsb (fun f : string * string => fst f =? n) generatedFiles
      then Some n else None
  | _ => None
  end.

(** One iteration.  On an exception the disk keeps the writes made before. *)
Definition fixIssue (projectDir : string) (generatedFiles : list (string * string))
  (fixReplies : nat -> ModelOutcome) (issue : json) (st : Progress)
  : Progress * result unit :=
  match get issue "severity" with
  | Throw e => (st, Throw e)
  | Ok severity =>
      if strict_equal severity (Some (JStr "error")) then
        match findFile generatedFiles (field issue "fileName") with
        | None => (st, Ok tt)
        | Some name =>
            (* [issue.issue.toLowerCase()] *)
            match field issue "issue" with
            | Some (JStr _) =>
                let st1 :=
                  {| disk := disk st; calls := S (calls st); fixed := fixed st |} in
                match fixReplies (calls st) with
                | CallFailed e => (st1, Throw e)
                | Replied content =>
                    let fixedCode := match content with Some t => t | None => "" end in
                    match Fs.writeFileSync (disk st) (Fs.join projectDir name)
                            (cleanCode fixedCode) with
                    | Throw e => (st1, Throw e)
                    | Ok d' =>
                        ({| disk := d'; calls := S (calls st);
                            fixed := fixed st ++ [name] |}, Ok tt)
                    end
                end
            | _ => (st, Throw TypeError)
            end
        end
      else (st, Ok tt)
  end.

Fixpoint fixIssues (projectDir : string) (generatedFiles : list (string * string))
  (fixReplies : nat -> ModelOutcome) (todo : list json) (st : Progress)
  : Progress * result unit :=
  match todo with
  | [] => (st, Ok tt)
  | issue :: rest =>
      match fixIssue projectDir generatedFiles fixReplies issue st with
      | (st', Ok _) => fixIssues projectDir generatedFiles fixReplies rest st'
      | (st', Throw e) => (st', Throw e)
      end
  end.

(** The [try] block.  [review] is what [JSON.parse] returned for the reply of
    the review call, [None] when the call or the parse threw. *)
Definition review_and_fix (d : Fs.Disk) (projectDir : string)
  (generatedFiles : list (string * string)) (review : option json)
  (fixReplies : nat -> ModelOutcome) : Fs.Disk * result ValidationResult :=
  match review with
  | None => (d, Throw (Error "review call or JSON.parse failed"))
  | Some (JArr found) =>
      match fixIssues projectDir generatedFiles fixReplies found
              {| disk := d; calls := 0; fixed := [] |} with
      | (st, Ok _) =>
          (disk st,
           Ok {| hasIssues := (0 <? length found)%nat;
                 issues := found;
                 fixedFiles := fixed st |})
      | (st, Throw e) => (disk st, Throw e)
      end
  | Some _ => (d, Throw (Error "Invalid validation response format"))
  end.

(** [validateAndFixWebsite(projectDir, generatedFiles, provider)], with the
    disk it leaves behind.  [client] stands for [getAnthropicClient] and
    [getDefaultModel], which run in front of the [try] block like the reads. *)
Definition validateAndFixWebsite (d : Fs.Disk) (projectDir : string)
  (generatedFiles : list (string * string)) (client : result unit)
  (review : option json) (fixReplies : nat -> ModelOutcome)
  : Fs.Disk * result ValidationResult :=
  match readGenerated d projectDir generatedFiles with
  | Throw e => (d, Throw e)
  | Ok _ =>
      match client with
      | Throw e => (d, Throw e)
      | Ok _ =>
          match review_and_fix d projectDir generatedFiles review fixReplies with
          | (d', Ok r) => (d', Ok r)
          | (d', Throw _) => (d', Ok noIssues)
          end
      end
  end.

(** The issues for which the loop asks the model for a fix: those marked
    "error" whose file is one of the generated files. *)
Definition fixable (generatedFiles : list (string * string)) (issue : json) : bool :=
  strict_equal (field issue "severity") (Some (JStr "error")) &&
  match findFile generatedFiles (field issue "fileName") with
  | Some _ => true
  | None => false
  end.

End WebsiteValidator.

(* ################################################################# *)
(** * vercel-deployer: [deployToVercel] *)

Module VercelDeployer.

Import Regex.

Record DeploymentResult : Type := {
  success : bool;
  deployedUrl : option string;
  error : option string
}.

(** What [execAsync] did: the command exited with status 0, or the promise was
    rejected with an error that carries the captured output. *)
Inductive ExecOutcome : Type :=
| Exited (stdout stderr : string)
| ExecFailed (message stdout stderr : string).

Definition quote : ascii := "034"%char.

(** [[a-z0-9-]] under the [i] flag *)
Definition hostChar (c : ascii) : bool :=
  is_alpha c || is_digit c || (c =? "-")%char.

(** [/https?:\/\/err\.sh\/[^\s]+/] *)
Definition errorUrlPattern : regex :=
  seqs [lit "http"; Opt (chr "s"); lit "://err.sh/";
        Plus (fun c => negb (is_space c))].

(** [/https?:\/\/[a-z0-9-]+\.vercel\.(app|com)/i] *)
Definition domainPattern : regex :=
  seqs [lit_i "http"; Opt (chr_i "s"); lit_i "://"; Plus hostChar;
        lit_i ".vercel."; Alt (lit_i "app") (lit_i "com")].

(** The characters of the look-ahead class: white space, the closing
    brackets, the two quotes, the comma and the full stop *)
Definition stopChar (c : ascii) : bool :=
  is_space c || (c =? ")")%char || (c =? "]")%char || (c =? "}")%char ||
  (c =? quote)%char || (c =? "'")%char || (c =? ",")%char || (c =? ".")%char.

(** The negated class of the optional path: anything but white space, the
    closing brackets, the two quotes and the comma *)
Definition pathChar (c : ascii) : bool :=
  negb (is_space c || (c =? ")")%char || (c =? "]")%char || (c =? "}")%char ||
        (c =? quote)%char || (c =? "'")%char || (c =? ",")%char).

(** The domain pattern followed by the look-ahead for a character of the
    class or the end of the text *)
Definition anchoredPattern : regex :=
  Seq domainPattern (Ahead (Alt (Chr stopChar) (Eol false))).

(** The domain pattern followed by an optional path: a slash and any number
    of characters of the negated class *)
Definition loosePattern : regex :=
  Seq domainPattern (Opt (Seq (chr "/") (Many pathChar))).

(** [/\.vercel\.(app|com)$/i] *)
Definition domainEnd : regex :=
  seqs [lit_i ".vercel."; Alt (lit_i "app") (lit_i "com"); Eol false].

(** [u.replace(/\/$/, "")] *)
Fixpoint dropTrailingSlash (u : string) : string :=
  match u with
  | EmptyString => EmptyString
  | String "/" EmptyString => EmptyString
  | String c rest => String c (dropTrailingSlash rest)
  end.

Definition findUrl (fullOutput : string) : option string :=
  match search anchoredPattern fullOutput with
  | Some m => Some m
  | None => search loosePattern fullOutput
  end.

(** The clean-up of a matched URL *)
Definition tidyUrl (found : string) : string :=
  let u := trim found in
  let u := if startsWith u "http" then u else ("https://" ++ u)%string in
  let u := dropTrailingSlash u in
  if test domainEnd u then u
  else match search domainPattern u with
       | Some clean => clean
       | None => u
       end.

Definition message_of (e : exn) : string :=
  match e with
  | Error m => m
  | TypeError => "TypeError"
  end.

Definition newline : string := String "010"%char EmptyString.

(** The outer [catch] block.  Every error that reaches it carries no captured
    output: it is the rejected [execAsync] error when both streams are empty,
    an error of the file system, or one thrown by the [try] block itself. *)
Definition failure (e : exn) : DeploymentResult :=
  let errorMessage := message_of e in
  let fullError := if nonempty errorMessage then errorMessage else "Error" in
  let detailedError :=
    if negb (fullError =? errorMessage)
    then (errorMessage ++ newline ++ newline ++ "Details: " ++ take 500 fullError)%string
    else errorMessage in
  {| success := false; deployedUrl := None; error := Some detailedError |}.

(** [JSON.stringify({ version: 2 }, null, 2)] *)
Definition vercelConfig : string :=
  "{" ++ newline ++ "  " ++ String quote "version" ++ String quote ": 2" ++ newline ++ "}".

Definition ensureConfig (d : Fs.Disk) (projectDir : string) : result Fs.Disk :=
  let vercelConfigPath := Fs.join projectDir "vercel.json" in
  if Fs.existsSync d vercelConfigPath then Ok d
  else Fs.writeFileSync d vercelConfigPath vercelConfig.

(** The output the deployer goes on with after [execAsync]: a rejected call
    is fatal when it captured nothing. *)
Definition capture (cli : ExecOutcome) : result (string * string) :=
  match cli with
  | Exited stdout stderr => Ok (stdout, stderr)
  | ExecFailed message stdout stderr =>
      if negb (nonempty stdout) && negb (nonempty stderr)
      then Throw (Error message)
      else Ok (stdout, stderr)
  end.

(** From the captured output to the deployed URL *)
Definition extractUrl (stdout stderr : string) : result string :=
  let fullOutput := (stdout ++ stderr)%string in
  match search errorUrlPattern fullOutput with
  | Some errorUrl =>
      Throw (Error ("Vercel deployment failed: " ++ errorUrl ++
                    ". Check your VERCEL_TOKEN and ensure it's valid.")%string)
  | None =>
      let deployedUrl : option string :=
        match findUrl fullOutput with
        | Some m => if nonempty m then Some (tidyUrl m) else None
        | None => None
        end in
      match deployedUrl with
      | Some u =>
          if nonempty u then Ok u
          else
            let lower := toLowerCase fullOutput in
            if includes lower "no credentials" || includes lower "authentication" ||
               includes lower "token"
            then Throw (Error "Vercel authentication failed. Please check your VERCEL_TOKEN environment variable.")
            else Throw (Error ("Could not parse deployment URL from Vercel output. Output: "
                               ++ take 500 fullOutput)%string)
      | None =>
          let lower := toLowerCase fullOutput in
          if includes lower "no credentials" || includes lower "authentication" ||
             includes lower "token"
          then Throw (Error "Vercel authentication failed. Please check your VERCEL_TOKEN environment variable.")
          else Throw (Error ("Could not parse deployment URL from Vercel output. Output: "
                             ++ take 500 fullOutput)%string)
      end
  end.

(** [deployToVercel(projectDir, projectName)].  [vercelToken] is
    [process.env.VERCEL_TOKEN], [cli] what running the CLI did. *)
Definition deployToVercel (vercelToken : option string) (d : Fs.Disk)
  (projectDir projectName : string) (cli : ExecOutcome) : DeploymentResult :=
  match vercelToken with
  | None | Some EmptyString =>
      {| success := false;
         deployedUrl := None;
         error := Some "VERCEL_TOKEN not set in environment variables. Please add it to your .env file." |}
  | Some _ =>
      match (_ <- ensureConfig d projectDir ;;
             out <- capture cli ;;
             extractUrl (fst out) (snd out)) with
      | Ok url => {| success := true; deployedUrl := Some url; error := None |}
      | Throw e => failure e
      end
  end.

End VercelDeployer.

(* ################################################################# *)
(** * JSON text: [JSON.stringify] and [JSON.parse]

    The two functions of the runtime, on the values of the model.  A number
    is written as [String] writes it and read as the decimal fraction its
    literal denotes, in normal form. *)

Module Json.

Local Open Scope string_scope.

Definition quote : ascii := "034"%char.
Definition backslash : ascii := "092"%char.
Definition nl : string := String "010"%char EmptyString.

Definition hex_char (n : nat) : ascii :=
  match n with
  | 0 => "0" | 1 => "1" | 2 => "2" | 3 => "3" | 4 => "4" | 5 => "5"
  | 6 => "6" | 7 => "7" | 8 => "8" | 9 => "9" | 10 => "a" | 11 => "b"
  | 12 => "c" | 13 => "d" | 14 => "e" | _ => "f"
  end%char.

(** The escape of one character in [QuoteJSONString] *)
Definition escape_char (c : ascii) : string :=
  if (c =? quote)%char then String backslash (String quote "")
  else if (c =? backslash)%char then String backslash (String backslash "")
  else if (c =? "008")%char then String backslash "b"
  else if (c =? "009")%char then String backslash "t"
  else if (c =? "010")%char then String backslash "n"
  else if (c =? "012")%char then String backslash "f"
  else if (c =? "013")%char then String backslash "r"
  else if (code c <? 32)%nat
  then String backslash
         ("u00" ++ String (hex_char (code c / 16))
                     (String (hex_char (code c mod 16)) ""))
  else String c "".

Fixpoint escape (s : string) : string :=
  match s with
  | EmptyString => EmptyString
  | String c s' => escape_char c ++ escape s'
  end.

Definition quoted (s : string) : string :=
  String quote (escape s ++ String quote "").

(** [JSON.stringify(v, null, 2)] at the indentation [indent] *)
Fixpoint serialize (indent : string) (v : json) : string :=
  match v with
  | JNull => "null"
  | JBool true => "true"
  | JBool false => "false"
  | JNum x => number_to_string x
  | JStr s => quoted s
  | JArr [] => "[]"
  | JArr items =>
      let inner := (indent ++ "  ")%string in
      "[" ++ nl ++ inner ++
      join ("," ++ nl ++ inner) (map (serialize inner) items) ++
      nl ++ indent ++ "]"
  | JObj [] => "{}"
  | JObj fields =>
      let inner := (indent ++ "  ")%string in
      "{" ++ nl ++ inner ++
      join ("," ++ nl ++ inner)
        (map (fun kv : string * json =>
                quoted (fst kv) ++ ": " ++ serialize inner (snd kv)) fields) ++
      nl ++ indent ++ "}"
  end.

Definition JSON_stringify (v : json) : string := serialize "" v.

(** The white space of JSON text: space, tab, line feed, carriage return *)
Definition is_ws (c : ascii) : bool :=
  (c =? " ")%char || (c =? "009")%char || (c =? "010")%char || (c =? "013")%char.

Fixpoint skip_ws (s : string) : string :=
  match s with
  | String c s' => if is_ws c then skip_ws s' else s
  | EmptyString => EmptyString
  end.

Definition unescape (e : ascii) : option ascii :=
  if (e =? quote)%char then Some quote
  else if (e =? backslash)%char then Some backslash
  else if (e =? "/")%char then Some "/"%char
  else if (e =? "b")%char then Some "008"%char
  else if (e =? "f")%char then Some "012"%char
  else if (e =? "n")%char then Some "010"%char
  else if (e =? "r")%char then Some "013"%char
  else if (e =? "t")%char then Some "009"%char
  else None.

Definition hex4 (a b c d : ascii) : option N :=
  match hex_value a, hex_value b, hex_value c, hex_value d with
  | Some x, Some y, Some z, Some w =>
      Some (((N.of_nat x * 16 + N.of_nat y) * 16 + N.of_nat z) * 16 + N.of_nat w)%N
  | _, _, _, _ => None
  end.

(** The two halves of a surrogate pair *)
Definition high_surrogate (n : N) : bool := (55296 <=? n)%N && (n <=? 56319)%N.
Definition low_surrogate (n : N) : bool := (56320 <=? n)%N && (n <=? 57343)%N.

(** A code unit of the basic plane in UTF-8 *)
Definition utf8 (n : N) : string :=
  (if n <? 128 then String (ascii_of_N n) ""
   else if n <? 2048 then
     String (ascii_of_N (192 + n / 64))
       (String (ascii_of_N (128 + n mod 64)) "")
   else
     String (ascii_of_N (224 + n / 4096))
       (String (ascii_of_N (128 + (n / 64) mod 64))
          (String (ascii_of_N (128 + n mod 64)) "")))%N.

(** The character of a surrogate pair in UTF-8 *)
Definition utf8_pair (high low : N) : string :=
  (let n := 65536 + (high - 55296) * 1024 + (low - 56320) in
   String (ascii_of_N (240 + n / 262144))
     (String (ascii_of_N (128 + (n / 4096) mod 64))
        (String (ascii_of_N (128 + (n / 64) mod 64))
           (String (ascii_of_N (128 + n mod 64)) ""))))%N.

Definition pushs (t : string) (r : option (string * string))
  : option (string * string) :=
  match r with
  | Some (s, rest) => Some ((t ++ s)%string, rest)
  | None => None
  end.

Definition push (c : ascii) (r : option (string * string)) : option (string * string) :=
  match r with
  | Some (s, rest) => Some (String c s, rest)
  | None => None
  end.

(** The characters of a string literal after its opening quote, up to the
    closing quote; the text behind it.  An escaped code unit is written in
    UTF-8, the two halves of a surrogate pair as the one character they
    stand for, and half a pair on its own like a code unit of the basic
    plane. *)
Fixpoint parse_string (s : string) : option (string * string) :=
  match s with
  | EmptyString => None
  | String c r =>
      if (c =? quote)%char then Some (EmptyString, r)
      else if (c =? backslash)%char then
        match r with
        | String e r1 =>
            if (e =? "u")%char then
              match r1 with
              | String h1 (String h2 (String h3 (String h4 r2))) =>
                  match hex4 h1 h2 h3 h4 with
                  | Some n =>
                      if high_surrogate n then
                        match r2 with
                        | String b (String u (String l1 (String l2
                            (String l3 (String l4 r3))))) =>
                            match hex4 l1 l2 l3 l4 with
                            | Some m =>
                                if (b =? backslash)%char && (u =? "u")%char &&
                                   low_surrogate m
                                then pushs (utf8_pair n m) (parse_string r3)
                                else pushs (utf8 n) (parse_string r2)
                            | None => pushs (utf8 n) (parse_string r2)
                            end
                        | _ => pushs (utf8 n) (parse_string r2)
                        end
                      else pushs (utf8 n) (parse_string r2)
                  | None => None
                  end
              | _ => None
              end
            else
              match unescape e with
              | Some x => push x (parse_string r1)
              | None => None
              end
        | EmptyString => None
        end
      else if (code c <? 32)%nat then None
      else push c (parse_string r)
  end.

(** A number behind its sign: digits without a leading zero, an optional
    fraction of at least one digit and an optional exponent *)
Definition number_body (neg : bool) (body : string) : option (number * string) :=
  let (int, r1) := span_digits body in
  match int with
  | EmptyString => None
  | String lead more =>
      if (lead =? "0")%char && nonempty more then None
      else
        let (frac, r2) := fraction_part r1 in
        if match r1 with
           | String c _ => (c =? ".")%char && negb (nonempty frac)
           | EmptyString => false
           end
        then None
        else match exponent_part r2 with
             | Some (x, rest) => Some (decimal neg int frac x, rest)
             | None => None
             end
  end.

(** A number: an optional minus sign and the rest *)
Definition parse_number (s : string) : option (number * string) :=
  match s with
  | String c r => if (c =? "-")%char then number_body true r else number_body false s
  | EmptyString => None
  end.

(** A later member with the same key replaces the value of the earlier one. *)
Fixpoint set_member (k : string) (v : json) (fields : list (string * json))
  : list (string * json) :=
  match fields with
  | [] => [(k, v)]
  | (k', v') :: rest =>
      if (k' =? k) then (k', v) :: rest else (k', v') :: set_member k v rest
  end.

Definition members (parsed : list (string * json)) : list (string * json) :=
  fold_left (fun acc kv => set_member (fst kv) (snd kv) acc) parsed [].

(** The text behind [c] when the text starts with [c] *)
Definition closes (c : ascii) (s : string) : option string :=
  match s with
  | String x rest => if (x =? c)%char then Some rest else None
  | EmptyString => None
  end.

(** The parser.  [fuel] bounds the depth of the calls; the length of the text
    is enough. *)
Fixpoint parse_value (fuel : nat) (s : string) : option (json * string) :=
  match fuel with
  | O => None
  | S fuel' =>
      let t := skip_ws s in
      if prefix "null" t then Some (JNull, drop 4 t)
      else if prefix "true" t then Some (JBool true, drop 4 t)
      else if prefix "false" t then Some (JBool false, drop 5 t)
      else
        match t with
        | EmptyString => None
        | String c r =>
            if (c =? quote)%char then
              match parse_string r with
              | Some (str, rest) => Some (JStr str, rest)
              | None => None
              end
            else if (c =? "[")%char then
              match closes "]" (skip_ws r) with
              | Some rest => Some (JArr [], rest)
              | None =>
                  match parse_items fuel' r with
                  | Some (items, rest) => Some (JArr items, rest)
                  | None => None
                  end
              end
            else if (c =? "{")%char then
              match closes "}" (skip_ws r) with
              | Some rest => Some (JObj [], rest)
              | None =>
                  match parse_members fuel' r with
                  | Some (fields, rest) => Some (JObj (members fields), rest)
                  | None => None
                  end
              end
            else
              match parse_number t with
              | Some (x, rest) => Some (JNum x, rest)
              | None => None
              end
        end
  end

with parse_items (fuel : nat) (s : string) : option (list json * string) :=
  match fuel with
  | O => None
  | S fuel' =>
      match parse_value fuel' s with
      | Some (v, r) =>
          match skip_ws r with
          | String c r' =>
              if (c =? ",")%char then
                match parse_items fuel' r' with
                | Some (vs, rest) => Some (v :: vs, rest)
                | None => None
                end
              else if (c =? "]")%char then Some ([v], r')
              else None
          | EmptyString => None
          end
      | None => None
      end
  end

with parse_members (fuel : nat) (s : string)
  : option (list (string * json) * string) :=
  match fuel with
  | O => None
  | S fuel' =>
      match skip_ws s with
      | String q r =>
          if (q =? quote)%char then
            match parse_string r with
            | Some (k, r1) =>
                match skip_ws r1 with
                | String colon r2 =>
                    if (colon =? ":")%char then
                      match parse_value fuel' r2 with
                      | Some (v, r3) =>
                          match skip_ws r3 with
                          | String c r4 =>
                              if (c =? ",")%char then
                                match parse_members fuel' r4 with
                                | Some (kvs, rest) => Some ((k, v) :: kvs, rest)
                                | None => None
                                end
                              else if (c =? "}")%char then Some ([(k, v)], r4)
                              else None
                          | EmptyString => None
                          end
                      | None => None
                      end
                    else None
                | EmptyString => None
                end
            | None => None
            end
          else None
      | EmptyString => None
      end
  end.

(** [JSON.parse(text)]: one value and nothing but white space behind it;
    [None] is the SyntaxError. *)
Definition JSON_parse (text : string) : option json :=
  match parse_value (S (String.length text)) text with
  | Some (v, rest) =>
      match skip_ws rest with
      | EmptyString => Some v
      | _ => None
      end
  | None => None
  end.

End Json.

(* ################################################################# *)
(** * website-generator and server: the data file of a job *)

Module WebsiteGenerator.

(** The first statements of the [try] block of [generateWebsite]: the project
    directory is made and the records are written to data.json. *)
Definition writeData (d : Fs.Disk) (projectDir : string) (filteredData : list json)
  : result Fs.Disk :=
  d1 <- Fs.mkdirSync d projectDir ;;
  Fs.writeFileSync d1 (Fs.join projectDir "data.json")
    (Json.JSON_stringify (JArr filteredData)).

End WebsiteGenerator.

Module Server.

(** The list the handler of /api/generate hands to [verifyDataSource] *)
Definition availableSources : list string :=
  ["movies"; "companies"; "products"; "actors"; "directors"; "testimonials"].

(** [JSON.parse(fs.readFileSync(dataJsonPath, "utf-8"))] *)
Definition existingData (d : Fs.Disk) (dataJsonPath : string) : result json :=
  text <- Fs.readFileSync d dataJsonPath ;;
  match Json.JSON_parse text with
  | Some v => Ok v
  | None => Throw (Error "SyntaxError")
  end.

(** What the handler of /api/generate-page answers before it generates
    anything, or the data it goes on with. *)
Inductive Loaded : Type :=
| Refused (status : nat) (error : string)
| Data (existing : json).

(** [existingData.length === 0] *)
Definition has_length_zero (v : json) : bool :=
  match v with
  | JArr items => (length items =? 0)%nat
  | JStr s => (String.length s =? 0)%nat
  | JObj fields => strict_equal (lookup "length" fields) (Some (JNum 0))
  | _ => false
  end.

Definition loadProject (d : Fs.Disk) (generatedSitesRoot projectId : string)
  : Loaded :=
  let projectDir := Fs.join generatedSitesRoot projectId in
  if negb (Fs.existsSync d projectDir) then Refused 404 "Project not found."
  else
    let dataJsonPath := Fs.join projectDir "data.json" in
    if negb (Fs.existsSync d dataJsonPath) then Refused 404 "Project data not found."
    else
      match existingData d dataJsonPath with
      | Throw _ => Refused 500 "Failed to generate page."
      | Ok JNull => Refused 500 "Failed to generate page."
      | Ok v =>
          if has_length_zero v then Refused 400 "No data available in project."
          else Data v
      end.

End Server.

(** A value as [JSON.parse] builds them: no object has two members of the
    same key, and every number is in normal form. *)
Fixpoint distinct (keys : list string) : bool :=
  match keys with
  | [] => true
  | k :: rest => negb (existsb (String.eqb k) rest) && distinct rest
  end.

Fixpoint well_formed (v : json) : bool :=
  match v with
  | JNum x => canonical x
  | JArr items => forallb well_formed items
  | JObj fields =>
      distinct (map fst fields) &&
      forallb (fun kv : string * json => well_formed (snd kv)) fields
  | _ => true
  end.

(* ################################################################# *)
(** * data-filter: [loadData] *)

Module DataLoader.

(** [JSON.parse(raw)] *)
Definition parse (raw : string) : result json :=
  match Json.JSON_parse raw with
  | Some v => Ok v
  | None => Throw (Error "SyntaxError")
  end.

(** [loadData(dataSource, dataRoot)].  The file of the collection is checked
    to hold an array; the file of the movies, read when the other is
    missing, is handed back as it parses. *)
Definition loadData (d : Fs.Disk) (dataSource dataRoot : string) : result json :=
  let filePath := Fs.join dataRoot (dataSource ++ ".json") in
  if negb (Fs.existsSync d filePath) then
    let fallbackPath := Fs.join dataRoot "movies.json" in
    if Fs.existsSync d fallbackPath then
      raw <- Fs.readFileSync d fallbackPath ;;
      parse raw
    else Ok (JArr [])
  else
    raw <- Fs.readFileSync d filePath ;;
    json <- parse raw ;;
    Ok (match json with JArr _ => json | _ => JArr [] end).

End DataLoader.

(* ################################################################# *)
(** * server: the route handlers *)

Module Routes.

Import Regex.

(** The own properties of an array: its indices *)
Fixpoint indexed (i : nat) (items : list json) : list (string * json) :=
  match items with
  | [] => []
  | x :: rest => (string_of_Z (Z.of_nat i), x) :: indexed (S i) rest
  end.

Fixpoint chars (s : string) : list json :=
  match s with
  | EmptyString => []
  | String c s' => JStr (String c EmptyString) :: chars s'
  end.

(** [{ ...v }] *)
Definition spread (v : json) : list (string * json) :=
  match v with
  | JObj fields => fields
  | JArr items => indexed 0 items
  | JStr s => indexed 0 (chars s)
  | _ => []
  end.

(** [{ ...filters, limit: analysis.limit }], the last step before
    [filterData] in every route *)
Definition withLimit (filters : list (string * json)) (limit : number)
  : list (string * json) :=
  Json.set_member "limit" (JNum limit) filters.

(** The filters of /api/generate-website *)
Definition requestFilters (analysis : IntentAnalyzer.IntentAnalysisResult)
  : list (string * json) :=
  withLimit (spread (IntentAnalyzer.filters analysis))
    (IntentAnalyzer.limit analysis).

(** The filters of /api/generate-page: the location of the request body
    replaces the one of the analysis, and a context that says "action" or
    "drama" sets the genre. *)
Definition pageFilters (analysis : IntentAnalyzer.IntentAnalysisResult)
  (location context : value) : result (list (string * json)) :=
  let filters := spread (IntentAnalyzer.filters analysis) in
  let filters :=
    match location with
    | Some l => if truthy l then Json.set_member "location" l filters else filters
    | None => filters
    end in
  filters <-
    match context with
    | Some c =>
        if truthy c then
          contextLower <- DataFilter.lower_of c ;;
          let filters :=
            if includes contextLower "action"
            then Json.set_member "genre" (JStr "action") filters else filters in
          Ok (if includes contextLower "drama"
              then Json.set_member "genre" (JStr "drama") filters else filters)
        else Ok filters
    | None => Ok filters
    end ;;
  Ok (withLimit filters (IntentAnalyzer.limit analysis)).

(** [s.replace(r, rep)] with the [g] flag *)
Fixpoint replace_all_from (r : regex) (rep : string) (prev : option ascii)
  (s : string) (skip : nat) : string :=
  match skip with
  | S k =>
      match s with
      | String c s' => replace_all_from r rep (Some c) s' k
      | EmptyString => EmptyString
      end
  | O =>
      match s with
      | String c s' =>
          match match_here r prev s with
          | Some EmptyString =>
              rep ++ String c (replace_all_from r rep (Some c) s' 0)
          | Some m => rep ++ replace_all_from r rep (Some c) s' (String.length m - 1)
          | None => String c (replace_all_from r rep (Some c) s' 0)
          end
      | EmptyString =>
          match match_here r prev s with
          | Some _ => rep
          | None => EmptyString
          end
      end
  end.

Definition replace_all (r : regex) (rep s : string) : string :=
  replace_all_from r rep None s 0.

(** [[a-z0-9-]] *)
Definition slugChar (c : ascii) : bool :=
  is_lower c || is_digit c || (c =? "-")%char.

(** The file name of a page made on request: the intent in lower case, every
    run of white space replaced by one dash, every character that is not a
    lower-case letter, a digit or a dash removed, and the extension *)
Definition pageFileName (intent : string) : string :=
  remove_all (Chr (fun c => negb (slugChar c)))
    (replace_all (Plus is_space) "-" (toLowerCase intent)) ++ ".html".

(** [items.some(p)] with a callback that may throw *)
Fixpoint someM {A : Type} (p : A -> result bool) (items : list A) : result bool :=
  match items with
  | [] => Ok false
  | x :: rest =>
      found <- p x ;;
      if found then Ok true else someM p rest
  end.

(** [existing.id === item.id] *)
Definition sameId (item existing : json) : result bool :=
  e <- get existing "id" ;;
  i <- get item "id" ;;
  Ok (strict_equal e i).

(** The records written back to data.json after a page is made: the ones
    that were there and, of the new ones, those whose id none of them has. *)
Definition updatedData (existingData filteredData : list json)
  : result (list json) :=
  added <- filterM (fun item =>
                      found <- someM (sameId item) existingData ;;
                      Ok (negb found)) filteredData ;;
  Ok (existingData ++ added).

End Routes.

(* ################################################################# *)
(** * intent-rephraser: [rephraseIntent] *)

Module IntentRephraser.

(** [rephraseIntent(userIntent, provider)]: the reply without its code
    fences, or the request itself when the call fails. *)
Definition rephraseIntent (userIntent : string) (outcome : ModelOutcome) : string :=
  match outcome with
  | CallFailed _ => userIntent
  | Replied content =>
      let text := match content with Some t => t | None => "" end in
      let rephrased := trim text in
      trim (Regex.remove_all WebsiteValidator.closingFence
              (Regex.remove_all WebsiteValidator.openingFence rephrased))
  end.

End IntentRephraser.

(* ################################################################# *)
(** * file-generator: [generateFile] *)

Module FileGenerator.

(** The value the prompt shows for a member: a long string is cut to 200
    characters and three dots, an array to its first five elements. *)
Definition trimValue (v : json) : json :=
  match v with
  | JStr s =>
      if (200 <? String.length s)%nat then JStr (take 200 s ++ "...") else v
  | JArr items => JArr (firstn 5 items)
  | _ => v
  end.

(** The callback of [data.slice(0, 50).map]: an object with the keys of the
    item, which [Object.keys] lists; an item that is no object has the keys
    of its indices or none, and [null] has no keys to list. *)
Definition trimItem (item : json) : result json :=
  match item with
  | JNull => Throw TypeError
  | JObj fields =>
      Ok (JObj (map (fun kv : string * json => (fst kv, trimValue (snd kv))) fields))
  | JArr items =>
      Ok (JObj (map (fun kv : string * json => (fst kv, trimValue (snd kv)))
                  (Routes.indexed 0 items)))
  | JStr s => Ok (JObj (Routes.indexed 0 (Routes.chars s)))
  | _ => Ok (JObj [])
  end.

Definition trimmedData (data : list json) : result (list json) :=
  ArchitecturePlanner.mapM trimItem (firstn 50 data).

(** [generateFile(fileName, purpose, data, dataSource, provider)].  The file
    name, the purpose and the source go into the prompt only; [outcome] is
    what the call gave. *)
Definition generateFile (data : list json) (outcome : ModelOutcome)
  : result string :=
  _ <- trimmedData data ;;
  match outcome with
  | CallFailed e => Throw e
  | Replied (Some text) => Ok (WebsiteValidator.cleanCode text)
  | Replied None =>
      Throw (Error "Claude did not return text content for file generation.")
  end.

End FileGenerator.

(* ################################################################# *)
(** * website-generator: the log store and [generateWebsite] *)

Module LogStore.

Record Entry : Type := {
  timestamp : Z;
  message : string;
  level : string
}.

(** [logStore]: the entries of each project *)
Definition Store : Type := list (string * list Entry).

(** [getProjectLogs(projectId)] *)
Definition getProjectLogs (store : Store) (projectId : string) : list Entry :=
  match lookup projectId store with
  | Some logs => logs
  | None => []
  end.

Fixpoint set_logs (projectId : string) (logs : list Entry) (store : Store) : Store :=
  match store with
  | [] => [(projectId, logs)]
  | (k, v) :: rest =>
      if (k =? projectId) then (k, logs) :: rest
      else (k, v) :: set_logs projectId logs rest
  end.

(** [addLog(projectId, message, level)] at the time [now]: the entry is
    pushed and, past 1000 entries, the oldest one is shifted out. *)
Definition addLog (store : Store) (projectId : string) (now : Z)
  (message level : string) : Store :=
  let logs := getProjectLogs store projectId ++
              [{| timestamp := now; message := message; level := level |}] in
  set_logs projectId (if (1000 <? length logs)%nat then tl logs else logs) store.

End LogStore.

Module SiteGenerator.

Inductive Phase : Type := pending | in_progress | completed | failed.

Record GenerationStatus : Type := {
  projectId : string;
  status : Phase;
  message : option string;
  projectPath : option string;
  publicUrl : option string;
  deployedUrl : option string
}.

(** What the model and the CLI do during one run *)
Record Run : Type := {
  planReply : option json;              (* the parsed reply of the planner *)
  fileReplies : nat -> ModelOutcome;    (* the call of [generateFile] number k *)
  client : result unit;                 (* the client of the validator *)
  review : option json;                 (* the parsed review *)
  fixReplies : nat -> ModelOutcome;     (* the fix call number k *)
  vercelToken : option string;          (* [process.env.VERCEL_TOKEN] *)
  cli : VercelDeployer.ExecOutcome      (* the run of the CLI *)
}.

(** The loop over [plan.files]: each file is generated, cleaned once more
    and written.  The disk keeps what was written before an exception. *)
Fixpoint generateFiles (d : Fs.Disk) (projectDir : string) (data : list json)
  (replies : nat -> ModelOutcome) (k : nat)
  (files : list ArchitecturePlanner.PlannedFile) : Fs.Disk * result unit :=
  match files with
  | [] => (d, Ok tt)
  | file :: rest =>
      match FileGenerator.generateFile data (replies k) with
      | Throw e => (d, Throw e)
      | Ok code =>
          match Fs.writeFileSync d
                  (Fs.join projectDir (ArchitecturePlanner.fileName file))
                  (WebsiteValidator.cleanCode code) with
          | Throw e => (d, Throw e)
          | Ok d' => generateFiles d' projectDir data replies (S k) rest
          end
      end
  end.

(** The deployment step: skipped without a token.  The deployer may have
    written its configuration file. *)
Definition deploy (d : Fs.Disk) (projectDir projectId : string) (run : Run)
  : Fs.Disk * option string :=
  match vercelToken run with
  | Some (String _ _) =>
      let deployment :=
        VercelDeployer.deployToVercel (vercelToken run) d projectDir projectId
          (cli run) in
      let d' := match VercelDeployer.ensureConfig d projectDir with
                | Ok d' => d'
                | Throw _ => d
                end in
      (d',
       if VercelDeployer.success deployment
       then match VercelDeployer.deployedUrl deployment with
            | Some url => if nonempty url then Some url else None
            | None => None
            end
       else None)
  | _ => (d, None)
  end.

(** The [try] block of [generateWebsite] *)
Definition generate (d : Fs.Disk) (intent : string) (filteredData : list json)
  (projectDir projectId : string) (run : Run)
  : Fs.Disk * result (option string) :=
  match WebsiteGenerator.writeData d projectDir filteredData with
  | Throw e =>
      (* the directory may be there although the write failed *)
      (match Fs.mkdirSync d projectDir with Ok disk1 => disk1 | Throw _ => d end,
       Throw e)
  | Ok disk1 =>
      match ArchitecturePlanner.planArchitecture intent filteredData (planReply run) with
      | Throw e => (disk1, Throw e)
      | Ok plan =>
          match generateFiles disk1 projectDir filteredData (fileReplies run) 0 plan with
          | (disk2, Throw e) => (disk2, Throw e)
          | (disk2, Ok _) =>
              match WebsiteValidator.validateAndFixWebsite disk2 projectDir
                      (map (fun f => (ArchitecturePlanner.fileName f,
                                      ArchitecturePlanner.purpose f)) plan)
                      (client run) (review run) (fixReplies run) with
              | (disk3, Throw e) => (disk3, Throw e)
              | (disk3, Ok _) =>
                  let (disk4, url) := deploy disk3 projectDir projectId run in
                  (disk4, Ok url)
              end
          end
      end
  end.

(** [generateWebsite(intent, analysis, filteredData, outputRoot,
    publicBasePath, provider, existingProjectId)], [projectId] being the id
    the job runs under: the disk it leaves and the status it returns. *)
Definition generateWebsite (d : Fs.Disk) (intent : string)
  (filteredData : list json) (outputRoot publicBasePath projectId : string)
  (run : Run) : Fs.Disk * GenerationStatus :=
  let projectDir := Fs.join outputRoot projectId in
  match generate d intent filteredData projectDir projectId run with
  | (d', Ok url) =>
      (d',
       {| projectId := projectId;
          status := completed;
          message := Some (match url with
                           | Some _ => "Website generated and deployed successfully"
                           | None => "Website generated successfully"
                           end);
          projectPath := Some projectDir;
          publicUrl := Some (publicBasePath ++ "/" ++ projectId ++ "/index.html")%string;
          deployedUrl := url |})
  | (d', Throw e) =>
      (d',
       {| projectId := projectId;
          status := failed;
          message := Some (VercelDeployer.message_of e);
          projectPath := None;
          publicUrl := None;
          deployedUrl := None |})
  end.

End SiteGenerator.

(* ################################################################# *)
(** * The vocabulary of the properties *)

(** [x <= y] and [x < y] on numbers *)
Definition num_le (x y : number) : Prop := num_leb x y = true.
Definition num_lt (x y : number) : Prop := num_ltb x y = true.

(** [name] occurs in [text] as a substring, case being ignored *)
Definition mentions (text name : string) : Prop :=
  exists pre post,
    toLowerCase text = (pre ++ toLowerCase name ++ post)%string.

(** The page names a request can add to the plan *)
Definition pageNames : list string :=
  ["about.html"; "browse.html"; "details.html"; "contact.html"].

(** The reply is one the planner builds its plan from: the statements of
    the [try] block run to their end. *)
Definition usable (intent : string) (reply : option json) : bool :=
  match reply with
  | Some parsed =>
      match ArchitecturePlanner.planFromReply intent parsed with
      | Ok _ => true
      | Throw _ => false
      end
  | None => false
  end.

(** The two mandatory names *)
Definition mandatory (name : string) : Prop :=
  name = "index.html" \/ name = "app.js".

(** Where an exception can come from inside the [try] block: the review call
    or the parse of its reply, a reply that is not an array, one of the fix
    calls the loop makes, or the write of a fixed file. *)
Inductive ExceptionSource (d : Fs.Disk) (projectDir : string)
  (generatedFiles : list (string * string)) (review : option json)
  (fixReplies : nat -> ModelOutcome) : Prop :=
| review_failed :
    review = None ->
    ExceptionSource d projectDir generatedFiles review fixReplies
| review_not_array (v : json) :
    review = Some v -> (forall found, v <> JArr found) ->
    ExceptionSource d projectDir generatedFiles review fixReplies
| fix_call_failed (found : list json) (k : nat) (e : exn) :
    review = Some (JArr found) ->
    k < length (filter (WebsiteValidator.fixable generatedFiles) found) ->
    fixReplies k = CallFailed e ->
    ExceptionSource d projectDir generatedFiles review fixReplies
| write_failed (found : list json) (issue : json) (name : string) :
    review = Some (JArr found) ->
    In issue found ->
    WebsiteValidator.fixable generatedFiles issue = true ->
    field issue "fileName" = Some (JStr name) ->
    Fs.listed (Fs.join projectDir name) (Fs.unwritable d) = true ->
    ExceptionSource d projectDir generatedFiles review fixReplies.

(** The character in front of a place: the last one of [pre], or [prev] when
    [pre] is empty. *)
Fixpoint char_before (prev : option ascii) (pre : string) : option ascii :=
  match pre with
  | EmptyString => prev
  | String c p => char_before (Some c) p
  end.

(** A token the year pattern accepts: 19 or 20 and two digits *)
Definition year_token (tok : string) : Prop :=
  exists c d : ascii,
    is_digit c = true /\ is_digit d = true /\
    (tok = String "1" (String "9" (String c (String d ""))) \/
     tok = String "2" (String "0" (String c (String d "")))).

(** [tok] stands in [text] between [pre] and [post] as a word of its own: no
    word character touches it on either side. *)
Definition year_token_at (text pre tok post : string) : Prop :=
  text = (pre ++ tok ++ post)%string /\
  year_token tok /\
  Regex.word_before (char_before None pre) = false /\
  Regex.word_after post = false.

(** [tok] is the year token of [text] that starts first. *)
Definition first_year_token (text pre tok post : string) : Prop :=
  year_token_at text pre tok post /\
  forall pre' tok' post',
    year_token_at text pre' tok' post' ->
    String.length pre <= String.length pre'.

(** The year pattern matches in front of [s] exactly when this test holds. *)
Definition year_here (prev : option ascii) (s : string) : bool :=
  match s with
  | String a (String b (String c (String d rest))) =>
      xorb (Regex.word_before prev) (is_word a) &&
      ((Ascii.eqb "1" a && Ascii.eqb "9" b) || (Ascii.eqb "2" a && Ascii.eqb "0" b)) &&
      is_digit c && is_digit d &&
      xorb (is_word d) (Regex.word_after rest)
  | _ => false
  end.

(** No year token starts inside [pre], the text going on with [rest]. *)
Fixpoint year_free (prev : option ascii) (pre rest : string) : bool :=
  match pre with
  | EmptyString => true
  | String c p =>
      negb (year_here prev (String c p ++ rest)) && year_free (Some c) p rest
  end.

(** Every character of [s] passes the test [p]. *)
Fixpoint all_chars (p : ascii -> bool) (s : string) : bool :=
  match s with
  | EmptyString => true
  | String c s' => p c && all_chars p s'
  end.

(** The text starts with a character of ASCII, or is empty. *)
Definition boundary (s : string) : bool :=
  match s with
  | EmptyString => true
  | String c _ => is_ascii c
  end.

Definition outside_ascii (c : ascii) : bool := negb (is_ascii c).

(** A table of case: every entry stands for a character outside ASCII and
    gives it a text that is not empty. *)
Definition case_table (special : list (string * string)) : bool :=
  forallb (fun entry => match fst entry, snd entry with
                        | String _ _ as from, String _ _ =>
                            all_chars outside_ascii from
                        | _, _ => false
                        end) special.

(** A character of ASCII that no entry of the table produces *)
Definition fresh (special : list (string * string)) (c : ascii) : bool :=
  is_ascii c &&
  forallb (fun entry => all_chars (fun d => negb (d =? c)%char) (snd entry))
          special.

(** A URL of the hosting domain: http or https, a host label of letters,
    digits and dashes, and the domain vercel.app or vercel.com, letters in
    either case *)
Definition hosting_url (u : string) : Prop :=
  exists scheme host domain tld,
    u = (scheme ++ "://" ++ host ++ domain ++ tld)%string /\
    (fold_case scheme = "http" \/ fold_case scheme = "https") /\
    host <> "" /\ all_chars VercelDeployer.hostChar host = true /\
    fold_case domain = ".vercel." /\
    (fold_case tld = "app" \/ fold_case tld = "com").

(** The output holds a URL of the hosting domain somewhere. *)
Definition contains_hosting_url (out : string) : Prop :=
  exists pre u post, out = (pre ++ u ++ post)%string /\ hosting_url u.

(** [url] stands in the output and begins with a URL of the hosting domain,
    which a path may follow. *)
Definition shown_hosting_url (out url : string) : Prop :=
  (exists pre post, out = (pre ++ url ++ post)%string) /\
  exists u path,
    url = (u ++ path)%string /\ hosting_url u /\
    (path = "" \/ exists p, path = String "/" p).

(** Every URL of the hosting domain in the output is written with http in
    lower case. *)
Definition lower_case_schemes (out : string) : Prop :=
  forall pre u post,
    out = (pre ++ u ++ post)%string -> hosting_url u ->
    startsWith u "http" = true.

(** No four characters of the text read http with a capital letter. *)
Fixpoint http_in_lower_case (s : string) : bool :=
  match s with
  | EmptyString => true
  | String _ r =>
      (negb (fold_case (take 4 s) =? "http") || (take 4 s =? "http")) &&
      http_in_lower_case r
  end.

(** A URL of the error domain: http or https, err.sh, a slash and at least
    one character that is not white space *)
Definition contains_error_url (out : string) : Prop :=
  exists pre scheme c post,
    out = (pre ++ scheme ++ "://err.sh/" ++ String c post)%string /\
    (scheme = "http" \/ scheme = "https") /\ is_space c = false.

(** What may stand behind a number: nothing, or a character that is no
    digit and opens neither a fraction nor an exponent. *)
Definition ends_number (rest : string) : bool :=
  match rest with
  | EmptyString => true
  | String c _ =>
      negb (is_digit c) &&
      negb ((c =? ".")%char || (c =? "e")%char || (c =? "E")%char)
  end.

(** The calls a value costs the parser *)
Fixpoint need (v : json) : nat :=
  match v with
  | JArr items => S (list_sum (map (fun x => S (need x)) items))
  | JObj fields =>
      S (list_sum (map (fun kv : string * json => S (need (snd kv))) fields))
  | _ => 1
  end.

(** The first character of a serialized value *)
Definition opens_value (c : ascii) : bool :=
  is_digit c || existsb (Ascii.eqb c) ["n"; "t"; "f"; "-"; "["; "{"; Json.quote]%char.

(** One level of indentation *)
Definition gap : string := "  ".

(** The text of one member of an object *)
Definition member_text (inner : string) (kv : string * json) : string :=
  (Json.quoted (fst kv) ++ ": " ++ Json.serialize inner (snd kv))%string.

(** Parsing the text of [v], whatever the indentation, gives [v] back and
    leaves what followed it. *)
Definition round_trips (v : json) : Prop :=
  well_formed v = true ->
  forall (indent rest : string) (fuel : nat),
    all_chars Json.is_ws indent = true ->
    ends_number rest = true ->
    need v <= fuel ->
    Json.parse_value fuel (Json.serialize indent v ++ rest)%string = Some (v, rest).

(** [l] is [m] with some elements left out, the others in their order. *)
Inductive subseq {A : Type} : list A -> list A -> Prop :=
| subseq_nil : subseq [] []
| subseq_skip (x : A) (l m : list A) : subseq l m -> subseq l (x :: m)
| subseq_keep (x : A) (l m : list A) : subseq l m -> subseq (x :: l) (x :: m).

(** A character that is no white space *)
Definition no_space (c : ascii) : bool := negb (is_space c).

(** The text of a reply: empty when its first block is no text block *)
Definition reply_text (content : option string) : string :=
  match content with Some t => t | None => "" end.

(** The mark of a code fence *)
Definition fence : string := "```".

(** A line feed, as text *)
Definition line_feed : string := String WebsiteValidator.newline EmptyString.

(** The reply that wraps [body] in a code fence with the language tag
    [lang] *)
Definition fenced (lang body : string) : string :=
  fence ++ lang ++ line_feed ++ body ++ line_feed ++ fence.

(** An entry of a plan that [generateFile] makes code for *)
Definition codeFile (f : ArchitecturePlanner.PlannedFile) : Prop :=
  ArchitecturePlanner.isCode f = true /\
  ArchitecturePlanner.kind f <> ArchitecturePlanner.data.

(** The output [deployToVercel] looks at: both streams, one after the other *)
Definition cli_output (cli : VercelDeployer.ExecOutcome) : string :=
  match cli with
  | VercelDeployer.Exited stdout stderr => stdout ++ stderr
  | VercelDeployer.ExecFailed _ stdout stderr => stdout ++ stderr
  end.

(** [path] is the place of one of the generated files. *)
Definition generated_path (projectDir : string)
  (generatedFiles : list (string * string)) (path : string) : Prop :=
  exists name, In name (map fst generatedFiles) /\ path = Fs.join projectDir name.

(** [d'] is [d] but for the content of generated files, and every name of
    [names] is the name of a generated file. *)
Definition rewrites_only (projectDir : string)
  (generatedFiles : list (string * string)) (d d' : Fs.Disk)
  (names : list string) : Prop :=
  (forall path, ~ generated_path projectDir generatedFiles path ->
     lookup path (Fs.files d') = lookup path (Fs.files d)) /\
  (forall path, Fs.existsSync d path = true -> Fs.existsSync d' path = true) /\
  Fs.dirs d' = Fs.dirs d /\
  incl names (map fst generatedFiles).


(** The id of a record, [undefined] when it has none *)
Definition id_of (record : json) : value := field record "id".

(** One call of [addLog] *)
Record LogCall : Type := {
  call_project : string;
  call_time : Z;
  call_message : string;
  call_level : string
}.

(** The store after a sequence of calls of [addLog] on the empty store *)
Definition logged (calls : list LogCall) : LogStore.Store :=
  fold_left (fun store c =>
               LogStore.addLog store (call_project c) (call_time c)
                 (call_message c) (call_level c))
            calls [].

(** The run [run] with another token and another behaviour of the CLI *)
Definition redeployed (run : SiteGenerator.Run) (token : option string)
  (cli : VercelDeployer.ExecOutcome) : SiteGenerator.Run :=
  {| SiteGenerator.planReply := SiteGenerator.planReply run;
     SiteGenerator.fileReplies := SiteGenerator.fileReplies run;
     SiteGenerator.client := SiteGenerator.client run;
     SiteGenerator.review := SiteGenerator.review run;
     SiteGenerator.fixReplies := SiteGenerator.fixReplies run;
     SiteGenerator.vercelToken := token;
     SiteGenerator.cli := cli |}.

(** Words with gaps between them: [first], then each gap and the word
    behind it *)
Fixpoint spaced (first : string) (rest : list (string * string)) : string :=
  match rest with
  | [] => first
  | (gap, word) :: more => first ++ gap ++ spaced word more
  end.

(** The same words in lower case with one dash for each gap *)
Fixpoint dashed (first : string) (rest : list (string * string)) : string :=
  match rest with
  | [] => toLowerCase first
  | (_, word) :: more => toLowerCase first ++ "-" ++ dashed word more
  end.

(** A word of letters, digits and dashes *)
Definition plain_word (w : string) : Prop :=
  w <> "" /\ all_chars VercelDeployer.hostChar w = true.

(** A run of white space *)
Definition white_gap (g : string) : Prop :=
  g <> "" /\ all_chars is_space g = true.

(* ################################################################# *)
(** * Sample inputs *)

(** A request for two westerns *)
Definition westernRequest : list (string * json) :=
  [("genre", JStr "western"); ("limit", JNum 2)].

(** A request that writes the year behind a Kelvin sign *)
Definition kelvinRequest : string := (kelvin_sign ++ "2019")%string.

(** One half *)
Definition half : number := {| mantissa := 5; scale := 1 |}.

(** A request for westerns with a limit of one half *)
Definition halfRequest : list (string * json) :=
  [("genre", JStr "western"); ("limit", JNum half)].

(** Three films, none of them a western *)
Definition threeFilms : list json :=
  [ JObj [("title", JStr "Alien"); ("genre", JStr "Horror"); ("year", JNum 1979)];
    JObj [("title", JStr "Heat"); ("genre", JStr "Crime"); ("year", JNum 1995)];
    JObj [("title", JStr "Up"); ("genre", JStr "Animation"); ("year", JNum 2009)] ].

(** A reply of the planner model that lists the home page and a style sheet *)
Definition catalogueReply : json :=
  JObj [("files",
         JArr [JObj [("fileName", JStr "index.html");
                     ("purpose", JStr "Home page"); ("kind", JStr "page")];
               JObj [("fileName", JStr "style.css");
                     ("purpose", JStr "Styles"); ("kind", JStr "style")]])].

(** A reply that lists the home page twice *)
Definition repeatedReply : json :=
  JObj [("files",
         JArr [JObj [("fileName", JStr "index.html");
                     ("purpose", JStr "Home page"); ("kind", JStr "page")];
               JObj [("fileName", JStr "index.html");
                     ("purpose", JStr "Landing page"); ("kind", JStr "page")];
               JObj [("fileName", JStr "app.js");
                     ("purpose", JStr "Rendering"); ("kind", JStr "script")]])].

(** A reply that lists the home page twice and has an entry that is [null] *)
Definition brokenReply : json :=
  JObj [("files",
         JArr [JObj [("fileName", JStr "index.html");
                     ("purpose", JStr "Home page"); ("kind", JStr "page")];
               JObj [("fileName", JStr "index.html");
                     ("purpose", JStr "Landing page"); ("kind", JStr "page")];
               JNull])].

(** A disk with nothing on it, on which every path can be written *)
Definition emptyDisk : Fs.Disk :=
  {| Fs.files := []; Fs.dirs := []; Fs.unreadable := []; Fs.unwritable := [] |}.

(** A review that reports one error in the home page *)
Definition oneError : json :=
  JArr [JObj [("fileName", JStr "index.html");
              ("issue", JStr "File wrapped in markdown code fences");
              ("severity", JStr "error");
              ("fix", JStr "Remove the fences")]].

(** Output of a CLI run that failed after the site went up *)
Definition failedWithUrl : string :=
  "Error: build warning. Production: https://film-site.vercel.app [2s]".

(** Output that shows the site and a page of the error domain *)
Definition failedWithErrorPage : string :=
  "Preview: https://film-site.vercel.app (see https://err.sh/vercel/no-token)".

(** Output that writes the scheme of the site in capital letters *)
Definition failedWithCapitals : string :=
  "Production: HTTPS://film-site.vercel.app".

(** Two records with members of every kind *)
Definition twoFilms : list json :=
  [ JObj [("id", JNum 1); ("title", JStr "Heat"); ("year", JNum 1995);
          ("genre", JArr [JStr "Crime"; JStr "Drama"])];
    JObj [("id", JNum 2); ("title", JStr "Up"); ("year", JNum 2009);
          ("rating", JNull); ("released", JBool true)] ].

(** A request for the films of 1995, five at most *)
Definition yearRequest : list (string * json) :=
  [("year", JNum 1995); ("limit", JNum 5)].


(** A data directory that holds the movies only *)
Definition moviesOnly : Fs.Disk :=
  {| Fs.files := [(Fs.join "data" "movies.json", Json.JSON_stringify (JArr twoFilms))];
     Fs.dirs := ["data"];
     Fs.unreadable := [];
     Fs.unwritable := [] |}.

(** Records found for a new page: one that is in the data file already and
    one that is not *)
Definition foundFilms : list json :=
  [ JObj [("id", JNum 2); ("title", JStr "Up")];
    JObj [("id", JNum 3); ("title", JStr "Alien")] ].

(** A run in which every call succeeds and nothing is deployed *)
Definition quietRun : SiteGenerator.Run :=
  {| SiteGenerator.planReply := Some catalogueReply;
     SiteGenerator.fileReplies := fun _ => Replied (Some "<p>catalogue</p>");
     SiteGenerator.client := Ok tt;
     SiteGenerator.review := Some (JArr []);
     SiteGenerator.fixReplies := fun _ => Replied None;
     SiteGenerator.vercelToken := None;
     SiteGenerator.cli := VercelDeployer.Exited "" "" |}.

(** The same run with a token and a CLI that reports the deployed site *)
Definition deployedRun : SiteGenerator.Run :=
  redeployed quietRun (Some "secret")
    (VercelDeployer.Exited "Production: https://film-site.vercel.app" "").

(* ################################################################# *)
(** * Properties of [filterData] *)

Section NumberFacts.

Lemma pow10_pos (e : nat) : (0 < pow10 e)%Z.
Proof. unfold pow10. apply Z.pow_pos_nonneg; lia. Qed.



Lemma num_eqb_of_Z (a b : Z) : num_eqb (of_Z a) (of_Z b) = (a =? b)%Z.
Proof. unfold num_eqb. cbn. now rewrite !Z.mul_1_r. Qed.

Lemma trunc_of_Z (n : Z) : trunc (of_Z n) = n.
Proof. unfold trunc. cbn. apply Z.quot_1_r. Qed.

(** A number is positive when its mantissa is. *)
Lemma num_positive (x : number) :
  num_ltb (of_Z 0) x = true <-> (0 < mantissa x)%Z.
Proof.
  unfold num_ltb. cbn [of_Z mantissa scale]. rewrite Z.ltb_lt.
  change (pow10 0) with 1%Z. lia.
Qed.

Lemma truthy_positive (x : number) :
  num_ltb (of_Z 0) x = true -> truthy (JNum x) = true.
Proof.
  intros H. apply num_positive in H. cbn [truthy].
  apply negb_true_iff, Z.eqb_neq. lia.
Qed.

Lemma trunc_nonneg (x : number) : (0 <= mantissa x)%Z -> (0 <= trunc x)%Z.
Proof.
  intros H. unfold trunc. apply Z.quot_pos; [exact H | apply pow10_pos].
Qed.

(** The integer part of a number that is at least 1 is at least 1. *)
Lemma trunc_at_least_1 (x : number) :
  num_leb (of_Z 1) x = true -> (1 <= trunc x)%Z.
Proof.
  unfold num_leb, trunc. cbn [of_Z mantissa scale]. rewrite Z.leb_le.
  change (pow10 0) with 1%Z. intros H.
  apply Z.quot_le_lower_bound; [apply pow10_pos | lia].
Qed.

(** The integer part of a number that is not negative is not above it. *)
Lemma trunc_below (x : number) :
  (0 <= mantissa x)%Z -> num_leb (of_Z (trunc x)) x = true.
Proof.
  intros H. unfold num_leb, trunc. cbn [of_Z mantissa scale].
  change (pow10 0) with 1%Z. apply Z.leb_le.
  pose proof (pow10_pos (scale x)) as Hp.
  pose proof (Z.mul_quot_le (mantissa x) (pow10 (scale x)) H ltac:(lia)). lia.
Qed.

Lemma num_leb_trans_Z (a b : Z) (x : number) :
  (a <= b)%Z -> num_leb (of_Z b) x = true -> num_leb (of_Z a) x = true.
Proof.
  unfold num_leb. cbn [of_Z mantissa scale]. rewrite !Z.leb_le.
  change (pow10 0) with 1%Z. intros Hab H.
  pose proof (pow10_pos (scale x)). nia.
Qed.

Lemma num_not_ltb (x : number) (n : Z) :
  num_ltb x (of_Z n) = false -> num_leb (of_Z n) x = true.
Proof.
  unfold num_ltb, num_leb. cbn [of_Z mantissa scale].
  rewrite Z.ltb_ge, Z.leb_le. change (pow10 0) with 1%Z. lia.
Qed.

End NumberFacts.

Section FilterDataFacts.

Import DataFilter.

Lemma firstn_length_min {A : Type} (n : nat) (l : list A) :
  length (firstn n l) = Nat.min n (length l).
Proof. apply length_firstn. Qed.

Lemma slice_limit_positive {A : Type} (x : number) (items : list A) :
  num_ltb (of_Z 0) x = true ->
  slice_limit (JNum x) items = firstn (Z.to_nat (trunc x)) items.
Proof.
  intros Hx. apply num_positive in Hx.
  unfold slice_limit, slice_to. cbn [to_number].
  pose proof (trunc_nonneg x ltac:(lia)) as Ht.
  destruct (trunc x <? 0)%Z eqn:E; [apply Z.ltb_lt in E; lia | reflexivity].
Qed.

(** What [filterData] returns in terms of the filtered list, for a numeric
    positive limit. *)
Lemma filterData_positive_limit dataSource filters allData (x : number) filtered :
  lookup "limit" filters = Some (JNum x) ->
  num_ltb (of_Z 0) x = true ->
  applyFilters dataSource filters allData = Ok filtered ->
  filterData dataSource filters allData =
    Ok (let cut := if num_ltb x (of_Z (Z.of_nat (length filtered)))
                   then firstn (Z.to_nat (trunc x)) filtered else filtered in
        if (length cut =? 0)%nat && (0 <? length allData)%nat
        then firstn (Z.to_nat (trunc x)) allData else cut).
Proof.
  intros Hl Hx Hf. unfold filterData. rewrite Hl, Hf. cbn [bind].
  rewrite (truthy_positive x Hx). cbn [andb].
  unfold length_exceeds. cbn [to_number].
  unfold or_else. cbn [truthy_value]. rewrite (truthy_positive x Hx).
  rewrite !slice_limit_positive by assumption.
  cbv zeta.
  destruct (num_ltb x _);
    destruct (_ && _); reflexivity.
Qed.

(** With a positive limit the list that comes back is not longer than the
    limit. *)
Lemma filterData_bounded dataSource filters allData returned (x : number) :
  lookup "limit" filters = Some (JNum x) ->
  num_ltb (of_Z 0) x = true ->
  filterData dataSource filters allData = Ok returned ->
  num_leb (of_Z (Z.of_nat (length returned))) x = true.
Proof.
  intros Hl Hx Hr.
  assert (Hm : (0 <= mantissa x)%Z) by (apply num_positive in Hx; lia).
  assert (Hcut : forall l : list json,
             num_leb (of_Z (Z.of_nat (length (firstn (Z.to_nat (trunc x)) l)))) x = true).
  { intros l. apply (num_leb_trans_Z _ (trunc x)); [|now apply trunc_below].
    pose proof (trunc_nonneg x Hm). rewrite length_firstn. lia. }
  destruct (applyFilters dataSource filters allData) as [filtered|e] eqn:Hf.
  - rewrite (filterData_positive_limit _ _ _ _ _ Hl Hx Hf) in Hr.
    injection Hr as <-. cbv zeta.
    destruct (num_ltb x _) eqn:E; destruct (_ && _); try apply Hcut.
    now apply num_not_ltb.
  - unfold filterData in Hr. rewrite Hf in Hr. discriminate.
Qed.

End FilterDataFacts.

(** C2, as the code has it.  When the loaded collection is not empty, the
    limit is a number that is at least 1 and the filters of the collection
    and the declared filters leave no record, [filterData] returns the first
    records of the collection, unfiltered, as many as the integer part of the
    limit says or all of them when there are fewer: that list is not empty. *)
Theorem filterData_zero_match_fallback :
  forall (dataSource : string) (filters : list (string * json))
         (allData : list json) (x : number),
    allData <> [] ->
    lookup "limit" filters = Some (JNum x) ->
    num_le 1%Z x ->
    DataFilter.applyFilters dataSource filters allData = Ok [] ->
    exists returned,
      DataFilter.filterData dataSource filters allData = Ok returned /\
      returned = firstn (Nat.min (Z.to_nat (trunc x)) (length allData)) allData /\
      length returned = Nat.min (Z.to_nat (trunc x)) (length allData) /\
      returned <> [].
Proof.
  intros dataSource filters allData x Hne Hl Hx Hf.
  pose proof (trunc_at_least_1 x Hx) as Ht.
  assert (Hpos : num_ltb (of_Z 0) x = true).
  { apply num_positive. unfold num_le, num_leb in Hx.
    cbn [of_Z mantissa scale] in Hx. apply Z.leb_le in Hx.
    change (pow10 0) with 1%Z in Hx. pose proof (pow10_pos (scale x)). lia. }
  rewrite (filterData_positive_limit _ _ _ _ _ Hl Hpos Hf).
  destruct allData as [|r rest]; [congruence|].
  cbv zeta. cbn [length Z.of_nat].
  replace (num_ltb x (of_Z 0)) with false.
  2:{ symmetry. apply num_positive in Hpos. unfold num_ltb.
      cbn [of_Z mantissa scale]. apply Z.ltb_ge.
      change (pow10 0) with 1%Z. pose proof (pow10_pos (scale x)). lia. }
  cbn [length Nat.eqb Nat.ltb Nat.leb andb].
  eexists. split; [reflexivity|].
  assert (Hk : exists k, Z.to_nat (trunc x) = S k)
    by (exists (Nat.pred (Z.to_nat (trunc x))); lia).
  destruct Hk as [k Hk].
  repeat split.
  - destruct (Nat.le_ge_cases (Z.to_nat (trunc x)) (length (r :: rest))) as [H|H].
    + rewrite Nat.min_l by assumption. reflexivity.
    + rewrite Nat.min_r by assumption.
      rewrite !firstn_all2; auto.
  - apply length_firstn.
  - rewrite Hk. simpl. discriminate.
Qed.

(** The fallback at work: two of the three films come back for a request
    that matches none of them. *)
Lemma filterData_zero_match_fallback_witness :
  exists returned,
    DataFilter.filterData "movies" westernRequest threeFilms = Ok returned /\
    returned = firstn (Nat.min (Z.to_nat (trunc 2%Z)) (length threeFilms)) threeFilms /\
    length returned = Nat.min (Z.to_nat (trunc 2%Z)) (length threeFilms) /\
    returned <> [].
Proof.
  apply (filterData_zero_match_fallback "movies" westernRequest threeFilms 2%Z).
  - discriminate.
  - reflexivity.
  - reflexivity.
  - vm_compute. reflexivity.
Defined.

(** C2, the claim as written fails: a limit of one half is positive, and the
    analysis hands it on as the reply gave it; with no western among the
    three films the fallback then returns the empty list. *)
Lemma filterData_fallback_returns_nothing :
  Json.JSON_parse "0.5" = Some (JNum half) /\
  num_lt 0%Z half /\
  IntentAnalyzer.limit
    (IntentAnalyzer.analyzeIntent "show me westerns"
       (Some (JObj [("dataSource", JStr "movies"); ("limit", JNum half)]))) = half /\
  threeFilms <> [] /\
  DataFilter.applyFilters "movies" halfRequest threeFilms = Ok [] /\
  DataFilter.filterData "movies" halfRequest threeFilms = Ok [].
Proof.
  repeat split; try reflexivity. discriminate.
Defined.



(* ################################################################# *)
(** * Facts about strings *)

Section StringFacts.

Lemma append_assoc (a b c : string) : ((a ++ b) ++ c = a ++ (b ++ c))%string.
Proof. induction a as [|x a IH]; simpl; [reflexivity | now rewrite IH]. Qed.

Lemma append_empty_r (a : string) : (a ++ "" = a)%string.
Proof. induction a as [|x a IH]; simpl; [reflexivity | now rewrite IH]. Qed.

Lemma length_append (a b : string) :
  String.length (a ++ b) = String.length a + String.length b.
Proof. induction a as [|x a IH]; simpl; [reflexivity | now rewrite IH]. Qed.

Lemma prefix_spec (t s : string) :
  prefix t s = true <-> exists post, s = (t ++ post)%string.
Proof.
  revert s. induction t as [|c t IH]; intros s.
  - destruct s; simpl; split; eauto.
  - destruct s as [|d s]; simpl.
    + split; [discriminate | intros [post H]; discriminate].
    + destruct (ascii_dec c d) as [->|Hne].
      * rewrite IH. split; intros [post H]; exists post; congruence.
      * split; [discriminate | intros [post H]; congruence].
Qed.

Lemma includes_spec (s t : string) :
  includes s t = true <-> exists pre post, s = (pre ++ t ++ post)%string.
Proof.
  induction s as [|c s IH].
  - cbn [includes]. rewrite orb_false_r, prefix_spec. split.
    + intros [post H]. exists "", post. exact H.
    + intros [pre [post H]]. destruct pre; [eauto | discriminate].
  - cbn [includes]. rewrite orb_true_iff, IH, prefix_spec. split.
    + intros [[post H] | [pre [post H]]].
      * exists "", post. exact H.
      * exists (String c pre), post. simpl. now rewrite H.
    + intros [pre [post H]]. destruct pre as [|d pre].
      * left. exists post. exact H.
      * right. exists pre, post. simpl in H. congruence.
Qed.

Lemma includes_trans (s t u : string) :
  includes s t = true -> includes t u = true -> includes s u = true.
Proof.
  rewrite !includes_spec. intros [p1 [q1 ->]] [p2 [q2 ->]].
  exists (p1 ++ p2)%string, (q2 ++ q1)%string.
  now rewrite !append_assoc.
Qed.

Lemma includes_false_trans (s t u : string) :
  includes s u = false -> includes t u = true -> includes s t = false.
Proof.
  intros Hu Ht. destruct (includes s t) eqn:E; [|reflexivity].
  rewrite (includes_trans _ _ _ E Ht) in Hu. discriminate.
Qed.

Lemma map_chars_append (f : ascii -> ascii) (a b : string) :
  map_chars f (a ++ b) = (map_chars f a ++ map_chars f b)%string.
Proof. induction a as [|x a IH]; simpl; [reflexivity | now rewrite IH]. Qed.

Lemma map_chars_length (f : ascii -> ascii) (a : string) :
  String.length (map_chars f a) = String.length a.
Proof. induction a as [|x a IH]; simpl; [reflexivity | now rewrite IH]. Qed.

Lemma trimStart_suffix (s : string) :
  exists pre, s = (pre ++ trimStart s)%string.
Proof.
  induction s as [|c s [pre IH]]; simpl.
  - exists "". reflexivity.
  - destruct (is_space c).
    + exists (String c pre). simpl. now rewrite <- IH.
    + exists "". reflexivity.
Qed.

Lemma trimEnd_prefix (s : string) :
  exists post, s = (trimEnd s ++ post)%string.
Proof.
  induction s as [|c s [post IH]]; simpl.
  - exists "". reflexivity.
  - destruct (trimEnd s) as [|d r].
    + destruct (is_space c).
      * exists (String c s). reflexivity.
      * exists post. simpl in *. now rewrite <- IH.
    + exists post. simpl in *. now rewrite <- IH.
Qed.

Lemma trim_infix (s : string) :
  exists pre post, s = (pre ++ trim s ++ post)%string.
Proof.
  unfold trim.
  destruct (trimEnd_prefix s) as [post Hpost].
  destruct (trimStart_suffix (trimEnd s)) as [pre Hpre].
  exists pre, post. rewrite <- append_assoc, <- Hpre. exact Hpost.
Qed.

Lemma trimStart_spaces (s : string) :
  exists pre, s = (pre ++ trimStart s)%string /\ all_chars is_space pre = true.
Proof.
  induction s as [|c s [pre [IH Hpre]]]; simpl.
  - exists "". auto.
  - destruct (is_space c) eqn:E.
    + exists (String c pre). simpl. rewrite E, Hpre. split; [now rewrite <- IH | reflexivity].
    + exists "". auto.
Qed.

Lemma trimEnd_spaces (s : string) :
  exists post, s = (trimEnd s ++ post)%string /\ all_chars is_space post = true.
Proof.
  induction s as [|c s [post [IH Hpost]]]; simpl.
  - exists "". auto.
  - destruct (trimEnd s) as [|d r].
    + destruct (is_space c) eqn:E.
      * exists (String c s). simpl in *. rewrite E. subst s. auto.
      * exists post. simpl in *. split; [now rewrite <- IH | exact Hpost].
    + exists post. simpl in *. split; [now rewrite <- IH | exact Hpost].
Qed.

Lemma trim_spaces (s : string) :
  exists pre post,
    s = (pre ++ trim s ++ post)%string /\
    all_chars is_space pre = true /\ all_chars is_space post = true.
Proof.
  unfold trim.
  destruct (trimEnd_spaces s) as [post [Hpost Hp]].
  destruct (trimStart_spaces (trimEnd s)) as [pre [Hpre Hq]].
  exists pre, post. split; [|auto].
  rewrite <- append_assoc, <- Hpre. exact Hpost.
Qed.

Lemma append_cancel_r (a b z : string) : (a ++ z = b ++ z)%string -> a = b.
Proof.
  revert b. induction a as [|x a IH]; intros [|y b] H; cbn [append] in H.
  - reflexivity.
  - apply (f_equal String.length) in H. cbn [String.length] in H.
    rewrite length_append in H. lia.
  - apply (f_equal String.length) in H. cbn [String.length] in H.
    rewrite length_append in H. lia.
  - injection H as -> H. f_equal. now apply IH.
Qed.

End StringFacts.

(* ################################################################# *)
(** * Letter case *)

Section CaseFacts.

Variable special : list (string * string).
Variable plain : ascii -> ascii.
Hypothesis Htable : case_table special = true.
Hypothesis Hplain : forall c, is_ascii (plain c) = is_ascii c.

Lemma table_entry (from to : string) :
  In (from, to) special ->
  from <> "" /\ to <> "" /\ all_chars outside_ascii from = true.
Proof.
  intros Hin. pose proof Htable as H. unfold case_table in H.
  rewrite forallb_forall in H.
  specialize (H _ Hin). cbn [fst snd] in H.
  destruct from; [discriminate|]. destruct to; [discriminate|].
  repeat split; [discriminate | discriminate | exact H].
Qed.

Lemma find_entry (s from to : string) :
  find (fun entry => prefix (fst entry) s) special = Some (from, to) ->
  In (from, to) special /\ exists r, s = (from ++ r)%string.
Proof.
  intros H. apply find_some in H as [Hin Hp]. split; [exact Hin|].
  now apply prefix_spec.
Qed.

Lemma recase_skip (f r : string) :
  recase special plain (String.length f) (f ++ r) = recase special plain 0 r.
Proof. induction f as [|c f IH]; [reflexivity | exact IH]. Qed.

Lemma recase_special (from to r : string) :
  find (fun entry => prefix (fst entry) (from ++ r)) special = Some (from, to) ->
  recase special plain 0 (from ++ r) = (to ++ recase special plain 0 r)%string.
Proof.
  intros H. destruct (find_entry _ _ _ H) as [Hin _].
  destruct (table_entry _ _ Hin) as [Hne _].
  destruct from as [|c f]; [congruence|].
  cbn [append recase]. cbn [append] in H. rewrite H.
  cbn [String.length]. rewrite Nat.sub_succ, Nat.sub_0_r. now rewrite recase_skip.
Qed.

Lemma recase_plain (c : ascii) (r : string) :
  find (fun entry => prefix (fst entry) (String c r)) special = None ->
  recase special plain 0 (String c r) = String (plain c) (recase special plain 0 r).
Proof. intros H. cbn [recase]. now rewrite H. Qed.

Lemma recase_ind (P : string -> string -> Prop) :
  P "" "" ->
  (forall from to r,
      find (fun entry => prefix (fst entry) (from ++ r)) special = Some (from, to) ->
      P r (recase special plain 0 r) ->
      P (from ++ r)%string (to ++ recase special plain 0 r)%string) ->
  (forall c r,
      find (fun entry => prefix (fst entry) (String c r)) special = None ->
      P r (recase special plain 0 r) ->
      P (String c r) (String (plain c) (recase special plain 0 r))) ->
  forall s, P s (recase special plain 0 s).
Proof.
  intros Hnil Hspecial Hstep s.
  remember (String.length s) as n eqn:Hn. revert s Hn.
  induction n as [n IH] using lt_wf_ind. intros s Hn.
  destruct s as [|c r]; [exact Hnil|].
  destruct (find (fun entry => prefix (fst entry) (String c r)) special)
    as [[from to]|] eqn:E.
  - destruct (find_entry _ _ _ E) as [Hin [r' Hr]].
    destruct (table_entry _ _ Hin) as [Hne _].
    rewrite Hr in E |- *. rewrite (recase_special _ _ _ E).
    apply Hspecial; [exact E|].
    apply (IH (String.length r')); [|reflexivity].
    rewrite Hn, Hr, length_append. destruct from; [congruence|]. cbn. lia.
  - rewrite (recase_plain _ _ E). apply Hstep; [exact E|].
    apply (IH (String.length r)); [|reflexivity]. rewrite Hn. cbn. lia.
Qed.

Lemma prefix_grows (p a b : string) :
  prefix p a = true -> prefix p (a ++ b) = true.
Proof.
  rewrite !prefix_spec. intros [post ->]. exists (post ++ b)%string.
  apply append_assoc.
Qed.

Lemma prefix_boundary (p a b : string) :
  all_chars outside_ascii p = true -> boundary b = true ->
  prefix p (a ++ b) = true -> prefix p a = true.
Proof.
  revert a. induction p as [|c p IH]; intros a Hp Hb H.
  - apply prefix_spec. now exists a.
  - cbn [all_chars] in Hp. apply andb_true_iff in Hp as [Hc Hp].
    destruct a as [|x a].
    + cbn [append] in H. destruct b as [|y b]; [discriminate H|].
      cbn [prefix] in H. destruct (ascii_dec c y) as [->|]; [|discriminate].
      cbn [boundary] in Hb. unfold outside_ascii in Hc. rewrite Hb in Hc.
      discriminate.
    + cbn [append prefix] in H |- *.
      destruct (ascii_dec c x); [|discriminate]. now apply IH.
Qed.

Lemma find_boundary (a b : string) :
  boundary b = true ->
  find (fun entry => prefix (fst entry) (a ++ b)) special =
  find (fun entry => prefix (fst entry) a) special.
Proof.
  intros Hb.
  assert (H : forall l, (forall e, In e l -> In e special) ->
            find (fun entry => prefix (fst entry) (a ++ b)) l =
            find (fun entry => prefix (fst entry) a) l).
  { induction l as [|[from to] l IH]; intros Hl; [reflexivity|].
    cbn [find fst].
    assert (Hsame : prefix from (a ++ b) = prefix from a).
    { destruct (table_entry from to (Hl _ (or_introl eq_refl))) as [_ [_ Hfrom]].
      destruct (prefix from a) eqn:E.
      - now apply prefix_grows.
      - destruct (prefix from (a ++ b)) eqn:E'; [|reflexivity].
        rewrite (prefix_boundary from a b Hfrom Hb E') in E. discriminate. }
    rewrite Hsame. destruct (prefix from a); [reflexivity|].
    apply IH. intros e He. apply Hl. now right. }
  apply H. auto.
Qed.

(** The text is split where a character of ASCII starts. *)
Lemma recase_append (a b : string) :
  boundary b = true ->
  recase special plain 0 (a ++ b) =
  (recase special plain 0 a ++ recase special plain 0 b)%string.
Proof.
  intros Hb. pattern a, (recase special plain 0 a). apply recase_ind.
  - reflexivity.
  - intros from to r E IH. rewrite !append_assoc.
    rewrite (recase_special from to).
    + now rewrite IH.
    + rewrite <- append_assoc, find_boundary by exact Hb. exact E.
  - intros c r E IH. cbn [append]. rewrite recase_plain.
    + now rewrite IH.
    + change (String c (r ++ b)) with (String c r ++ b)%string.
      rewrite find_boundary by exact Hb. exact E.
Qed.

Lemma find_ascii (c : ascii) (r : string) :
  is_ascii c = true ->
  find (fun entry => prefix (fst entry) (String c r)) special = None.
Proof.
  intros Hc.
  destruct (find _ special) as [[from to]|] eqn:E; [|reflexivity].
  destruct (find_entry _ _ _ E) as [Hin [r' Hr]].
  destruct (table_entry _ _ Hin) as [Hne [_ Hfrom]].
  destruct from as [|x f]; [congruence|]. cbn [append] in Hr.
  injection Hr as -> _. cbn [all_chars] in Hfrom. unfold outside_ascii in Hfrom.
  rewrite Hc in Hfrom. discriminate.
Qed.

(** Text of ASCII goes through [plain], element by element. *)
Lemma recase_ascii (a r : string) :
  all_chars is_ascii a = true ->
  recase special plain 0 (a ++ r) =
  (map_chars plain a ++ recase special plain 0 r)%string.
Proof.
  induction a as [|c a IH]; intros Ha; [reflexivity|].
  cbn [all_chars] in Ha. apply andb_true_iff in Ha as [Hc Ha].
  cbn [append map_chars]. rewrite recase_plain by now apply find_ascii.
  now rewrite IH.
Qed.

Lemma recase_ascii_text (a : string) :
  all_chars is_ascii a = true -> recase special plain 0 a = map_chars plain a.
Proof.
  intros Ha. rewrite <- (append_empty_r a) at 1.
  rewrite recase_ascii by exact Ha. apply append_empty_r.
Qed.

Lemma fresh_not_in (c : ascii) (from to : string) :
  fresh special c = true -> In (from, to) special ->
  all_chars (fun d => negb (d =? c)%char) to = true.
Proof.
  unfold fresh. intros H Hin. apply andb_true_iff in H as [_ H].
  rewrite forallb_forall in H. exact (H _ Hin).
Qed.

(** A word of fresh characters begins behind the entry it meets. *)
Lemma entry_passed (to x p w q : string) (c : ascii) :
  all_chars (fun d => negb (d =? c)%char) to = true ->
  (to ++ x = p ++ String c w ++ q)%string ->
  exists p', p = (to ++ p')%string /\ x = (p' ++ String c w ++ q)%string.
Proof.
  revert p. induction to as [|d to IH]; intros p Hto H.
  - exists p. split; [reflexivity | exact H].
  - cbn [all_chars] in Hto. apply andb_true_iff in Hto as [Hd Hto].
    destruct p as [|e p]; cbn [append] in H.
    + injection H as -> _. rewrite Ascii.eqb_refl in Hd. discriminate.
    + injection H as -> H. destruct (IH p Hto H) as [p' [-> Hx]].
      exists p'. split; [reflexivity | exact Hx].
Qed.

(** A word of fresh characters at the head of the result is the image of
    as many elements of ASCII at the head of the text. *)
Lemma recase_head_inv (s w q : string) :
  all_chars (fresh special) w = true ->
  recase special plain 0 s = (w ++ q)%string ->
  exists x post,
    s = (x ++ post)%string /\ all_chars is_ascii x = true /\
    map_chars plain x = w /\ recase special plain 0 post = q.
Proof.
  revert w q. pattern s, (recase special plain 0 s). apply recase_ind.
  - intros w q Hw H. destruct w; [|discriminate].
    exists "", "". repeat split. exact H.
  - intros from to r E IH w q Hw H.
    destruct w as [|c w].
    + exists "", (from ++ r)%string. repeat split.
      rewrite (recase_special _ _ _ E). exact H.
    + exfalso. cbn [all_chars] in Hw. apply andb_true_iff in Hw as [Hc _].
      destruct (find_entry _ _ _ E) as [Hin _].
      pose proof (fresh_not_in _ _ _ Hc Hin) as Hto.
      destruct (table_entry _ _ Hin) as [_ [Hto' _]].
      destruct to as [|d to]; [congruence|]. cbn [append] in H.
      injection H as -> _. cbn [all_chars] in Hto.
      rewrite Ascii.eqb_refl in Hto. discriminate.
  - intros c r E IH w q Hw H.
    destruct w as [|d w].
    + exists "", (String c r). repeat split.
      rewrite (recase_plain _ _ E). exact H.
    + cbn [all_chars] in Hw. apply andb_true_iff in Hw as [Hd Hw].
      cbn [append] in H. injection H as Hc H.
      destruct (IH w q Hw H) as [x [post [-> [Hx [Hmap Hpost]]]]].
      exists (String c x), post. cbn [append all_chars map_chars].
      rewrite Hmap, Hc, Hx, Hpost. repeat split.
      rewrite <- Hplain, Hc. unfold fresh in Hd.
      apply andb_true_iff in Hd as [Hd _]. now rewrite Hd.
Qed.

(** A word of fresh characters in the result is the image of as many
    elements of ASCII of the text, and what stands before and behind it the
    image of what stands before and behind them. *)
Lemma recase_inv (s p w q : string) :
  all_chars (fresh special) w = true -> w <> "" ->
  recase special plain 0 s = (p ++ w ++ q)%string ->
  exists pre x post,
    s = (pre ++ x ++ post)%string /\ all_chars is_ascii x = true /\
    recase special plain 0 pre = p /\ map_chars plain x = w /\ recase special plain 0 post = q.
Proof.
  intros Hw Hne. revert p. pattern s, (recase special plain 0 s). apply recase_ind.
  - intros p H. destruct p; [|discriminate]. destruct w; [congruence | discriminate].
  - intros from to r E IH p H.
    destruct w as [|c w']; [congruence|].
    pose proof Hw as Hc. cbn [all_chars] in Hc. apply andb_true_iff in Hc as [Hc _].
    destruct (find_entry _ _ _ E) as [Hin _].
    destruct (entry_passed to (recase special plain 0 r) p w' q c (fresh_not_in _ _ _ Hc Hin) H)
      as [p' [-> Hr]].
    destruct (IH p' Hr) as [pre [x [post [Hs [Hx [Hpre [Hmap Hpost]]]]]]].
    exists (from ++ pre)%string, x, post. rewrite Hs, append_assoc.
    repeat split; try assumption.
    assert (Hb : boundary (x ++ post) = true).
    { destruct x as [|y x]; [discriminate Hmap|]. cbn [all_chars] in Hx.
      now apply andb_true_iff in Hx as [Hx _]. }
    apply (append_cancel_r _ _ (recase special plain 0 (x ++ post))).
    rewrite <- (recase_append _ _ Hb), append_assoc, <- Hs.
    rewrite (recase_special _ _ _ E), Hs, (recase_append _ _ Hb), Hpre.
    now rewrite append_assoc.
  - intros c r E IH p H.
    destruct p as [|d p].
    + cbn [append] in H. rewrite <- (recase_plain _ _ E) in H.
      destruct (recase_head_inv _ _ _ Hw H) as [x [post [Hs [Hx [Hmap Hpost]]]]].
      exists "", x, post. repeat split; assumption.
    + cbn [append] in H. injection H as Hd H.
      destruct (IH p H) as [pre [x [post [Hs [Hx [Hpre [Hmap Hpost]]]]]]].
      exists (String c pre), x, post. rewrite Hs. cbn [append].
      repeat split; try assumption.
      assert (Hb : boundary (x ++ post) = true).
      { destruct x as [|y x]; [cbn in Hmap; congruence|]. cbn [all_chars] in Hx.
        now apply andb_true_iff in Hx as [Hx _]. }
      apply (append_cancel_r _ _ (recase special plain 0 (x ++ post))).
      rewrite <- (recase_append (String c pre) _ Hb). cbn [append]. rewrite <- Hs.
      rewrite (recase_plain _ _ E), Hs, (recase_append _ _ Hb), Hpre, Hd.
      reflexivity.
Qed.

End CaseFacts.

Lemma lower_table : case_table lower_special = true.
Proof. reflexivity. Qed.

Lemma upper_table : case_table upper_special = true.
Proof. reflexivity. Qed.

Lemma lower_char_ascii (c : ascii) : is_ascii (lower_char c) = is_ascii c.
Proof. destruct c as [[] [] [] [] [] [] [] []]; reflexivity. Qed.

Lemma upper_char_ascii (c : ascii) : is_ascii (upper_char c) = is_ascii c.
Proof. destruct c as [[] [] [] [] [] [] [] []]; reflexivity. Qed.

Lemma toLowerCase_append (a b : string) :
  boundary b = true ->
  toLowerCase (a ++ b) = (toLowerCase a ++ toLowerCase b)%string.
Proof. apply (recase_append _ _ lower_table). Qed.

Lemma toUpperCase_append (a b : string) :
  boundary b = true ->
  toUpperCase (a ++ b) = (toUpperCase a ++ toUpperCase b)%string.
Proof. apply (recase_append _ _ upper_table). Qed.

Lemma toLowerCase_ascii (a r : string) :
  all_chars is_ascii a = true ->
  toLowerCase (a ++ r) = (fold_case a ++ toLowerCase r)%string.
Proof. apply (recase_ascii _ _ lower_table). Qed.

Lemma toUpperCase_ascii (a r : string) :
  all_chars is_ascii a = true ->
  toUpperCase (a ++ r) = (map_chars upper_char a ++ toUpperCase r)%string.
Proof. apply (recase_ascii _ _ upper_table). Qed.

Lemma toLowerCase_ascii_text (a : string) :
  all_chars is_ascii a = true -> toLowerCase a = fold_case a.
Proof. apply (recase_ascii_text _ _ lower_table). Qed.

Lemma toUpperCase_ascii_text (a : string) :
  all_chars is_ascii a = true -> toUpperCase a = map_chars upper_char a.
Proof. apply (recase_ascii_text _ _ upper_table). Qed.

Lemma lower_char_keeps (c d : ascii) :
  lower_char c = d -> is_lower d = false -> c = d.
Proof.
  intros <-. destruct c as [[] [] [] [] [] [] [] []]; intros H;
    try reflexivity; discriminate H.
Qed.

Lemma lower_keeps (x t : string) :
  fold_case x = t -> all_chars (fun c => negb (is_lower c)) t = true -> x = t.
Proof.
  revert t. induction x as [|c x IH]; intros t <-; [reflexivity|].
  cbn [fold_case map_chars all_chars]. intros H.
  apply andb_prop in H as [Hc H]. apply negb_true_iff in Hc.
  rewrite (lower_char_keeps c _ eq_refl Hc) at 1.
  f_equal. now apply IH.
Qed.

Lemma all_chars_append (p : ascii -> bool) (a b : string) :
  all_chars p (a ++ b) = all_chars p a && all_chars p b.
Proof.
  induction a as [|c a IH]; [reflexivity|].
  cbn [append all_chars]. now rewrite IH, andb_assoc.
Qed.

Lemma spaces_ascii (s : string) :
  all_chars is_space s = true -> all_chars is_ascii s = true.
Proof.
  induction s as [|c s IH]; [reflexivity|]. cbn [all_chars].
  intros H. apply andb_true_iff in H as [Hc Hs]. rewrite (IH Hs), andb_true_r.
  revert Hc. destruct c as [[] [] [] [] [] [] [] []]; (reflexivity || discriminate).
Qed.

Lemma fold_spaces (s : string) :
  all_chars is_space s = true -> fold_case s = s.
Proof.
  induction s as [|c s IH]; [reflexivity|]. cbn [all_chars fold_case map_chars].
  intros H. apply andb_true_iff in H as [Hc Hs]. fold (fold_case s).
  rewrite (IH Hs). f_equal.
  revert Hc. destruct c as [[] [] [] [] [] [] [] []]; (reflexivity || discriminate).
Qed.

Lemma ascii_boundary (s : string) :
  all_chars is_ascii s = true -> boundary s = true.
Proof.
  destruct s as [|c s]; [reflexivity|]. cbn [all_chars boundary].
  intros H. now apply andb_true_iff in H as [H _].
Qed.

(** Lower case leaves the white space around a text as it is. *)
Lemma toLowerCase_spaced (pre t post : string) :
  all_chars is_space pre = true -> all_chars is_space post = true ->
  toLowerCase (pre ++ t ++ post) = (pre ++ toLowerCase t ++ post)%string.
Proof.
  intros Hpre Hpost.
  rewrite toLowerCase_ascii by now apply spaces_ascii.
  rewrite toLowerCase_append by now apply ascii_boundary, spaces_ascii.
  rewrite (toLowerCase_ascii_text post) by now apply spaces_ascii.
  now rewrite !fold_spaces.
Qed.

(** A word without k and i in the lower case of a text stands for as many
    letters of the text. *)
Lemma toLowerCase_inv (s p w q : string) :
  all_chars (fresh lower_special) w = true -> w <> "" ->
  toLowerCase s = (p ++ w ++ q)%string ->
  exists pre x post,
    s = (pre ++ x ++ post)%string /\ all_chars is_ascii x = true /\
    toLowerCase pre = p /\ fold_case x = w /\ toLowerCase post = q.
Proof. apply (recase_inv _ _ lower_table lower_char_ascii). Qed.


(* ################################################################# *)
(** * Properties of [analyzeIntent] *)

Section AnalyzeIntentFacts.

Import IntentAnalyzer.

Lemma heuristic_limit (userIntent : string) :
  limit (heuristicAnalysis userIntent) = 100%Z.
Proof. reflexivity. Qed.

(** The limit of the result for a parsed reply *)
Lemma analyzeIntent_limit (userIntent : string) (parsed : json) :
  limit (analyzeIntent userIntent (Some parsed)) =
    match parsed with
    | JNull => 100%Z
    | _ => raiseForSingle (toLowerCase userIntent)
             (raiseForAll (toLowerCase userIntent)
                (acceptedLimit (field parsed "limit")))
    end.
Proof. destruct parsed; reflexivity. Qed.


End AnalyzeIntentFacts.

(** C3.  For a parsed reply whose [limit] is not a number in (0, 500], the
    returned limit is 100. *)
Theorem analyzeIntent_limit_default :
  forall (userIntent : string) (parsed : json),
    (forall x : number,
        field parsed "limit" = Some (JNum x) ->
        ~ (num_lt 0%Z x /\ num_le x 500%Z)) ->
    IntentAnalyzer.limit (IntentAnalyzer.analyzeIntent userIntent (Some parsed)) = 100%Z.
Proof.
  intros userIntent parsed H. rewrite analyzeIntent_limit.
  assert (Ha : IntentAnalyzer.acceptedLimit (field parsed "limit") = 100%Z).
  { unfold IntentAnalyzer.acceptedLimit.
    destruct (field parsed "limit") as [[| | x | | |]|] eqn:E; try reflexivity.
    destruct (num_ltb 0%Z x) eqn:E1; [|reflexivity].
    destruct (num_leb x 500%Z) eqn:E2; [|reflexivity].
    exfalso. apply (H x eq_refl). split; assumption. }
  rewrite Ha.
  assert (H100 : forall lower,
             IntentAnalyzer.raiseForSingle lower
               (IntentAnalyzer.raiseForAll lower 100%Z) = 100%Z).
  { intros lower. unfold IntentAnalyzer.raiseForAll, IntentAnalyzer.raiseForSingle.
    change (num_ltb 100%Z 50%Z) with false. rewrite andb_false_r.
    change (num_eqb 100%Z 1%Z) with false. reflexivity. }
  destruct parsed; try reflexivity; apply H100.
Qed.

(** A reply that asks for 900 records is cut down to 100. *)
Lemma analyzeIntent_limit_default_witness :
  IntentAnalyzer.limit
    (IntentAnalyzer.analyzeIntent "show me movies"
       (Some (JObj [("dataSource", JStr "movies"); ("limit", JNum 900)])))
  = 100%Z.
Proof.
  apply analyzeIntent_limit_default.
  intros x H. cbn in H. injection H as <-. intros [_ H]. discriminate H.
Defined.




(* ################################################################# *)
(** * Properties of [verifyDataSource] *)

Section VerifyDataSourceFacts.

Import DataSourceVerifier.

Lemma mentions_trimmed (text name : string) :
  includes (toLowerCase (trim text)) (toLowerCase name) = true ->
  mentions text name.
Proof.
  rewrite includes_spec. intros [pre [post H]].
  destruct (trim_spaces text) as [a [b [Hab [Ha Hb]]]].
  exists (a ++ pre)%string, (post ++ b)%string.
  rewrite Hab at 1. rewrite (toLowerCase_spaced _ _ _ Ha Hb), H.
  now rewrite !append_assoc.
Qed.

Lemma not_mentions (text name : string) :
  includes (toLowerCase text) (toLowerCase name) = false -> ~ mentions text name.
Proof.
  intros H [pre [post Hm]].
  assert (Ht : includes (toLowerCase text) (toLowerCase name) = true)
    by (apply includes_spec; eauto).
  congruence.
Qed.

Lemma find_none_keeps {A : Type} (p : A -> bool) (l : list A) :
  (forall x, In x l -> p x = false) -> find p l = None.
Proof.
  induction l as [|x l IH]; intros H; simpl; [reflexivity|].
  rewrite (H x (or_introl eq_refl)). apply IH. intros y Hy. apply H. now right.
Qed.

End VerifyDataSourceFacts.

(** C6.  When the reply text mentions none of the six collection names,
    whatever the case of its letters, [verifyDataSource] returns the detected
    source; and so it does when the call throws. *)
Theorem verifyDataSource_keeps_detected :
  forall (detectedSource userIntent : string),
    (forall text : string,
        (forall name, In name Server.availableSources -> ~ mentions text name) ->
        DataSourceVerifier.verifyDataSource detectedSource userIntent
          Server.availableSources (Replied (Some text)) = detectedSource) /\
    (forall e : exn,
        DataSourceVerifier.verifyDataSource detectedSource userIntent
          Server.availableSources (CallFailed e) = detectedSource).
Proof.
  intros detectedSource userIntent. split; [|reflexivity].
  intros text Hnone. unfold DataSourceVerifier.verifyDataSource.
  destruct (_ || _); [reflexivity|].
  rewrite find_none_keeps; [reflexivity|].
  intros name Hin.
  destruct (includes (toLowerCase (trim text)) (toLowerCase name)) eqn:E;
    [|reflexivity].
  exfalso. exact (Hnone name Hin (mentions_trimmed _ _ E)).
Qed.

(** A reply that names no collection, and a failed call *)
Lemma verifyDataSource_keeps_detected_witness :
  DataSourceVerifier.verifyDataSource "movies" "films about space"
    Server.availableSources (Replied (Some "I am not sure.")) = "movies" /\
  DataSourceVerifier.verifyDataSource "movies" "films about space"
    Server.availableSources (CallFailed (Error "network")) = "movies".
Proof.
  split.
  - apply (proj1 (verifyDataSource_keeps_detected "movies" "films about space")).
    intros name Hin. simpl in Hin.
    repeat (destruct Hin as [<- | Hin]; [apply not_mentions; reflexivity|]).
    contradiction.
  - apply (proj2 (verifyDataSource_keeps_detected "movies" "films about space")).
Defined.

(* ################################################################# *)
(** * Properties of [planArchitecture] *)

Section PlanArchitectureFacts.

Import ArchitecturePlanner.

Lemma occurrences_app (name : string) (a b : ArchitecturePlan) :
  occurrences name (a ++ b) = occurrences name a + occurrences name b.
Proof. unfold occurrences. now rewrite filter_app, length_app. Qed.

Lemma some_named_iff (name : string) (plan : ArchitecturePlan) :
  some (fun f => fileName f =? name) plan = negb (occurrences name plan =? 0)%nat.
Proof.
  unfold some, occurrences. induction plan as [|f plan IH]; simpl; [reflexivity|].
  destruct (fileName f =? name); simpl; [reflexivity | exact IH].
Qed.

(** [ensureFile] adds one entry exactly when the name is missing, and leaves
    the entries of other names alone. *)
Lemma occurrences_ensureFile_same (name purpose : string) (kind : FileKind)
  (plan : ArchitecturePlan) :
  occurrences name (ensureFile name purpose kind plan) =
    Nat.max 1 (occurrences name plan).
Proof.
  unfold ensureFile. rewrite some_named_iff, negb_involutive.
  destruct (occurrences name plan =? 0)%nat eqn:E.
  - apply Nat.eqb_eq in E. rewrite occurrences_app, E.
    unfold occurrences. simpl. now rewrite String.eqb_refl.
  - apply Nat.eqb_neq in E. lia.
Qed.

Lemma occurrences_ensureFile_other (name other purpose : string) (kind : FileKind)
  (plan : ArchitecturePlan) :
  other <> name ->
  occurrences name (ensureFile other purpose kind plan) = occurrences name plan.
Proof.
  intros Hne. unfold ensureFile. destruct (negb _); [|reflexivity].
  rewrite occurrences_app. unfold occurrences at 2. simpl.
  apply String.eqb_neq in Hne. rewrite Hne. simpl. lia.
Qed.

(** The filter on the extension keeps every entry named [name] when [name]
    itself has one of the two extensions. *)
Lemma occurrences_isCode (name : string) (plan : ArchitecturePlan) :
  endsWith name ".html" || endsWith name ".js" = true ->
  occurrences name (filter isCode plan) = occurrences name plan.
Proof.
  intros Hext. unfold occurrences.
  induction plan as [|f plan IH]; simpl; [reflexivity|].
  destruct (fileName f =? name) eqn:E.
  - apply String.eqb_eq in E. unfold isCode at 1. rewrite E, Hext. simpl.
    rewrite <- E, String.eqb_refl. simpl. rewrite E. now rewrite IH.
  - destruct (isCode f); simpl; rewrite ?E; exact IH.
Qed.

Lemma requestedPages_known (intentLower : string) :
  incl (requestedPages intentLower) pageNames.
Proof.
  unfold requestedPages, pageNames.
  repeat match goal with |- context [if ?c then _ else _] => destruct c end;
    intros x Hx; simpl in *; tauto.
Qed.

Lemma addPages_occurrences (name : string) (missing : list string) (files : list json) :
  ~ In name missing ->
  occurrences name (map toPlannedFile (addPages missing files)) =
  occurrences name (map toPlannedFile files).
Proof.
  revert files. induction missing as [|p rest IH]; intros files Hnot; simpl.
  - reflexivity.
  - rewrite IH by (intros H; apply Hnot; now right).
    destruct (negb _); [|reflexivity].
    rewrite map_app, occurrences_app.
    unfold occurrences at 2. simpl.
    assert (Hp : (p =? name) = false).
    { apply String.eqb_neq. intros ->. apply Hnot. now left. }
    rewrite Hp. simpl. lia.
Qed.

Lemma withRequestedPages_occurrences (name intent : string) (files : list json) :
  ~ In name pageNames ->
  occurrences name (map toPlannedFile (withRequestedPages intent files)) =
  occurrences name (map toPlannedFile files).
Proof.
  intros Hnot. unfold withRequestedPages.
  destruct (negb _); [|reflexivity].
  destruct (_ && _); [|reflexivity].
  destruct (0 <? _)%nat; [|reflexivity].
  apply addPages_occurrences.
  intros Hin. apply Hnot. apply (requestedPages_known (toLowerCase intent)).
  apply filter_In in Hin. tauto.
Qed.

Lemma mandatory_facts (name : string) :
  mandatory name ->
  ~ In name pageNames /\ endsWith name ".html" || endsWith name ".js" = true.
Proof.
  intros [-> | ->]; split; try reflexivity;
    intros H; simpl in H; intuition discriminate.
Qed.

(** The plan built from a usable reply lists a mandatory name as often as the
    reply does, and once when the reply does not list it. *)
Lemma planFromReply_occurrences (intent : string) (parsed : json)
  (plan : ArchitecturePlan) (name : string) :
  planFromReply intent parsed = Ok plan ->
  mandatory name ->
  occurrences name plan = Nat.max 1 (occurrences name (listedFiles (Some parsed))).
Proof.
  intros Hplan Hname.
  destruct (mandatory_facts name Hname) as [Hpage Hext].
  unfold planFromReply in Hplan.
  destruct parsed as [| | | | |fields]; try discriminate Hplan.
  cbn [get bind] in Hplan. cbn [listedFiles].
  destruct (lookup "files" fields) as [[| | | |files|]|]; try discriminate Hplan.
  destruct (mapM _ files); try discriminate Hplan.
  cbn [bind] in Hplan. injection Hplan as <-.
  destruct Hname as [-> | ->].
  - rewrite occurrences_ensureFile_other by discriminate.
    rewrite occurrences_ensureFile_same, occurrences_isCode by exact Hext.
    now rewrite withRequestedPages_occurrences.
  - rewrite occurrences_ensureFile_same.
    rewrite occurrences_ensureFile_other by discriminate.
    rewrite occurrences_isCode by exact Hext.
    now rewrite withRequestedPages_occurrences.
Qed.

Lemma minimalPlan_occurrences (name : string) :
  mandatory name -> occurrences name minimalPlan = 1.
Proof. intros [-> | ->]; reflexivity. Qed.

(** [planArchitecture] returns a plan unless one of the first 30 records is
    [null]. *)
Lemma planArchitecture_returns (intent : string) (filteredData : list json)
  (reply : option json) :
  Forall (fun item => item <> JNull) (firstn 30 filteredData) ->
  exists plan, planArchitecture intent filteredData reply = Ok plan.
Proof.
  intros Hdata. unfold planArchitecture.
  assert (Hs : exists ids, mapM (fun item => get item "id") (firstn 30 filteredData) = Ok ids).
  { induction Hdata as [|item rest Hitem _ [ids IH]]; simpl; [eauto|].
    destruct item; try congruence; simpl; rewrite IH; simpl; eauto. }
  destruct Hs as [ids ->]. cbn [bind].
  destruct reply as [parsed|]; [|eauto].
  destruct (planFromReply intent parsed); eauto.
Qed.

End PlanArchitectureFacts.

(** C1, as the code has it.  Every plan [planArchitecture] returns has at
    least one entry named index.html and at least one named app.js.  On the
    fallback path, where there is no reply the planner can use, it has exactly
    one of each.  A plan built from the reply has the name as often as the
    reply lists it, and once when the reply does not list it: a name the
    reply lists several times stays several times in the plan. *)
Theorem planArchitecture_mandatory_files :
  forall (intent : string) (filteredData : list json) (reply : option json)
         (plan : ArchitecturePlanner.ArchitecturePlan) (name : string),
    ArchitecturePlanner.planArchitecture intent filteredData reply = Ok plan ->
    name = "index.html" \/ name = "app.js" ->
    1 <= ArchitecturePlanner.occurrences name plan /\
    ArchitecturePlanner.occurrences name plan =
      (if usable intent reply
       then Nat.max 1 (ArchitecturePlanner.occurrences name
                         (ArchitecturePlanner.listedFiles reply))
       else 1) /\
    (usable intent reply = false -> plan = ArchitecturePlanner.minimalPlan).
Proof.
  intros intent filteredData reply plan name Hplan Hname.
  unfold ArchitecturePlanner.planArchitecture in Hplan.
  destruct (ArchitecturePlanner.mapM _ _); try discriminate Hplan.
  cbn [bind] in Hplan. unfold usable.
  destruct reply as [parsed|].
  - destruct (ArchitecturePlanner.planFromReply intent parsed) as [p|e] eqn:Hp;
      injection Hplan as <-.
    + rewrite (planFromReply_occurrences _ _ _ _ Hp Hname).
      split; [lia|]. split; [reflexivity | discriminate].
    + rewrite (minimalPlan_occurrences name Hname). auto.
  - injection Hplan as <-. rewrite (minimalPlan_occurrences name Hname). auto.
Qed.

(** A reply that lists the home page once and no script, and a reply that
    cannot be used because one of its entries is [null] *)
Lemma planArchitecture_mandatory_files_witness :
  (exists plan,
     ArchitecturePlanner.planArchitecture "a movie catalogue" [] (Some catalogueReply)
       = Ok plan /\
     ArchitecturePlanner.occurrences "index.html" plan = 1 /\
     ArchitecturePlanner.occurrences "app.js" plan = 1) /\
  ArchitecturePlanner.occurrences "index.html"
    (ArchitecturePlanner.listedFiles (Some brokenReply)) = 2 /\
  ArchitecturePlanner.planArchitecture "a movie catalogue" [] (Some brokenReply)
    = Ok ArchitecturePlanner.minimalPlan.
Proof.
  split; [|split; reflexivity].
  eexists. split; [reflexivity|]. split.
  - exact (proj1 (proj2 (planArchitecture_mandatory_files "a movie catalogue" []
                           (Some catalogueReply) _ "index.html" eq_refl
                           (or_introl eq_refl)))).
  - exact (proj1 (proj2 (planArchitecture_mandatory_files "a movie catalogue" []
                           (Some catalogueReply) _ "app.js" eq_refl
                           (or_intror eq_refl)))).
Defined.

(** C1, the claim as written fails: a reply that lists index.html twice
    gives a plan with two entries of that name. *)
Lemma planArchitecture_keeps_repeated_entries :
  exists plan,
    ArchitecturePlanner.planArchitecture "a movie catalogue" [] (Some repeatedReply)
      = Ok plan /\
    ArchitecturePlanner.occurrences "index.html" plan = 2.
Proof. eexists. split; reflexivity. Defined.

(* ################################################################# *)
(** * Properties of [validateAndFixWebsite] *)

Section ValidatorFacts.

Import WebsiteValidator.

Variable projectDir : string.
Variable generatedFiles : list (string * string).
Variable fixReplies : nat -> ModelOutcome.

Lemma writeFileSync_unwritable (d d' : Fs.Disk) (p c : string) :
  Fs.writeFileSync d p c = Ok d' -> Fs.unwritable d' = Fs.unwritable d.
Proof.
  unfold Fs.writeFileSync. destruct (Fs.listed _ _); [discriminate|].
  intros H. injection H as <-. reflexivity.
Qed.

Lemma findFile_name (fileName : value) (name : string) :
  findFile generatedFiles fileName = Some name -> fileName = Some (JStr name).
Proof.
  unfold findFile. destruct fileName as [[| | | s | |]|]; try discriminate.
  destruct (existsb _ _); [|discriminate]. intros H. now injection H as <-.
Qed.

(** An iteration that does not throw either skips the issue, which is then
    not fixable, or makes the next fix call, gets a reply and writes the
    file. *)
Lemma fixIssue_completes (issue : json) (st st' : Progress) :
  fixIssue projectDir generatedFiles fixReplies issue st = (st', Ok tt) ->
  Fs.unwritable (disk st') = Fs.unwritable (disk st) /\
  if fixable generatedFiles issue
  then calls st' = S (calls st) /\
       (exists content, fixReplies (calls st) = Replied content) /\
       (forall name, field issue "fileName" = Some (JStr name) ->
          Fs.listed (Fs.join projectDir name) (Fs.unwritable (disk st)) = false)
  else st' = st.
Proof.
  unfold fixIssue, fixable.
  destruct issue as [| | | | |fields]; cbn [get field];
    try discriminate;
    try (cbn [strict_equal andb]; intros H; injection H as <-; now split).
  destruct (strict_equal (lookup "severity" fields) (Some (JStr "error")));
    cbn [andb]; [|intros H; injection H as <-; now split].
  destruct (findFile generatedFiles (lookup "fileName" fields)) as [name|] eqn:Hfile;
    [|intros H; injection H as <-; now split].
  destruct (lookup "issue" fields) as [[| | | s | |]|]; try discriminate.
  destruct (fixReplies (calls st)) as [e|content] eqn:Hcall; [discriminate|].
  destruct (Fs.writeFileSync _ _ _) as [d'|e] eqn:Hwrite; [|discriminate].
  intros H. injection H as <-. cbn [disk calls].
  split; [exact (writeFileSync_unwritable _ _ _ _ Hwrite)|].
  split; [reflexivity|]. split; [eauto|].
  intros name' Hname'. apply findFile_name in Hfile.
  rewrite Hfile in Hname'. injection Hname' as <-.
  unfold Fs.writeFileSync in Hwrite.
  destruct (Fs.listed _ _); [discriminate | reflexivity].
Qed.

Lemma fixIssue_outcome (issue : json) (st : Progress) :
  (exists st', fixIssue projectDir generatedFiles fixReplies issue st = (st', Ok tt)) \/
  (exists st' e, fixIssue projectDir generatedFiles fixReplies issue st = (st', Throw e)).
Proof.
  destruct (fixIssue projectDir generatedFiles fixReplies issue st) as [st' [[]|e]];
    eauto.
Qed.

(** A failing fix call among those the loop still has to make stops the
    loop with an exception. *)
Lemma fixIssues_call_fails (todo : list json) (st : Progress) (k : nat) (e : exn) :
  calls st <= k < calls st + length (filter (fixable generatedFiles) todo) ->
  fixReplies k = CallFailed e ->
  exists st' e', fixIssues projectDir generatedFiles fixReplies todo st = (st', Throw e').
Proof.
  revert st. induction todo as [|issue rest IH]; intros st Hk Hfail.
  - simpl in Hk. lia.
  - cbn [fixIssues].
    destruct (fixIssue_outcome issue st) as [[st' Hok] | [st' [e' Hthrow]]].
    + rewrite Hok. apply fixIssue_completes in Hok as [_ Hok].
      cbn [filter] in Hk.
      destruct (fixable generatedFiles issue).
      * destruct Hok as [Hcalls [[content Hreply] _]].
        apply IH; [|exact Hfail]. cbn [length] in Hk.
        assert (k <> calls st) by (intros ->; congruence). lia.
      * subst st'. apply IH; assumption.
    + rewrite Hthrow. eauto.
Qed.

(** So does a fixable issue whose file cannot be written. *)
Lemma fixIssues_write_fails (todo : list json) (st : Progress) (issue : json)
  (name : string) :
  In issue todo ->
  fixable generatedFiles issue = true ->
  field issue "fileName" = Some (JStr name) ->
  Fs.listed (Fs.join projectDir name) (Fs.unwritable (disk st)) = true ->
  exists st' e', fixIssues projectDir generatedFiles fixReplies todo st = (st', Throw e').
Proof.
  revert st. induction todo as [|first rest IH]; intros st Hin Hfix Hname Hdenied.
  - destruct Hin.
  - cbn [fixIssues].
    destruct (fixIssue_outcome first st) as [[st' Hok] | [st' [e' Hthrow]]].
    + rewrite Hok. apply fixIssue_completes in Hok as [Hsame Hok].
      destruct Hin as [-> | Hin].
      * rewrite Hfix in Hok. destruct Hok as [_ [_ Hwritable]].
        rewrite (Hwritable name Hname) in Hdenied. discriminate.
      * apply IH; try assumption. now rewrite Hsame.
    + rewrite Hthrow. eauto.
Qed.

(** Each source makes the [try] block throw. *)
Lemma review_and_fix_throws (d : Fs.Disk) (review : option json) :
  ExceptionSource d projectDir generatedFiles review fixReplies ->
  exists d' e,
    review_and_fix d projectDir generatedFiles review fixReplies = (d', Throw e).
Proof.
  intros [-> | v -> Hv | found k e -> Hk Hfail | found issue name -> Hin Hfix Hname Hden];
    unfold review_and_fix.
  - eauto.
  - destruct v; eauto. now destruct (Hv items).
  - destruct (fixIssues_call_fails found {| disk := d; calls := 0; fixed := [] |} k e)
      as [st' [e' ->]]; [simpl; lia | exact Hfail | eauto].
  - destruct (fixIssues_write_fails found {| disk := d; calls := 0; fixed := [] |}
                issue name Hin Hfix Hname Hden) as [st' [e' ->]]; eauto.
Qed.

End ValidatorFacts.

(** C4.  Once the files are read and the client is there, an exception in the
    validation step, whether it comes from the review call or the parse of
    its reply, from a fix call or from a file write, is caught:
    [validateAndFixWebsite] returns the result without issues, with an empty
    list of issues and of fixed files. *)
Theorem validateAndFixWebsite_swallows_exceptions :
  forall (d : Fs.Disk) (projectDir : string)
         (generatedFiles : list (string * string)) (contents : list (string * string))
         (review : option json) (fixReplies : nat -> ModelOutcome),
    WebsiteValidator.readGenerated d projectDir generatedFiles = Ok contents ->
    ExceptionSource d projectDir generatedFiles review fixReplies ->
    snd (WebsiteValidator.validateAndFixWebsite d projectDir generatedFiles
           (Ok tt) review fixReplies)
    = Ok {| WebsiteValidator.hasIssues := false;
            WebsiteValidator.issues := [];
            WebsiteValidator.fixedFiles := [] |}.
Proof.
  intros d projectDir generatedFiles contents review fixReplies Hread Hsource.
  unfold WebsiteValidator.validateAndFixWebsite. rewrite Hread.
  destruct (review_and_fix_throws projectDir generatedFiles fixReplies d review Hsource)
    as [d' [e ->]].
  reflexivity.
Qed.

(** The fix call for the one reported error fails. *)
Lemma validateAndFixWebsite_swallows_exceptions_witness :
  snd (WebsiteValidator.validateAndFixWebsite emptyDisk "site"
         [("index.html", "Home page")] (Ok tt) (Some oneError)
         (fun _ => CallFailed (Error "rate limit")))
  = Ok {| WebsiteValidator.hasIssues := false;
          WebsiteValidator.issues := [];
          WebsiteValidator.fixedFiles := [] |}.
Proof.
  apply (validateAndFixWebsite_swallows_exceptions emptyDisk "site"
           [("index.html", "Home page")] [] (Some oneError)
           (fun _ => CallFailed (Error "rate limit"))).
  - reflexivity.
  - eapply (fix_call_failed _ _ _ _ _ _ 0); [reflexivity | simpl; lia | reflexivity].
Defined.

(* ################################################################# *)
(** * The year of the heuristic analysis *)

Section YearFacts.

Import Regex IntentAnalyzer.

Ltac run_regex :=
  cbn [run seqs alts lit lit_i chr chr_i Opt Plus flat_map app fst snd map].

Lemma char_before_append (prev : option ascii) (a b : string) :
  char_before prev (a ++ b) = char_before (char_before prev a) b.
Proof. revert prev. induction a as [|c a IH]; intros prev; simpl; [reflexivity | apply IH]. Qed.

Lemma take_append (a b : string) : take (String.length a) (a ++ b) = a.
Proof.
  unfold take. induction a as [|x a IH]; simpl; [now destruct b | now rewrite IH].
Qed.

Lemma consumed_append (a rest : string) : consumed (a ++ rest) rest = a.
Proof.
  unfold consumed. rewrite length_append.
  replace (String.length a + String.length rest - String.length rest)
    with (String.length a) by lia.
  apply take_append.
Qed.

Lemma consumed_4 (a b c d : ascii) (rest : string) :
  consumed (String a (String b (String c (String d rest)))) rest =
  String a (String b (String c (String d ""))).
Proof. apply (consumed_append (String a (String b (String c (String d ""))))). Qed.

Lemma take_4 (a b c d : ascii) (rest : string) :
  take 4 (String a (String b (String c (String d rest)))) =
  String a (String b (String c (String d ""))).
Proof. unfold take. cbn. now destruct rest. Qed.

Lemma match_here_year (prev : option ascii) (s : string) :
  match_here yearPattern prev s =
    if year_here prev s then Some (take 4 s) else None.
Proof.
  unfold match_here, yearPattern.
  destruct s as [|a [|b [|c [|d rest]]]]; run_regex; cbn [year_here].
  - destruct (xorb _ _); reflexivity.
  - destruct (xorb _ _); run_regex; [|reflexivity].
    destruct (Ascii.eqb "1" a); destruct (Ascii.eqb "2" a); reflexivity.
  - destruct (xorb _ _); run_regex; [|reflexivity].
    destruct (Ascii.eqb "1" a); destruct (Ascii.eqb "2" a); run_regex;
    destruct (Ascii.eqb "9" b); destruct (Ascii.eqb "0" b); reflexivity.
  - destruct (xorb _ _); run_regex; [|reflexivity].
    destruct (Ascii.eqb "1" a); destruct (Ascii.eqb "2" a); run_regex;
    destruct (Ascii.eqb "9" b); destruct (Ascii.eqb "0" b); run_regex;
    destruct (is_digit c); reflexivity.
  - cbn [word_after].
    destruct (xorb (word_before prev) (is_word a)); cbn [andb]; run_regex;
      [|reflexivity].
    destruct (Ascii.eqb "1" a), (Ascii.eqb "2" a); run_regex;
      destruct (Ascii.eqb "9" b), (Ascii.eqb "0" b); run_regex;
      cbn [andb orb]; try reflexivity;
      (destruct (is_digit c); run_regex; cbn [andb]; [|reflexivity]);
      (destruct (is_digit d); run_regex; cbn [andb word_before]; [|reflexivity]);
      destruct (xorb (is_word d) (word_after rest));
      run_regex; rewrite ?consumed_4, ?take_4; reflexivity.
Qed.

(** Lower-casing leaves digits and the word class alone. *)

Ltac by_cases_on c := destruct c as [[] [] [] [] [] [] [] []]; reflexivity.

Lemma is_word_lower (c : ascii) : is_word (lower_char c) = is_word c.
Proof. by_cases_on c. Qed.

Lemma is_digit_lower (c : ascii) : is_digit (lower_char c) = is_digit c.
Proof. by_cases_on c. Qed.

Lemma word_after_fold (s : string) :
  word_after (fold_case s) = word_after s.
Proof. destruct s; simpl; [reflexivity | apply is_word_lower]. Qed.

Lemma char_before_fold (prev : option ascii) (pre : string) :
  char_before (option_map lower_char prev) (fold_case pre) =
  option_map lower_char (char_before prev pre).
Proof.
  revert prev. induction pre as [|c p IH]; intros prev; simpl; [reflexivity|].
  apply (IH (Some c)).
Qed.

Lemma is_word_ascii (c : ascii) : is_word c = true -> is_ascii c = true.
Proof.
  destruct c as [[] [] [] [] [] [] [] []]; intros H;
    try discriminate H; reflexivity.
Qed.

(** The test against the declarative reading of a token *)

Lemma is_digit_word (c : ascii) : is_digit c = true -> is_word c = true.
Proof.
  destruct c as [[] [] [] [] [] [] [] []]; intros H;
    try discriminate H; reflexivity.
Qed.

Lemma year_here_token (prev : option ascii) (tok post : string) :
  year_token tok ->
  year_here prev (tok ++ post) =
    negb (word_before prev) && negb (word_after post).
Proof.
  intros [c [d [Hc [Hd [-> | ->]]]]]; cbn [append year_here];
    rewrite Hc, Hd, (is_digit_word d Hd);
    destruct (word_before prev), (word_after post); reflexivity.
Qed.

Lemma year_here_inv (prev : option ascii) (s : string) :
  year_here prev s = true ->
  exists tok post,
    s = (tok ++ post)%string /\ year_token tok /\
    word_before prev = false /\ word_after post = false.
Proof.
  destruct s as [|a [|b [|c [|d rest]]]]; try discriminate.
  cbn [year_here]. intros H.
  apply andb_prop in H as [H Hafter]. apply andb_prop in H as [H Hd].
  apply andb_prop in H as [H Hc]. apply andb_prop in H as [Hbefore Hab].
  rewrite (is_digit_word d Hd) in Hafter.
  assert (Ha : is_word a = true).
  { apply orb_prop in Hab as [Hab | Hab]; apply andb_prop in Hab as [Hab _];
      apply Ascii.eqb_eq in Hab; subst a; reflexivity. }
  rewrite Ha in Hbefore.
  exists (String a (String b (String c (String d "")))), rest.
  split; [reflexivity|]. split.
  - exists c, d. split; [exact Hc|]. split; [exact Hd|].
    apply orb_prop in Hab as [Hab | Hab]; apply andb_prop in Hab as [H1 H2];
      apply Ascii.eqb_eq in H1, H2; subst a b; [left | right]; reflexivity.
  - split.
    + destruct (word_before prev); [discriminate | reflexivity].
    + destruct (word_after rest); [discriminate | reflexivity].
Qed.

(** The search passes over a prefix in which the pattern matches nowhere. *)
Lemma search_year_skip (pre : string) :
  forall (prev : option ascii) (rest : string),
    (forall q1 c q2, pre = (q1 ++ String c q2)%string ->
       year_here (char_before prev q1) (String c q2 ++ rest) = false) ->
    search_from yearPattern prev (pre ++ rest) =
    search_from yearPattern (char_before prev pre) rest.
Proof.
  induction pre as [|c p IH]; intros prev rest Hnone; [reflexivity|].
  cbn [append search_from char_before].
  rewrite match_here_year.
  pose proof (Hnone "" c p eq_refl) as H0. cbn [char_before append] in H0.
  rewrite H0.
  apply (IH (Some c)).
  intros q1 c' q2 Hp. apply (Hnone (String c q1) c' q2).
  simpl. now rewrite Hp.
Qed.

(** The first token of a text is what the search of the year pattern
    returns on it. *)
Lemma search_finds_first_year (text pre tok post : string) :
  first_year_token text pre tok post ->
  search yearPattern text = Some tok.
Proof.
  intros [[-> [Htok [Hbefore Hafter]]] Hfirst]. unfold search.
  rewrite search_year_skip.
  - assert (Hhere : year_here (char_before None pre) (tok ++ post) = true).
    { rewrite (year_here_token _ _ _ Htok), Hbefore, Hafter. reflexivity. }
    assert (Htake : take 4 (tok ++ post) = tok).
    { destruct Htok as [c [d [_ [_ [-> | ->]]]]]; apply take_4. }
    destruct (tok ++ post)%string as [|x s] eqn:E; [discriminate Hhere|].
    cbn [search_from]. rewrite match_here_year, Hhere, Htake. reflexivity.
  - intros q1 c q2 Hpre.
    destruct (year_here (char_before None q1) (String c q2 ++ tok ++ post)) eqn:E;
      [|reflexivity].
    exfalso. apply year_here_inv in E as [tok' [post' [Hs [Htok' [Hb Ha]]]]].
    assert (Hat : year_token_at (pre ++ tok ++ post) q1 tok' post').
    { split; [|now repeat split].
      rewrite Hpre, append_assoc. now rewrite Hs. }
    apply Hfirst in Hat. rewrite Hpre, length_append in Hat. simpl in Hat. lia.
Qed.

(** A text without a year token gives the search nothing. *)
Lemma search_year_nothing (text : string) :
  (forall pre tok post, ~ year_token_at text pre tok post) ->
  search yearPattern text = None.
Proof.
  intros Hnone. unfold search.
  rewrite <- (append_empty_r text).
  rewrite search_year_skip.
  - cbn [search_from]. rewrite match_here_year. reflexivity.
  - intros q1 c q2 Htext.
    destruct (year_here (char_before None q1) (String c q2 ++ "")) eqn:E;
      [|reflexivity].
    exfalso. apply year_here_inv in E as [tok [post [Hs [Htok [Hb Ha]]]]].
    apply (Hnone q1 tok post). split; [|now repeat split].
    rewrite Htext. rewrite append_empty_r in Hs. now rewrite Hs.
Qed.

(** Lower case and the year tokens *)

Lemma digit_fresh (c : ascii) :
  is_digit c = true -> fresh lower_special c = true.
Proof.
  destruct c as [[] [] [] [] [] [] [] []]; intros H;
    try discriminate H; reflexivity.
Qed.

Lemma digit_not_lower (c : ascii) : is_digit c = true -> is_lower c = false.
Proof.
  destruct c as [[] [] [] [] [] [] [] []]; intros H;
    try discriminate H; reflexivity.
Qed.

Lemma year_token_fresh (tok : string) :
  year_token tok ->
  all_chars (fresh lower_special) tok = true /\
    all_chars (fun c => negb (is_lower c)) tok = true /\ tok <> "".
Proof.
  intros [c [d [Hc [Hd [-> | ->]]]]]; cbn [all_chars];
    rewrite (digit_fresh c Hc), (digit_fresh d Hd),
            (digit_not_lower c Hc), (digit_not_lower d Hd);
    repeat split; discriminate.
Qed.

Lemma year_token_fold (tok : string) : year_token tok -> fold_case tok = tok.
Proof.
  intros [c [d [Hc [Hd Htok]]]].
  assert (Hl : forall x, is_digit x = true -> lower_char x = x).
  { intros x. destruct x as [[] [] [] [] [] [] [] []]; intros H;
      try discriminate H; reflexivity. }
  destruct Htok as [-> | ->]; cbn [fold_case map_chars];
    rewrite (Hl c Hc), (Hl d Hd); reflexivity.
Qed.

Lemma char_before_last (prev : option ascii) (pre : string) :
  (pre = "" /\ char_before prev pre = prev) \/
  exists front c, pre = (front ++ String c "")%string /\ char_before prev pre = Some c.
Proof.
  revert prev. induction pre as [|x pre IH]; intros prev; [now left|].
  right. cbn [char_before].
  destruct (IH (Some x)) as [[-> H] | [front [c [-> H]]]].
  - exists "", x. now split.
  - exists (String x front), c. now split.
Qed.

(** A word character in front of a place is still one in the lower case. *)
Lemma word_before_lowered (pre : string) :
  word_before (char_before None pre) = true ->
  word_before (char_before None (toLowerCase pre)) = true.
Proof.
  destruct (char_before_last None pre) as [[-> _] | [front [c [-> H]]]];
    [discriminate|].
  rewrite H. cbn [word_before]. intros Hc.
  rewrite toLowerCase_append
    by (cbn [boundary]; now apply is_word_ascii).
  rewrite char_before_append.
  rewrite (toLowerCase_ascii_text (String c ""))
    by (cbn [all_chars]; now rewrite (is_word_ascii c Hc)).
  cbn [fold_case map_chars char_before word_before].
  now rewrite is_word_lower.
Qed.

Lemma word_after_lowered (post : string) :
  word_after post = true -> word_after (toLowerCase post) = true.
Proof.
  destruct post as [|c post]; [discriminate|]. cbn [word_after]. intros Hc.
  change (String c post) with (String c "" ++ post)%string.
  rewrite toLowerCase_ascii
    by (cbn [all_chars]; now rewrite (is_word_ascii c Hc)).
  cbn [fold_case map_chars append word_after]. now rewrite is_word_lower.
Qed.

(** A year token of the lower case of a text is a year token of the text. *)
Lemma year_token_lowered (text p tok q : string) :
  year_token_at (toLowerCase text) p tok q ->
  exists pre post,
    year_token_at text pre tok post /\
    toLowerCase pre = p /\ toLowerCase post = q.
Proof.
  intros [Htext [Htok [Hbefore Hafter]]].
  destruct (year_token_fresh tok Htok) as [Hfresh [Hkeep Hne]].
  destruct (toLowerCase_inv text p tok q Hfresh Hne Htext)
    as [pre [x [post [-> [Hx [Hpre [Hfold Hpost]]]]]]].
  apply lower_keeps in Hfold; [|exact Hkeep]. subst x.
  exists pre, post. split; [|now split].
  split; [reflexivity|]. split; [exact Htok|]. split.
  - destruct (word_before (char_before None pre)) eqn:E; [|reflexivity].
    apply word_before_lowered in E. rewrite Hpre in E. congruence.
  - destruct (word_after post) eqn:E; [|reflexivity].
    apply word_after_lowered in E. rewrite Hpost in E. congruence.
Qed.

(** In a text of ASCII the first year token is the first one of its lower
    case. *)
Lemma first_year_token_ascii (text pre tok post : string) :
  all_chars is_ascii text = true ->
  first_year_token text pre tok post ->
  first_year_token (toLowerCase text) (fold_case pre) tok (fold_case post).
Proof.
  intros Hascii [[Htext [Htok [Hbefore Hafter]]] Hfirst]. split.
  - split; [|split; [exact Htok|split]].
    + rewrite (toLowerCase_ascii_text text Hascii), Htext.
      unfold fold_case. rewrite !map_chars_append.
      fold (fold_case tok). now rewrite (year_token_fold tok Htok).
    + change (@None ascii) with (option_map lower_char None).
      rewrite char_before_fold.
      destruct (char_before None pre); [|reflexivity].
      cbn [option_map word_before] in *. now rewrite is_word_lower.
    + now rewrite word_after_fold.
  - intros p' tok' q' Hat.
    destruct (year_token_lowered _ _ _ _ Hat) as [pre' [post' [Hat' [Hp _]]]].
    pose proof (Hfirst _ _ _ Hat') as Hlen.
    destruct Hat' as [Htext' _].
    assert (Hpre' : all_chars is_ascii pre' = true).
    { rewrite Htext', all_chars_append in Hascii.
      now apply andb_true_iff in Hascii as [H _]. }
    rewrite <- Hp, (toLowerCase_ascii_text pre' Hpre').
    unfold fold_case. now rewrite !map_chars_length.
Qed.

(** A text whose front is free of year tokens has none that starts there. *)
Lemma year_free_first (pre rest : string) :
  year_free None pre rest = true ->
  forall pre' tok' post',
    year_token_at (pre ++ rest) pre' tok' post' ->
    String.length pre <= String.length pre'.
Proof.
  intros Hfree pre' tok' post' [Htext [Htok [Hb Ha]]].
  revert Hfree pre' Htext Hb. generalize (@None ascii) as prev.
  induction pre as [|c p IH]; intros prev Hfree pre' Htext Hb;
    [simpl; lia|].
  cbn [year_free] in Hfree. apply andb_prop in Hfree as [Hhere Hfree].
  destruct pre' as [|c' p'].
  - cbn [append char_before] in Htext, Hb.
    change (String c p ++ rest)%string with (String c (p ++ rest)) in Hhere.
    rewrite Htext, (year_here_token _ _ _ Htok), Hb, Ha in Hhere.
    discriminate Hhere.
  - cbn [append] in Htext. injection Htext as <- Htext.
    cbn [String.length]. apply le_n_S.
    exact (IH (Some c) Hfree p' Htext Hb).
Qed.

Lemma digit_cases (c : ascii) :
  is_digit c = true ->
  In c ["0"; "1"; "2"; "3"; "4"; "5"; "6"; "7"; "8"; "9"]%char.
Proof.
  destruct c as [[] [] [] [] [] [] [] []]; intros H;
    try discriminate H; simpl; tauto.
Qed.

(** [parseInt] reads a token as the number whose decimal text it is. *)
Lemma parseInt_year_token (tok : string) :
  year_token tok ->
  exists year : Z,
    parseInt tok = Some year /\ string_of_Z year = tok /\ year <> 0%Z.
Proof.
  intros [c [d [Hc [Hd Htok]]]].
  apply digit_cases in Hc, Hd. simpl in Hc, Hd.
  destruct Htok as [-> | ->];
    repeat (destruct Hc as [<- | Hc]; [|]); try contradiction;
    repeat (destruct Hd as [<- | Hd]; [|]); try contradiction;
    (eexists; split; [vm_compute; reflexivity | split; [vm_compute; reflexivity | discriminate]]).
Qed.

End YearFacts.

(** C8.  The heuristic analysis examines the lower case of the request.
    When [tok] is the first year token of that text, or when the request is
    written in ASCII and [tok] is its own first year token, and the model
    path fails, the analysis returns filters whose [year] is the number
    written by the token, and the limit 100. *)
Theorem heuristic_recovers_first_year :
  forall (userIntent pre tok post : string),
    first_year_token (toLowerCase userIntent) pre tok post \/
    (all_chars is_ascii userIntent = true /\
     first_year_token userIntent pre tok post) ->
    exists year : Z,
      string_of_Z year = tok /\
      field (IntentAnalyzer.filters (IntentAnalyzer.analyzeIntent userIntent None))
        "year" = Some (JNum year) /\
      IntentAnalyzer.limit (IntentAnalyzer.analyzeIntent userIntent None) = 100%Z.
Proof.
  intros userIntent pre tok post H.
  assert (Hsearch : Regex.search IntentAnalyzer.yearPattern (toLowerCase userIntent)
                    = Some tok).
  { destruct H as [H | [Hascii H]].
    - exact (search_finds_first_year _ _ _ _ H).
    - exact (search_finds_first_year _ _ _ _
               (first_year_token_ascii _ _ _ _ Hascii H)). }
  assert (Htok : year_token tok).
  { destruct H as [[[_ [Htok _]] _] | [_ [[_ [Htok _]] _]]]; exact Htok. }
  destruct (parseInt_year_token tok Htok) as [year [Hparse [Htext Hnz]]].
  exists year. split; [exact Htext|]. split; [|reflexivity].
  cbn [IntentAnalyzer.analyzeIntent]. unfold IntentAnalyzer.heuristicAnalysis.
  cbn [IntentAnalyzer.filters]. rewrite Hsearch, Hparse.
  apply Z.eqb_neq in Hnz. rewrite Hnz. reflexivity.
Qed.

(** Of the two years of the request the first one is recovered. *)
Lemma heuristic_recovers_first_year_witness :
  exists year : Z,
    string_of_Z year = "2019" /\
    field (IntentAnalyzer.filters
             (IntentAnalyzer.analyzeIntent "movies from 2019 or 2021" None))
      "year" = Some (JNum year) /\
    IntentAnalyzer.limit
      (IntentAnalyzer.analyzeIntent "movies from 2019 or 2021" None) = 100%Z.
Proof.
  apply (heuristic_recovers_first_year "movies from 2019 or 2021"
           "movies from " "2019" " or 2021").
  right. split; [reflexivity|]. split.
  - split; [reflexivity|]. split; [|split; reflexivity].
    exists "1"%char, "9"%char. repeat split. right. reflexivity.
  - apply (year_free_first "movies from " "2019 or 2021"). reflexivity.
Defined.

(** C8, the claim as written fails: behind a Kelvin sign, which is no word
    character, 2019 is a year token of the request, and the only one.  In
    lower case the sign is the letter k, 2019 is the end of the word k2019,
    and the analysis finds no year. *)
Lemma heuristic_misses_year_behind_kelvin_sign :
  first_year_token kelvinRequest kelvin_sign "2019" "" /\
  toLowerCase kelvinRequest = "k2019" /\
  field (IntentAnalyzer.filters (IntentAnalyzer.analyzeIntent kelvinRequest None))
    "year" = None.
Proof.
  split; [|split; reflexivity]. split.
  - split; [reflexivity|]. split; [|split; reflexivity].
    exists "1"%char, "9"%char. repeat split. right. reflexivity.
  - apply (year_free_first kelvin_sign "2019"). reflexivity.
Defined.

(* ################################################################# *)
(** * Facts about the matcher *)

Section RegexFacts.

Import Regex.

Lemma In_seq (r1 r2 : regex) (prev : option ascii) (s : string) (q1 q2 : place) :
  In q1 (run r1 prev s) -> In q2 (run r2 (fst q1) (snd q1)) ->
  In q2 (run (Seq r1 r2) prev s).
Proof. intros H1 H2. cbn [run]. apply in_flat_map. eauto. Qed.

Lemma In_seq_inv (r1 r2 : regex) (prev : option ascii) (s : string) (q : place) :
  In q (run (Seq r1 r2) prev s) ->
  exists q1, In q1 (run r1 prev s) /\ In q (run r2 (fst q1) (snd q1)).
Proof. cbn [run]. intros H. apply in_flat_map in H. exact H. Qed.

Lemma In_chr_inv (p : ascii -> bool) (prev : option ascii) (s : string) (q : place) :
  In q (run (Chr p) prev s) ->
  exists c, s = String c (snd q) /\ p c = true /\ fst q = Some c.
Proof.
  cbn [run]. destruct s as [|c s]; [intros []|].
  destruct (p c) eqn:E; [|intros []].
  intros [<- | []]. exists c. auto.
Qed.

Lemma many_sound (p : ascii -> bool) (s : string) :
  forall prev q, In q (many p prev s) ->
  exists x, s = (x ++ snd q)%string /\ fst q = char_before prev x /\ all_chars p x = true.
Proof.
  induction s as [|c s IH]; intros prev q; cbn [many].
  - intros [<- | []]. exists "". auto.
  - destruct (p c) eqn:E.
    + intros H. apply in_app_or in H as [H | [<- | []]].
      * destruct (IH _ _ H) as [x [Hx [Hq Hall]]].
        exists (String c x). simpl. rewrite E, Hall. split; [now rewrite <- Hx | auto].
      * exists "". auto.
    + intros [<- | []]. exists "". auto.
Qed.

Lemma many_lazy_sound (p : ascii -> bool) (s : string) :
  forall prev q, In q (many_lazy p prev s) ->
  exists x, s = (x ++ snd q)%string /\ fst q = char_before prev x /\ all_chars p x = true.
Proof.
  induction s as [|c s IH]; intros prev q; cbn [many_lazy].
  - intros [<- | []]. exists "". auto.
  - intros [<- | H]; [exists ""; auto|].
    destruct (p c) eqn:E; [|destruct H].
    destruct (IH _ _ H) as [x [Hx [Hq Hall]]].
    exists (String c x). simpl. rewrite E, Hall. split; [now rewrite <- Hx | auto].
Qed.

(** Every place [run] returns lies behind the start, and remembers the last
    character in front of it. *)
Lemma run_sound (r : regex) :
  forall prev s q, In q (run r prev s) ->
  exists x, s = (x ++ snd q)%string /\ fst q = char_before prev x.
Proof.
  induction r as [| p | r1 IH1 r2 IH2 | r1 IH1 r2 IH2 | p | p | | m | m | r IH];
    intros prev s q Hq.
  - destruct Hq as [<- | []]. exists "". auto.
  - apply In_chr_inv in Hq as [c [Hs [_ Hf]]].
    exists (String c ""). simpl. auto.
  - apply In_seq_inv in Hq as [q1 [H1 H2]].
    destruct (IH1 _ _ _ H1) as [x1 [Hs1 Hf1]].
    destruct (IH2 _ _ _ H2) as [x2 [Hs2 Hf2]].
    exists (x1 ++ x2)%string. rewrite append_assoc, <- Hs2, <- Hs1.
    split; [reflexivity|]. now rewrite char_before_append, <- Hf1.
  - cbn [run] in Hq. apply in_app_or in Hq as [Hq | Hq]; eauto.
  - destruct (many_sound _ _ _ _ Hq) as [x [H1 [H2 _]]]. eauto.
  - destruct (many_lazy_sound _ _ _ _ Hq) as [x [H1 [H2 _]]]. eauto.
  - cbn [run] in Hq. destruct (xorb _ _); [|destruct Hq].
    destruct Hq as [<- | []]. exists "". auto.
  - cbn [run] in Hq. destruct prev as [c|].
    + destruct (_ && _); [|destruct Hq]. destruct Hq as [<- | []]. exists "". auto.
    + destruct Hq as [<- | []]. exists "". auto.
  - cbn [run] in Hq. destruct s as [|c s].
    + destruct Hq as [<- | []]. exists "". auto.
    + destruct (_ && _); [|destruct Hq]. destruct Hq as [<- | []]. exists "". auto.
  - cbn [run] in Hq. destruct (run r prev s); [destruct Hq|].
    destruct Hq as [<- | []]. exists "". auto.
Qed.

Lemma match_here_inv (r : regex) (prev : option ascii) (s m : string) :
  match_here r prev s = Some m ->
  exists rest, In (char_before prev m, rest) (run r prev s) /\ s = (m ++ rest)%string.
Proof.
  unfold match_here. destruct (run r prev s) as [|[p' s'] l] eqn:E; [discriminate|].
  intros H. injection H as <-.
  destruct (run_sound r prev s (p', s')) as [x [Hs Hf]]; [rewrite E; now left|].
  simpl in Hs, Hf. exists s'. subst s. rewrite consumed_append.
  split; [rewrite Hf; now left | reflexivity].
Qed.

Lemma match_here_some (r : regex) (prev : option ascii) (s : string) (q : place) :
  In q (run r prev s) -> exists m, match_here r prev s = Some m.
Proof.
  unfold match_here. destruct (run r prev s) as [|[p' s'] l]; [intros []|eauto].
Qed.

Lemma search_from_inv (r : regex) (s : string) :
  forall prev m, search_from r prev s = Some m ->
  exists pre rest, s = (pre ++ rest)%string /\
                   match_here r (char_before prev pre) rest = Some m.
Proof.
  induction s as [|c s IH]; intros prev m; cbn [search_from].
  - destruct (match_here r prev "") eqn:E; [|discriminate].
    intros H. injection H as <-. exists "", "". auto.
  - destruct (match_here r prev (String c s)) eqn:E.
    + intros H. injection H as <-. exists "", (String c s). auto.
    + intros H. destruct (IH _ _ H) as [pre [rest [Hs Hm]]].
      exists (String c pre), rest. simpl. now rewrite Hs.
Qed.

Lemma search_from_some (r : regex) (pre : string) :
  forall prev rest m,
    match_here r (char_before prev pre) rest = Some m ->
    exists m', search_from r prev (pre ++ rest) = Some m'.
Proof.
  induction pre as [|c pre IH]; intros prev rest m Hm.
  - simpl in *. destruct rest; cbn [search_from]; rewrite Hm; eauto.
  - cbn [append search_from]. destruct (match_here r prev _); [eauto|].
    apply (IH (Some c) rest m Hm).
Qed.

(** Building matches *)

Lemma In_chr (p : ascii -> bool) (prev : option ascii) (c : ascii) (s : string) :
  p c = true -> In (Some c, s) (run (Chr p) prev (String c s)).
Proof. intros H. cbn [run]. rewrite H. now left. Qed.

Lemma In_many (p : ascii -> bool) (x : string) :
  forall prev rest, all_chars p x = true ->
  In (char_before prev x, rest) (many p prev (x ++ rest)).
Proof.
  induction x as [|c x IH]; intros prev rest Hall.
  - simpl. destruct rest as [|d rest]; cbn [many]; [now left|].
    destruct (p d); [apply in_or_app; right|]; now left.
  - simpl in Hall. apply andb_prop in Hall as [Hc Hall].
    cbn [append many char_before]. rewrite Hc. apply in_or_app. left.
    now apply IH.
Qed.

Lemma In_plus (p : ascii -> bool) (x : string) (prev : option ascii) (rest : string) :
  x <> "" -> all_chars p x = true ->
  In (char_before prev x, rest) (run (Plus p) prev (x ++ rest)).
Proof.
  intros Hne Hall. destruct x as [|c x]; [congruence|].
  simpl in Hall. apply andb_prop in Hall as [Hc Hall].
  unfold Plus. apply In_seq with (q1 := (Some c, (x ++ rest)%string)).
  - now apply In_chr.
  - cbn [fst snd run char_before]. now apply In_many.
Qed.

Lemma In_lit_i (t : string) :
  forall x prev rest,
    fold_case x = fold_case t ->
    In (char_before prev x, rest) (run (lit_i t) prev (x ++ rest)).
Proof.
  induction t as [|c t IH]; intros x prev rest Hx.
  - destruct x; [now left | discriminate].
  - destruct x as [|d x]; [discriminate|].
    cbn [fold_case map_chars] in Hx. injection Hx as Hd Hx.
    assert (Hchr : In (Some d, (x ++ rest)%string) (run (chr_i c) prev (String d (x ++ rest)))).
    { apply In_chr. rewrite Hd. apply Ascii.eqb_refl. }
    destruct t as [|c' t].
    + destruct x; [|discriminate]. exact Hchr.
    + cbn [lit_i]. apply In_seq with (q1 := (Some d, (x ++ rest)%string)); [exact Hchr|].
      apply (IH x (Some d) rest). exact Hx.
Qed.

Lemma In_opt_skip (r : regex) (prev : option ascii) (s : string) :
  In (prev, s) (run (Opt r) prev s).
Proof. unfold Opt. cbn [run]. apply in_or_app. right. now left. Qed.

Lemma In_opt_take (r : regex) (prev : option ascii) (s : string) (q : place) :
  In q (run r prev s) -> In q (run (Opt r) prev s).
Proof. intros H. unfold Opt. cbn [run]. apply in_or_app. now left. Qed.

End RegexFacts.

(* ################################################################# *)
(** * Properties of [deployToVercel] *)

Section DeployFacts.

Import Regex VercelDeployer.

Lemma In_lit_inv (t : string) :
  forall prev s q, In q (run (lit t) prev s) -> s = (t ++ snd q)%string.
Proof.
  induction t as [|c t IH]; intros prev s q Hq.
  - destruct Hq as [<- | []]. reflexivity.
  - assert (Hchr : forall prev s q, In q (run (chr c) prev s) -> s = String c (snd q)).
    { intros prev0 s0 q0 H. apply In_chr_inv in H as [c' [Hs [Hc _]]].
      apply Ascii.eqb_eq in Hc. now subst c'. }
    destruct t as [|c' t].
    + apply Hchr in Hq. exact Hq.
    + cbn [lit] in Hq. apply In_seq_inv in Hq as [q1 [H1 H2]].
      apply Hchr in H1. apply IH in H2. simpl. now rewrite H1, H2.
Qed.

Lemma scheme_match (scheme rest : string) (prev : option ascii) :
  fold_case scheme = "http" \/ fold_case scheme = "https" ->
  exists p', In (p', rest)
               (run (Seq (lit_i "http") (Opt (chr_i "s"))) prev (scheme ++ rest)).
Proof.
  intros [H | H].
  - eexists. eapply In_seq; [apply In_lit_i; exact H|]. apply In_opt_skip.
  - destruct scheme as [|a [|b [|c [|d [|e [|f scheme]]]]]]; try discriminate H.
    cbn [fold_case map_chars] in H. injection H as Ha Hb Hc Hd He.
    eexists.
    eapply In_seq with (q1 := (_, (String e rest))).
    + apply (In_lit_i "http" (String a (String b (String c (String d ""))))).
      cbn [fold_case map_chars]. now rewrite Ha, Hb, Hc, Hd.
    + cbn [fst snd]. apply In_opt_take. apply In_chr. rewrite He. reflexivity.
Qed.

(** The domain pattern matches a hosting URL in front of any text. *)
Lemma domain_match (u rest : string) (prev : option ascii) :
  hosting_url u ->
  exists p', In (p', rest) (run domainPattern prev (u ++ rest)).
Proof.
  intros [scheme [host [domain [tld [-> [Hscheme [Hne [Hhost [Hdomain Htld]]]]]]]]].
  rewrite !append_assoc.
  destruct (scheme_match scheme ("://" ++ host ++ domain ++ tld ++ rest) prev Hscheme)
    as [p1 H1].
  unfold domainPattern. cbn [seqs].
  cbn [run] in H1. apply in_flat_map in H1 as [q0 [Hq0 Hq1]].
  eexists. eapply In_seq; [exact Hq0|].
  eapply In_seq; [exact Hq1|]. cbn [fst snd].
  eapply In_seq; [apply (In_lit_i "://" "://"); reflexivity|]. cbn [fst snd].
  eapply In_seq; [apply In_plus; [exact Hne | exact Hhost]|]. cbn [fst snd].
  eapply In_seq; [apply In_lit_i; exact Hdomain|]. cbn [fst snd].
  cbn [run]. apply in_or_app.
  destruct Htld as [H | H]; [left | right]; apply In_lit_i; exact H.
Qed.

Lemma contains_hosting_url_found (out : string) :
  contains_hosting_url out -> exists m, search loosePattern out = Some m.
Proof.
  intros [pre [u [post [-> Hu]]]]. unfold search.
  destruct (domain_match u post (char_before None pre) Hu) as [p' Hin].
  assert (Hloose : In (p', post) (run loosePattern (char_before None pre) (u ++ post))).
  { unfold loosePattern. eapply In_seq; [exact Hin|]. apply In_opt_skip. }
  destruct (match_here_some _ _ _ _ Hloose) as [m Hm].
  exact (search_from_some _ _ _ _ _ Hm).
Qed.

Lemma hosting_url_nonempty (u : string) : hosting_url u -> nonempty u = true.
Proof.
  intros [scheme [host [domain [tld [-> [Hscheme _]]]]]].
  destruct scheme; [destruct Hscheme; discriminate | reflexivity].
Qed.

Lemma contains_hosting_url_nonempty (out : string) :
  contains_hosting_url out -> nonempty out = true.
Proof.
  intros [pre [u [post [-> Hu]]]]. apply hosting_url_nonempty in Hu.
  destruct pre; [|reflexivity]. destruct u; [discriminate | reflexivity].
Qed.

Lemma contains_hosting_url_append (a b : string) :
  contains_hosting_url a \/ contains_hosting_url b ->
  contains_hosting_url (a ++ b).
Proof.
  intros [[pre [u [post [-> Hu]]]] | [pre [u [post [-> Hu]]]]].
  - exists pre, u, (post ++ b)%string. now rewrite !append_assoc.
  - exists (a ++ pre)%string, u, post. now rewrite !append_assoc.
Qed.

(** A match of the domain pattern, alone or followed by more, starts with
    the letter h in either case. *)
Lemma domain_first_char (prev : option ascii) (s : string) (q : place) :
  In q (run domainPattern prev s) ->
  exists c s1, s = String c s1 /\ lower_char c = "h"%char /\
               String.length (snd q) <= String.length s1.
Proof.
  unfold domainPattern. cbn [seqs lit_i]. intros Hq.
  apply In_seq_inv in Hq as [q1 [Hq1 Hq]].
  apply In_seq_inv in Hq1 as [q0 [Hq0 Hq1]].
  apply In_chr_inv in Hq0 as [c [Hs [Hc _]]].
  apply Ascii.eqb_eq in Hc.
  apply run_sound in Hq1 as [x1 [Hx1 _]]. apply run_sound in Hq as [x2 [Hx2 _]].
  exists c, (snd q0). split; [exact Hs|]. split; [exact Hc|].
  rewrite Hx1, Hx2, !length_append. lia.
Qed.

Lemma match_first_char (r : regex) (prev : option ascii) (s m : string) :
  (forall q, In q (run r prev s) ->
     exists c s1, s = String c s1 /\ lower_char c = "h"%char /\
                  String.length (snd q) <= String.length s1) ->
  match_here r prev s = Some m ->
  exists c m', m = String c m' /\ lower_char c = "h"%char.
Proof.
  intros Hfirst Hm. apply match_here_inv in Hm as [rest [Hin Hs]].
  destruct (Hfirst _ Hin) as [c [s1 [Hs1 [Hc Hlen]]]]. cbn [snd] in Hlen.
  destruct m as [|c' m'].
  - simpl in Hs. subst s. rewrite Hs1 in Hlen. simpl in Hlen. lia.
  - exists c', m'. split; [reflexivity|].
    rewrite Hs in Hs1. simpl in Hs1. now injection Hs1 as -> _.
Qed.

Lemma seq_first_char (r : regex) (prev : option ascii) (s : string) (q : place) :
  In q (run (Seq domainPattern r) prev s) ->
  exists c s1, s = String c s1 /\ lower_char c = "h"%char /\
               String.length (snd q) <= String.length s1.
Proof.
  intros Hq. apply In_seq_inv in Hq as [q1 [Hq1 Hq]].
  destruct (domain_first_char _ _ _ Hq1) as [c [s1 [Hs [Hc Hlen]]]].
  apply run_sound in Hq as [x [Hx _]].
  exists c, s1. split; [exact Hs|]. split; [exact Hc|].
  rewrite Hx, length_append in Hlen. lia.
Qed.

Lemma search_first_char (r : regex) (s m : string) :
  (forall prev s q, In q (run r prev s) ->
     exists c s1, s = String c s1 /\ lower_char c = "h"%char /\
                  String.length (snd q) <= String.length s1) ->
  search r s = Some m ->
  exists c m', m = String c m' /\ lower_char c = "h"%char.
Proof.
  intros Hfirst Hm. apply search_from_inv in Hm as [pre [rest [_ Hm]]].
  exact (match_first_char _ _ _ _ (Hfirst _ _) Hm).
Qed.

Lemma findUrl_first_char (out m : string) :
  findUrl out = Some m -> exists c m', m = String c m' /\ lower_char c = "h"%char.
Proof.
  unfold findUrl. destruct (search anchoredPattern out) as [a|] eqn:E.
  - intros H. injection H as <-.
    exact (search_first_char _ _ _ (fun prev s q => seq_first_char _ prev s q) E).
  - intros H.
    exact (search_first_char _ _ _ (fun prev s q => seq_first_char _ prev s q) H).
Qed.

Lemma lower_h (c : ascii) : lower_char c = "h"%char -> c = "h"%char \/ c = "H"%char.
Proof.
  destruct c as [[] [] [] [] [] [] [] []]; intros H;
    try discriminate H; auto.
Qed.

Lemma trim_keeps_first (c : ascii) (s : string) :
  is_space c = false -> exists r, trim (String c s) = String c r.
Proof.
  intros Hc. unfold trim. cbn [trimEnd].
  destruct (trimEnd s) as [|d r]; rewrite ?Hc; cbn [trimStart]; rewrite Hc; eauto.
Qed.

(** The clean-up of a match never yields the empty string. *)
Lemma tidyUrl_nonempty (c : ascii) (m : string) :
  lower_char c = "h"%char -> nonempty (tidyUrl (String c m)) = true.
Proof.
  intros Hc. unfold tidyUrl.
  assert (Hsp : is_space c = false)
    by (destruct (lower_h c Hc) as [-> | ->]; reflexivity).
  destruct (trim_keeps_first c m Hsp) as [r ->].
  assert (Hu : exists c1 r1,
             (if startsWith (String c r) "http" then String c r
              else ("https://" ++ String c r)%string) = String c1 r1 /\
             lower_char c1 = "h"%char).
  { destruct (startsWith _ _); [exists c, r; auto|].
    eexists "h"%char, _. split; reflexivity. }
  destruct Hu as [c1 [r1 [-> Hc1]]].
  assert (Hd : dropTrailingSlash (String c1 r1) = String c1 (dropTrailingSlash r1))
    by (destruct (lower_h c1 Hc1) as [-> | ->]; reflexivity).
  rewrite Hd.
  destruct (test domainEnd _); [reflexivity|].
  destruct (search domainPattern _) as [clean|] eqn:E; [|reflexivity].
  destruct (search_first_char _ _ _ domain_first_char E) as [c2 [m2 [-> _]]].
  reflexivity.
Qed.

Lemma In_lit_i_inv (t : string) :
  forall prev s q, In q (run (lit_i t) prev s) ->
  exists x, s = (x ++ snd q)%string /\ fold_case x = fold_case t.
Proof.
  induction t as [|c t IH]; intros prev s q.
  - cbn [lit_i run]. intros [<- | []]. exists "". auto.
  - assert (Hone : forall prev0 s0 q0, In q0 (run (chr_i c) prev0 s0) ->
               exists d, s0 = String d (snd q0) /\ lower_char d = lower_char c).
    { intros prev0 s0 q0 H. apply In_chr_inv in H as [d [Hs [Hd _]]].
      apply Ascii.eqb_eq in Hd. eauto. }
    destruct t as [|c' t'].
    + cbn [lit_i]. intros H. apply Hone in H as [d [-> Hd]].
      exists (String d ""). cbn [append fold_case map_chars]. now rewrite Hd.
    + change (lit_i (String c (String c' t')))
        with (Seq (chr_i c) (lit_i (String c' t'))).
      intros H. apply In_seq_inv in H as [q1 [H1 H2]].
      apply Hone in H1 as [d [-> Hd]].
      apply IH in H2 as [x [Hx Hl]].
      exists (String d x). cbn [append fold_case map_chars].
      rewrite <- Hx. split; [reflexivity|].
      rewrite Hd. f_equal. exact Hl.
Qed.

(** What the domain pattern matches is a URL of the hosting domain. *)
Lemma domain_match_inv (prev : option ascii) (s : string) (q : place) :
  In q (run domainPattern prev s) ->
  exists u, s = (u ++ snd q)%string /\ hosting_url u.
Proof.
  unfold domainPattern. cbn [seqs]. intros H.
  apply In_seq_inv in H as [q1 [H1 H]]. apply In_lit_i_inv in H1 as [x1 [-> L1]].
  apply In_seq_inv in H as [q2 [H2 H]].
  apply In_seq_inv in H as [q3 [H3 H]]. apply In_lit_i_inv in H3 as [x3 [E3 L3]].
  apply In_seq_inv in H as [q4 [H4 H]].
  apply In_seq_inv in H as [q5 [H5 H]]. apply In_lit_i_inv in H5 as [x5 [E5 L5]].
  assert (H6 : exists x6, snd q5 = (x6 ++ snd q)%string /\
                 (fold_case x6 = "app" \/ fold_case x6 = "com")).
  { cbn [run] in H. apply in_app_or in H as [H | H];
      apply In_lit_i_inv in H as [x6 [E6 L6]]; exists x6; auto. }
  destruct H6 as [x6 [E6 L6]].
  assert (Hhost : exists host, snd q3 = (host ++ snd q4)%string /\
                    host <> "" /\ all_chars hostChar host = true).
  { unfold Plus in H4. apply In_seq_inv in H4 as [q0 [H0 H4]].
    apply In_chr_inv in H0 as [c [Hs [Hc _]]].
    apply many_sound in H4 as [x [Hx [_ Hall]]].
    exists (String c x). rewrite Hs, Hx. simpl. rewrite Hc, Hall.
    repeat split. discriminate. }
  destruct Hhost as [host [E4 [Hne Hall]]].
  assert (Hscheme : exists o, snd q1 = (o ++ snd q2)%string /\
                      (fold_case (x1 ++ o) = "http" \/ fold_case (x1 ++ o) = "https")).
  { unfold Opt in H2. cbn [run] in H2. apply in_app_or in H2 as [H2 | [<- | []]].
    - apply In_chr_inv in H2 as [c [Hs [Hc _]]]. apply Ascii.eqb_eq in Hc.
      exists (String c ""). split; [exact Hs|]. right.
      unfold fold_case. rewrite map_chars_append. fold (fold_case x1).
      rewrite L1. simpl. now rewrite Hc.
    - exists "". split; [reflexivity|]. left. now rewrite append_empty_r. }
  destruct Hscheme as [o [E2 Hs]].
  assert (X3 : x3 = "://") by (apply lower_keeps; [exact L3 | reflexivity]).
  subst x3.
  exists ((x1 ++ o) ++ "://" ++ host ++ x5 ++ x6)%string. split.
  - cbn [snd] in *. rewrite E2, E3, E4, E5, E6.
    now rewrite !append_assoc.
  - exists (x1 ++ o)%string, host, x5, x6. repeat split; auto.
Qed.

(** ** The URL the deployer reports *)

Lemma fold_all_chars (p : ascii -> bool) (x : string) :
  (forall c, p (lower_char c) = p c) ->
  all_chars p (fold_case x) = all_chars p x.
Proof.
  intros Hp. induction x as [|c x IH]; [reflexivity|].
  cbn [fold_case map_chars all_chars]. fold (fold_case x). now rewrite Hp, IH.
Qed.

Lemma no_space_lower (c : ascii) : no_space (lower_char c) = no_space c.
Proof. destruct c as [[] [] [] [] [] [] [] []]; reflexivity. Qed.

Lemma no_slash_lower (c : ascii) :
  negb (lower_char c =? "/")%char = negb (c =? "/")%char.
Proof. destruct c as [[] [] [] [] [] [] [] []]; reflexivity. Qed.

Lemma all_chars_weaken (p q : ascii -> bool) (x : string) :
  (forall c, p c = true -> q c = true) ->
  all_chars p x = true -> all_chars q x = true.
Proof.
  intros Hpq. induction x as [|c x IH]; [reflexivity|]. cbn [all_chars].
  intros H. apply andb_prop in H as [Hc Hx]. now rewrite (Hpq c Hc), (IH Hx).
Qed.

Lemma host_no_space (c : ascii) : hostChar c = true -> no_space c = true.
Proof.
  destruct c as [[] [] [] [] [] [] [] []]; intros H;
    try discriminate H; reflexivity.
Qed.

Lemma path_no_space (c : ascii) : pathChar c = true -> no_space c = true.
Proof.
  destruct c as [[] [] [] [] [] [] [] []]; intros H;
    try discriminate H; reflexivity.
Qed.

(** A URL of the hosting domain has no white space in it. *)
Lemma hosting_url_no_space (u : string) :
  hosting_url u -> all_chars no_space u = true.
Proof.
  intros [scheme [host [domain [tld [-> [Hscheme [_ [Hhost [Hdomain Htld]]]]]]]]].
  rewrite !all_chars_append.
  rewrite <- (fold_all_chars no_space scheme no_space_lower).
  rewrite <- (fold_all_chars no_space domain no_space_lower).
  rewrite <- (fold_all_chars no_space tld no_space_lower).
  rewrite (all_chars_weaken _ _ host host_no_space Hhost), Hdomain.
  destruct Hscheme as [-> | ->]; destruct Htld as [-> | ->]; reflexivity.
Qed.

Lemma trimEnd_no_space (s : string) :
  all_chars no_space s = true -> trimEnd s = s.
Proof.
  induction s as [|c s IH]; [reflexivity|]. cbn [all_chars trimEnd].
  intros H. apply andb_prop in H as [Hc Hs]. rewrite (IH Hs).
  apply negb_true_iff in Hc. rewrite Hc. now destruct s.
Qed.

Lemma trim_no_space (s : string) : all_chars no_space s = true -> trim s = s.
Proof.
  intros H. unfold trim. rewrite (trimEnd_no_space s H).
  destruct s as [|c s]; [reflexivity|]. cbn [all_chars] in H.
  apply andb_prop in H as [Hc _]. apply negb_true_iff in Hc.
  cbn [trimStart]. now rewrite Hc.
Qed.

Lemma dropTrailingSlash_cons (c : ascii) (r : string) :
  r <> "" -> dropTrailingSlash (String c r) = String c (dropTrailingSlash r).
Proof.
  destruct r as [|d r]; [congruence|]. intros _.
  destruct c as [[] [] [] [] [] [] [] []]; reflexivity.
Qed.

Lemma dropTrailingSlash_append (a b : string) :
  b <> "" -> dropTrailingSlash (a ++ b) = (a ++ dropTrailingSlash b)%string.
Proof.
  intros Hb. induction a as [|c a IH]; [reflexivity|]. cbn [append].
  rewrite dropTrailingSlash_cons; [now rewrite IH|].
  destruct a; [exact Hb | discriminate].
Qed.

Lemma dropTrailingSlash_none (s : string) :
  all_chars (fun c => negb (c =? "/")%char) s = true -> dropTrailingSlash s = s.
Proof.
  induction s as [|c s IH]; [reflexivity|]. cbn [all_chars].
  intros H. apply andb_prop in H as [Hc Hs].
  destruct s as [|d s].
  - revert Hc. destruct c as [[] [] [] [] [] [] [] []]; intros Hc;
      try discriminate Hc; reflexivity.
  - rewrite dropTrailingSlash_cons by discriminate. now rewrite (IH Hs).
Qed.

(** Nothing but a slash at the end is dropped. *)
Lemma dropTrailingSlash_spec (s : string) :
  s = dropTrailingSlash s \/ s = (dropTrailingSlash s ++ "/")%string.
Proof.
  induction s as [|c s IH]; [now left|].
  destruct s as [|d s].
  - destruct (ascii_dec c "/") as [-> | Hc]; [now right|]. left.
    apply Ascii.eqb_neq in Hc.
    symmetry. apply dropTrailingSlash_none. cbn [all_chars]. now rewrite Hc.
  - rewrite dropTrailingSlash_cons by discriminate. cbn [append].
    destruct IH as [IH | IH]; [left | right]; now rewrite <- IH.
Qed.

(** Without its last slash a URL of the hosting domain followed by a path
    is that URL followed by a path. *)
Lemma dropTrailingSlash_url (u path : string) :
  hosting_url u ->
  path = "" \/ (exists p, path = String "/" p) ->
  exists path',
    dropTrailingSlash (u ++ path) = (u ++ path')%string /\
    (path' = "" \/ exists p', path' = String "/" p').
Proof.
  intros Hu Hpath.
  assert (Hkeep : dropTrailingSlash u = u).
  { destruct Hu as [scheme [host [domain [tld [-> [_ [_ [_ [_ Htld]]]]]]]]].
    rewrite <- !append_assoc.
    assert (Hne : tld <> "") by (destruct Htld as [H | H]; destruct tld; discriminate).
    rewrite (dropTrailingSlash_append _ tld Hne). f_equal.
    apply dropTrailingSlash_none.
    rewrite <- (fold_all_chars _ tld no_slash_lower).
    destruct Htld as [-> | ->]; reflexivity. }
  destruct Hpath as [-> | [p ->]].
  - exists "". rewrite append_empty_r. auto.
  - rewrite dropTrailingSlash_append by discriminate.
    destruct p as [|c p].
    + exists "". auto.
    + exists (String "/" (dropTrailingSlash (String c p))). split.
      * now rewrite dropTrailingSlash_cons by discriminate.
      * right. eauto.
Qed.

Lemma ahead_inv (r : regex) (prev : option ascii) (s : string) (q : place) :
  In q (run (Ahead r) prev s) -> q = (prev, s).
Proof.
  cbn [run]. destruct (run r prev s); [intros [] | intros [<- | []]; reflexivity].
Qed.

(** What a search of the domain pattern returns is a URL of the hosting
    domain that stands in the text. *)
Lemma search_domain_url (s clean : string) :
  search domainPattern s = Some clean ->
  hosting_url clean /\ exists pre post, s = (pre ++ clean ++ post)%string.
Proof.
  intros H. apply search_from_inv in H as [pre [rest [-> H]]].
  apply match_here_inv in H as [rest' [Hin Hrest]].
  apply domain_match_inv in Hin as [u [Hu Hurl]]. cbn [snd] in Hu.
  assert (clean = u) by (apply (append_cancel_r _ _ rest'); congruence).
  subst u. split; [exact Hurl|]. exists pre, rest'. now rewrite <- Hrest.
Qed.

(** What the deployer finds in the output is a URL of the hosting domain,
    with its path when the first pattern finds none. *)
Lemma findUrl_shape (out found : string) :
  findUrl out = Some found ->
  exists pre u path post,
    out = (pre ++ (u ++ path) ++ post)%string /\ found = (u ++ path)%string /\
    hosting_url u /\
    (path = "" \/ exists p, path = String "/" p /\ all_chars pathChar p = true).
Proof.
  assert (Hseq : forall r,
    (forall prev s q, In q (run r prev s) ->
       exists path, s = (path ++ snd q)%string /\
         (path = "" \/ exists p, path = String "/" p /\ all_chars pathChar p = true)) ->
    search (Seq domainPattern r) out = Some found ->
    exists pre u path post,
      out = (pre ++ (u ++ path) ++ post)%string /\ found = (u ++ path)%string /\
      hosting_url u /\
      (path = "" \/ exists p, path = String "/" p /\ all_chars pathChar p = true)).
  { intros r Hr H. apply search_from_inv in H as [pre [rest [-> H]]].
    apply match_here_inv in H as [rest' [Hin Hrest]].
    apply In_seq_inv in Hin as [q1 [H1 H2]].
    apply domain_match_inv in H1 as [u [Hu Hurl]].
    apply Hr in H2 as [path [Hpath Hshape]]. cbn [snd] in Hpath.
    assert (Hfound : found = (u ++ path)%string).
    { apply (append_cancel_r _ _ rest').
      rewrite <- Hrest, Hu, Hpath. now rewrite append_assoc. }
    exists pre, u, path, rest'. rewrite <- Hfound, <- Hrest. auto. }
  unfold findUrl. destruct (search anchoredPattern out) as [m|] eqn:E.
  - intros H. injection H as ->. revert E. apply Hseq.
    intros prev s q Hq. apply ahead_inv in Hq. subst q. exists "". auto.
  - apply Hseq. intros prev s q Hq. unfold Opt in Hq. cbn [run] in Hq.
    apply in_app_or in Hq as [Hq | [<- | []]]; [|exists ""; auto].
    apply in_flat_map in Hq as [q1 [H1 H2]].
    apply In_chr_inv in H1 as [c [Hs [Hc Hf]]]. apply Ascii.eqb_eq in Hc. subst c.
    apply many_sound in H2 as [x [Hx [_ Hall]]].
    exists (String "/" x). split.
    + rewrite Hs, Hx. reflexivity.
    + right. eauto.
Qed.

(** The URL of a successful run *)
Lemma tidyUrl_found (out found : string) :
  findUrl out = Some found ->
  lower_case_schemes out ->
  shown_hosting_url out (tidyUrl found).
Proof.
  intros Hfind Hlower.
  destruct (findUrl_shape out found Hfind)
    as [pre [u [path [post [Hout [-> [Hu Hpath]]]]]]].
  assert (Hhttp : startsWith u "http" = true).
  { apply (Hlower pre u (path ++ post)%string); [|exact Hu].
    now rewrite Hout, !append_assoc. }
  assert (Hns : all_chars no_space (u ++ path) = true).
  { rewrite all_chars_append, (hosting_url_no_space u Hu).
    destruct Hpath as [-> | [p [-> Hp]]]; [reflexivity|].
    cbn [all_chars andb].
    now rewrite (all_chars_weaken _ _ p path_no_space Hp). }
  assert (Hshape : path = "" \/ exists p, path = String "/" p)
    by (destruct Hpath as [-> | [p [-> _]]]; eauto).
  destruct (dropTrailingSlash_url u path Hu Hshape) as [path' [Hdrop Hpath']].
  unfold tidyUrl. rewrite (trim_no_space _ Hns).
  assert (Hstarts : startsWith (u ++ path) "http" = true).
  { unfold startsWith in *. apply prefix_spec in Hhttp as [t Ht].
    apply prefix_spec. exists (t ++ path)%string. now rewrite Ht, append_assoc. }
  rewrite Hstarts, Hdrop.
  assert (Hkept : exists z, (u ++ path = (u ++ path') ++ z)%string).
  { destruct (dropTrailingSlash_spec (u ++ path)) as [Hz | Hz];
      rewrite Hdrop in Hz; [exists "" | exists "/"]; [|exact Hz].
    now rewrite append_empty_r. }
  destruct Hkept as [z Hz].
  assert (Hwhole : shown_hosting_url out (u ++ path')).
  { split.
    - exists pre, (z ++ post)%string. rewrite Hout, Hz. now rewrite !append_assoc.
    - exists u, path'. auto. }
  destruct (test domainEnd (u ++ path')); [exact Hwhole|].
  destruct (search domainPattern (u ++ path')) as [clean|] eqn:E; [|exact Hwhole].
  destruct (search_domain_url _ _ E) as [Hclean [a [b Hab]]]. split.
  - exists (pre ++ a)%string, (b ++ z ++ post)%string.
    rewrite Hout, Hz, Hab. now rewrite !append_assoc.
  - exists clean, "". rewrite append_empty_r. auto.
Qed.

(** The check of a text for http in capital letters *)
Lemma lower_case_schemes_checked (out : string) :
  http_in_lower_case out = true -> lower_case_schemes out.
Proof.
  intros Hcheck pre u post -> Hu. revert Hcheck.
  induction pre as [|c pre IH]; intros Hcheck.
  - destruct Hu as [scheme [host [domain [tld [-> [Hscheme _]]]]]].
    assert (Hfour : exists a b c d rest,
               scheme = String a (String b (String c (String d rest))) /\
               fold_case (String a (String b (String c (String d "")))) = "http").
    { destruct scheme as [|a [|b [|c [|d rest]]]];
        try (destruct Hscheme as [H | H]; discriminate H).
      exists a, b, c, d, rest. split; [reflexivity|].
      destruct Hscheme as [H | H]; cbn [fold_case map_chars] in H |- *;
        injection H as Ha Hb Hc Hd; now rewrite Ha, Hb, Hc, Hd. }
    destruct Hfour as [a [b [c [d [rest [-> Hfold]]]]]].
    cbn [append http_in_lower_case] in Hcheck.
    apply andb_prop in Hcheck as [Hhere _].
    rewrite take_4, Hfold in Hhere.
    change (negb ("http" =? "http")) with false in Hhere. cbn [orb] in Hhere.
    apply String.eqb_eq in Hhere. unfold startsWith. apply prefix_spec.
    exists (rest ++ "://" ++ host ++ domain ++ tld)%string.
    cbn [append]. injection Hhere as -> -> -> ->. reflexivity.
  - cbn [append http_in_lower_case] in Hcheck.
    apply andb_prop in Hcheck as [_ Hcheck]. exact (IH Hcheck).
Qed.

(** A match of the error pattern shows an error URL in the text. *)
Lemma error_match_inv (prev : option ascii) (s : string) (q : place) :
  In q (run errorUrlPattern prev s) ->
  exists scheme c post,
    s = (scheme ++ "://err.sh/" ++ String c post)%string /\
    (scheme = "http" \/ scheme = "https") /\ is_space c = false.
Proof.
  unfold errorUrlPattern. cbn [seqs]. intros Hq.
  apply In_seq_inv in Hq as [q1 [H1 Hq]]. apply In_lit_inv in H1.
  apply In_seq_inv in Hq as [q2 [H2 Hq]].
  apply In_seq_inv in Hq as [q3 [H3 Hq]]. apply In_lit_inv in H3.
  unfold Plus in Hq. apply In_seq_inv in Hq as [q4 [H4 _]].
  apply In_chr_inv in H4 as [c [Hc [Hsp _]]].
  apply negb_true_iff in Hsp.
  unfold Opt in H2. cbn [run] in H2. apply in_app_or in H2 as [H2 | [<- | []]].
  - apply In_chr_inv in H2 as [c' [Hs' [Hc' _]]]. apply Ascii.eqb_eq in Hc'. subst c'.
    exists "https", c, (snd q4). split; [|auto].
    rewrite H1, Hs', H3, Hc. reflexivity.
  - exists "http", c, (snd q4). split; [|auto].
    cbn [snd] in H3. rewrite H1, H3, Hc. reflexivity.
Qed.

Lemma error_url_includes (out : string) :
  includes out "://err.sh/" = false -> ~ contains_error_url out.
Proof.
  intros H [pre [scheme [c [post [Hout _]]]]].
  assert (Ht : includes out "://err.sh/" = true).
  { apply includes_spec. exists (pre ++ scheme)%string, (String c post).
    rewrite Hout, !append_assoc. reflexivity. }
  congruence.
Qed.

Lemma no_error_url (out : string) :
  ~ contains_error_url out -> search errorUrlPattern out = None.
Proof.
  intros Hno. destruct (search errorUrlPattern out) as [m|] eqn:E; [|reflexivity].
  exfalso. apply Hno.
  apply search_from_inv in E as [pre [rest [-> Hm]]].
  apply match_here_inv in Hm as [rest' [Hin _]].
  apply error_match_inv in Hin as [scheme [c [post [-> [Hs Hc]]]]].
  exists pre, scheme, c, post. auto.
Qed.

End DeployFacts.

(** C5, as the code has it.  Let the CLI exit with an error.  When its
    standard output or its standard error shows a URL of the hosting
    domain, every such URL of the output being written with http in lower
    case, and the two together show no URL of the error domain,
    [deployToVercel] reports success with a URL that stands in the output
    and begins with a URL of the hosting domain.  The error of the CLI is
    fatal only when both streams are empty, the result being the failure
    made of it: with anything captured the run goes on as it does after an
    exit with status 0. *)
Theorem deployToVercel_after_failed_cli :
  forall (token : string) (d d' : Fs.Disk)
         (projectDir projectName message stdout stderr : string),
    token <> "" ->
    VercelDeployer.ensureConfig d projectDir = Ok d' ->
    ((contains_hosting_url stdout \/ contains_hosting_url stderr) ->
     ~ contains_error_url (stdout ++ stderr) ->
     lower_case_schemes (stdout ++ stderr) ->
     exists url,
       VercelDeployer.deployToVercel (Some token) d projectDir projectName
         (VercelDeployer.ExecFailed message stdout stderr) =
       {| VercelDeployer.success := true;
          VercelDeployer.deployedUrl := Some url;
          VercelDeployer.error := None |} /\
       shown_hosting_url (stdout ++ stderr) url) /\
    (nonempty stdout || nonempty stderr = true ->
     VercelDeployer.deployToVercel (Some token) d projectDir projectName
       (VercelDeployer.ExecFailed message stdout stderr) =
     VercelDeployer.deployToVercel (Some token) d projectDir projectName
       (VercelDeployer.Exited stdout stderr)) /\
    (stdout = "" -> stderr = "" ->
     VercelDeployer.deployToVercel (Some token) d projectDir projectName
       (VercelDeployer.ExecFailed message stdout stderr) =
     VercelDeployer.failure (Error message)).
Proof.
  intros token d d' projectDir projectName message stdout stderr Htoken Hcfg.
  destruct token as [|t0 token]; [congruence|].
  assert (Hcaptured : nonempty stdout || nonempty stderr = true ->
            VercelDeployer.capture (VercelDeployer.ExecFailed message stdout stderr)
            = Ok (stdout, stderr)).
  { intros H. unfold VercelDeployer.capture.
    now destruct (nonempty stdout), (nonempty stderr). }
  split; [|split].
  - intros Hurl Hnoerr Hlower.
    assert (Hout : nonempty stdout || nonempty stderr = true).
    { destruct Hurl as [H | H]; apply contains_hosting_url_nonempty in H;
        rewrite H; auto using orb_true_r. }
    pose proof (contains_hosting_url_append _ _ Hurl) as Hboth.
    destruct (contains_hosting_url_found _ Hboth) as [m Hloose].
    assert (Hfound : exists found, VercelDeployer.findUrl (stdout ++ stderr) = Some found).
    { unfold VercelDeployer.findUrl.
      destruct (Regex.search VercelDeployer.anchoredPattern _); eauto. }
    destruct Hfound as [found Hfound].
    exists (VercelDeployer.tidyUrl found).
    split; [|exact (tidyUrl_found _ _ Hfound Hlower)].
    destruct (findUrl_first_char _ _ Hfound) as [c [m' [-> Hc]]].
    unfold VercelDeployer.deployToVercel. rewrite Hcfg. cbn [bind].
    rewrite (Hcaptured Hout).
    cbn [bind fst snd]. unfold VercelDeployer.extractUrl.
    rewrite (no_error_url _ Hnoerr), Hfound.
    cbn [nonempty]. rewrite (tidyUrl_nonempty c m' Hc). reflexivity.
  - intros Hout. unfold VercelDeployer.deployToVercel.
    now rewrite (Hcaptured Hout).
  - intros -> ->. unfold VercelDeployer.deployToVercel. rewrite Hcfg. reflexivity.
Qed.

(** A failed run whose output shows the deployed site *)
Lemma deployToVercel_after_failed_cli_witness :
  exists url,
    VercelDeployer.deployToVercel (Some "secret") emptyDisk "site" "film-site"
      (VercelDeployer.ExecFailed "Command failed" failedWithUrl "") =
    {| VercelDeployer.success := true;
       VercelDeployer.deployedUrl := Some url;
       VercelDeployer.error := None |} /\
    shown_hosting_url (failedWithUrl ++ "") url.
Proof.
  refine (proj1 (deployToVercel_after_failed_cli "secret" emptyDisk _ "site"
                   "film-site" "Command failed" failedWithUrl "" _ eq_refl) _ _ _).
  - discriminate.
  - left. exists "Error: build warning. Production: ",
      "https://film-site.vercel.app", " [2s]".
    split; [reflexivity|].
    exists "https", "film-site", ".vercel.", "app".
    repeat split; auto. discriminate.
  - apply error_url_includes. reflexivity.
  - apply lower_case_schemes_checked. reflexivity.
Defined.

(** C5, the claim as written fails: with a URL of the hosting domain in its
    output the run is still reported as failed when the output also shows a
    page of the error domain; a run whose output is not empty and shows no
    URL is reported as failed too; and for a URL written with the scheme in
    capital letters the run reports a URL that the output does not show. *)
Lemma deployToVercel_fails_despite_url :
  contains_hosting_url failedWithErrorPage /\
  VercelDeployer.success
    (VercelDeployer.deployToVercel (Some "secret") emptyDisk "site" "film-site"
       (VercelDeployer.ExecFailed "Command failed" failedWithErrorPage ""))
  = false /\
  VercelDeployer.success
    (VercelDeployer.deployToVercel (Some "secret") emptyDisk "site" "film-site"
       (VercelDeployer.ExecFailed "Command failed" "Error: network timeout" ""))
  = false /\
  contains_hosting_url failedWithCapitals /\
  VercelDeployer.deployedUrl
    (VercelDeployer.deployToVercel (Some "secret") emptyDisk "site" "film-site"
       (VercelDeployer.ExecFailed "Command failed" failedWithCapitals ""))
  = Some "https://HTTPS://film-site.vercel.app".
Proof.
  split; [|split; [reflexivity | split; [reflexivity | split; [|reflexivity]]]].
  - exists "Preview: ", "https://film-site.vercel.app",
      " (see https://err.sh/vercel/no-token)".
    split; [reflexivity|].
    exists "https", "film-site", ".vercel.", "app".
    repeat split; auto. discriminate.
  - exists "Production: ", "HTTPS://film-site.vercel.app", "".
    split; [reflexivity|].
    exists "HTTPS", "film-site", ".vercel.", "app".
    repeat split; auto. discriminate.
Defined.

(* ################################################################# *)
(** * The round trip through JSON text *)

Section JsonInduction.

Variable P : json -> Prop.
Hypothesis HNull : P JNull.
Hypothesis HBool : forall b, P (JBool b).
Hypothesis HNum : forall n, P (JNum n).
Hypothesis HStr : forall s, P (JStr s).
Hypothesis HArr : forall items, Forall P items -> P (JArr items).
Hypothesis HObj :
  forall fields, Forall (fun kv : string * json => P (snd kv)) fields -> P (JObj fields).

Lemma json_induction : forall v : json, P v.
Proof.
  fix IH 1. intros [ | b | n | s | items | fields].
  - exact HNull.
  - apply HBool.
  - apply HNum.
  - apply HStr.
  - apply HArr.
    induction items as [ | x r IHr]; constructor; [apply IH | exact IHr].
  - apply HObj.
    induction fields as [ | kv r IHr]; constructor; [apply IH | exact IHr].
Qed.

End JsonInduction.

Section JsonFacts.

Import Json.

Local Open Scope string_scope.

(** ** Strings *)

Lemma parse_string_char (c : ascii) (s : string) :
  parse_string (escape_char c ++ s) = push c (parse_string s).
Proof.
  destruct c as [[] [] [] [] [] [] [] []]; reflexivity.
Qed.

Lemma parse_string_escape (s rest : string) :
  parse_string (escape s ++ String quote rest) = Some (s, rest).
Proof.
  induction s as [|c s IH].
  - reflexivity.
  - cbn [escape]. rewrite append_assoc, parse_string_char, IH. reflexivity.
Qed.

Lemma parse_quoted (s rest : string) :
  parse_string (escape s ++ String quote "" ++ rest) = Some (s, rest).
Proof. apply parse_string_escape. Qed.

(** ** White space *)

Lemma skip_ws_head (c : ascii) (s : string) :
  is_ws c = false -> skip_ws (String c s) = String c s.
Proof. intros H. cbn [skip_ws]. now rewrite H. Qed.

Lemma skip_ws_spaces (w s : string) :
  all_chars is_ws w = true -> skip_ws (w ++ s) = skip_ws s.
Proof.
  induction w as [|c w IH]; intros H; [reflexivity|].
  simpl in H. apply andb_prop in H as [Hc Hw].
  cbn [append skip_ws]. rewrite Hc. now apply IH.
Qed.

Lemma parse_value_skip (fuel : nat) (w s : string) :
  all_chars is_ws w = true -> parse_value fuel (w ++ s) = parse_value fuel s.
Proof.
  intros H. destruct fuel; [reflexivity|].
  cbn [parse_value]. now rewrite (skip_ws_spaces w s H).
Qed.

Lemma parse_members_skip (fuel : nat) (w s : string) :
  all_chars is_ws w = true -> parse_members fuel (w ++ s) = parse_members fuel s.
Proof.
  intros H. destruct fuel; [reflexivity|].
  cbn [parse_members]. now rewrite (skip_ws_spaces w s H).
Qed.

(** ** Numbers *)

Lemma uint_digits (u : Decimal.uint) :
  all_digits (NilEmpty.string_of_uint u) = true.
Proof. induction u; simpl; auto. Qed.

Lemma span_digits_stop (rest : string) :
  ends_number rest = true -> span_digits rest = (EmptyString, rest).
Proof.
  destruct rest as [|c r]; [reflexivity|]. cbn [ends_number span_digits].
  intros H. apply andb_prop in H as [H _]. apply negb_true_iff in H.
  now rewrite H.
Qed.

Lemma span_digits_append (ds rest : string) :
  all_digits ds = true -> ends_number rest = true ->
  span_digits (ds ++ rest) = (ds, rest).
Proof.
  intros Hds Hrest. induction ds as [|c ds IH].
  - now apply span_digits_stop.
  - simpl in Hds. apply andb_prop in Hds as [Hc Hds].
    cbn [append span_digits]. rewrite Hc, (IH Hds). reflexivity.
Qed.

Lemma to_uint_normal (p : positive) :
  Pos.to_uint p = Decimal.nzhead (Pos.to_uint p).
Proof.
  pose proof (Unsigned.to_of (Pos.to_uint p)) as H.
  rewrite Unsigned.of_to in H. cbn [N.to_uint] in H.
  rewrite H at 1. apply unorm_nzhead.
  intros Hnil. apply (Unsigned.to_uint_nonzero p).
  rewrite H. now apply unorm_0.
Qed.

(** The decimal text of a positive number: digits, the first of which is
    not 0 *)
Lemma to_uint_text (p : positive) :
  exists c ds,
    NilZero.string_of_uint (Pos.to_uint p) = String c ds /\
    is_digit c = true /\ (c =? "0")%char = false /\ all_digits ds = true.
Proof.
  pose proof (uint_digits (Pos.to_uint p)) as Hall.
  pose proof (to_uint_normal p) as Hnorm.
  pose proof (Unsigned.to_uint_nonnil p) as Hnil.
  destruct (Pos.to_uint p) as [|u|u|u|u|u|u|u|u|u|u] eqn:E;
    try congruence;
    try (cbn [NilZero.string_of_uint NilEmpty.string_of_uint] in *;
         eexists _, _; split; [reflexivity|];
         split; [reflexivity|]; split; [reflexivity|];
         simpl in Hall; exact Hall).
  exfalso. exact (nzhead_nonzero _ _ (eq_sym Hnorm)).
Qed.

Lemma substring_all (s : string) : substring 0 (String.length s) s = s.
Proof. induction s as [|c s IH]; simpl; [reflexivity | now rewrite IH]. Qed.

Lemma prefix_head_neq (a b : ascii) (s t : string) :
  a <> b -> prefix (String a s) (String b t) = false.
Proof. intros H. simpl. destruct (ascii_dec a b); [contradiction | reflexivity]. Qed.

Lemma all_ws_append (a b : string) :
  all_chars is_ws a = true -> all_chars is_ws b = true ->
  all_chars is_ws (a ++ b) = true.
Proof.
  intros Ha Hb. induction a as [|c a IH]; [exact Hb|].
  simpl in *. apply andb_prop in Ha as [Hc Ha]. now rewrite Hc, IH.
Qed.

Lemma drop_append (n : nat) (a b : string) :
  n = String.length a -> drop n (a ++ b) = b.
Proof.
  intros ->. unfold drop. rewrite length_append.
  replace (String.length a + String.length b - String.length a)
    with (String.length b) by lia.
  induction a as [|c a IH]; simpl; [apply substring_all | exact IH].
Qed.

Lemma span_digits_run (ds rest : string) :
  all_digits ds = true -> span_digits rest = (EmptyString, rest) ->
  span_digits (ds ++ rest) = (ds, rest).
Proof.
  intros Hds Hrest. induction ds as [|c ds IH]; [exact Hrest|].
  simpl in Hds. apply andb_prop in Hds as [Hc Hds].
  cbn [append span_digits]. rewrite Hc, (IH Hds). reflexivity.
Qed.

Lemma digits_value_text (u : Decimal.uint) :
  digits_value (NilEmpty.string_of_uint u) = Z.of_N (N.of_uint u).
Proof. unfold digits_value. now rewrite NilEmpty.usu. Qed.

Lemma digits_value_zero (s : string) :
  digits_value (String "0" s) = digits_value s.
Proof.
  unfold digits_value. cbn [NilEmpty.uint_of_string].
  destruct (NilEmpty.uint_of_string s); reflexivity.
Qed.

Lemma digits_value_zeros (n : nat) (s : string) :
  digits_value (zeros n ++ s) = digits_value s.
Proof.
  induction n as [|n IH]; [reflexivity|].
  cbn [zeros append]. now rewrite digits_value_zero.
Qed.

Lemma all_digits_zeros (n : nat) : all_digits (zeros n) = true.
Proof. induction n as [|n IH]; [reflexivity | exact IH]. Qed.

Lemma length_zeros (n : nat) : String.length (zeros n) = n.
Proof. induction n as [|n IH]; [reflexivity | simpl; now rewrite IH]. Qed.

Lemma all_digits_append (a b : string) :
  all_digits (a ++ b) = all_digits a && all_digits b.
Proof.
  induction a as [|c a IH]; [reflexivity|].
  cbn [append all_digits]. now rewrite IH, andb_assoc.
Qed.

(** The decimal text of a positive number: digits, the first of which is not
    0, whose value is the number *)
Lemma pos_text (p : positive) :
  exists c ds,
    string_of_Z (Z.pos p) = String c ds /\
    is_digit c = true /\ (c =? "0")%char = false /\ all_digits ds = true /\
    digits_value (String c ds) = Z.pos p.
Proof.
  destruct (to_uint_text p) as [c [ds [Htext [Hc [Hnz Hds]]]]].
  exists c, ds. unfold string_of_Z. cbn [Z.to_int NilZero.string_of_int].
  split; [exact Htext|]. repeat split; try assumption.
  rewrite <- Htext.
  assert (H : NilZero.string_of_uint (Pos.to_uint p) =
              NilEmpty.string_of_uint (Pos.to_uint p)).
  { pose proof (Unsigned.to_uint_nonnil p) as Hnil.
    destruct (Pos.to_uint p); try reflexivity. congruence. }
  rewrite H, digits_value_text. unfold N.of_uint.
  now rewrite DecimalPos.Unsigned.of_to.
Qed.

Lemma digits_value_of_Z (n : Z) :
  (0 <= n)%Z -> digits_value (string_of_Z n) = n.
Proof.
  destruct n as [|p|p]; intros H; [reflexivity | | lia].
  destruct (pos_text p) as [c [ds [-> [_ [_ [_ Hv]]]]]]. exact Hv.
Qed.

Lemma all_digits_of_Z (n : Z) :
  (0 <= n)%Z -> all_digits (string_of_Z n) = true /\ nonempty (string_of_Z n) = true.
Proof.
  destruct n as [|p|p]; intros H; [split; reflexivity | | lia].
  destruct (pos_text p) as [c [ds [-> [Hc [_ [Hds _]]]]]].
  cbn [all_digits nonempty]. now rewrite Hc, Hds.
Qed.

Lemma split_at (n : nat) (s : string) :
  n <= String.length s ->
  exists a b, s = (a ++ b)%string /\ String.length a = n.
Proof.
  revert n. induction s as [|c s IH]; intros [|n] H.
  - exists "", "". auto.
  - simpl in H. lia.
  - exists "", (String c s). auto.
  - simpl in H. destruct (IH n ltac:(lia)) as [a [b [-> Ha]]].
    exists (String c a), b. simpl. auto.
Qed.

Lemma ends_number_stops (rest : string) :
  ends_number rest = true ->
  span_digits rest = (EmptyString, rest) /\
  fraction_part rest = (EmptyString, rest) /\
  exponent_part rest = Some (0%Z, rest) /\
  match rest with
  | String c _ => (c =? ".")%char = false
  | EmptyString => True
  end.
Proof.
  destruct rest as [|c r]; [repeat split|]. cbn [ends_number].
  intros H. apply andb_prop in H as [Hd H]. apply negb_true_iff in Hd, H.
  apply orb_false_iff in H as [H He]. apply orb_false_iff in H as [Hp Hs].
  repeat split.
  - cbn [span_digits]. now rewrite Hd.
  - unfold fraction_part.
    destruct (Ascii.eqb_spec c "."); [discriminate | ].
    destruct c as [[] [] [] [] [] [] [] []]; try reflexivity. now elim n.
  - cbn [exponent_part]. now rewrite Hs, He.
  - exact Hp.
Qed.

(** The normal form of a fraction that ends in no zero is the fraction. *)
Lemma strip_canonical (m : Z) (e : nat) :
  (m mod 10 <> 0)%Z -> strip m (S e) = {| mantissa := m; scale := S e |}.
Proof.
  intros H. cbn [strip]. apply Z.eqb_neq in H. now rewrite H.
Qed.

Lemma normalize_canonical (x : number) : canonical x = true -> normalize x = x.
Proof.
  destruct x as [m [|e]]; [reflexivity|]. unfold canonical, normalize.
  cbn [mantissa scale]. intros H. apply negb_true_iff, Z.eqb_neq in H.
  now apply strip_canonical.
Qed.

(** An integer literal *)
Lemma number_body_int (neg : bool) (lead : ascii) (more rest : string) :
  is_digit lead = true -> all_digits more = true ->
  (lead =? "0")%char && nonempty more = false ->
  ends_number rest = true ->
  number_body neg (String lead more ++ rest) =
  Some (decimal neg (String lead more) "" 0, rest).
Proof.
  intros Hlead Hmore Hzero Hrest.
  destruct (ends_number_stops rest Hrest) as [Hs [Hf [He Hp]]].
  unfold number_body.
  rewrite (span_digits_run (String lead more) rest); [| simpl; now rewrite Hlead | exact Hs].
  rewrite Hzero, Hf, He.
  destruct rest as [|c r]; [reflexivity|]. now rewrite Hp.
Qed.

(** A literal with a fraction and no exponent *)
Lemma number_body_plain (neg : bool) (lead : ascii) (more frac rest : string) :
  is_digit lead = true -> all_digits more = true ->
  (lead =? "0")%char && nonempty more = false ->
  all_digits frac = true -> nonempty frac = true ->
  ends_number rest = true ->
  number_body neg (String lead more ++ "." ++ frac ++ rest) =
  Some (decimal neg (String lead more) frac 0, rest).
Proof.
  intros Hlead Hmore Hzero Hfrac Hne Hrest.
  destruct (ends_number_stops rest Hrest) as [Hs [_ [He _]]].
  unfold number_body.
  rewrite (span_digits_run (String lead more) ("." ++ frac ++ rest));
    [| simpl; now rewrite Hlead | reflexivity].
  rewrite Hzero. cbn [append fraction_part].
  rewrite (span_digits_run frac rest Hfrac Hs).
  rewrite Hne. cbn [Ascii.eqb Bool.eqb negb andb]. now rewrite He.
Qed.

(** A literal with an exponent *)
Lemma number_body_exponent (neg : bool) (d : ascii) (frac rest : string) (x : Z) :
  is_digit d = true -> all_digits frac = true ->
  ends_number rest = true ->
  number_body neg (exponential (String d frac) x ++ rest) =
  Some (decimal neg (String d "") frac x, rest).
Proof.
  intros Hd Hfrac Hrest.
  destruct (ends_number_stops rest Hrest) as [Hs _].
  destruct (all_digits_of_Z (Z.abs x) (Z.abs_nonneg x)) as [Hx Hxne].
  assert (Hexp :
             exponent_part
               (String "e" ((if (x <? 0)%Z then "-" else "+") ++
                            string_of_Z (Z.abs x) ++ rest))
             = Some (x, rest)).
  { cbn [append exponent_part Ascii.eqb Bool.eqb orb].
    destruct (x <? 0)%Z eqn:E; cbn [append];
      rewrite (span_digits_run _ rest Hx Hs), Hxne,
        (digits_value_of_Z _ (Z.abs_nonneg x)); f_equal; f_equal;
      [apply Z.ltb_lt in E | apply Z.ltb_ge in E]; lia. }
  unfold number_body, exponential.
  destruct frac as [|f frac].
  - cbn [nonempty]. rewrite !append_assoc. cbn [append].
    cbn [span_digits]. rewrite Hd. cbn [span_digits is_digit].
    change (is_digit "e") with false. cbv iota.
    cbn [Ascii.eqb Bool.eqb nonempty andb fraction_part].
    rewrite Hexp. now rewrite andb_false_r.
  - cbn [nonempty]. rewrite !append_assoc. cbn [append].
    cbn [span_digits]. rewrite Hd. change (is_digit ".") with false. cbv iota.
    cbn [Ascii.eqb Bool.eqb nonempty andb fraction_part].
    match goal with
    | |- context [span_digits (String f (frac ++ ?t))] =>
        change (String f (frac ++ t)) with (String f frac ++ t)%string;
        rewrite (span_digits_run (String f frac) t Hfrac) by reflexivity
    end.
    cbn [nonempty negb]. rewrite Hexp. now rewrite andb_false_r.
Qed.

Lemma decimal_value (neg : bool) (int frac : string) (x : Z) (p : positive) (e : nat) :
  digits_value (int ++ frac) = Z.pos p ->
  (Z.of_nat (String.length frac) - x = Z.of_nat e)%Z ->
  decimal neg int frac x = strip (if neg then Z.neg p else Z.pos p) e.
Proof.
  intros Hv He. unfold decimal. rewrite Hv, He.
  replace (Z.of_nat e <? 0)%Z with false by (symmetry; apply Z.ltb_ge; lia).
  rewrite Nat2Z.id. now destruct neg.
Qed.

Lemma parse_number_of_Z (n : Z) (rest : string) :
  ends_number rest = true ->
  parse_number (string_of_Z n ++ rest) = Some (of_Z n, rest).
Proof.
  intros Hrest. destruct n as [|p|p].
  - change (string_of_Z 0) with "0". cbn [append parse_number Ascii.eqb Bool.eqb].
    exact (number_body_int false "0" "" rest eq_refl eq_refl eq_refl Hrest).
  - destruct (pos_text p) as [c [ds [Htext [Hc [Hnz [Hds Hv]]]]]]. rewrite Htext.
    cbn [append parse_number].
    assert (Hminus : (c =? "-")%char = false).
    { destruct (Ascii.eqb_spec c "-"); [subst c; discriminate Hc | reflexivity]. }
    rewrite Hminus.
    change (String c (ds ++ rest)) with (String c ds ++ rest)%string.
    rewrite (number_body_int false c ds rest Hc Hds) by (now rewrite ?Hnz).
    rewrite (decimal_value false _ "" 0 p 0); [reflexivity | | reflexivity].
    now rewrite append_empty_r.
  - destruct (pos_text p) as [c [ds [Htext [Hc [Hnz [Hds Hv]]]]]].
    unfold string_of_Z in *. cbn [Z.to_int NilZero.string_of_int] in *.
    rewrite Htext. cbn [append parse_number Ascii.eqb Bool.eqb].
    change (String c (ds ++ rest)) with (String c ds ++ rest)%string.
    rewrite (number_body_int true c ds rest Hc Hds) by (now rewrite ?Hnz).
    rewrite (decimal_value true _ "" 0 p 0); [reflexivity | | reflexivity].
    now rewrite append_empty_r.
Qed.

(** The text of a fraction in normal form is read back as the fraction. *)
Lemma number_body_fraction (neg : bool) (p : positive) (e : nat) (rest : string) :
  ends_number rest = true ->
  number_body neg (fraction_digits (string_of_Z (Z.pos p)) (S e) ++ rest)
  = Some (strip (if neg then Z.neg p else Z.pos p) (S e), rest).
Proof.
  intros Hrest. unfold fraction_digits.
  destruct (pos_text p) as [c [ds [Htext [Hc [Hnz [Hds Hv]]]]]]. rewrite Htext.
  remember (String.length (String c ds)) as k eqn:Hk. cbn [String.length] in Hk.
  assert (Hexp : forall x : Z,
             (Z.of_nat (String.length ds) - x = Z.of_nat (S e))%Z ->
             number_body neg (exponential (String c ds) x ++ rest) =
             Some (strip (if neg then Z.neg p else Z.pos p) (S e), rest)).
  { intros x Hx. rewrite (number_body_exponent neg c ds rest x Hc Hds Hrest).
    now rewrite (decimal_value neg (String c "") ds x p (S e) Hv Hx). }
  cbv zeta.
  destruct (S e <? k)%nat eqn:E1.
  - apply Nat.ltb_lt in E1.
    destruct (k - S e <=? 21)%nat eqn:E2.
    + destruct (split_at (k - S e) (String c ds)) as [a [b [Hab Ha]]];
        [cbn [String.length]; lia|].
      rewrite Hab at 1 2. rewrite <- Ha at 1.
      rewrite take_append, (drop_append _ a b (eq_sym Ha)).
      destruct a as [|c' a]; [cbn [String.length] in Ha; lia|].
      cbn [append] in Hab. injection Hab as <- Hds'.
      assert (Hall : all_digits a = true /\ all_digits b = true).
      { rewrite Hds', all_digits_append in Hds. now apply andb_prop in Hds. }
      destruct Hall as [Haa Hbb].
      assert (Hlen : String.length b = S e).
      { apply (f_equal String.length) in Hds'. rewrite length_append in Hds'.
        cbn [String.length] in Ha. lia. }
      assert (Hbne : nonempty b = true) by (destruct b; [discriminate Hlen | reflexivity]).
      rewrite !append_assoc.
      rewrite (number_body_plain neg c a b rest Hc Haa) by (now rewrite ?Hnz).
      rewrite (decimal_value neg _ b 0 p (S e)); [reflexivity | | lia].
      change (String c a ++ b)%string with (String c (a ++ b)). now rewrite <- Hds'.
    + apply Hexp. lia.
  - apply Nat.ltb_ge in E1.
    destruct (S e - k <? 6)%nat eqn:E2.
    + change ("0." ++ zeros (S e - k) ++ String c ds)%string
        with ("0" ++ "." ++ (zeros (S e - k) ++ String c ds))%string.
      rewrite !append_assoc.
      rewrite <- (append_assoc (zeros (S e - k)) (String c ds) rest).
      rewrite (number_body_plain neg "0" "" (zeros (S e - k) ++ String c ds) rest);
        try reflexivity; try assumption.
      * rewrite (decimal_value neg _ _ 0 p (S e)); [reflexivity | |].
        -- cbn [append]. now rewrite digits_value_zero, digits_value_zeros.
        -- rewrite length_append, length_zeros. cbn [String.length]. lia.
      * rewrite all_digits_append, all_digits_zeros. simpl. now rewrite Hc, Hds.
      * destruct (zeros (S e - k)); reflexivity.
    + apply Hexp. lia.
Qed.

Lemma parse_number_body (s : string) (v : number * string) :
  number_body false s = Some v -> parse_number s = Some v.
Proof.
  destruct s as [|c r]; [discriminate|]. cbn [parse_number].
  destruct (Ascii.eqb_spec c "-") as [-> | _]; [discriminate | auto].
Qed.

Lemma parse_number_fraction (m : Z) (e : nat) (rest : string) :
  (m mod 10 <> 0)%Z -> ends_number rest = true ->
  parse_number (fraction_text m (S e) ++ rest) =
  Some ({| mantissa := m; scale := S e |}, rest).
Proof.
  intros Hm Hrest. unfold fraction_text. rewrite append_assoc.
  rewrite <- (strip_canonical m e Hm).
  destruct m as [|p|p]; [now elim Hm | |].
  - apply parse_number_body.
    exact (number_body_fraction false p e rest Hrest).
  - cbn [Z.ltb Z.compare Z.abs append parse_number Ascii.eqb Bool.eqb].
    exact (number_body_fraction true p e rest Hrest).
Qed.

Lemma parse_number_text (x : number) (rest : string) :
  canonical x = true -> ends_number rest = true ->
  parse_number (number_to_string x ++ rest) = Some (x, rest).
Proof.
  intros Hx Hrest. unfold number_to_string. rewrite (normalize_canonical x Hx).
  destruct x as [m [|e]]; cbn [scale mantissa].
  - exact (parse_number_of_Z m rest Hrest).
  - apply parse_number_fraction; [|exact Hrest].
    unfold canonical in Hx. cbn [scale mantissa] in Hx.
    now apply negb_true_iff, Z.eqb_neq in Hx.
Qed.

(** The text of a number starts with a digit or a minus sign. *)
Lemma number_to_string_head (x : number) :
  exists c t, number_to_string x = String c t /\ (is_digit c = true \/ c = "-"%char).
Proof.
  assert (Hint : forall n : Z,
             exists c t, string_of_Z n = String c t /\
                         (is_digit c = true \/ c = "-"%char)).
  { intros n. unfold string_of_Z. destruct n as [|p|p].
    - exists "0"%char, "". auto.
    - destruct (to_uint_text p) as [c [ds [Htext [Hc _]]]].
      exists c, ds. cbn [Z.to_int NilZero.string_of_int]. auto.
    - destruct (to_uint_text p) as [c [ds [Htext [Hc _]]]].
      exists "-"%char, (String c ds). cbn [Z.to_int NilZero.string_of_int].
      rewrite Htext. auto. }
  unfold number_to_string. destruct (normalize x) as [m [|e]]; cbn [scale mantissa].
  - apply Hint.
  - unfold fraction_text.
    destruct (m <? 0)%Z;
      [exists "-"%char; eexists; split; [reflexivity | now right]|].
    cbn [append]. unfold fraction_digits.
    destruct (all_digits_of_Z (Z.abs m) (Z.abs_nonneg m)) as [Hall Hne].
    destruct (string_of_Z (Z.abs m)) as [|c t]; [discriminate Hne|].
    cbn [all_digits] in Hall. apply andb_prop in Hall as [Hc _].
    cbv zeta. destruct (S e <? _)%nat eqn:E1.
    + destruct (_ <=? 21)%nat.
      * apply Nat.ltb_lt in E1.
        destruct (String.length (String c t) - S e) as [|n] eqn:En; [lia|].
        unfold take. cbn [substring append]. eauto.
      * unfold exponential. cbn [append]. eauto.
    + destruct (_ <? 6)%nat;
        [cbn [append]; eauto | unfold exponential; cbn [append]; eauto].
Qed.

(** ** Objects *)

Lemma set_member_fresh (k : string) (v : json) (acc : list (string * json)) :
  existsb (String.eqb k) (map fst acc) = false ->
  set_member k v acc = (acc ++ [(k, v)])%list.
Proof.
  induction acc as [|[k' v'] acc IH]; intros H; [reflexivity|].
  simpl in H. apply orb_false_iff in H as [Hk H].
  cbn [set_member]. rewrite String.eqb_sym, Hk. cbn [app]. now rewrite IH.
Qed.

Lemma existsb_app_false (k : string) (a b : list string) :
  existsb (String.eqb k) a = false -> existsb (String.eqb k) b = false ->
  existsb (String.eqb k) (a ++ b)%list = false.
Proof. intros Ha Hb. now rewrite existsb_app, Ha, Hb. Qed.

Lemma members_from (fields acc : list (string * json)) :
  distinct (map fst fields) = true ->
  (forall k, In k (map fst fields) -> existsb (String.eqb k) (map fst acc) = false) ->
  fold_left (fun a kv => set_member (fst kv) (snd kv) a) fields acc
  = (acc ++ fields)%list.
Proof.
  revert acc. induction fields as [|[k v] fields IH]; intros acc Hd Hfresh.
  - now rewrite List.app_nil_r.
  - cbn [map fst distinct] in Hd. apply andb_prop in Hd as [Hk Hd].
    apply negb_true_iff in Hk.
    cbn [fold_left fst snd]. rewrite set_member_fresh by (apply Hfresh; now left).
    rewrite IH; [now rewrite <- List.app_assoc | exact Hd |].
    intros k' Hin. rewrite map_app. apply existsb_app_false.
    + apply Hfresh. now right.
    + cbn [map fst existsb]. rewrite orb_false_r.
      destruct (String.eqb_spec k' k) as [->|]; [|reflexivity].
      exfalso. clear - Hk Hin.
      induction (map fst fields) as [|x l IHl]; [destruct Hin|].
      simpl in Hk. apply orb_false_iff in Hk as [Hx Hl].
      destruct Hin as [-> | Hin]; [now rewrite String.eqb_refl in Hx | auto].
Qed.

Lemma members_distinct (fields : list (string * json)) :
  distinct (map fst fields) = true -> members fields = fields.
Proof.
  intros H. unfold members. now rewrite members_from.
Qed.

(** ** Values *)

Lemma digit_or_minus (c : ascii) :
  is_digit c = true \/ c = "-"%char -> opens_value c = true.
Proof.
  intros [H | ->]; [|reflexivity]. unfold opens_value. now rewrite H.
Qed.

Lemma serialize_head (indent : string) (v : json) :
  exists c t, serialize indent v = String c t /\ opens_value c = true.
Proof.
  destruct v as [|[]|n|s|[|x xs]|[|kv fields]];
    try (eexists _, _; split; reflexivity).
  destruct (number_to_string_head n) as [c [t [H Hc]]].
  exists c, t. split; [exact H | now apply digit_or_minus].
Qed.

Lemma opens_value_facts (c : ascii) :
  opens_value c = true ->
  is_ws c = false /\ (c =? "]")%char = false /\ (c =? "}")%char = false.
Proof.
  unfold opens_value. intros H. apply orb_prop in H as [H | H].
  - apply digit_cases in H. simpl in H.
    repeat (destruct H as [<- | H]; [repeat split; reflexivity|]). destruct H.
  - simpl in H.
    repeat (apply orb_prop in H as [H | H];
            [apply Ascii.eqb_eq in H; subst c; repeat split; reflexivity|]).
    discriminate.
Qed.

Lemma skip_to_value (w indent rest : string) (v : json) :
  all_chars is_ws w = true ->
  skip_ws (w ++ serialize indent v ++ rest) = (serialize indent v ++ rest)%string.
Proof.
  intros Hw. rewrite (skip_ws_spaces _ _ Hw).
  destruct (serialize_head indent v) as [c [t [-> Hc]]].
  apply opens_value_facts in Hc as [Hc _]. now apply skip_ws_head.
Qed.

Lemma closes_value (close : ascii) (indent rest : string) (v : json) :
  close = "]"%char \/ close = "}"%char ->
  closes close (serialize indent v ++ rest) = None.
Proof.
  intros Hclose. destruct (serialize_head indent v) as [c [t [-> Hc]]].
  apply opens_value_facts in Hc as [_ [H1 H2]].
  cbn [append closes]. destruct Hclose as [-> | ->]; now rewrite ?H1, ?H2.
Qed.

Lemma prefix_append (a b : string) : prefix a (a ++ b) = true.
Proof. apply prefix_spec. now exists b. Qed.

Lemma round_trips_null : round_trips JNull.
Proof.
  intros _ indent rest fuel _ _ Hfuel. destruct fuel as [|f]; [simpl in Hfuel; lia|].
  cbn [serialize parse_value]. cbv zeta.
  change ("null" ++ rest) with (String "n" ("ull" ++ rest)).
  rewrite skip_ws_head by reflexivity.
  change (String "n" ("ull" ++ rest)) with ("null" ++ rest).
  rewrite (prefix_append "null" rest).
  now rewrite (drop_append 4 "null" rest).
Qed.

Lemma round_trips_bool (b : bool) : round_trips (JBool b).
Proof.
  intros _ indent rest fuel _ _ Hfuel. destruct fuel as [|f]; [simpl in Hfuel; lia|].
  destruct b; cbn [serialize parse_value]; cbv zeta.
  - change ("true" ++ rest) with (String "t" ("rue" ++ rest)).
    rewrite skip_ws_head by reflexivity.
    rewrite (prefix_head_neq "n" "t") by discriminate.
    change (String "t" ("rue" ++ rest)) with ("true" ++ rest).
    rewrite (prefix_append "true" rest).
    now rewrite (drop_append 4 "true" rest).
  - change ("false" ++ rest) with (String "f" ("alse" ++ rest)).
    rewrite skip_ws_head by reflexivity.
    rewrite (prefix_head_neq "n" "f") by discriminate.
    rewrite (prefix_head_neq "t" "f") by discriminate.
    change (String "f" ("alse" ++ rest)) with ("false" ++ rest).
    rewrite (prefix_append "false" rest).
    now rewrite (drop_append 5 "false" rest).
Qed.

Lemma round_trips_str (s : string) : round_trips (JStr s).
Proof.
  intros _ indent rest fuel _ _ Hfuel. destruct fuel as [|f]; [simpl in Hfuel; lia|].
  cbn [serialize parse_value]. cbv zeta. unfold quoted. cbn [append].
  rewrite skip_ws_head by reflexivity.
  rewrite !prefix_head_neq by discriminate.
  rewrite Ascii.eqb_refl, append_assoc. cbn [append].
  now rewrite parse_string_escape.
Qed.

Lemma number_head_facts (c : ascii) :
  is_digit c = true \/ c = "-"%char ->
  is_ws c = false /\ "n"%char <> c /\ "t"%char <> c /\ "f"%char <> c /\
  (c =? quote)%char = false /\ (c =? "[")%char = false /\ (c =? "{")%char = false.
Proof.
  intros [H | ->].
  - apply digit_cases in H. simpl in H.
    repeat (destruct H as [<- | H];
            [repeat split; try reflexivity; discriminate|]).
    destruct H.
  - repeat split; try reflexivity; discriminate.
Qed.

Lemma round_trips_num (x : number) : round_trips (JNum x).
Proof.
  intros Hx indent rest fuel _ Hrest Hfuel. cbn [well_formed] in Hx.
  destruct fuel as [|f]; [simpl in Hfuel; lia|].
  cbn [serialize parse_value]. cbv zeta.
  pose proof (parse_number_text x rest Hx Hrest) as Hparse.
  destruct (number_to_string_head x) as [c [t [Htext Hc]]].
  rewrite Htext in *. cbn [append] in *.
  destruct (number_head_facts c Hc) as [Hws [Hn [Ht [Hf [Hq [Ha Ho]]]]]].
  rewrite (skip_ws_head c _ Hws).
  rewrite (prefix_head_neq "n" c), (prefix_head_neq "t" c), (prefix_head_neq "f" c)
    by assumption.
  rewrite Hq, Ha, Ho, Hparse. reflexivity.
Qed.

(** ** Arrays and objects *)

Lemma nl_ws : all_chars is_ws nl = true.
Proof. reflexivity. Qed.

Lemma inner_ws (indent : string) :
  all_chars is_ws indent = true -> all_chars is_ws (nl ++ indent ++ gap) = true.
Proof. intros H. apply (all_ws_append nl), all_ws_append; auto. Qed.

Lemma join_head (sep x : string) (xs : list string) (tail : string) :
  exists R, (join sep (x :: xs) ++ tail = x ++ R)%string.
Proof.
  destruct xs as [|y ys]; cbn [join String.concat].
  - now exists tail.
  - exists (sep ++ String.concat sep (y :: ys) ++ tail)%string.
    now rewrite !append_assoc.
Qed.

Lemma join_cons {A : Type} (sep : string) (f : A -> string) (x y : A) (ys : list A) :
  join sep (map f (x :: y :: ys)) = (f x ++ sep ++ join sep (map f (y :: ys)))%string.
Proof. reflexivity. Qed.

Lemma append_char (c : ascii) (x : string) :
  (String c "" ++ x)%string = String c x.
Proof. reflexivity. Qed.

Lemma parse_items_text (inner indent : string) :
  all_chars is_ws inner = true -> all_chars is_ws indent = true ->
  forall items : list json,
    Forall round_trips items -> forallb well_formed items = true -> items <> [] ->
    forall (fuel : nat) (rest : string),
      list_sum (map (fun x => S (need x)) items) <= fuel ->
      parse_items fuel
        (nl ++ inner ++
         join ("," ++ nl ++ inner) (map (serialize inner) items) ++
         nl ++ indent ++ "]" ++ rest)
      = Some (items, rest).
Proof.
  intros Hinner Hindent. induction items as [|x xs IH]; [congruence|].
  intros Hall Hwf _ fuel rest Hfuel.
  inversion Hall as [|? ? Hx Hxs]; subst.
  cbn [forallb] in Hwf. apply andb_prop in Hwf as [Hwfx Hwfxs].
  cbn [map list_sum fold_right] in Hfuel.
  destruct fuel as [|f]; [lia|].
  cbn [parse_items].
  rewrite <- (append_assoc nl inner).
  rewrite parse_value_skip by (apply (all_ws_append nl); auto).
  destruct xs as [|y ys].
  - cbn [map join String.concat].
    rewrite (Hx Hwfx inner _ f Hinner) by (reflexivity || lia).
    rewrite <- (append_assoc nl indent).
    rewrite skip_ws_spaces by (apply (all_ws_append nl); auto).
    reflexivity.
  - rewrite (join_cons _ (serialize inner) x y ys). rewrite !append_assoc.
    rewrite (Hx Hwfx inner _ f Hinner) by (reflexivity || lia).
    rewrite (append_char ","), skip_ws_head by reflexivity.
    change ("," =? ",")%char with true. cbv iota.
    rewrite IH; [reflexivity | exact Hxs | exact Hwfxs | discriminate |].
    cbn [map list_sum fold_right] in *. lia.
Qed.

Lemma serialize_arr (indent : string) (x : json) (xs : list json) :
  serialize indent (JArr (x :: xs)) =
  "[" ++ nl ++ (indent ++ gap) ++
  join ("," ++ nl ++ (indent ++ gap)) (map (serialize (indent ++ gap)) (x :: xs)) ++
  nl ++ indent ++ "]".
Proof. reflexivity. Qed.

Lemma round_trips_arr (items : list json) :
  Forall round_trips items -> round_trips (JArr items).
Proof.
  intros Hall Hwf indent rest fuel Hindent Hrest Hfuel.
  destruct fuel as [|f]; [simpl in Hfuel; lia|].
  destruct items as [|x xs].
  - cbn [serialize parse_value append]. cbv zeta.
    rewrite skip_ws_head by reflexivity.
    rewrite !prefix_head_neq by discriminate.
    reflexivity.
  - rewrite serialize_arr. cbn [well_formed] in Hwf. cbn [need] in Hfuel.
    fold need in Hfuel.
    assert (Hinner : all_chars is_ws (indent ++ gap) = true)
      by (apply all_ws_append; auto).
    rewrite !append_assoc. cbn [parse_value]. cbv zeta.
    change ("[" ++ nl ++ indent ++ gap ++
            join ("," ++ nl ++ indent ++ gap)
              (map (serialize (indent ++ gap)) (x :: xs)) ++ nl ++ indent ++ "]" ++ rest)
      with (String "[" (nl ++ indent ++ gap ++
            join ("," ++ nl ++ indent ++ gap)
              (map (serialize (indent ++ gap)) (x :: xs)) ++ nl ++ indent ++ "]" ++ rest)).
    rewrite skip_ws_head by reflexivity.
    rewrite !prefix_head_neq by discriminate.
    change ("[" =? quote)%char with false. change ("[" =? "[")%char with true.
    cbv iota.
    assert (Hclose : closes "]"
              (skip_ws (nl ++ indent ++ gap ++
                 join ("," ++ nl ++ indent ++ gap)
                   (map (serialize (indent ++ gap)) (x :: xs)) ++
                 nl ++ indent ++ "]" ++ rest)) = None).
    { cbn [map].
      destruct (join_head ("," ++ nl ++ indent ++ gap) (serialize (indent ++ gap) x)
                  (map (serialize (indent ++ gap)) xs) (nl ++ indent ++ "]" ++ rest))
        as [R HR].
      rewrite HR.
      replace (nl ++ indent ++ gap ++ serialize (indent ++ gap) x ++ R)
        with ((nl ++ indent ++ gap) ++ serialize (indent ++ gap) x ++ R)
        by (now rewrite !append_assoc).
      rewrite skip_to_value by (now apply inner_ws).
      apply closes_value. now left. }
    rewrite Hclose.
    pose proof (parse_items_text (indent ++ gap) indent Hinner Hindent (x :: xs)
                  Hall Hwf ltac:(discriminate) f rest ltac:(lia)) as Hitems.
    rewrite !append_assoc in Hitems. rewrite Hitems. reflexivity.
Qed.

Lemma quoted_append (k rest : string) :
  quoted k ++ rest = String quote (escape k ++ String quote rest).
Proof. unfold quoted. cbn [append]. now rewrite append_assoc. Qed.

Lemma parse_member (inner : string) (k : string) (v : json) (f : nat) (rest : string) :
  round_trips v -> well_formed v = true -> all_chars is_ws inner = true ->
  ends_number rest = true -> need v <= f ->
  forall w, all_chars is_ws w = true ->
  exists r2,
    skip_ws (w ++ member_text inner (k, v) ++ rest) = String quote r2 /\
    parse_string r2 = Some (k, String ":" (" " ++ serialize inner v ++ rest)) /\
    parse_value f (" " ++ serialize inner v ++ rest) = Some (v, rest).
Proof.
  intros Hv Hwf Hinner Hrest Hfuel w Hw.
  unfold member_text. cbn [fst snd].
  rewrite !append_assoc, quoted_append.
  exists (escape k ++ String quote (": " ++ serialize inner v ++ rest)).
  split; [|split].
  - rewrite skip_ws_spaces by exact Hw. now apply skip_ws_head.
  - apply parse_string_escape.
  - rewrite (parse_value_skip f " ") by reflexivity.
    now apply Hv.
Qed.

Lemma parse_members_text (inner indent : string) :
  all_chars is_ws inner = true -> all_chars is_ws indent = true ->
  forall fields : list (string * json),
    Forall (fun kv : string * json => round_trips (snd kv)) fields ->
    forallb (fun kv : string * json => well_formed (snd kv)) fields = true ->
    fields <> [] ->
    forall (fuel : nat) (rest : string),
      list_sum (map (fun kv : string * json => S (need (snd kv))) fields) <= fuel ->
      parse_members fuel
        (nl ++ inner ++
         join ("," ++ nl ++ inner) (map (member_text inner) fields) ++
         nl ++ indent ++ "}" ++ rest)
      = Some (fields, rest).
Proof.
  intros Hinner Hindent. induction fields as [|[k v] fields IH]; [congruence|].
  intros Hall Hwf _ fuel rest Hfuel.
  inversion Hall as [|? ? Hv Hrest]; subst. cbn [snd] in Hv.
  cbn [forallb snd] in Hwf. apply andb_prop in Hwf as [Hwfv Hwfs].
  cbn [map list_sum fold_right snd] in Hfuel.
  destruct fuel as [|f]; [lia|].
  cbn [parse_members].
  rewrite <- (append_assoc nl inner).
  destruct fields as [|kv' fields'].
  - cbn [map join String.concat].
    destruct (parse_member inner k v f (nl ++ indent ++ "}" ++ rest) Hv Hwfv Hinner
                ltac:(reflexivity) ltac:(lia) (nl ++ inner)
                ltac:(apply (all_ws_append nl); auto))
      as [r2 [Hskip [Hkey Hval]]].
    rewrite Hskip. rewrite Ascii.eqb_refl, Hkey.
    rewrite skip_ws_head by reflexivity.
    rewrite Ascii.eqb_refl, Hval.
    rewrite <- (append_assoc nl indent).
    rewrite skip_ws_spaces by (apply (all_ws_append nl); auto).
    reflexivity.
  - rewrite (join_cons _ (member_text inner) (k, v) kv' fields').
    rewrite !append_assoc.
    rewrite <- (append_assoc nl inner).
    destruct (parse_member inner k v f
                ("," ++ nl ++ inner ++
                 join ("," ++ nl ++ inner) (map (member_text inner) (kv' :: fields')) ++
                 nl ++ indent ++ "}" ++ rest) Hv Hwfv Hinner
                ltac:(reflexivity) ltac:(lia) (nl ++ inner)
                ltac:(apply (all_ws_append nl); auto))
      as [r2 [Hskip [Hkey Hval]]].
    rewrite Hskip. rewrite Ascii.eqb_refl, Hkey.
    rewrite skip_ws_head by reflexivity.
    rewrite Ascii.eqb_refl, Hval.
    rewrite (append_char ","), skip_ws_head by reflexivity.
    change ("," =? ",")%char with true. cbv iota.
    rewrite IH; [reflexivity | exact Hrest | exact Hwfs | discriminate |].
    cbn [map list_sum fold_right] in *. lia.
Qed.

Lemma serialize_obj (indent : string) (kv : string * json) (fields : list (string * json)) :
  serialize indent (JObj (kv :: fields)) =
  "{" ++ nl ++ (indent ++ gap) ++
  join ("," ++ nl ++ (indent ++ gap)) (map (member_text (indent ++ gap)) (kv :: fields)) ++
  nl ++ indent ++ "}".
Proof. reflexivity. Qed.

Lemma round_trips_obj (fields : list (string * json)) :
  Forall (fun kv : string * json => round_trips (snd kv)) fields ->
  round_trips (JObj fields).
Proof.
  intros Hall Hwf indent rest fuel Hindent Hrest Hfuel.
  destruct fuel as [|f]; [simpl in Hfuel; lia|].
  destruct fields as [|kv fields].
  - cbn [serialize parse_value append]. cbv zeta.
    rewrite skip_ws_head by reflexivity.
    rewrite !prefix_head_neq by discriminate.
    reflexivity.
  - rewrite serialize_obj. cbn [well_formed] in Hwf.
    apply andb_prop in Hwf as [Hkeys Hwf].
    cbn [need] in Hfuel. fold need in Hfuel.
    assert (Hinner : all_chars is_ws (indent ++ gap) = true)
      by (apply all_ws_append; auto).
    rewrite !append_assoc. rewrite (append_char "{").
    cbn [parse_value]. cbv zeta.
    rewrite skip_ws_head by reflexivity.
    rewrite !prefix_head_neq by discriminate.
    change ("{" =? quote)%char with false. change ("{" =? "[")%char with false.
    change ("{" =? "{")%char with true. cbv iota.
    assert (Hclose : closes "}"
              (skip_ws (nl ++ indent ++ gap ++
                 join ("," ++ nl ++ indent ++ gap)
                   (map (member_text (indent ++ gap)) (kv :: fields)) ++
                 nl ++ indent ++ "}" ++ rest)) = None).
    { cbn [map].
      destruct (join_head ("," ++ nl ++ indent ++ gap) (member_text (indent ++ gap) kv)
                  (map (member_text (indent ++ gap)) fields) (nl ++ indent ++ "}" ++ rest))
        as [R HR].
      rewrite HR. unfold member_text at 1. rewrite !append_assoc, quoted_append.
      replace (nl ++ indent ++ gap ++ String quote
                 (escape (fst kv) ++ String quote (": " ++ serialize (indent ++ gap) (snd kv) ++ R)))
        with ((nl ++ indent ++ gap) ++ String quote
                 (escape (fst kv) ++ String quote (": " ++ serialize (indent ++ gap) (snd kv) ++ R)))
        by (now rewrite !append_assoc).
      rewrite skip_ws_spaces by (now apply inner_ws).
      rewrite skip_ws_head by reflexivity. reflexivity. }
    rewrite Hclose.
    pose proof (parse_members_text (indent ++ gap) indent Hinner Hindent (kv :: fields)
                  Hall Hwf ltac:(discriminate) f rest ltac:(lia)) as Hmembers.
    rewrite !append_assoc in Hmembers. rewrite Hmembers.
    now rewrite (members_distinct _ Hkeys).
Qed.

(** The length of the text covers the calls of the parser. *)

Lemma items_need_bound {A : Type} (cost : A -> nat) (text : A -> string)
  (sep : string) (items : list A) :
  Forall (fun x => cost x <= String.length (text x)) items ->
  items <> [] -> 1 <= String.length sep ->
  list_sum (map (fun x => S (cost x)) items)
  <= String.length (join sep (map text items)) + 1.
Proof.
  intros Hall Hne Hsep. induction items as [|x xs IH]; [congruence|].
  inversion Hall as [|? ? Hx Hxs]; subst.
  destruct xs as [|y ys].
  - cbn [map list_sum fold_right join String.concat]. lia.
  - rewrite (join_cons sep text x y ys), !length_append.
    specialize (IH Hxs ltac:(discriminate)).
    cbn [map list_sum fold_right] in *. lia.
Qed.

Lemma need_le_length (v : json) :
  forall indent, need v <= String.length (serialize indent v).
Proof.
  induction v as [| b | n | s | items IH | fields IH] using json_induction;
    intros indent.
  - simpl. lia.
  - destruct b; simpl; lia.
  - cbn [need serialize]. destruct (number_to_string_head n) as [c [t [-> _]]]. simpl. lia.
  - cbn [need serialize]. unfold quoted. simpl. lia.
  - destruct items as [|x xs]; [simpl; lia|].
    rewrite serialize_arr, !length_append. cbn [need]. fold need.
    pose proof (items_need_bound need (serialize (indent ++ gap))
                  ("," ++ nl ++ indent ++ gap) (x :: xs)) as H.
    assert (Hb : Forall (fun x0 => need x0 <= String.length (serialize (indent ++ gap) x0))
                   (x :: xs)).
    { eapply Forall_impl; [|exact IH]. intros a Ha. apply Ha. }
    specialize (H Hb ltac:(discriminate) ltac:(simpl; lia)).
    unfold nl, gap in *. cbn [String.length] in *. lia.
  - destruct fields as [|kv fields]; [simpl; lia|].
    rewrite serialize_obj, !length_append. cbn [need]. fold need.
    pose proof (items_need_bound (fun kv : string * json => need (snd kv))
                  (member_text (indent ++ gap))
                  ("," ++ nl ++ indent ++ gap) (kv :: fields)) as H.
    assert (Hb : Forall (fun kv0 : string * json =>
                   need (snd kv0) <= String.length (member_text (indent ++ gap) kv0))
                   (kv :: fields)).
    { eapply Forall_impl; [|exact IH]. intros a Ha. cbv beta in Ha.
      unfold member_text. rewrite !length_append.
      specialize (Ha (indent ++ gap)). lia. }
    specialize (H Hb ltac:(discriminate) ltac:(simpl; lia)).
    unfold nl, gap in *. cbn [String.length] in *. lia.
Qed.

(** Every well-formed value is read back from its text. *)
Lemma parse_value_serialize (v : json) : round_trips v.
Proof.
  induction v using json_induction.
  - apply round_trips_null.
  - apply round_trips_bool.
  - apply round_trips_num.
  - apply round_trips_str.
  - now apply round_trips_arr.
  - now apply round_trips_obj.
Qed.

(** [JSON.parse(JSON.stringify(v, null, 2))] is [v]. *)
Lemma JSON_parse_stringify (v : json) :
  well_formed v = true -> JSON_parse (JSON_stringify v) = Some v.
Proof.
  intros Hwf. unfold JSON_parse, JSON_stringify.
  pose proof (parse_value_serialize v Hwf "" ""
                (S (String.length (serialize "" v))) eq_refl eq_refl) as H.
  rewrite append_empty_r in H. rewrite H; [reflexivity|].
  pose proof (need_le_length v ""). lia.
Qed.

End JsonFacts.

Lemma existsSync_dir (d : Fs.Disk) (p : string) :
  In p (Fs.dirs d) -> Fs.existsSync d p = true.
Proof.
  intros H. unfold Fs.existsSync. destruct (lookup p (Fs.files d)); [reflexivity|].
  apply existsb_exists. exists p. split; [exact H | apply String.eqb_refl].
Qed.

Lemma existsSync_file (d : Fs.Disk) (p : string) :
  In p (map fst (Fs.files d)) -> Fs.existsSync d p = true.
Proof.
  intros H. unfold Fs.existsSync.
  induction (Fs.files d) as [|[k c] l IH]; [destruct H|].
  cbn [lookup]. destruct (String.eqb_spec k p); [reflexivity|].
  destruct H as [H | H]; [now elim n | now apply IH].
Qed.

(** C9.  The records [generateWebsite] writes to the data file of a job are
    the records the handler of /api/generate-page reads back from it: the
    same number of records, with the same fields, in the same order. *)
Theorem data_file_round_trip :
  forall (d d' : Fs.Disk) (outputRoot projectId : string) (records : list json),
    forallb well_formed records = true ->
    WebsiteGenerator.writeData d (Fs.join outputRoot projectId) records = Ok d' ->
    Fs.listed (Fs.join (Fs.join outputRoot projectId) "data.json")
      (Fs.unreadable d') = false ->
    Server.existingData d' (Fs.join (Fs.join outputRoot projectId) "data.json")
    = Ok (JArr records) /\
    (records <> [] ->
     Server.loadProject d' outputRoot projectId = Server.Data (JArr records)).
Proof.
  intros d d' outputRoot projectId records Hwf Hwrite Hread.
  unfold WebsiteGenerator.writeData in Hwrite.
  destruct (Fs.mkdirSync d (Fs.join outputRoot projectId)) as [d1|e] eqn:Hmk;
    [|discriminate Hwrite].
  cbn [bind] in Hwrite.
  unfold Fs.mkdirSync in Hmk.
  destruct (Fs.listed _ (Fs.unwritable d)); [discriminate Hmk|].
  injection Hmk as <-.
  unfold Fs.writeFileSync in Hwrite. cbn [Fs.unwritable Fs.files Fs.dirs Fs.unreadable] in Hwrite.
  destruct (Fs.listed _ (Fs.unwritable d)); [discriminate Hwrite|].
  injection Hwrite as <-. cbn [Fs.unreadable] in Hread.
  assert (Hdata : Server.existingData
            {| Fs.files := (Fs.join (Fs.join outputRoot projectId) "data.json",
                            Json.JSON_stringify (JArr records)) :: Fs.files d;
               Fs.dirs := Fs.join outputRoot projectId :: Fs.dirs d;
               Fs.unreadable := Fs.unreadable d;
               Fs.unwritable := Fs.unwritable d |}
            (Fs.join (Fs.join outputRoot projectId) "data.json") = Ok (JArr records)).
  { unfold Server.existingData, Fs.readFileSync. cbn [Fs.unreadable Fs.files].
    rewrite Hread. cbn [lookup]. rewrite String.eqb_refl. cbn [bind].
    now rewrite JSON_parse_stringify. }
  split; [exact Hdata|].
  intros Hne. unfold Server.loadProject. rewrite Hdata.
  rewrite existsSync_dir by (now left).
  rewrite existsSync_file by (now left).
  cbn [negb].
  destruct records as [|r rs]; [congruence|]. reflexivity.
Qed.

(** Two records written on an empty disk and read back *)
Lemma data_file_round_trip_witness :
  exists d',
    WebsiteGenerator.writeData emptyDisk (Fs.join "generated" "job-1") twoFilms
      = Ok d' /\
    Server.existingData d' (Fs.join (Fs.join "generated" "job-1") "data.json")
      = Ok (JArr twoFilms) /\
    Server.loadProject d' "generated" "job-1" = Server.Data (JArr twoFilms).
Proof.
  eexists. split; [reflexivity|].
  destruct (data_file_round_trip emptyDisk _ "generated" "job-1" twoFilms
              eq_refl eq_refl eq_refl) as [Hread Hload].
  split; [exact Hread | apply Hload; discriminate].
Defined.

(* ################################################################# *)
(** * More about the detection of the data source and the analysis *)

Section DetectFacts.

Import DataFilter.

Lemma lower_upper_char (c : ascii) : lower_char (upper_char c) = lower_char c.
Proof. destruct c as [[] [] [] [] [] [] [] []]; reflexivity. Qed.

Lemma map_chars_ascii (f : ascii -> ascii) (s : string) :
  (forall c, is_ascii (f c) = is_ascii c) ->
  all_chars is_ascii (map_chars f s) = all_chars is_ascii s.
Proof.
  intros Hf. induction s as [|c s IH]; [reflexivity|].
  cbn [map_chars all_chars]. now rewrite Hf, IH.
Qed.

Lemma fold_upper (s : string) : fold_case (map_chars upper_char s) = fold_case s.
Proof.
  induction s as [|c s IH]; [reflexivity|].
  cbn [fold_case map_chars]. rewrite lower_upper_char.
  f_equal. exact IH.
Qed.

Lemma lower_upper (s : string) :
  all_chars is_ascii s = true -> toLowerCase (toUpperCase s) = toLowerCase s.
Proof.
  intros Hs. rewrite (toUpperCase_ascii_text s Hs).
  rewrite !toLowerCase_ascii_text;
    rewrite ?(map_chars_ascii _ _ upper_char_ascii); try exact Hs.
  apply fold_upper.
Qed.

Lemma lower_lower_char (c : ascii) : lower_char (lower_char c) = lower_char c.
Proof. destruct c as [[] [] [] [] [] [] [] []]; reflexivity. Qed.

Lemma fold_fold (s : string) : fold_case (fold_case s) = fold_case s.
Proof.
  induction s as [|c s IH]; [reflexivity|].
  cbn [fold_case map_chars]. rewrite lower_lower_char.
  f_equal. exact IH.
Qed.

Lemma lower_lower (s : string) :
  all_chars is_ascii s = true -> toLowerCase (toLowerCase s) = toLowerCase s.
Proof.
  intros Hs. rewrite (toLowerCase_ascii_text s Hs).
  rewrite toLowerCase_ascii_text
    by (unfold fold_case; now rewrite (map_chars_ascii _ _ lower_char_ascii)).
  apply fold_fold.
Qed.

End DetectFacts.

Lemma detected_source_known (intent : string) :
  In (DataFilter.detectDataSource intent) IntentAnalyzer.validSources.
Proof.
  unfold DataFilter.detectDataSource. cbv zeta.
  repeat match goal with |- context [if ?c then _ else _] => destruct c end;
    simpl; auto 10.
Qed.

(** X1.  [detectDataSource] answers with one of the six collections, whatever
    the request says. *)
Theorem detectDataSource_known :
  forall intent : string,
    In (DataFilter.detectDataSource intent) Server.availableSources.
Proof. exact detected_source_known. Qed.

(** X2.  For a request written in ASCII the detected source does not depend
    on the case of the letters. *)
Theorem detectDataSource_ignores_case :
  forall intent : string,
    all_chars is_ascii intent = true ->
    DataFilter.detectDataSource (toUpperCase intent) = DataFilter.detectDataSource intent /\
    DataFilter.detectDataSource (toLowerCase intent) = DataFilter.detectDataSource intent.
Proof.
  intros intent Hascii. unfold DataFilter.detectDataSource.
  rewrite (lower_upper _ Hascii), (lower_lower _ Hascii). split; reflexivity.
Qed.

(** A request in capital letters *)
Lemma detectDataSource_ignores_case_witness :
  DataFilter.detectDataSource (toUpperCase "Famous directors") =
    DataFilter.detectDataSource "Famous directors" /\
  DataFilter.detectDataSource (toLowerCase "Famous directors") =
    DataFilter.detectDataSource "Famous directors".
Proof. apply detectDataSource_ignores_case. reflexivity. Defined.

Lemma mentions_includes (text name : string) :
  mentions text name -> includes (toLowerCase text) (toLowerCase name) = true.
Proof. intros [pre [post H]]. apply includes_spec. eauto. Qed.

(** X3.  A request that mentions a movie, a film or the cinema is served from
    the movies, whatever else it mentions. *)
Theorem detectDataSource_movies_first :
  forall intent : string,
    mentions intent "movie" \/ mentions intent "film" \/ mentions intent "cinema" ->
    DataFilter.detectDataSource intent = "movies".
Proof.
  intros intent H. unfold DataFilter.detectDataSource. cbv zeta.
  destruct H as [H | [H | H]]; apply mentions_includes in H;
    change (toLowerCase "movie") with "movie" in H ||
    change (toLowerCase "film") with "film" in H ||
    change (toLowerCase "cinema") with "cinema" in H;
    rewrite H; rewrite ?orb_true_r; reflexivity.
Qed.

(** A request for films *)
Lemma detectDataSource_movies_first_witness :
  DataFilter.detectDataSource "Top Films of the decade" = "movies".
Proof.
  apply detectDataSource_movies_first. right. left.
  exists "top ", "s of the decade". reflexivity.
Defined.

Section AnalyzeFacts.

Import IntentAnalyzer.

Lemma acceptedLimit_range (pl : value) :
  num_ltb 0%Z (acceptedLimit pl) = true /\ num_leb (acceptedLimit pl) 500%Z = true.
Proof.
  unfold acceptedLimit. destruct pl as [[| | x | | |]|]; try (split; reflexivity).
  destruct (num_ltb 0%Z x) eqn:E1; destruct (num_leb x 500%Z) eqn:E2;
    split; try reflexivity; assumption.
Qed.

Lemma raiseForAll_range (lower : string) (x : number) :
  num_ltb 0%Z x = true /\ num_leb x 500%Z = true ->
  num_ltb 0%Z (raiseForAll lower x) = true /\
  num_leb (raiseForAll lower x) 500%Z = true.
Proof. intros H. unfold raiseForAll. destruct (_ && _); [split; reflexivity | exact H]. Qed.

Lemma raiseForSingle_range (lower : string) (x : number) :
  num_ltb 0%Z x = true /\ num_leb x 500%Z = true ->
  num_ltb 0%Z (raiseForSingle lower x) = true /\
  num_leb (raiseForSingle lower x) 500%Z = true.
Proof. intros H. unfold raiseForSingle. destruct (_ && _); [split; reflexivity | exact H]. Qed.

Lemma raiseForSingle_one (lower : string) (x : number) :
  num_eqb (raiseForSingle lower x) 1%Z = true ->
  includes lower "one" || includes lower "single" = true.
Proof.
  unfold raiseForSingle.
  destruct (includes lower "one") eqn:E1; [reflexivity|].
  destruct (includes lower "single") eqn:E2; [reflexivity|].
  rewrite (includes_false_trans lower "just one" "one" E1 eq_refl).
  destruct (num_eqb x 1%Z) eqn:E; cbn [negb andb]; [discriminate|].
  congruence.
Qed.

Lemma analyzeIntent_cases (userIntent : string) (reply : option json) :
  analyzeIntent userIntent reply = heuristicAnalysis userIntent \/
  exists parsed r,
    reply = Some parsed /\ interpretReply userIntent parsed = Ok r /\
    analyzeIntent userIntent reply = r.
Proof.
  destruct reply as [parsed|]; [|left; reflexivity].
  cbn [analyzeIntent].
  destruct (interpretReply userIntent parsed) as [r|e] eqn:E; [|left; reflexivity].
  right. exists parsed, r. auto.
Qed.

Lemma interpretReply_limit (userIntent : string) (parsed : json) (r : IntentAnalysisResult) :
  interpretReply userIntent parsed = Ok r ->
  exists pl,
    limit r = raiseForSingle (toLowerCase userIntent)
                (raiseForAll (toLowerCase userIntent) (acceptedLimit pl)).
Proof.
  unfold interpretReply. destruct parsed; cbn [get bind]; try discriminate;
    intros H; injection H as <-; cbn [limit]; eauto;
    exists None; reflexivity.
Qed.

Lemma interpretReply_source (userIntent : string) (parsed : json) (r : IntentAnalysisResult) :
  interpretReply userIntent parsed = Ok r ->
  dataSource r = DataFilter.detectDataSource userIntent \/
  In (dataSource r) validSources.
Proof.
  unfold interpretReply. destruct parsed; cbn [get bind]; try discriminate;
    intros H; injection H as <-; cbn [dataSource]; auto.
  destruct (lookup "dataSource" fields) as [[| | | s | |]|]; auto.
  match goal with
  | |- context [if ?c then s else _] => destruct c eqn:E; auto
  end.
  change (existsb (String.eqb s) validSources = true) in E.
  right. apply existsb_exists in E as [x [Hin Hx]].
  apply String.eqb_eq in Hx. subst x. exact Hin.
Qed.

End AnalyzeFacts.

(** X4.  Whatever the reply, the limit of the analysis is greater than 0 and
    at most 500, and it equals 1 only for a request that says "one" or
    "single". *)
Theorem analyzeIntent_limit_range :
  forall (userIntent : string) (reply : option json),
    let returned :=
      IntentAnalyzer.limit (IntentAnalyzer.analyzeIntent userIntent reply) in
    num_lt 0%Z returned /\ num_le returned 500%Z /\
    (num_eqb returned 1%Z = true ->
     mentions userIntent "one" \/ mentions userIntent "single").
Proof.
  intros userIntent reply returned. subst returned.
  destruct (analyzeIntent_cases userIntent reply) as [-> | [parsed [r [_ [Hr ->]]]]].
  - cbn [IntentAnalyzer.limit IntentAnalyzer.heuristicAnalysis].
    repeat split. discriminate.
  - destruct (interpretReply_limit _ _ _ Hr) as [pl ->].
    destruct (raiseForSingle_range (toLowerCase userIntent) _
                (raiseForAll_range (toLowerCase userIntent) _
                   (acceptedLimit_range pl))) as [H0 H500].
    split; [exact H0|]. split; [exact H500|].
    intros H1. apply raiseForSingle_one in H1.
    apply orb_prop in H1 as [H1 | H1]; [left | right];
      apply includes_spec in H1 as [pre [post H1]]; exists pre, post; exact H1.
Qed.

(** X5.  Whatever the reply, the data source of the analysis is one of the
    six collections. *)
Theorem analyzeIntent_source_known :
  forall (userIntent : string) (reply : option json),
    In (IntentAnalyzer.dataSource (IntentAnalyzer.analyzeIntent userIntent reply))
       IntentAnalyzer.validSources.
Proof.
  intros userIntent reply.
  destruct (analyzeIntent_cases userIntent reply) as [-> | [parsed [r [_ [Hr ->]]]]].
  - apply detected_source_known.
  - destruct (interpretReply_source _ _ _ Hr) as [-> | H]; [|exact H].
    apply detected_source_known.
Qed.

Section HeuristicFacts.

Import Regex IntentAnalyzer.

(** A text free of year tokens, in the words of [year_token_at] *)
Lemma year_free_none (text : string) :
  year_free None text "" = true ->
  forall pre tok post, ~ year_token_at text pre tok post.
Proof.
  intros Hfree pre tok post Hat.
  assert (Hlen : String.length text <= String.length pre).
  { apply (year_free_first text "" Hfree pre tok post).
    now rewrite append_empty_r. }
  destruct Hat as [-> [[c [d [_ [_ Htok]]]] _]].
  rewrite !length_append in Hlen.
  destruct Htok as [-> | ->]; simpl in Hlen; lia.
Qed.

Lemma search_year_none (text : string) :
  (forall pre tok post, ~ year_token_at text pre tok post) ->
  search yearPattern (toLowerCase text) = None.
Proof.
  intros Hnone. apply search_year_nothing. intros p tok q Hat.
  destruct (year_token_lowered _ _ _ _ Hat) as [pre [post [H _]]].
  exact (Hnone _ _ _ H).
Qed.

Lemma lookup_app {A : Type} (k : string) (a b : list (string * A)) :
  lookup k (a ++ b) = match lookup k a with Some v => Some v | None => lookup k b end.
Proof.
  induction a as [|[k' v] a IH]; simpl; [reflexivity|].
  destruct (k' =? k); [reflexivity | exact IH].
Qed.

Lemma lookup_remove_key_same {A : Type} (k : string) (l : list (string * A)) :
  lookup k (remove_key k l) = None.
Proof.
  induction l as [|[k' v] l IH]; simpl; [reflexivity|].
  destruct (k' =? k) eqn:E; [exact IH|]. simpl. now rewrite E.
Qed.

Lemma lookup_remove_key_other {A : Type} (k k' : string) (l : list (string * A)) :
  k' <> k -> lookup k' (remove_key k l) = lookup k' l.
Proof.
  intros Hne. induction l as [|[k0 v] l IH]; simpl; [reflexivity|].
  destruct (k0 =? k) eqn:E.
  - apply String.eqb_eq in E. subst k0.
    apply not_eq_sym in Hne. apply String.eqb_neq in Hne. now rewrite Hne.
  - simpl. destruct (k0 =? k'); [reflexivity | exact IH].
Qed.

End HeuristicFacts.

(** X6.  When the text of the request holds no year token and the model path
    fails, the filters of the heuristic analysis have no [year]. *)
Theorem heuristic_without_year :
  forall userIntent : string,
    (forall pre tok post, ~ year_token_at userIntent pre tok post) ->
    field (IntentAnalyzer.filters (IntentAnalyzer.analyzeIntent userIntent None))
      "year" = None.
Proof.
  intros userIntent Hnone.
  cbn [IntentAnalyzer.analyzeIntent]. unfold IntentAnalyzer.heuristicAnalysis.
  cbn [IntentAnalyzer.filters]. rewrite (search_year_none _ Hnone).
  cbn [field app]. rewrite lookup_app.
  destruct (find _ IntentAnalyzer.genres) as [g|].
  - destruct (nonempty _); simpl.
    + destruct (Regex.search_group _ _ _ _) as [l|]; [|destruct (Regex.search _ _) as [l|]];
        try reflexivity; destruct (nonempty l); reflexivity.
    + destruct (Regex.search_group _ _ _ _) as [l|]; [|destruct (Regex.search _ _) as [l|]];
        try reflexivity; destruct (nonempty l); reflexivity.
  - simpl.
    destruct (Regex.search_group _ _ _ _) as [l|]; [|destruct (Regex.search _ _) as [l|]];
        try reflexivity; destruct (nonempty l); reflexivity.
Qed.

Lemma heuristic_without_year_witness :
  field (IntentAnalyzer.filters
           (IntentAnalyzer.analyzeIntent "funny movies from the 90s" None))
    "year" = None.
Proof.
  apply heuristic_without_year. apply year_free_none. reflexivity.
Defined.

(** X7.  The genre of the heuristic analysis is one of five words: a request for
    science fiction is filed under sci-fi. *)
Theorem heuristic_genre_vocabulary :
  forall (userIntent : string) (g : json),
    field (IntentAnalyzer.filters (IntentAnalyzer.analyzeIntent userIntent None))
      "genre" = Some g ->
    In g [JStr "action"; JStr "sci-fi"; JStr "drama"; JStr "comedy"; JStr "horror"].
Proof.
  intros userIntent g.
  cbn [IntentAnalyzer.analyzeIntent]. unfold IntentAnalyzer.heuristicAnalysis.
  cbn [IntentAnalyzer.filters field]. rewrite !lookup_app.
  match goal with
  | |- context [lookup "genre" (match ?y with Some _ => _ | None => _ end)] =>
      assert (Hy : lookup "genre" (match y with
                                   | Some y0 => if (y0 =? 0)%Z then [] else [("year", JNum y0)]
                                   | None => []
                                   end) = None)
        by (destruct y as [y0|]; [destruct (y0 =? 0)%Z|]; reflexivity);
      rewrite Hy; clear Hy
  end.
  destruct (find _ IntentAnalyzer.genres) as [w|] eqn:E.
  - apply find_some in E as [Hin _].
    simpl in Hin.
    repeat (destruct Hin as [<- | Hin]; [simpl; intros H; injection H as <-; simpl; tauto|]).
    contradiction.
  - simpl.
    destruct (Regex.search_group _ _ _ _) as [l|]; [|destruct (Regex.search _ _) as [l|]];
      try discriminate; destruct (nonempty l); discriminate.
Qed.

(** A request for science fiction *)
Lemma heuristic_genre_vocabulary_witness :
  field (IntentAnalyzer.filters
           (IntentAnalyzer.analyzeIntent "science fiction films" None))
    "genre" = Some (JStr "sci-fi") /\
  In (JStr "sci-fi")
     [JStr "action"; JStr "sci-fi"; JStr "drama"; JStr "comedy"; JStr "horror"].
Proof.
  split; [reflexivity|].
  apply (heuristic_genre_vocabulary "science fiction films"). reflexivity.
Defined.

(** X8.  A location the reply puts into the filters is taken out again when the
    request neither contains it nor has one of the words that introduce a
    place; the other filters stay as the reply gave them. *)
Theorem analyzeIntent_drops_unmentioned_location :
  forall (userIntent : string) (parsed : json) (fs : list (string * json))
         (place : string),
    field parsed "filters" = Some (JObj fs) ->
    lookup "location" fs = Some (JStr place) ->
    place <> "" ->
    ~ mentions userIntent place ->
    ~ mentions userIntent "in " -> ~ mentions userIntent "from " ->
    ~ mentions userIntent "located" -> ~ mentions userIntent "at " ->
    let returned :=
      IntentAnalyzer.filters (IntentAnalyzer.analyzeIntent userIntent (Some parsed)) in
    field returned "location" = None /\
    forall k, k <> "location" -> field returned k = lookup k fs.
Proof.
  intros userIntent parsed fs place Hf Hl Hne Hplace Hin Hfrom Hloc Hat returned.
  assert (Hnot : forall name, ~ mentions userIntent name ->
                   includes (toLowerCase userIntent) (toLowerCase name) = false).
  { intros name H. destruct (includes _ _) eqn:E; [|reflexivity].
    exfalso. apply H. apply includes_spec in E as [pre [post E]]. now exists pre, post. }
  apply Hnot in Hplace, Hin, Hfrom, Hloc, Hat.
  change (toLowerCase "in ") with "in " in Hin.
  change (toLowerCase "from ") with "from " in Hfrom.
  change (toLowerCase "located") with "located" in Hloc.
  change (toLowerCase "at ") with "at " in Hat.
  destruct parsed as [| | | | |fields]; try discriminate Hf.
  cbn [field] in Hf.
  assert (Hret : returned = JObj (remove_key "location" fs)).
  { subst returned. cbn [IntentAnalyzer.analyzeIntent].
    unfold IntentAnalyzer.interpretReply. cbn [get bind]. rewrite Hf.
    cbn [truthy is_object_type andb IntentAnalyzer.filters].
    unfold IntentAnalyzer.checkLocation. cbn [field]. rewrite Hl.
    cbn [truthy to_String].
    destruct place as [|c place]; [congruence|]. cbn [nonempty].
    rewrite Hplace, Hin, Hfrom, Hloc, Hat. reflexivity. }
  rewrite Hret. cbn [field]. split.
  - apply lookup_remove_key_same.
  - intros k Hk. now apply lookup_remove_key_other.
Qed.

Lemma analyzeIntent_drops_unmentioned_location_witness :
  field (IntentAnalyzer.filters
           (IntentAnalyzer.analyzeIntent "show me tech companies"
              (Some (JObj [("dataSource", JStr "companies");
                           ("filters", JObj [("location", JStr "Delhi");
                                             ("industry", JStr "tech")]);
                           ("limit", JNum 100)]))))
    "location" = None /\
  field (IntentAnalyzer.filters
           (IntentAnalyzer.analyzeIntent "show me tech companies"
              (Some (JObj [("dataSource", JStr "companies");
                           ("filters", JObj [("location", JStr "Delhi");
                                             ("industry", JStr "tech")]);
                           ("limit", JNum 100)]))))
    "industry" = Some (JStr "tech").
Proof.
  pose proof (analyzeIntent_drops_unmentioned_location "show me tech companies"
    (JObj [("dataSource", JStr "companies");
           ("filters", JObj [("location", JStr "Delhi"); ("industry", JStr "tech")]);
           ("limit", JNum 100)])
    [("location", JStr "Delhi"); ("industry", JStr "tech")] "Delhi"
    eq_refl eq_refl) as H.
  destruct H as [H1 H2]; try (apply not_mentions; reflexivity); [discriminate|].
  split; [exact H1|]. apply H2. discriminate.
Defined.

Section VerifyFacts.

Import DataSourceVerifier.

Lemma upper_lower_char (c : ascii) : upper_char (lower_char c) = upper_char c.
Proof. destruct c as [[] [] [] [] [] [] [] []]; reflexivity. Qed.

Lemma upper_fold (s : string) :
  map_chars upper_char (fold_case s) = map_chars upper_char s.
Proof.
  induction s as [|c s IH]; [reflexivity|].
  cbn [fold_case map_chars]. rewrite upper_lower_char.
  f_equal. exact IH.
Qed.

(** A word without k and i that stands in the lower case of a text stands
    in its upper case, in capital letters. *)
Lemma includes_upper (text w : string) :
  all_chars (fresh lower_special) w = true -> w <> "" ->
  includes (toLowerCase text) w = true ->
  includes (toUpperCase text) (map_chars upper_char w) = true.
Proof.
  intros Hw Hne. rewrite !includes_spec. intros [p [q H]].
  destruct (toLowerCase_inv text p w q Hw Hne H)
    as [pre [x [post [-> [Hx [_ [Hfold _]]]]]]].
  exists (toUpperCase pre), (toUpperCase post).
  assert (Hb : boundary (x ++ post) = true).
  { destruct x as [|c x]; [cbn in Hfold; congruence|].
    cbn [all_chars] in Hx. now apply andb_true_iff in Hx as [Hc _]. }
  rewrite (toUpperCase_append _ _ Hb), (toUpperCase_ascii _ _ Hx).
  now rewrite <- Hfold, upper_fold.
Qed.

Lemma trim_mentions (text name : string) :
  mentions (trim text) name -> mentions text name.
Proof. intros H. apply mentions_trimmed. now apply includes_spec. Qed.

End VerifyFacts.

(* ################################################################# *)
(** * More about [verifyDataSource] *)

Section TrimFacts.

Lemma trimEnd_tail (c : ascii) (t : string) :
  trimEnd (String c t) = String c t -> trimEnd t = t.
Proof.
  cbn [trimEnd]. destruct (trimEnd t) as [|d r].
  - destruct (is_space c); [discriminate|]. intros H. now injection H as <-.
  - intros H. now injection H as <-.
Qed.

Lemma trimEnd_trimEnd (s : string) : trimEnd (trimEnd s) = trimEnd s.
Proof.
  induction s as [|c s IH]; [reflexivity|]. cbn [trimEnd].
  destruct (trimEnd s) as [|d r] eqn:E.
  - destruct (is_space c) eqn:Ec; [reflexivity|]. cbn [trimEnd]. now rewrite Ec.
  - change (trimEnd (String c (String d r)))
      with (match trimEnd (String d r) with
            | EmptyString => if is_space c then EmptyString else String c EmptyString
            | r0 => String c r0
            end).
    now rewrite IH.
Qed.

Lemma trimStart_trimStart (s : string) : trimStart (trimStart s) = trimStart s.
Proof.
  induction s as [|c s IH]; [reflexivity|]. cbn [trimStart].
  destruct (is_space c) eqn:E; [exact IH|]. cbn [trimStart]. now rewrite E.
Qed.

Lemma trimEnd_trimStart (t : string) :
  trimEnd t = t -> trimEnd (trimStart t) = trimStart t.
Proof.
  induction t as [|c t IH]; intros H; [reflexivity|]. cbn [trimStart].
  destruct (is_space c); [|exact H].
  apply IH. exact (trimEnd_tail _ _ H).
Qed.

(** Trimming a trimmed text changes nothing. *)
Lemma trim_trim (s : string) : trim (trim s) = trim s.
Proof.
  unfold trim.
  rewrite (trimEnd_trimStart _ (trimEnd_trimEnd s)).
  apply trimStart_trimStart.
Qed.

(** White space in front of a text and behind it hides no occurrence of a
    word that has no white space in it. *)
Lemma prefix_before_spaces (n t post : string) :
  all_chars no_space n = true -> all_chars is_space post = true ->
  prefix n (t ++ post) = prefix n t.
Proof.
  revert t. induction n as [|c n IH]; intros t Hn Hpost.
  - destruct t, post; reflexivity.
  - cbn [all_chars] in Hn. apply andb_prop in Hn as [Hc Hn].
    destruct t as [|x t].
    + destruct post as [|p post]; [reflexivity|]. simpl.
      cbn [all_chars] in Hpost. apply andb_prop in Hpost as [Hp _].
      destruct (ascii_dec c p) as [->|Hne]; [|reflexivity].
      unfold no_space in Hc. rewrite Hp in Hc. discriminate.
    + simpl. destruct (ascii_dec c x); [|reflexivity]. now apply IH.
Qed.

Lemma includes_before_spaces (n t post : string) :
  all_chars no_space n = true -> all_chars is_space post = true ->
  n <> "" ->
  includes (t ++ post) n = includes t n.
Proof.
  intros Hn Hpost Hne. induction t as [|x t IH].
  - cbn [append includes].
    assert (H : includes post n = false).
    { clear -Hn Hpost Hne. induction post as [|p post IH].
      - destruct n; [congruence | reflexivity].
      - cbn [includes]. cbn [all_chars] in Hpost.
        apply andb_prop in Hpost as [Hp Hpost]. rewrite (IH Hpost).
        destruct n as [|c n]; [congruence|]. simpl.
        cbn [all_chars] in Hn. apply andb_prop in Hn as [Hc _].
        destruct (ascii_dec c p) as [->|]; [|reflexivity].
        unfold no_space in Hc. rewrite Hp in Hc. discriminate. }
    rewrite H. destruct n; [congruence | reflexivity].
  - change (String x t ++ post)%string with (String x (t ++ post)).
    cbn [includes]. rewrite IH.
    change (String x (t ++ post)) with (String x t ++ post)%string.
    now rewrite prefix_before_spaces.
Qed.

Lemma includes_after_spaces (n pre t : string) :
  all_chars no_space n = true -> all_chars is_space pre = true ->
  n <> "" ->
  includes (pre ++ t) n = includes t n.
Proof.
  intros Hn Hpre Hne. induction pre as [|p pre IH]; [reflexivity|].
  cbn [all_chars] in Hpre. apply andb_prop in Hpre as [Hp Hpre].
  cbn [append includes]. rewrite (IH Hpre).
  destruct n as [|c n]; [congruence|]. simpl.
  cbn [all_chars] in Hn. apply andb_prop in Hn as [Hc _].
  destruct (ascii_dec c p) as [->|]; [|reflexivity].
  unfold no_space in Hc. rewrite Hp in Hc. discriminate.
Qed.

Lemma includes_lower_trim (text n : string) :
  all_chars no_space n = true -> n <> "" ->
  includes (toLowerCase (trim text)) n = includes (toLowerCase text) n.
Proof.
  intros Hn Hne. destruct (trim_spaces text) as [pre [post [Htext [Hpre Hpost]]]].
  rewrite Htext at 2. rewrite (toLowerCase_spaced _ _ _ Hpre Hpost).
  rewrite includes_after_spaces by auto.
  rewrite includes_before_spaces by auto.
  reflexivity.
Qed.

Lemma says_correct (text : string) :
  mentions text "correct" ->
  includes (toUpperCase (trim text)) "CORRECT" = true.
Proof.
  intros H. apply mentions_includes in H.
  change (toLowerCase "correct") with "correct" in H.
  rewrite <- (includes_lower_trim text "correct") in H by (reflexivity || discriminate).
  apply (includes_upper (trim text) "correct"); [reflexivity | discriminate | exact H].
Qed.

End TrimFacts.

(** X9.  The answer of [verifyDataSource] is the detected source or one of the
    available sources; it differs from the detected source only when the
    reply names it and does not say "correct". *)
Theorem verifyDataSource_answer :
  forall (detectedSource userIntent : string) (availableSources : list string)
         (outcome : ModelOutcome),
    let answer :=
      DataSourceVerifier.verifyDataSource detectedSource userIntent
        availableSources outcome in
    answer = detectedSource \/
    (In answer availableSources /\
     exists content,
       outcome = Replied content /\
       mentions (reply_text content) answer /\
       ~ mentions (reply_text content) "correct").
Proof.
  intros detectedSource userIntent availableSources outcome answer.
  subst answer. unfold DataSourceVerifier.verifyDataSource.
  destruct outcome as [e|content]; [now left|].
  assert (Htext : match content with Some t => trim t | None => "" end =
                  trim (reply_text content))
    by (destruct content; reflexivity).
  rewrite Htext.
  destruct (includes (toUpperCase (trim (reply_text content))) "CORRECT") eqn:Hc;
    [now left|]. cbn [orb].
  destruct (_ =? _); [now left|].
  destruct (find _ availableSources) as [source|] eqn:E; [|now left].
  apply find_some in E as [Hin Hs]. right. split; [exact Hin|].
  exists content. split; [reflexivity|]. split.
  - now apply mentions_trimmed.
  - intros H. apply says_correct in H. congruence.
Qed.

(** X10.  A reply that says "correct", in any case of the letters, keeps the
    detected source, whatever else it names. *)
Theorem verifyDataSource_correct_wins :
  forall (detectedSource userIntent : string) (availableSources : list string)
         (text : string),
    mentions text "correct" ->
    DataSourceVerifier.verifyDataSource detectedSource userIntent
      availableSources (Replied (Some text)) = detectedSource.
Proof.
  intros detectedSource userIntent availableSources text H.
  apply says_correct in H. unfold DataSourceVerifier.verifyDataSource.
  now rewrite H.
Qed.

Lemma verifyDataSource_correct_wins_witness :
  DataSourceVerifier.verifyDataSource "movies" "a site about our products"
    Server.availableSources
    (Replied (Some "Correct, although products would also fit.")) = "movies".
Proof.
  apply verifyDataSource_correct_wins.
  exists "", ", although products would also fit.". reflexivity.
Defined.

(* ################################################################# *)
(** * More about [filterData] *)

Section SubseqFacts.

Context {A : Type}.

Lemma subseq_refl (l : list A) : subseq l l.
Proof. induction l; [constructor | now apply subseq_keep]. Qed.

Lemma subseq_nil_l (l : list A) : subseq [] l.
Proof. induction l; constructor; assumption. Qed.

Lemma subseq_trans (a b c : list A) : subseq a b -> subseq b c -> subseq a c.
Proof.
  intros Hab Hbc. revert a Hab.
  induction Hbc as [|x l m _ IH|x l m _ IH]; intros a Hab.
  - exact Hab.
  - constructor. now apply IH.
  - inversion Hab; subst; [apply subseq_skip | apply subseq_keep]; now apply IH.
Qed.

Lemma subseq_firstn (n : nat) (l : list A) : subseq (firstn n l) l.
Proof.
  revert n. induction l as [|x l IH]; intros [|n]; simpl.
  - constructor.
  - constructor.
  - apply subseq_nil_l.
  - apply subseq_keep. apply IH.
Qed.

Lemma subseq_In (l m : list A) (x : A) : subseq l m -> In x l -> In x m.
Proof.
  induction 1 as [|y l m _ IH|y l m _ IH]; simpl; intros Hin; auto.
  destruct Hin; auto.
Qed.

Lemma subseq_length (l m : list A) : subseq l m -> length l <= length m.
Proof. induction 1; simpl; lia. Qed.

Lemma subseq_Forall (P : A -> Prop) (l m : list A) :
  subseq l m -> Forall P m -> Forall P l.
Proof.
  induction 1 as [|y l m _ IH|y l m _ IH]; intros HF; auto;
    inversion HF; subst; auto.
Qed.

Lemma filterM_subseq (p : A -> result bool) (l r : list A) :
  filterM p l = Ok r -> subseq r l.
Proof.
  revert r. induction l as [|x l IH]; intros r; simpl.
  - intros H. injection H as <-. constructor.
  - destruct (p x) as [keep|]; [|discriminate]. cbn [bind].
    destruct (filterM p l) as [r'|]; [|discriminate]. cbn [bind].
    intros H. injection H as <-.
    destruct keep; [apply subseq_keep | apply subseq_skip]; now apply IH.
Qed.

Lemma filterM_Forall (p : A -> result bool) (l r : list A) :
  filterM p l = Ok r -> Forall (fun x => p x = Ok true) r.
Proof.
  revert r. induction l as [|x l IH]; intros r; simpl.
  - intros H. injection H as <-. constructor.
  - destruct (p x) as [keep|] eqn:E; [|discriminate]. cbn [bind].
    destruct (filterM p l) as [r'|]; [|discriminate]. cbn [bind].
    intros H. injection H as <-.
    destruct keep; [constructor|]; auto.
Qed.

Lemma slice_to_subseq (n : Z) (l : list A) : subseq (slice_to n l) l.
Proof. unfold slice_to. destruct (n <? 0)%Z; apply subseq_firstn. Qed.

Lemma slice_limit_subseq (limit : json) (l : list A) :
  subseq (DataFilter.slice_limit limit l) l.
Proof.
  unfold DataFilter.slice_limit.
  destruct (to_number limit); [apply slice_to_subseq | apply subseq_nil_l].
Qed.

End SubseqFacts.

Section FilterFacts.

Import DataFilter.

Lemma apply_other_subseq (others : list (string * json)) (l r : list json) :
  apply_other others l = Ok r -> subseq r l.
Proof.
  revert l r. induction others as [|[key v] others IH]; intros l r; simpl.
  - intros H. injection H as <-. apply subseq_refl.
  - destruct v;
      try (destruct (filterM _ l) as [l'|] eqn:E; [|discriminate]; cbn [bind];
           intros H; apply (subseq_trans _ l'); [now apply IH | now apply filterM_subseq in E]).
    apply IH.
Qed.

Ltac filter_step :=
  match goal with
  | H : bind (filterM ?p ?l) _ = Ok _ |- _ =>
      let l' := fresh "l" in
      let E := fresh "E" in
      destruct (filterM p l) as [l'|] eqn:E; [|discriminate H];
      cbn [bind] in H; apply filterM_subseq in E
  | H : filterM ?p ?l = Ok _ |- _ => apply filterM_subseq in H
  | H : bind (lower_of ?v) _ = Ok _ |- _ =>
      destruct (lower_of v); [|discriminate H]; cbn [bind] in H
  | H : Ok _ = Ok _ |- _ => injection H as <-
  | H : Throw _ = Ok _ |- _ => discriminate H
  | H : (if ?c then _ else _) = Ok _ |- _ => destruct c
  | H : match ?x with Some _ => _ | None => _ end = Ok _ |- _ => destruct x
  | H : match ?x with JNull => _ | _ => _ end = Ok _ |- _ => destruct x
  | H : bind ?m _ = Ok _ |- _ =>
      let f := fresh "f" in
      let E := fresh "E" in
      destruct m as [f|] eqn:E; [|discriminate H]; cbn [bind] in H
  end.

(** The records that pass the filters are records of the collection, in the
    order of the collection. *)
Lemma applyFilters_subseq (dataSource : string) (filters : list (string * json))
  (allData filtered : list json) :
  applyFilters dataSource filters allData = Ok filtered ->
  subseq filtered allData.
Proof.
  unfold applyFilters. intros H.
  match type of H with
  | bind ?m _ = _ => destruct m as [f0|] eqn:E0; [|discriminate H]
  end.
  cbn [bind] in H. apply apply_other_subseq in H.
  apply (subseq_trans _ f0); [exact H|]. clear H.
  repeat filter_step;
    eauto using subseq_refl, subseq_trans.
Qed.

End FilterFacts.

Section FilterDataMore.

Import DataFilter.

Lemma filterData_results (dataSource : string) (filters : list (string * json))
  (allData returned : list json) :
  filterData dataSource filters allData = Ok returned ->
  exists filtered,
    applyFilters dataSource filters allData = Ok filtered /\
    (returned = filtered \/
     (exists l, returned = slice_limit l filtered) \/
     (exists l, returned = slice_limit l allData)).
Proof.
  unfold filterData. intros H.
  destruct (applyFilters dataSource filters allData) as [filtered|] eqn:E;
    [|discriminate H].
  cbn [bind] in H. exists filtered. split; [reflexivity|].
  destruct (_ && _) in H; injection H as <-.
  - right. right. eauto.
  - destruct (lookup "limit" filters) as [l|]; [|now left].
    destruct (_ && _); [right; left; eauto | now left].
Qed.

Lemma year_filter_holds (filters : list (string * json)) (allData filtered : list json)
  (y : Z) :
  lookup "year" filters = Some (JNum y) -> y <> 0%Z ->
  applyFilters "movies" filters allData = Ok filtered ->
  Forall (fun item => year_matches (JNum y) item = Ok true) filtered.
Proof.
  intros Hy Hnz H. unfold applyFilters in H.
  change ("movies" =? "movies") with true in H. cbv iota in H.
  rewrite Hy in H. apply Z.eqb_neq in Hnz.
  cbn [truthy of_Z mantissa] in H. rewrite Hnz in H. cbn [negb] in H.
  match type of H with
  | bind ?m _ = _ => destruct m as [f0|] eqn:E0; [|discriminate H]
  end.
  cbn [bind] in H. apply apply_other_subseq in H.
  apply (subseq_Forall _ _ _ H). clear H.
  destruct (filterM (year_matches (JNum y)) allData) as [f1|] eqn:E1;
    [|discriminate E0].
  cbn [bind] in E0. apply filterM_Forall in E1.
  assert (Hsub : subseq f0 f1).
  { destruct (lookup "genre" filters) as [g|].
    - destruct (truthy g).
      + destruct (lower_of g); [|discriminate E0]. cbn [bind] in E0.
        now apply filterM_subseq in E0.
      + injection E0 as <-. apply subseq_refl.
    - injection E0 as <-. apply subseq_refl. }
  exact (subseq_Forall _ _ _ Hsub E1).
Qed.

Lemma lookup_set_member (k : string) (v : json) (fields : list (string * json)) :
  lookup k (Json.set_member k v fields) = Some v.
Proof.
  induction fields as [|[k' v'] fields IH]; simpl.
  - now rewrite String.eqb_refl.
  - destruct (k' =? k) eqn:E; simpl; rewrite E; [reflexivity | exact IH].
Qed.

End FilterDataMore.

(** X11.  Whatever the filters and the limit, the records [filterData] returns are
    records of the collection, in the order of the collection. *)
Theorem filterData_returns_records :
  forall (dataSource : string) (filters : list (string * json))
         (allData returned : list json),
    DataFilter.filterData dataSource filters allData = Ok returned ->
    subseq returned allData.
Proof.
  intros dataSource filters allData returned H.
  destruct (filterData_results _ _ _ _ H) as [filtered [Hf Hr]].
  apply applyFilters_subseq in Hf.
  destruct Hr as [-> | [[l ->] | [l ->]]].
  - exact Hf.
  - exact (subseq_trans _ _ _ (slice_limit_subseq l filtered) Hf).
  - apply slice_limit_subseq.
Qed.

(** The two films of the fallback are films of the collection. *)
Lemma filterData_returns_records_witness :
  subseq (firstn 2 threeFilms) threeFilms.
Proof.
  apply (filterData_returns_records "movies" westernRequest threeFilms).
  reflexivity.
Defined.

(** X12.  With a year among the filters of a movie request and a limit of at
    least 1, every record returned passes the year test, as long as one
    record of the collection passes all the filters. *)
Theorem filterData_honours_year :
  forall (filters : list (string * json)) (allData filtered returned : list json)
         (y : Z) (x : number),
    lookup "year" filters = Some (JNum y) -> y <> 0%Z ->
    lookup "limit" filters = Some (JNum x) -> num_le 1%Z x ->
    DataFilter.applyFilters "movies" filters allData = Ok filtered ->
    filtered <> [] ->
    DataFilter.filterData "movies" filters allData = Ok returned ->
    returned <> [] /\
    Forall (fun item => DataFilter.year_matches (JNum y) item = Ok true) returned.
Proof.
  intros filters allData filtered returned y x Hy Hnz Hl Hx Hf Hne H.
  pose proof (year_filter_holds _ _ _ _ Hy Hnz Hf) as Hall.
  pose proof (trunc_at_least_1 x Hx) as Ht.
  assert (Hpos : num_ltb (of_Z 0) x = true).
  { apply num_positive. unfold num_le, num_leb in Hx.
    cbn [of_Z mantissa scale] in Hx. apply Z.leb_le in Hx.
    change (pow10 0) with 1%Z in Hx. pose proof (pow10_pos (scale x)). lia. }
  rewrite (filterData_positive_limit _ _ _ _ _ Hl Hpos Hf) in H.
  injection H as <-. cbv zeta.
  assert (Hcut : forall cut,
             cut = (if num_ltb x (of_Z (Z.of_nat (length filtered)))
                    then firstn (Z.to_nat (trunc x)) filtered else filtered) ->
             cut <> [] /\ subseq cut filtered).
  { intros cut ->. destruct (num_ltb x _).
    - split; [|apply subseq_firstn].
      destruct filtered as [|r rest]; [congruence|].
      destruct (Z.to_nat (trunc x)) as [|k] eqn:Ek; [lia|]. simpl. discriminate.
    - split; [exact Hne | apply subseq_refl]. }
  destruct (Hcut _ eq_refl) as [Hcne Hsub].
  destruct (if num_ltb x (of_Z (Z.of_nat (length filtered)))
            then firstn (Z.to_nat (trunc x)) filtered else filtered) as [|r cut] eqn:Ec;
    [congruence|].
  cbn [length Nat.eqb andb]. split; [discriminate|].
  exact (subseq_Forall _ _ _ Hsub Hall).
Qed.

(** Of the three films the one of 1995 comes back. *)
Lemma filterData_honours_year_witness :
  exists returned,
    DataFilter.filterData "movies" yearRequest threeFilms = Ok returned /\
    returned <> [] /\
    Forall (fun item => DataFilter.year_matches (JNum 1995) item = Ok true) returned.
Proof.
  eexists. split; [reflexivity|].
  eapply (filterData_honours_year yearRequest threeFilms _ _ 1995 5%Z);
    try reflexivity; try lia; discriminate.
Defined.

Lemma records_within_limit (userIntent : string) (reply : option json)
  (dataSource : string) (fs : list (string * json)) (allData returned : list json) :
  DataFilter.filterData dataSource
    (Routes.withLimit fs (IntentAnalyzer.limit (IntentAnalyzer.analyzeIntent userIntent reply)))
    allData = Ok returned ->
  num_le (Z.of_nat (length returned))
    (IntentAnalyzer.limit (IntentAnalyzer.analyzeIntent userIntent reply)) /\
  length returned <= 500.
Proof.
  intros H.
  set (x := IntentAnalyzer.limit (IntentAnalyzer.analyzeIntent userIntent reply)) in *.
  assert (Hrange : num_ltb 0%Z x = true /\ num_leb x 500%Z = true).
  { subst x.
    destruct (analyzeIntent_cases userIntent reply) as [-> | [parsed [r [_ [Hr ->]]]]].
    - split; reflexivity.
    - destruct (interpretReply_limit _ _ _ Hr) as [pl ->].
      apply raiseForSingle_range, raiseForAll_range, acceptedLimit_range. }
  destruct Hrange as [H0 H500].
  assert (Hlen : num_leb (of_Z (Z.of_nat (length returned))) x = true).
  { apply (filterData_bounded dataSource (Routes.withLimit fs x) allData);
      [apply lookup_set_member | exact H0 | exact H]. }
  split; [exact Hlen|].
  unfold num_leb in Hlen, H500. cbn [of_Z mantissa scale] in Hlen, H500.
  apply Z.leb_le in Hlen, H500. change (pow10 0) with 1%Z in Hlen, H500.
  pose proof (pow10_pos (scale x)). nia.
Qed.

(** X13.  Both generation routes hand [filterData] their filters with the limit of
    the analysis put in last: the records that come back are never more than
    that limit, and never more than 500. *)
Theorem generated_records_bound :
  forall (userIntent : string) (reply : option json) (dataSource : string)
         (location context : value) (filters : list (string * json))
         (allData returned : list json),
    let analysis := IntentAnalyzer.analyzeIntent userIntent reply in
    (filters = Routes.requestFilters analysis \/
     Routes.pageFilters analysis location context = Ok filters) ->
    DataFilter.filterData dataSource filters allData = Ok returned ->
    num_le (Z.of_nat (length returned)) (IntentAnalyzer.limit analysis) /\
    length returned <= 500.
Proof.
  intros userIntent reply dataSource location context filters allData returned
         analysis Hf H.
  subst analysis. destruct Hf as [-> | Hf].
  - exact (records_within_limit _ _ _ _ _ _ H).
  - unfold Routes.pageFilters in Hf.
    match type of Hf with
    | bind ?m _ = _ => destruct m as [fs|]; [|discriminate Hf]
    end.
    cbn [bind] in Hf. injection Hf as <-.
    exact (records_within_limit _ _ _ _ _ _ H).
Qed.

(** A request without filters, analysed by the heuristics *)
Lemma generated_records_bound_witness :
  num_le (Z.of_nat (length threeFilms))
    (IntentAnalyzer.limit (IntentAnalyzer.analyzeIntent "show me movies" None)) /\
  length threeFilms <= 500.
Proof.
  apply (generated_records_bound "show me movies" None "movies" None None
           (Routes.requestFilters (IntentAnalyzer.analyzeIntent "show me movies" None))
           threeFilms threeFilms).
  - left. reflexivity.
  - reflexivity.
Defined.

(* ################################################################# *)
(** * More about [planArchitecture] *)

Section PlanMore.

Import ArchitecturePlanner.

Lemma toPlannedFile_kind (f : json) : kind (toPlannedFile f) <> data.
Proof.
  unfold toPlannedFile. cbn [kind].
  destruct (field f "kind") as [[| | |k| |]|]; try discriminate.
  repeat (destruct (k =? _); [discriminate|]). discriminate.
Qed.

Lemma ensureFile_In (name purpose : string) (k : FileKind)
  (files : list PlannedFile) (f : PlannedFile) :
  In f (ensureFile name purpose k files) ->
  In f files \/ f = {| fileName := name; purpose := purpose; kind := k |}.
Proof.
  unfold ensureFile. destruct (negb _); [|auto].
  intros H. apply in_app_or in H as [H | [<- | []]]; auto.
Qed.

Lemma planFromReply_code (intent : string) (parsed : json) (plan : ArchitecturePlan) :
  planFromReply intent parsed = Ok plan -> Forall codeFile plan.
Proof.
  unfold planFromReply. intros H.
  destruct (get parsed "files") as [[[| | | |files|]|]|]; try discriminate H.
  cbn [bind] in H. destruct (mapM _ files); [|discriminate H].
  cbn [bind] in H. injection H as <-.
  apply Forall_forall. intros f Hin.
  apply ensureFile_In in Hin as [Hin | ->]; [|split; [reflexivity | discriminate]].
  apply ensureFile_In in Hin as [Hin | ->]; [|split; [reflexivity | discriminate]].
  apply filter_In in Hin as [Hin Hcode]. split; [exact Hcode|].
  apply in_map_iff in Hin as [j [<- _]]. apply toPlannedFile_kind.
Qed.

Lemma named_fileName (p : string) (f : json) :
  named p f = true -> fileName (toPlannedFile f) = p.
Proof.
  unfold named, toPlannedFile. cbn [fileName].
  destruct f as [| | | | |fields]; try discriminate. cbn [field].
  destruct (lookup "fileName" fields) as [[| | |s| |]|]; try discriminate.
  cbn [strict_equal value_to_String to_String]. apply String.eqb_eq.
Qed.

Lemma some_named_occurs (p : string) (files : list json) :
  some (named p) files = true ->
  1 <= occurrences p (map toPlannedFile files).
Proof.
  unfold some, occurrences. induction files as [|f files IH]; [discriminate|].
  cbn [existsb map filter]. destruct (named p f) eqn:E.
  - intros _. rewrite (named_fileName _ _ E), String.eqb_refl. simpl. lia.
  - cbn [orb]. intros H. specialize (IH H).
    destruct (fileName (toPlannedFile f) =? p); simpl; lia.
Qed.

Lemma some_app {A : Type} (p : A -> bool) (a b : list A) :
  some p (a ++ b) = some p a || some p b.
Proof. apply existsb_app. Qed.

Lemma addPages_keeps (p : string) (missing : list string) (files : list json) :
  some (named p) files = true -> some (named p) (addPages missing files) = true.
Proof.
  revert files. induction missing as [|q rest IH]; intros files H; simpl; [exact H|].
  apply IH. destruct (negb _); [|exact H].
  rewrite some_app, H. reflexivity.
Qed.

Lemma addPages_adds (p : string) (missing : list string) (files : list json) :
  In p missing -> some (named p) (addPages missing files) = true.
Proof.
  revert files. induction missing as [|q rest IH]; intros files Hin; [contradiction|].
  simpl. destruct Hin as [-> | Hin]; [|now apply IH].
  apply addPages_keeps.
  destruct (some (named p) files) eqn:E; [exact E|].
  cbn [negb]. rewrite some_app, E. cbn [orb some existsb named lookup].
  change ("fileName" =? "fileName") with true. cbv iota.
  cbn [strict_equal]. now rewrite String.eqb_refl.
Qed.

Lemma withRequestedPages_has (intent p : string) (files : list json) :
  isSimpleRequest (toLowerCase intent) = false ->
  isComplexRequest (toLowerCase intent) = true ->
  In p (requestedPages (toLowerCase intent)) ->
  some (named p) (withRequestedPages intent files) = true.
Proof.
  intros Hs Hc Hin. unfold withRequestedPages. rewrite Hs, Hc. cbn [negb andb].
  assert (Hlen : (0 <? length (requestedPages (toLowerCase intent)))%nat = true).
  { destruct (requestedPages (toLowerCase intent)); [contradiction | reflexivity]. }
  rewrite Hlen. clear Hlen.
  destruct (some (named p) files) eqn:E.
  - match goal with
    | |- context [if ?c then addPages _ _ else _] => destruct c
    end; [now apply addPages_keeps | exact E].
  - assert (Hm : In p (filter (fun p0 => negb (some (named p0) files))
                         (requestedPages (toLowerCase intent)))).
    { apply filter_In. split; [exact Hin | now rewrite E]. }
    destruct (filter _ _) as [|m ms] eqn:Ef; [contradiction|].
    cbn [length Nat.ltb Nat.leb]. now apply addPages_adds.
Qed.

End PlanMore.

(** X14.  Every entry of a plan is an HTML page or a script, and none is of the
    kind "data": style sheets and other assets the reply lists are left
    out. *)
Theorem planArchitecture_code_only :
  forall (intent : string) (filteredData : list json) (reply : option json)
         (plan : ArchitecturePlanner.ArchitecturePlan)
         (f : ArchitecturePlanner.PlannedFile),
    ArchitecturePlanner.planArchitecture intent filteredData reply = Ok plan ->
    In f plan ->
    (endsWith (ArchitecturePlanner.fileName f) ".html" ||
     endsWith (ArchitecturePlanner.fileName f) ".js" = true) /\
    ArchitecturePlanner.kind f <> ArchitecturePlanner.data.
Proof.
  intros intent filteredData reply plan f H Hin.
  unfold ArchitecturePlanner.planArchitecture in H.
  destruct (ArchitecturePlanner.mapM _ _); [|discriminate H]. cbn [bind] in H.
  assert (Hmin : Forall codeFile ArchitecturePlanner.minimalPlan)
    by (repeat constructor; discriminate).
  assert (Hall : Forall codeFile plan).
  { destruct reply as [parsed|]; [|injection H as <-; exact Hmin].
    destruct (ArchitecturePlanner.planFromReply intent parsed) as [p|] eqn:E;
      injection H as <-; [exact (planFromReply_code _ _ _ E) | exact Hmin]. }
  exact (proj1 (Forall_forall _ _) Hall f Hin).
Qed.

(** The style sheet of the reply is not in the plan. *)
Lemma planArchitecture_code_only_witness :
  exists plan,
    ArchitecturePlanner.planArchitecture "a movie catalogue" [] (Some catalogueReply)
      = Ok plan /\
    Forall (fun f =>
              (endsWith (ArchitecturePlanner.fileName f) ".html" ||
               endsWith (ArchitecturePlanner.fileName f) ".js" = true) /\
              ArchitecturePlanner.kind f <> ArchitecturePlanner.data) plan.
Proof.
  eexists. split; [reflexivity|].
  apply Forall_forall. intros f Hin.
  exact (planArchitecture_code_only "a movie catalogue" [] (Some catalogueReply)
           _ f eq_refl Hin).
Defined.

(** X15.  For a request that is not simple and counts as complex, a usable reply
    gives a plan that holds every page the request asks for. *)
Theorem planFromReply_requested_pages :
  forall (intent : string) (parsed : json)
         (plan : ArchitecturePlanner.ArchitecturePlan) (page : string),
    ArchitecturePlanner.planFromReply intent parsed = Ok plan ->
    ArchitecturePlanner.isSimpleRequest (toLowerCase intent) = false ->
    ArchitecturePlanner.isComplexRequest (toLowerCase intent) = true ->
    In page (ArchitecturePlanner.requestedPages (toLowerCase intent)) ->
    1 <= ArchitecturePlanner.occurrences page plan.
Proof.
  intros intent parsed plan page H Hs Hc Hin.
  unfold ArchitecturePlanner.planFromReply in H.
  destruct (get parsed "files") as [[[| | | |files|]|]|]; try discriminate H.
  cbn [bind] in H. destruct (ArchitecturePlanner.mapM _ files); [|discriminate H].
  cbn [bind] in H. injection H as <-.
  pose proof (requestedPages_known _ _ Hin) as Hknown.
  assert (Hfacts : page <> "index.html" /\ page <> "app.js" /\
                   endsWith page ".html" || endsWith page ".js" = true).
  { simpl in Hknown.
    repeat (destruct Hknown as [<- | Hknown];
            [repeat split; discriminate || reflexivity|]).
    contradiction. }
  destruct Hfacts as [H1 [H2 Hext]].
  rewrite occurrences_ensureFile_other by congruence.
  rewrite occurrences_ensureFile_other by congruence.
  rewrite occurrences_isCode by exact Hext.
  apply some_named_occurs. now apply withRequestedPages_has.
Qed.

(** A company website with a contact page *)
Lemma planFromReply_requested_pages_witness :
  exists plan,
    ArchitecturePlanner.planFromReply "a company website with a contact page"
      catalogueReply = Ok plan /\
    1 <= ArchitecturePlanner.occurrences "contact.html" plan.
Proof.
  eexists. split; [reflexivity|].
  apply (planFromReply_requested_pages "a company website with a contact page"
           catalogueReply _ "contact.html"); try reflexivity.
  vm_compute. tauto.
Defined.

(* ################################################################# *)
(** * More about [deployToVercel] *)

Section DeployMore.

Import Regex VercelDeployer.

Lemma In_lit (t : string) :
  forall prev rest, In (char_before prev t, rest) (run (lit t) prev (t ++ rest)).
Proof.
  induction t as [|c t IH]; intros prev rest.
  - now left.
  - destruct t as [|c' t'].
    + cbn [lit append char_before]. apply In_chr. apply Ascii.eqb_refl.
    + change (lit (String c (String c' t'))) with (Seq (chr c) (lit (String c' t'))).
      eapply In_seq.
      * apply (In_chr (Ascii.eqb c) prev c). apply Ascii.eqb_refl.
      * cbn [fst snd]. apply (IH (Some c) rest).
Qed.

Lemma search_domain_inv (r : regex) (out m : string) :
  search (Seq domainPattern r) out = Some m -> contains_hosting_url out.
Proof.
  intros H. apply search_from_inv in H as [pre [rest [-> H]]].
  apply match_here_inv in H as [rest' [H _]].
  apply In_seq_inv in H as [q1 [H1 _]].
  apply domain_match_inv in H1 as [u [-> Hu]].
  exists pre, u, (snd q1). auto.
Qed.

Lemma findUrl_inv (out m : string) :
  findUrl out = Some m -> contains_hosting_url out.
Proof.
  unfold findUrl, anchoredPattern, loosePattern.
  destruct (search (Seq domainPattern (Ahead _)) out) as [m'|] eqn:E.
  - intros _. exact (search_domain_inv _ _ _ E).
  - apply search_domain_inv.
Qed.

Lemma error_url_found (out : string) :
  contains_error_url out -> exists m, search errorUrlPattern out = Some m.
Proof.
  intros [pre [scheme [c [post [-> [Hs Hc]]]]]].
  assert (Hin : exists q,
             In q (run errorUrlPattern (char_before None pre)
                     (scheme ++ "://err.sh/" ++ String c post))).
  { unfold errorUrlPattern. cbn [seqs].
    assert (Htail : forall prev,
               exists q, In q (run (Seq (lit "://err.sh/")
                                      (Plus (fun c0 => negb (is_space c0))))
                                 prev ("://err.sh/" ++ String c post))).
    { intros prev. eexists. eapply In_seq; [apply In_lit|]. cbn [fst snd].
      apply (In_plus _ (String c "") _ post); [discriminate|].
      simpl. now rewrite Hc. }
    destruct Hs as [-> | ->].
    - destruct (Htail (char_before (char_before None pre) "http")) as [q Hq].
      exists q. eapply In_seq; [apply (In_lit "http")|]. cbn [fst snd].
      eapply In_seq; [apply In_opt_skip | exact Hq].
    - destruct (Htail (Some "s"%char)) as [q Hq].
      exists q.
      change ("https" ++ "://err.sh/" ++ String c post)%string
        with ("http" ++ String "s" ("://err.sh/" ++ String c post))%string.
      eapply In_seq; [apply (In_lit "http")|]. cbn [fst snd].
      eapply In_seq; [apply In_opt_take; apply In_chr; reflexivity | exact Hq]. }
  destruct Hin as [q Hq].
  destruct (match_here_some _ _ _ _ Hq) as [m Hm].
  exact (search_from_some _ pre None _ m Hm).
Qed.

Lemma extractUrl_inv (stdout stderr url : string) :
  extractUrl stdout stderr = Ok url ->
  contains_hosting_url (stdout ++ stderr) /\
  ~ contains_error_url (stdout ++ stderr) /\
  url <> "".
Proof.
  unfold extractUrl. cbv zeta.
  destruct (search errorUrlPattern (stdout ++ stderr)) as [e|] eqn:Eerr;
    [discriminate|].
  destruct (findUrl (stdout ++ stderr)) as [m|] eqn:Efind.
  - intros H. split; [exact (findUrl_inv _ _ Efind)|]. split.
    + intros Hc. apply error_url_found in Hc as [m' Hm']. congruence.
    + destruct (nonempty m).
      * destruct (nonempty (tidyUrl m)) eqn:En.
        -- injection H as <-. intros Hu. rewrite Hu in En. discriminate.
        -- destruct (_ || _); discriminate H.
      * destruct (_ || _); discriminate H.
  - destruct (_ || _); discriminate.
Qed.

End DeployMore.

Lemma deployToVercel_success_inv :
  forall (vercelToken : option string) (d : Fs.Disk)
         (projectDir projectName : string) (cli : VercelDeployer.ExecOutcome),
    let outcome :=
      VercelDeployer.deployToVercel vercelToken d projectDir projectName cli in
    VercelDeployer.success outcome = true ->
    (exists token, vercelToken = Some token /\ token <> "") /\
    contains_hosting_url (cli_output cli) /\
    ~ contains_error_url (cli_output cli) /\
    (exists url, VercelDeployer.deployedUrl outcome = Some url /\ url <> "") /\
    VercelDeployer.error outcome = None.
Proof.
  intros vercelToken d projectDir projectName cli outcome. subst outcome.
  unfold VercelDeployer.deployToVercel.
  destruct vercelToken as [[|t0 token]|]; try discriminate.
  destruct (VercelDeployer.ensureConfig d projectDir) as [d'|e];
    [|discriminate].
  cbn [bind].
  destruct (VercelDeployer.capture cli) as [[stdout stderr]|e] eqn:Ecap;
    [|discriminate].
  cbn [bind fst snd].
  destruct (VercelDeployer.extractUrl stdout stderr) as [url|e] eqn:Eurl;
    [|discriminate].
  intros _. apply extractUrl_inv in Eurl as [Hurl [Herr Hne]].
  assert (Hout : cli_output cli = (stdout ++ stderr)%string).
  { destruct cli as [o e|msg o e]; cbn [VercelDeployer.capture] in Ecap.
    - now injection Ecap as <- <-.
    - destruct (_ && _); [discriminate|]. now injection Ecap as <- <-. }
  rewrite Hout. cbn.
  split; [exists (String t0 token); split; [reflexivity | discriminate]|].
  split; [exact Hurl|]. split; [exact Herr|]. split; [eauto | reflexivity].
Qed.

(** X16.  [deployToVercel] reports success only with a token, and only when the
    output of the CLI shows a URL of the hosting domain and no URL of the
    error domain; the result then carries a URL and no error. *)
Theorem deployToVercel_success_means_url :
  forall (vercelToken : option string) (d : Fs.Disk)
         (projectDir projectName : string) (cli : VercelDeployer.ExecOutcome),
    let outcome :=
      VercelDeployer.deployToVercel vercelToken d projectDir projectName cli in
    VercelDeployer.success outcome = true ->
    (exists token, vercelToken = Some token /\ token <> "") /\
    contains_hosting_url (cli_output cli) /\
    ~ contains_error_url (cli_output cli) /\
    (exists url, VercelDeployer.deployedUrl outcome = Some url /\ url <> "") /\
    VercelDeployer.error outcome = None.
Proof. exact deployToVercel_success_inv. Qed.

(** A run of the CLI that reports the deployed site *)
Lemma deployToVercel_success_means_url_witness :
  contains_hosting_url
    (cli_output (VercelDeployer.Exited "Production: https://film-site.vercel.app" "")) /\
  ~ contains_error_url
      (cli_output (VercelDeployer.Exited "Production: https://film-site.vercel.app" "")).
Proof.
  pose proof (deployToVercel_success_means_url (Some "secret") emptyDisk "site"
                "film-site"
                (VercelDeployer.Exited "Production: https://film-site.vercel.app" "")
                eq_refl) as [_ [H1 [H2 _]]].
  exact (conj H1 H2).
Defined.

(* ################################################################# *)
(** * More about [validateAndFixWebsite] *)

Section ValidatorMore.

Import WebsiteValidator.

Variable projectDir : string.
Variable generatedFiles : list (string * string).
Variable fixReplies : nat -> ModelOutcome.

Lemma findFile_In (fileName : value) (name : string) :
  findFile generatedFiles fileName = Some name ->
  In name (map fst generatedFiles).
Proof.
  unfold findFile. destruct fileName as [[| | | s | |]|]; try discriminate.
  destruct (existsb _ _) eqn:E; [|discriminate]. intros H. injection H as <-.
  apply existsb_exists in E as [[n p] [Hin Hn]]. apply String.eqb_eq in Hn.
  simpl in Hn. subst n. apply in_map_iff. exists (s, p). auto.
Qed.

Lemma rewrites_only_refl (d : Fs.Disk) : rewrites_only projectDir generatedFiles d d [].
Proof. repeat split; auto. intros x []. Qed.

Lemma rewrites_only_write (disk0 d d' : Fs.Disk) (names : list string)
  (name content : string) :
  rewrites_only projectDir generatedFiles disk0 d names ->
  In name (map fst generatedFiles) ->
  Fs.writeFileSync d (Fs.join projectDir name) content = Ok d' ->
  rewrites_only projectDir generatedFiles disk0 d' (names ++ [name]).
Proof.
  intros [Hfiles [Hex [Hdirs Hnames]]] Hin Hw.
  unfold Fs.writeFileSync in Hw. destruct (Fs.listed _ _); [discriminate|].
  injection Hw as <-. repeat split; cbn [Fs.files Fs.dirs].
  - intros path Hpath. cbn [lookup].
    destruct (Fs.join projectDir name =? path) eqn:E.
    + apply String.eqb_eq in E. exfalso. apply Hpath. exists name. auto.
    + now apply Hfiles.
  - intros path Hp. apply Hex in Hp. unfold Fs.existsSync in *.
    cbn [Fs.files Fs.dirs lookup].
    destruct (Fs.join projectDir name =? path); [reflexivity | exact Hp].
  - exact Hdirs.
  - intros x Hx. apply in_app_or in Hx as [Hx | [<- | []]]; auto.
Qed.

Lemma fixIssue_rewrites (disk0 : Fs.Disk) (issue : json) (st st' : Progress)
  (r : result unit) :
  rewrites_only projectDir generatedFiles disk0 (disk st) (fixed st) ->
  fixIssue projectDir generatedFiles fixReplies issue st = (st', r) ->
  rewrites_only projectDir generatedFiles disk0 (disk st') (fixed st').
Proof.
  intros Hinv. unfold fixIssue.
  destruct (get issue "severity") as [severity|e];
    [|intros H; injection H as <- <-; exact Hinv].
  destruct (strict_equal severity (Some (JStr "error")));
    [|intros H; injection H as <- <-; exact Hinv].
  destruct (findFile generatedFiles (field issue "fileName")) as [name|] eqn:Hfile;
    [|intros H; injection H as <- <-; exact Hinv].
  apply findFile_In in Hfile.
  destruct (field issue "issue") as [[| | | s | |]|];
    try (intros H; injection H as <- <-; exact Hinv).
  destruct (fixReplies (calls st)) as [e|content];
    [intros H; injection H as <- <-; exact Hinv|].
  destruct (Fs.writeFileSync _ _ _) as [d'|e] eqn:Hw;
    intros H; injection H as <- <-; cbn [disk fixed]; [|exact Hinv].
  exact (rewrites_only_write _ _ _ _ _ _ Hinv Hfile Hw).
Qed.

Lemma fixIssues_rewrites (disk0 : Fs.Disk) (todo : list json) (st st' : Progress)
  (r : result unit) :
  rewrites_only projectDir generatedFiles disk0 (disk st) (fixed st) ->
  fixIssues projectDir generatedFiles fixReplies todo st = (st', r) ->
  rewrites_only projectDir generatedFiles disk0 (disk st') (fixed st').
Proof.
  revert st. induction todo as [|issue rest IH]; intros st Hinv; cbn [fixIssues].
  - intros H. injection H as <- <-. exact Hinv.
  - destruct (fixIssue projectDir generatedFiles fixReplies issue st)
      as [st1 [[]|e]] eqn:E.
    + apply IH. exact (fixIssue_rewrites _ _ _ _ _ Hinv E).
    + intros H. injection H as <- <-. exact (fixIssue_rewrites _ _ _ _ _ Hinv E).
Qed.



End ValidatorMore.

Lemma validate_rewrites (d : Fs.Disk) (projectDir : string)
  (generatedFiles : list (string * string)) (client : result unit)
  (review : option json) (fixReplies : nat -> ModelOutcome) :
  rewrites_only projectDir generatedFiles d
    (fst (WebsiteValidator.validateAndFixWebsite d projectDir generatedFiles client
            review fixReplies))
    (match snd (WebsiteValidator.validateAndFixWebsite d projectDir generatedFiles
                  client review fixReplies) with
     | Ok r => WebsiteValidator.fixedFiles r
     | Throw _ => []
     end).
Proof.
  unfold WebsiteValidator.validateAndFixWebsite.
  destruct (WebsiteValidator.readGenerated _ _ _);
    [|apply rewrites_only_refl].
  destruct client; [|apply rewrites_only_refl].
  unfold WebsiteValidator.review_and_fix.
  destruct review as [[| | | |found|]|]; try apply rewrites_only_refl.
  destruct (WebsiteValidator.fixIssues _ _ _ _ _) as [st r] eqn:E.
  pose proof (fixIssues_rewrites projectDir generatedFiles fixReplies d found
                {| WebsiteValidator.disk := d; WebsiteValidator.calls := 0;
                   WebsiteValidator.fixed := [] |} st r
                (rewrites_only_refl _ _ d) E) as Hinv.
  destruct r as [[]|e]; cbn [fst snd WebsiteValidator.fixedFiles]; [exact Hinv|].
  destruct Hinv as [H1 [H2 [H3 _]]]. repeat split; auto. intros x [].
Qed.

(** X17.  Whatever the review and the fix calls give, the validator leaves every
    file as it was whose path is not the project directory joined with the
    name of a generated file (a name that climbs with [..] is joined to a
    path outside the directory), removes nothing and makes no directory;
    the files it reports as fixed are generated files. *)
Theorem validateAndFixWebsite_rewrites_only_generated :
  forall (d : Fs.Disk) (projectDir : string)
         (generatedFiles : list (string * string)) (client : result unit)
         (review : option json) (fixReplies : nat -> ModelOutcome),
    let run :=
      WebsiteValidator.validateAndFixWebsite d projectDir generatedFiles client
        review fixReplies in
    rewrites_only projectDir generatedFiles d (fst run)
      (match snd run with
       | Ok r => WebsiteValidator.fixedFiles r
       | Throw _ => []
       end).
Proof.
  intros d projectDir generatedFiles client review fixReplies run. subst run.
  apply validate_rewrites.
Qed.



(* ################################################################# *)
(** * Code fences: [cleanCode] and [rephraseIntent] *)

Section FenceFacts.

Import Regex WebsiteValidator.

Lemma run_fence_mark (prev : option ascii) (s : string) (q : place) :
  In q (run (lit fence) prev s) -> prefix fence s = true.
Proof.
  intros H. apply In_lit_inv in H. apply prefix_spec. eauto.
Qed.

Lemma opening_needs_fence (prev : option ascii) (s m : string) :
  match_here openingFence prev s = Some m -> prefix fence s = true.
Proof.
  intros H. apply match_here_inv in H as [rest [H _]].
  unfold openingFence in H. cbn [seqs] in H.
  apply In_seq_inv in H as [q1 [H1 H]].
  apply In_seq_inv in H as [q2 [H2 _]].
  assert (Hq1 : snd q1 = s).
  { cbn [run] in H1. destruct prev as [c|].
    - destruct (true && is_line_end c); [|destruct H1]. now destruct H1 as [<- | []].
    - now destruct H1 as [<- | []]. }
  rewrite Hq1 in H2. exact (run_fence_mark _ _ _ H2).
Qed.

Lemma closing_needs_fence (prev : option ascii) (s m : string) :
  match_here closingFence prev s = Some m ->
  prefix fence s = true \/
  exists s', s = String newline s' /\ prefix fence s' = true.
Proof.
  intros H. apply match_here_inv in H as [rest [H _]].
  unfold closingFence in H. cbn [seqs] in H.
  apply In_seq_inv in H as [q1 [H1 H]].
  apply In_seq_inv in H as [q2 [H2 _]].
  apply run_fence_mark in H2.
  unfold Opt in H1. cbn [run] in H1. apply in_app_or in H1 as [H1 | [<- | []]].
  - apply In_chr_inv in H1 as [c [Hs [Hc _]]]. apply Ascii.eqb_eq in Hc. subst c.
    right. eauto.
  - now left.
Qed.

Lemma includes_cons (c : ascii) (s t : string) :
  includes (String c s) t = false ->
  prefix t (String c s) = false /\ includes s t = false.
Proof. cbn [includes]. intros H. now apply orb_false_iff in H. Qed.

(** Where the text has no fence mark neither pattern finds anything to
    take out. *)
Lemma remove_opening_plain (s : string) :
  forall prev, includes s fence = false ->
  remove_all_from openingFence prev s 0 = s.
Proof.
  induction s as [|c s IH]; intros prev H; [reflexivity|].
  apply includes_cons in H as [Hp Hs]. cbn [remove_all_from].
  destruct (match_here openingFence prev (String c s)) as [m|] eqn:E.
  - apply opening_needs_fence in E. congruence.
  - f_equal. now apply IH.
Qed.

Lemma remove_closing_plain (s : string) :
  forall prev, includes s fence = false ->
  remove_all_from closingFence prev s 0 = s.
Proof.
  induction s as [|c s IH]; intros prev H; [reflexivity|].
  pose proof H as H0. apply includes_cons in H as [Hp Hs]. cbn [remove_all_from].
  destruct (match_here closingFence prev (String c s)) as [m|] eqn:E.
  - apply closing_needs_fence in E as [E | [s' [Heq E]]]; [congruence|].
    injection Heq as -> ->.
    assert (includes s' fence = true)
      by (destruct s'; cbn [includes]; rewrite E; reflexivity).
    congruence.
  - f_equal. now apply IH.
Qed.

End FenceFacts.

(** X19.  [rephraseIntent] runs the two replacements on every reply, [cleanCode]
    only on a reply that shows a fence mark; the two give the same text. *)
Theorem rephraseIntent_cleans_reply :
  forall (userIntent text : string),
    IntentRephraser.rephraseIntent userIntent (Replied (Some text)) =
    WebsiteValidator.cleanCode text.
Proof.
  intros userIntent text.
  unfold IntentRephraser.rephraseIntent, WebsiteValidator.cleanCode. cbv zeta.
  change "```" with fence.
  destruct (includes (trim text) fence) eqn:E; [reflexivity|].
  unfold Regex.remove_all.
  rewrite (remove_opening_plain _ None E), (remove_closing_plain _ None E).
  apply trim_trim.
Qed.

Section UnwrapFacts.

Import Regex WebsiteValidator.

Lemma trimEnd_end (s : string) (c : ascii) :
  is_space c = false -> trimEnd (s ++ String c "") = (s ++ String c "")%string.
Proof.
  intros Hc. induction s as [|x s IH]; cbn [append trimEnd].
  - now rewrite Hc.
  - rewrite IH. destruct s; reflexivity.
Qed.

Lemma trimEnd_spaces_end (s ws : string) :
  all_chars is_space ws = true -> trimEnd (s ++ ws) = trimEnd s.
Proof.
  intros Hws.
  assert (H0 : trimEnd ws = "").
  { induction ws as [|w ws IH]; [reflexivity|].
    cbn [all_chars] in Hws. apply andb_prop in Hws as [Hw Hws].
    cbn [trimEnd]. now rewrite (IH Hws), Hw. }
  induction s as [|x s IH]; cbn [append trimEnd]; [exact H0 | now rewrite IH].
Qed.

Lemma many_head (p : ascii -> bool) (x : string) :
  forall prev y,
    all_chars p x = true ->
    match y with String c _ => p c = false | EmptyString => True end ->
    exists l, many p prev (x ++ y) = (char_before prev x, y) :: l.
Proof.
  induction x as [|c x IH]; intros prev y Hx Hy.
  - cbn [append char_before]. destruct y as [|d y]; cbn [many]; [eauto|].
    rewrite Hy. eauto.
  - cbn [all_chars] in Hx. apply andb_prop in Hx as [Hc Hx].
    cbn [append many char_before]. rewrite Hc.
    destruct (IH (Some c) y Hx Hy) as [l ->]. cbn [app]. eauto.
Qed.

Lemma skip_matched (r : regex) (x : string) :
  forall prev rest,
    remove_all_from r prev (x ++ rest) (String.length x) =
    remove_all_from r (char_before prev x) rest 0.
Proof.
  induction x as [|c x IH]; intros prev rest; [reflexivity|].
  cbn [append String.length remove_all_from char_before]. apply IH.
Qed.

Lemma fence_across_line (s r : string) :
  prefix fence (s ++ String newline r) = true -> prefix fence s = true.
Proof.
  rewrite !prefix_spec. intros [post H].
  destruct s as [|a [|b [|c s]]]; cbn in H; try discriminate H.
  injection H as -> -> -> H. exists s. reflexivity.
Qed.

(** The opening pattern takes the mark, the language tag and the line feed
    behind it. *)
Lemma opening_match (lang rest : string) :
  all_chars is_word lang = true ->
  match_here openingFence None (fence ++ lang ++ line_feed ++ rest) =
    Some (fence ++ lang ++ line_feed)%string.
Proof.
  intros Hlang. unfold match_here.
  assert (Hrun : exists l,
             run openingFence None (fence ++ lang ++ line_feed ++ rest) =
             (Some newline, rest) :: l).
  { unfold openingFence, fence.
    cbn [seqs run lit chr append flat_map app fst snd Opt].
    rewrite !Ascii.eqb_refl. cbn [flat_map app fst snd].
    rewrite !Ascii.eqb_refl. cbn [flat_map app fst snd].
    rewrite !Ascii.eqb_refl. cbn [flat_map app fst snd].
    destruct (many_head is_word lang (Some "`"%char) (line_feed ++ rest) Hlang eq_refl)
      as [l ->].
    cbn [flat_map fst snd line_feed append run app].
    rewrite Ascii.eqb_refl. cbn [app]. eauto. }
  destruct Hrun as [l ->]. f_equal.
  replace (fence ++ lang ++ line_feed ++ rest)%string
    with ((fence ++ lang ++ line_feed) ++ rest)%string
    by (now rewrite !append_assoc).
  apply consumed_append.
Qed.

Lemma remove_opening_body (body r : string) :
  forall prev, includes body fence = false ->
  remove_all_from openingFence prev (body ++ String newline r) 0 =
  (body ++ remove_all_from openingFence (char_before prev body) (String newline r) 0)%string.
Proof.
  induction body as [|c body IH]; intros prev H; [reflexivity|].
  apply includes_cons in H as [Hp Hs].
  cbn [append remove_all_from char_before].
  destruct (match_here openingFence prev (String c (body ++ String newline r)))
    as [m|] eqn:E.
  - apply opening_needs_fence in E.
    apply (fence_across_line (String c body)) in E. congruence.
  - f_equal. now apply IH.
Qed.

Lemma remove_opening_end (prev : option ascii) :
  remove_all_from openingFence prev (String newline fence) 0 = line_feed.
Proof.
  cbn [remove_all_from].
  destruct (match_here openingFence prev (String newline fence)) as [m|] eqn:E.
  - apply opening_needs_fence in E. discriminate E.
  - reflexivity.
Qed.

Lemma includes_line_feed (body : string) :
  includes body fence = false -> includes (body ++ line_feed) fence = false.
Proof.
  induction body as [|c body IH]; intros H; [reflexivity|].
  apply includes_cons in H as [Hp Hs].
  change (String c body ++ line_feed)%string with (String c (body ++ line_feed)).
  cbn [includes]. rewrite (IH Hs), orb_false_r.
  destruct (prefix fence (String c (body ++ line_feed))) eqn:E; [|reflexivity].
  apply (fence_across_line (String c body) "") in E. congruence.
Qed.

End UnwrapFacts.

(** X20.  A reply that wraps the code in one fence, with or without a language
    tag, is cleaned to the code itself, as long as the code is trimmed and
    shows no fence mark of its own. *)
Theorem cleanCode_unwraps_fence :
  forall lang body : string,
    all_chars is_word lang = true ->
    includes body fence = false ->
    trim body = body ->
    WebsiteValidator.cleanCode (fenced lang body) = body.
Proof.
  intros lang body Hlang Hbody Htrim.
  unfold WebsiteValidator.cleanCode. cbv zeta.
  assert (Ht : trim (fenced lang body) = fenced lang body).
  { unfold trim, fenced.
    replace (fence ++ lang ++ line_feed ++ body ++ line_feed ++ fence)%string
      with ((fence ++ lang ++ line_feed ++ body ++ line_feed ++ "``") ++ "`")%string
      by (unfold fence; rewrite !append_assoc; reflexivity).
    rewrite trimEnd_end by reflexivity. reflexivity. }
  rewrite Ht.
  assert (Hinc : includes (fenced lang body) "```" = true).
  { apply includes_spec. exists "". eexists. reflexivity. }
  rewrite Hinc.
  assert (Hopen : Regex.remove_all WebsiteValidator.openingFence (fenced lang body)
                  = (body ++ line_feed)%string).
  { unfold Regex.remove_all, fenced.
    pose proof (opening_match lang (body ++ line_feed ++ fence) Hlang) as Hm.
    change (fence ++ lang ++ line_feed ++ body ++ line_feed ++ fence)%string
      with (String "`" ("``" ++ lang ++ line_feed ++ body ++ line_feed ++ fence))%string
      in Hm |- *.
    cbn [Regex.remove_all_from]. rewrite Hm.
    change (fence ++ lang ++ line_feed)%string
      with (String "`" ("``" ++ lang ++ line_feed))%string.
    cbn [String.length Nat.sub].
    rewrite Nat.sub_0_r.
    replace ("``" ++ lang ++ line_feed ++ body ++ line_feed ++ fence)%string
      with (("``" ++ lang ++ line_feed) ++ (body ++ line_feed ++ fence))%string
      by (now rewrite !append_assoc).
    rewrite skip_matched.
    change (line_feed ++ fence)%string with (String WebsiteValidator.newline fence).
    rewrite remove_opening_body by exact Hbody.
    now rewrite remove_opening_end. }
  rewrite Hopen. unfold Regex.remove_all.
  rewrite remove_closing_plain by (apply includes_line_feed; exact Hbody).
  unfold trim. rewrite trimEnd_spaces_end by reflexivity.
  exact Htrim.
Qed.

Lemma cleanCode_unwraps_fence_witness :
  WebsiteValidator.cleanCode
    (fenced "js" "const mark = `x`;") = "const mark = `x`;".
Proof.
  apply cleanCode_unwraps_fence; reflexivity.
Defined.

(* ################################################################# *)
(** * The prompt data of [generateFile] and the names of pages *)

Section TrimDataFacts.

Import FileGenerator.






End TrimDataFacts.



Section SlugFacts.

Import Regex Routes.

Lemma match_here_chr (p : ascii -> bool) (prev : option ascii) (c : ascii)
  (s : string) :
  match_here (Chr p) prev (String c s) =
    if p c then Some (String c "") else None.
Proof.
  unfold match_here. cbn [run]. destruct (p c); [|reflexivity].
  f_equal. exact (consumed_append (String c "") s).
Qed.

(** Removing the characters of a class leaves none of them. *)
Lemma remove_chr_all (p : ascii -> bool) (s : string) :
  forall prev,
    all_chars (fun c => negb (p c)) (remove_all_from (Chr p) prev s 0) = true.
Proof.
  induction s as [|c s IH]; intros prev; [reflexivity|].
  cbn [remove_all_from]. rewrite match_here_chr.
  destruct (p c) eqn:E.
  - cbn [String.length Nat.sub]. apply IH.
  - cbn [all_chars]. rewrite E. cbn [negb andb]. apply IH.
Qed.

Lemma all_chars_ext (p q : ascii -> bool) (s : string) :
  (forall c, p c = q c) -> all_chars p s = all_chars q s.
Proof.
  intros H. induction s as [|c s IH]; [reflexivity|].
  cbn [all_chars]. now rewrite H, IH.
Qed.

End SlugFacts.

(** X22.  The name of a page made on request is a run of lower-case letters,
    digits and dashes followed by the extension: whatever the request says,
    the name has no slash, no dot and no space of its own. *)
Theorem pageFileName_is_slug :
  forall intent : string,
    exists slug,
      Routes.pageFileName intent = (slug ++ ".html")%string /\
      all_chars Routes.slugChar slug = true.
Proof.
  intros intent. unfold Routes.pageFileName. eexists. split; [reflexivity|].
  unfold Regex.remove_all.
  etransitivity;
    [|apply (remove_chr_all (fun c => negb (Routes.slugChar c))
               (Routes.replace_all (Regex.Plus is_space) "-" (toLowerCase intent))
               None)].
  apply all_chars_ext. intros c. now rewrite negb_involutive.
Qed.

Section SlugWords.

Import Regex Routes.

Lemma skip_replaced (r : regex) (rep x : string) :
  forall prev rest,
    replace_all_from r rep prev (x ++ rest) (String.length x) =
    replace_all_from r rep (char_before prev x) rest 0.
Proof.
  induction x as [|c x IH]; intros prev rest; [reflexivity|].
  cbn [append String.length replace_all_from char_before]. apply IH.
Qed.

Lemma no_gap_here (prev : option ascii) (c : ascii) (s : string) :
  is_space c = false -> match_here (Plus is_space) prev (String c s) = None.
Proof.
  intros H. unfold match_here, Plus. cbn [run flat_map]. now rewrite H.
Qed.

Lemma gap_here (prev : option ascii) (g tail : string) :
  white_gap g ->
  match tail with String c _ => is_space c = false | EmptyString => True end ->
  match_here (Plus is_space) prev (g ++ tail) = Some g.
Proof.
  intros [Hne Hg] Htail. destruct g as [|c g]; [congruence|].
  cbn [all_chars] in Hg. apply andb_prop in Hg as [Hc Hg].
  unfold match_here, Plus. cbn [append run flat_map fst snd]. rewrite Hc.
  cbn [flat_map fst snd run].
  destruct (many_head is_space g (Some c) tail Hg Htail) as [l ->].
  cbn [app]. f_equal.
  exact (consumed_append (String c g) tail).
Qed.

Lemma replace_word (rep x : string) :
  forall prev tail,
    all_chars no_space x = true ->
    replace_all_from (Plus is_space) rep prev (x ++ tail) 0 =
    (x ++ replace_all_from (Plus is_space) rep (char_before prev x) tail 0)%string.
Proof.
  induction x as [|c x IH]; intros prev tail Hx; [reflexivity|].
  cbn [all_chars] in Hx. apply andb_prop in Hx as [Hc Hx].
  apply negb_true_iff in Hc.
  cbn [append replace_all_from char_before]. rewrite (no_gap_here _ _ _ Hc).
  f_equal. now apply IH.
Qed.

Lemma replace_gap (rep g tail : string) (prev : option ascii) :
  white_gap g ->
  match tail with String c _ => is_space c = false | EmptyString => True end ->
  replace_all_from (Plus is_space) rep prev (g ++ tail) 0 =
  (rep ++ replace_all_from (Plus is_space) rep (char_before prev g) tail 0)%string.
Proof.
  intros Hg Htail. pose proof (gap_here prev g tail Hg Htail) as Hm.
  destruct g as [|c g]; [destruct Hg; congruence|].
  cbn [append] in Hm |- *. cbn [replace_all_from]. rewrite Hm.
  cbn [String.length Nat.sub char_before]. rewrite Nat.sub_0_r.
  apply (f_equal (append rep)). apply skip_replaced.
Qed.

Lemma host_lower (c : ascii) :
  VercelDeployer.hostChar c = true ->
  no_space (lower_char c) = true /\ slugChar (lower_char c) = true.
Proof.
  destruct c as [[] [] [] [] [] [] [] []]; intros H;
    try discriminate H; split; reflexivity.
Qed.

Lemma host_ascii (w : string) :
  all_chars VercelDeployer.hostChar w = true -> all_chars is_ascii w = true.
Proof.
  induction w as [|c w IH]; [reflexivity|]. cbn [all_chars].
  intros H. apply andb_prop in H as [Hc Hw]. rewrite (IH Hw), andb_true_r.
  revert Hc. destruct c as [[] [] [] [] [] [] [] []]; intros H;
    try discriminate H; reflexivity.
Qed.

Lemma word_lower (w : string) :
  all_chars VercelDeployer.hostChar w = true ->
  all_chars no_space (toLowerCase w) = true /\
  all_chars slugChar (toLowerCase w) = true.
Proof.
  intros Hw. rewrite (toLowerCase_ascii_text w (host_ascii w Hw)).
  induction w as [|c w IH]; [auto|]. cbn [all_chars fold_case map_chars] in *.
  apply andb_prop in Hw as [Hc Hw].
  destruct (host_lower c Hc) as [-> ->]. destruct (IH Hw) as [H1 H2].
  fold (fold_case w). now rewrite H1, H2.
Qed.

Lemma gap_lower (g : string) : white_gap g -> toLowerCase g = g.
Proof.
  intros [_ Hg].
  rewrite (toLowerCase_ascii_text g (spaces_ascii g Hg)).
  now apply fold_spaces.
Qed.

Lemma spaced_head (first : string) (rest : list (string * string)) :
  plain_word first ->
  match toLowerCase (spaced first rest) with
  | String c _ => is_space c = false
  | EmptyString => True
  end.
Proof.
  intros [Hne Hw]. destruct first as [|c w]; [congruence|].
  cbn [all_chars] in Hw. apply andb_prop in Hw as [Hc _].
  destruct (host_lower c Hc) as [H _]. apply negb_true_iff in H.
  assert (Hhead : forall tail,
             toLowerCase (String c tail) = String (lower_char c) (toLowerCase tail)).
  { intros tail. apply (toLowerCase_ascii (String c "") tail).
    apply (host_ascii (String c "")). cbn [all_chars]. now rewrite Hc. }
  destruct rest as [|[g w'] more]; cbn [spaced append]; rewrite Hhead; exact H.
Qed.

Lemma replace_spaced (rest : list (string * string)) :
  forall first prev,
    Forall plain_word (first :: map snd rest) ->
    Forall white_gap (map fst rest) ->
    replace_all_from (Plus is_space) "-" prev (toLowerCase (spaced first rest)) 0 =
    dashed first rest.
Proof.
  induction rest as [|[g w] more IH]; intros first prev Hwords Hgaps.
  - cbn [spaced dashed]. inversion Hwords as [|x l [_ Hw] _]; subst.
    rewrite <- (append_empty_r (toLowerCase first)) at 1.
    rewrite replace_word by (apply word_lower; exact Hw).
    cbn. apply append_empty_r.
  - cbn [spaced dashed map] in *.
    inversion Hwords as [|x l [_ Hw] Hrest]; subst.
    inversion Hgaps as [|y l Hg Hmore]; subst.
    rewrite (toLowerCase_ascii first) by (apply host_ascii; exact Hw).
    rewrite (toLowerCase_ascii g) by (apply spaces_ascii; apply Hg).
    rewrite <- (toLowerCase_ascii_text first) by (apply host_ascii; exact Hw).
    rewrite <- (toLowerCase_ascii_text g) by (apply spaces_ascii; apply Hg).
    rewrite (gap_lower g Hg).
    rewrite replace_word by (apply word_lower; exact Hw).
    rewrite replace_gap;
      [|exact Hg
       |apply spaced_head; inversion Hrest; assumption].
    now rewrite IH.
Qed.

Lemma remove_chr_none (p : ascii -> bool) (s : string) :
  forall prev,
    all_chars (fun c => negb (p c)) s = true ->
    remove_all_from (Chr p) prev s 0 = s.
Proof.
  induction s as [|c s IH]; intros prev H; [reflexivity|].
  cbn [all_chars] in H. apply andb_prop in H as [Hc Hs].
  apply negb_true_iff in Hc.
  cbn [remove_all_from]. rewrite match_here_chr, Hc. f_equal. now apply IH.
Qed.

Lemma dashed_slug (rest : list (string * string)) :
  forall first,
    Forall plain_word (first :: map snd rest) ->
    all_chars slugChar (dashed first rest) = true.
Proof.
  induction rest as [|[g w] more IH]; intros first Hwords;
    inversion Hwords as [|x l [_ Hw] Hrest]; subst; cbn [dashed].
  - apply word_lower. exact Hw.
  - rewrite !all_chars_append.
    rewrite (proj2 (word_lower _ Hw)). cbn [map] in Hrest.
    now rewrite (IH w Hrest).
Qed.

End SlugWords.

(** X23.  For a request made of words of letters, digits and dashes with white
    space between them, the page is named by the words in lower case, joined
    by single dashes. *)
Theorem pageFileName_joins_words :
  forall (first : string) (rest : list (string * string)),
    Forall plain_word (first :: map snd rest) ->
    Forall white_gap (map fst rest) ->
    Routes.pageFileName (spaced first rest) = (dashed first rest ++ ".html")%string.
Proof.
  intros first rest Hwords Hgaps. unfold Routes.pageFileName, Routes.replace_all.
  rewrite (replace_spaced rest first None Hwords Hgaps).
  unfold Regex.remove_all. rewrite remove_chr_none; [reflexivity|].
  erewrite all_chars_ext; [apply (dashed_slug rest first Hwords)|].
  intros c. apply negb_involutive.
Qed.

(** Three words, the last two gaps of different length *)
Lemma pageFileName_joins_words_witness :
  Routes.pageFileName "Top Films   2019" = "top-films-2019.html".
Proof.
  apply (pageFileName_joins_words "Top" [(" ", "Films"); ("   ", "2019")]).
  - repeat constructor; discriminate.
  - repeat constructor; discriminate.
Defined.

(* ################################################################# *)
(** * [loadData] and the data file of a project *)

(** X24.  For a collection whose file is missing [loadData] answers with the
    movies: with nothing when their file is missing too, and with the
    records of their file when it holds some. *)
Theorem loadData_missing_collection :
  forall (d : Fs.Disk) (dataSource dataRoot : string),
    Fs.existsSync d (Fs.join dataRoot (dataSource ++ ".json")) = false ->
    (Fs.existsSync d (Fs.join dataRoot "movies.json") = false ->
     DataLoader.loadData d dataSource dataRoot = Ok (JArr [])) /\
    (forall items,
        DataLoader.loadData d "movies" dataRoot = Ok (JArr items) ->
        items <> [] ->
        DataLoader.loadData d dataSource dataRoot = Ok (JArr items)).
Proof.
  intros d dataSource dataRoot Hmiss. unfold DataLoader.loadData.
  rewrite Hmiss. cbn [negb]. split.
  - intros ->. reflexivity.
  - intros items. change ("movies" ++ ".json")%string with "movies.json".
    destruct (Fs.existsSync d (Fs.join dataRoot "movies.json")); cbn [negb].
    + destruct (Fs.readFileSync d _) as [raw|e]; [|discriminate]. cbn [bind].
      destruct (DataLoader.parse raw) as [v|e]; [|discriminate]. cbn [bind].
      destruct v; intros H Hne; injection H as <-; congruence.
    + intros H Hne. injection H as <-. congruence.
Qed.

(** A collection without a file, in a directory that holds the movies *)
Lemma loadData_missing_collection_witness :
  DataLoader.loadData moviesOnly "gadgets" "data" = Ok (JArr twoFilms).
Proof.
  apply (loadData_missing_collection moviesOnly "gadgets" "data").
  - reflexivity.
  - vm_compute. reflexivity.
  - discriminate.
Defined.

Section MergeFacts.

Import Routes.

Lemma someM_true {A : Type} (p : A -> result bool) (l : list A) :
  someM p l = Ok true -> exists x, In x l /\ p x = Ok true.
Proof.
  induction l as [|x l IH]; simpl; [discriminate|].
  destruct (p x) as [[]|] eqn:E; cbn [bind]; try discriminate.
  - intros _. exists x. auto.
  - intros H. destruct (IH H) as [y [Hin Hy]]. exists y. auto.
Qed.

Lemma someM_false {A : Type} (p : A -> result bool) (l : list A) :
  someM p l = Ok false -> forall x, In x l -> p x = Ok false.
Proof.
  induction l as [|x l IH]; simpl; [intros _ y []|].
  destruct (p x) as [[]|] eqn:E; cbn [bind]; try discriminate.
  intros H y [<- | Hin]; auto.
Qed.

Lemma filterM_evaluates {A : Type} (p : A -> result bool) (l r : list A) :
  filterM p l = Ok r -> forall x, In x l -> exists b, p x = Ok b.
Proof.
  revert r. induction l as [|y l IH]; intros r; simpl; [intros _ x []|].
  destruct (p y) as [b|] eqn:E; [|discriminate]. cbn [bind].
  destruct (filterM p l) as [r'|]; [|discriminate]. cbn [bind].
  intros _ x [<- | Hin]; [eauto | exact (IH r' eq_refl x Hin)].
Qed.

Lemma filterM_keeps {A : Type} (p : A -> result bool) (l r : list A) :
  filterM p l = Ok r -> forall x, In x l -> p x = Ok true -> In x r.
Proof.
  revert r. induction l as [|y l IH]; intros r; simpl; [intros _ x []|].
  destruct (p y) as [b|] eqn:E; [|discriminate]. cbn [bind].
  destruct (filterM p l) as [r'|]; [|discriminate]. cbn [bind].
  intros H x Hin Hx. injection H as <-. destruct Hin as [<- | Hin].
  - rewrite Hx in E. injection E as <-. now left.
  - specialize (IH r' eq_refl x Hin Hx). destruct b; [now right | exact IH].
Qed.

Lemma sameId_ids (item existing : json) (b : bool) :
  sameId item existing = Ok b ->
  b = strict_equal (id_of existing) (id_of item).
Proof.
  unfold sameId, id_of.
  destruct existing; try discriminate; destruct item; try discriminate;
    cbn [get bind field]; intros H; now injection H as <-.
Qed.

End MergeFacts.

(** X25.  The data file written back after a page is made starts with the records
    that were in it, in their order; behind them come, in their order, the
    new records whose id none of the old records has, and no other. *)
Theorem updatedData_merges :
  forall existingData filteredData merged : list json,
    Routes.updatedData existingData filteredData = Ok merged ->
    exists added,
      merged = existingData ++ added /\
      subseq added filteredData /\
      forall item,
        In item filteredData ->
        (In item added <->
         forall existing, In existing existingData ->
           strict_equal (id_of existing) (id_of item) = false).
Proof.
  intros existingData filteredData merged. unfold Routes.updatedData.
  destruct (filterM _ filteredData) as [added|] eqn:E; [|discriminate].
  cbn [bind]. intros H. injection H as <-.
  exists added. split; [reflexivity|]. split; [exact (filterM_subseq _ _ _ E)|].
  intros item Hin.
  destruct (filterM_evaluates _ _ _ E item Hin) as [keep Hkeep].
  assert (Hfresh : keep = true <->
                   forall existing, In existing existingData ->
                     strict_equal (id_of existing) (id_of item) = false).
  { destruct (Routes.someM (Routes.sameId item) existingData) as [found|] eqn:Ex;
      [|discriminate Hkeep].
    cbn [bind] in Hkeep. injection Hkeep as <-.
    destruct found; cbn [negb].
    - apply someM_true in Ex as [e [He Hs]]. apply sameId_ids in Hs.
      split; [discriminate|]. intros H. rewrite (H e He) in Hs. discriminate.
    - split; [|reflexivity]. intros _ e He.
      pose proof (someM_false _ _ Ex e He) as Hs. apply sameId_ids in Hs. auto. }
  rewrite <- Hfresh. split.
  - intros Hadd.
    pose proof (proj1 (Forall_forall _ _) (filterM_Forall _ _ _ E) item Hadd) as Ht.
    congruence.
  - intros ->. exact (filterM_keeps _ _ _ E item Hin Hkeep).
Qed.

(** Of two records found one is new. *)
Lemma updatedData_merges_witness :
  exists merged added,
    Routes.updatedData twoFilms foundFilms = Ok merged /\
    merged = twoFilms ++ added /\ subseq added foundFilms.
Proof.
  eexists.
  destruct (updatedData_merges twoFilms foundFilms _ eq_refl)
    as [added [Hm [Hs _]]].
  exists added. split; [reflexivity|]. split; [exact Hm | exact Hs].
Defined.

(* ################################################################# *)
(** * The log store *)

Section LogFacts.

Import LogStore.

Lemma lookup_set_logs_same (projectId : string) (logs : list Entry) (store : Store) :
  lookup projectId (set_logs projectId logs store) = Some logs.
Proof.
  induction store as [|[k v] store IH]; simpl.
  - now rewrite String.eqb_refl.
  - destruct (k =? projectId) eqn:E; simpl; rewrite E; [reflexivity | exact IH].
Qed.

Lemma lookup_set_logs_other (projectId id : string) (logs : list Entry) (store : Store) :
  id <> projectId ->
  lookup id (set_logs projectId logs store) = lookup id store.
Proof.
  intros Hne. induction store as [|[k v] store IH]; simpl.
  - apply not_eq_sym in Hne. apply String.eqb_neq in Hne. now rewrite Hne.
  - destruct (k =? projectId) eqn:E; simpl.
    + apply String.eqb_eq in E. subst k.
      apply not_eq_sym in Hne. apply String.eqb_neq in Hne. now rewrite Hne.
    + destruct (k =? id); [reflexivity | exact IH].
Qed.

Lemma addLog_same (store : Store) (projectId : string) (now : Z)
  (message level : string) :
  getProjectLogs (addLog store projectId now message level) projectId =
    let logs := getProjectLogs store projectId ++
                [{| timestamp := now; message := message; level := level |}] in
    if (1000 <? length logs)%nat then tl logs else logs.
Proof.
  unfold addLog at 1. unfold getProjectLogs at 1.
  now rewrite lookup_set_logs_same.
Qed.

Lemma addLog_other (store : Store) (projectId id : string) (now : Z)
  (message level : string) :
  id <> projectId ->
  getProjectLogs (addLog store projectId now message level) id =
  getProjectLogs store id.
Proof.
  intros Hne. unfold addLog, getProjectLogs at 1 3.
  now rewrite lookup_set_logs_other.
Qed.

Lemma addLog_bound (store : Store) (projectId : string) (now : Z)
  (message level : string) :
  (forall id, length (getProjectLogs store id) <= 1000) ->
  forall id, length (getProjectLogs (addLog store projectId now message level) id) <= 1000.
Proof.
  intros H id. destruct (String.eqb_spec id projectId) as [->|Hne].
  - rewrite addLog_same. cbv zeta.
    specialize (H projectId).
    destruct (1000 <? _)%nat eqn:E.
    + destruct (getProjectLogs store projectId ++ _) as [|x l] eqn:El; [simpl; lia|].
      apply (f_equal (@length Entry)) in El. rewrite length_app in El.
      simpl in *. lia.
    + apply Nat.ltb_ge in E. exact E.
  - rewrite addLog_other by exact Hne. apply H.
Qed.

End LogFacts.

(** X26.  However many entries are logged, the store keeps at most 1000 of them
    for a project. *)
Theorem log_store_bounded :
  forall (calls : list LogCall) (projectId : string),
    length (LogStore.getProjectLogs (logged calls) projectId) <= 1000.
Proof.
  intros calls. unfold logged.
  assert (H : forall store,
             (forall id, length (LogStore.getProjectLogs store id) <= 1000) ->
             forall id,
               length (LogStore.getProjectLogs
                         (fold_left (fun store c =>
                                       LogStore.addLog store (call_project c)
                                         (call_time c) (call_message c) (call_level c))
                                    calls store) id) <= 1000).
  { induction calls as [|c calls IH]; intros store Hs id; [apply Hs|].
    cbn [fold_left]. apply IH. now apply addLog_bound. }
  apply H. intros id. cbn. lia.
Qed.

(** X27.  [addLog] puts the new entry last in the log of its project and leaves
    the logs of the other projects alone; the entries that were there stay
    in their order, all of them below the bound and all but the oldest at
    the bound. *)
Theorem addLog_appends :
  forall (store : LogStore.Store) (projectId : string) (now : Z)
         (message level : string),
    let entry := {| LogStore.timestamp := now; LogStore.message := message;
                    LogStore.level := level |} in
    let before := LogStore.getProjectLogs store projectId in
    let after :=
      LogStore.getProjectLogs
        (LogStore.addLog store projectId now message level) projectId in
    (length before < 1000 -> after = before ++ [entry]) /\
    (1000 <= length before -> after = tl before ++ [entry]) /\
    (forall other, other <> projectId ->
       LogStore.getProjectLogs
         (LogStore.addLog store projectId now message level) other =
       LogStore.getProjectLogs store other).
Proof.
  intros store projectId now message level entry before after.
  subst after. rewrite addLog_same. cbv zeta. fold entry before.
  rewrite length_app. cbn [length]. repeat split.
  - intros H. destruct (1000 <? _)%nat eqn:E; [|reflexivity].
    apply Nat.ltb_lt in E. lia.
  - intros H. destruct (1000 <? _)%nat eqn:E.
    + destruct before; [simpl in H; lia | reflexivity].
    + apply Nat.ltb_ge in E. lia.
  - intros other Hne. now apply addLog_other.
Qed.

(* ################################################################# *)
(** * [generateWebsite] *)

Section DiskFacts.

Lemma writeFileSync_exists (d d' : Fs.Disk) (p content : string) :
  Fs.writeFileSync d p content = Ok d' ->
  Fs.existsSync d' p = true /\
  forall q, Fs.existsSync d q = true -> Fs.existsSync d' q = true.
Proof.
  unfold Fs.writeFileSync. destruct (Fs.listed _ _); [discriminate|].
  intros H. injection H as <-. unfold Fs.existsSync. cbn [Fs.files Fs.dirs lookup].
  split.
  - now rewrite String.eqb_refl.
  - intros q Hq. destruct (p =? q); [reflexivity | exact Hq].
Qed.

Lemma mkdirSync_exists (d d' : Fs.Disk) (p : string) :
  Fs.mkdirSync d p = Ok d' ->
  Fs.existsSync d' p = true /\
  forall q, Fs.existsSync d q = true -> Fs.existsSync d' q = true.
Proof.
  unfold Fs.mkdirSync. destruct (Fs.listed _ _); [discriminate|].
  intros H. injection H as <-. unfold Fs.existsSync, Fs.listed.
  cbn [Fs.files Fs.dirs existsb]. split.
  - destruct (lookup p (Fs.files d)); [reflexivity|].
    now rewrite String.eqb_refl.
  - intros q Hq. destruct (lookup q (Fs.files d)); [reflexivity|].
    rewrite Hq. apply orb_true_r.
Qed.

Lemma writeData_exists (d d' : Fs.Disk) (projectDir : string) (records : list json) :
  WebsiteGenerator.writeData d projectDir records = Ok d' ->
  Fs.existsSync d' projectDir = true /\
  Fs.existsSync d' (Fs.join projectDir "data.json") = true.
Proof.
  unfold WebsiteGenerator.writeData.
  destruct (Fs.mkdirSync d projectDir) as [disk1|] eqn:E1; [|discriminate].
  cbn [bind]. intros E2.
  apply mkdirSync_exists in E1 as [H1 _].
  apply writeFileSync_exists in E2 as [H2 Hmono]. auto.
Qed.

Lemma ensureConfig_keeps (d : Fs.Disk) (projectDir : string) :
  forall q, Fs.existsSync d q = true ->
  Fs.existsSync (match VercelDeployer.ensureConfig d projectDir with
                 | Ok d' => d'
                 | Throw _ => d
                 end) q = true.
Proof.
  intros q Hq. unfold VercelDeployer.ensureConfig.
  destruct (Fs.existsSync d (Fs.join projectDir "vercel.json")); [exact Hq|].
  destruct (Fs.writeFileSync d _ _) as [d'|] eqn:E; [|exact Hq].
  apply writeFileSync_exists in E as [_ Hmono]. auto.
Qed.

End DiskFacts.

Section GeneratorFacts.

Import SiteGenerator.

Lemma generateFiles_written (projectDir : string) (data : list json)
  (replies : nat -> ModelOutcome) (files : list ArchitecturePlanner.PlannedFile) :
  forall (d d' : Fs.Disk) (k : nat),
    generateFiles d projectDir data replies k files = (d', Ok tt) ->
    (forall f, In f files ->
       Fs.existsSync d' (Fs.join projectDir (ArchitecturePlanner.fileName f)) = true) /\
    (forall q, Fs.existsSync d q = true -> Fs.existsSync d' q = true).
Proof.
  induction files as [|file rest IH]; intros d d' k; cbn [generateFiles].
  - intros H. injection H as <-. split; [intros f [] | auto].
  - destruct (FileGenerator.generateFile data (replies k)) as [code|];
      [|discriminate].
    destruct (Fs.writeFileSync d _ _) as [disk1|] eqn:Ew; [|discriminate].
    intros H. apply IH in H as [Hrest Hmono].
    apply writeFileSync_exists in Ew as [Hfile Hmono1].
    split; [|auto]. intros f [<- | Hin]; auto.
Qed.

Lemma deploy_keeps (d : Fs.Disk) (projectDir projectId : string) (run : Run) :
  forall q, Fs.existsSync d q = true ->
  Fs.existsSync (fst (deploy d projectDir projectId run)) q = true.
Proof.
  intros q Hq. unfold deploy.
  destruct (vercelToken run) as [[|c t]|]; cbn [fst]; auto.
  now apply ensureConfig_keeps.
Qed.

Lemma plan_has (name : string) (plan : ArchitecturePlanner.ArchitecturePlan) :
  1 <= ArchitecturePlanner.occurrences name plan ->
  exists f, In f plan /\ ArchitecturePlanner.fileName f = name.
Proof.
  unfold ArchitecturePlanner.occurrences.
  induction plan as [|f plan IH]; simpl; [lia|].
  destruct (ArchitecturePlanner.fileName f =? name) eqn:E.
  - intros _. exists f. split; [now left | now apply String.eqb_eq].
  - intros H. destruct (IH H) as [g [Hin Hg]]. exists g. auto.
Qed.

Lemma plan_mandatory (intent : string) (data : list json) (reply : option json)
  (plan : ArchitecturePlanner.ArchitecturePlan) (name : string) :
  ArchitecturePlanner.planArchitecture intent data reply = Ok plan ->
  mandatory name ->
  exists f, In f plan /\ ArchitecturePlanner.fileName f = name.
Proof.
  intros H Hname. apply plan_has.
  unfold ArchitecturePlanner.planArchitecture in H.
  destruct (ArchitecturePlanner.mapM _ _); [|discriminate H]. cbn [bind] in H.
  assert (Hmin : 1 <= ArchitecturePlanner.occurrences name
                        ArchitecturePlanner.minimalPlan)
    by (rewrite (minimalPlan_occurrences name Hname); lia).
  destruct reply as [parsed|]; [|injection H as <-; exact Hmin].
  destruct (ArchitecturePlanner.planFromReply intent parsed) as [p|] eqn:E;
    injection H as <-; [|exact Hmin].
  rewrite (planFromReply_occurrences _ _ _ _ E Hname). lia.
Qed.

(** What a run that is not stopped by an exception has done *)
Lemma generate_completes (d d' : Fs.Disk) (intent : string) (data : list json)
  (projectDir projectId : string) (run : Run) (url : option string) :
  generate d intent data projectDir projectId run = (d', Ok url) ->
  exists plan,
    ArchitecturePlanner.planArchitecture intent data (planReply run) = Ok plan /\
    Fs.existsSync d' projectDir = true /\
    Fs.existsSync d' (Fs.join projectDir "data.json") = true /\
    (forall f, In f plan ->
       Fs.existsSync d' (Fs.join projectDir (ArchitecturePlanner.fileName f)) = true) /\
    url = snd (deploy (fst (WebsiteValidator.validateAndFixWebsite
                              (fst (generateFiles
                                      (match WebsiteGenerator.writeData d projectDir data with
                                       | Ok disk1 => disk1 | Throw _ => d end)
                                      projectDir data (fileReplies run) 0 plan))
                              projectDir
                              (map (fun f => (ArchitecturePlanner.fileName f,
                                              ArchitecturePlanner.purpose f)) plan)
                              (client run) (review run) (fixReplies run)))
                  projectDir projectId run).
Proof.
  unfold generate.
  destruct (WebsiteGenerator.writeData d projectDir data) as [disk1|] eqn:E1;
    [|discriminate].
  destruct (ArchitecturePlanner.planArchitecture intent data (planReply run))
    as [plan|] eqn:E2; [|discriminate].
  destruct (generateFiles disk1 projectDir data (fileReplies run) 0 plan)
    as [disk2 [[]|]] eqn:E3; [|discriminate].
  pose proof (validate_rewrites disk2 projectDir
                (map (fun f => (ArchitecturePlanner.fileName f,
                                ArchitecturePlanner.purpose f)) plan)
                (client run) (review run) (fixReplies run)) as Hval.
  destruct (WebsiteValidator.validateAndFixWebsite disk2 projectDir _ _ _ _)
    as [disk3 [v|]] eqn:E4; [|discriminate].
  cbn [fst snd] in Hval. destruct Hval as [_ [Hmono3 _]].
  pose proof (deploy_keeps disk3 projectDir projectId run) as Hmono4.
  destruct (deploy disk3 projectDir projectId run) as [disk4 u] eqn:E5.
  intros H. injection H as Hd Hu. cbn [fst snd] in Hmono4.
  rewrite <- Hd, <- Hu.
  assert (Hurl : u = snd (deploy (fst (WebsiteValidator.validateAndFixWebsite
                   (fst (generateFiles disk1 projectDir data (fileReplies run) 0 plan))
                   projectDir
                   (map (fun f => (ArchitecturePlanner.fileName f,
                                   ArchitecturePlanner.purpose f)) plan)
                   (client run) (review run) (fixReplies run)))
                 projectDir projectId run))
    by (rewrite E3; cbn [fst]; rewrite E4; cbn [fst]; now rewrite E5).
  apply writeData_exists in E1 as [Hdir Hdata].
  apply generateFiles_written in E3 as [Hfiles Hmono2].
  exists plan. split; [reflexivity|].
  split; [apply Hmono4, Hmono3, Hmono2, Hdir|].
  split; [apply Hmono4, Hmono3, Hmono2, Hdata|].
  split; [|exact Hurl].
  intros f Hin. apply Hmono4, Hmono3, Hfiles, Hin.
Qed.

Lemma generate_outcome (d : Fs.Disk) (intent : string) (data : list json)
  (projectDir projectId : string) (run : Run) (token : option string)
  (cli : VercelDeployer.ExecOutcome) :
  match snd (generate d intent data projectDir projectId run),
        snd (generate d intent data projectDir projectId (redeployed run token cli)) with
  | Ok _, Ok _ => True
  | Throw e, Throw e' => e = e'
  | _, _ => False
  end.
Proof.
  unfold generate. cbn [planReply fileReplies client review fixReplies redeployed].
  destruct (WebsiteGenerator.writeData d projectDir data) as [disk1|];
    [|reflexivity].
  destruct (ArchitecturePlanner.planArchitecture intent data (planReply run))
    as [plan|]; [|reflexivity].
  destruct (generateFiles disk1 projectDir data (fileReplies run) 0 plan)
    as [disk2 [[]|]]; [|reflexivity].
  destruct (WebsiteValidator.validateAndFixWebsite disk2 projectDir _ _ _ _)
    as [disk3 [v|]]; [|reflexivity].
  destruct (deploy disk3 projectDir projectId run);
    destruct (deploy disk3 projectDir projectId _); exact I.
Qed.

End GeneratorFacts.

(** X28.  A job that ends as completed has made its directory and the data
    file in it, and has written every file of the plan, the home page and
    the script among them, at the path that joins the directory with the
    name of the file. *)
Theorem generateWebsite_completed_site :
  forall (d d' : Fs.Disk) (intent : string) (filteredData : list json)
         (outputRoot publicBasePath projectId : string) (run : SiteGenerator.Run)
         (st : SiteGenerator.GenerationStatus),
    SiteGenerator.generateWebsite d intent filteredData outputRoot publicBasePath
      projectId run = (d', st) ->
    SiteGenerator.status st = SiteGenerator.completed ->
    let projectDir := Fs.join outputRoot projectId in
    Fs.existsSync d' projectDir = true /\
    Fs.existsSync d' (Fs.join projectDir "data.json") = true /\
    Fs.existsSync d' (Fs.join projectDir "index.html") = true /\
    Fs.existsSync d' (Fs.join projectDir "app.js") = true /\
    exists plan,
      ArchitecturePlanner.planArchitecture intent filteredData
        (SiteGenerator.planReply run) = Ok plan /\
      forall f, In f plan ->
        Fs.existsSync d' (Fs.join projectDir (ArchitecturePlanner.fileName f)) = true.
Proof.
  intros d d' intent filteredData outputRoot publicBasePath projectId run st H Hst
         projectDir.
  unfold SiteGenerator.generateWebsite in H. fold projectDir in H.
  destruct (SiteGenerator.generate d intent filteredData projectDir projectId run)
    as [disk1 [url|e]] eqn:E; injection H as <- <-; [|discriminate Hst].
  apply generate_completes in E as [plan [Hplan [Hdir [Hdata [Hfiles _]]]]].
  destruct (plan_mandatory _ _ _ _ "index.html" Hplan (or_introl eq_refl))
    as [f1 [Hin1 Hf1]].
  destruct (plan_mandatory _ _ _ _ "app.js" Hplan (or_intror eq_refl))
    as [f2 [Hin2 Hf2]].
  repeat split; auto.
  - rewrite <- Hf1. now apply Hfiles.
  - rewrite <- Hf2. now apply Hfiles.
  - exists plan. auto.
Qed.

(** A run in which every call succeeds *)
Lemma generateWebsite_completed_site_witness :
  Fs.existsSync
    (fst (SiteGenerator.generateWebsite emptyDisk "a movie catalogue" twoFilms
            "generated" "/generated-sites" "project-1" quietRun))
    (Fs.join (Fs.join "generated" "project-1") "index.html") = true.
Proof.
  pose proof (generateWebsite_completed_site emptyDisk _ "a movie catalogue"
                twoFilms "generated" "/generated-sites" "project-1" quietRun _
                (surjective_pairing _)) as H.
  apply H. vm_compute. reflexivity.
Defined.

(** X29.  Whether a job ends as completed or as failed does not depend on the
    deployment: with another token and another behaviour of the CLI the
    status is the same, and so are the project path and the public URL. *)
Theorem generateWebsite_status_ignores_deployment :
  forall (d : Fs.Disk) (intent : string) (filteredData : list json)
         (outputRoot publicBasePath projectId : string) (run : SiteGenerator.Run)
         (token : option string) (cli : VercelDeployer.ExecOutcome),
    let first :=
      snd (SiteGenerator.generateWebsite d intent filteredData outputRoot
             publicBasePath projectId run) in
    let second :=
      snd (SiteGenerator.generateWebsite d intent filteredData outputRoot
             publicBasePath projectId (redeployed run token cli)) in
    SiteGenerator.status first = SiteGenerator.status second /\
    SiteGenerator.projectPath first = SiteGenerator.projectPath second /\
    SiteGenerator.publicUrl first = SiteGenerator.publicUrl second /\
    (SiteGenerator.status first = SiteGenerator.failed ->
     SiteGenerator.message first = SiteGenerator.message second).
Proof.
  intros d intent filteredData outputRoot publicBasePath projectId run token cli
         first second.
  subst first second. unfold SiteGenerator.generateWebsite.
  pose proof (generate_outcome d intent filteredData (Fs.join outputRoot projectId)
                projectId run token cli) as H.
  destruct (SiteGenerator.generate d intent filteredData _ projectId run)
    as [disk1 [u1|e1]];
    destruct (SiteGenerator.generate d intent filteredData _ projectId
                (redeployed run token cli)) as [disk2 [u2|e2]];
    cbn [snd] in *; try contradiction; cbn; repeat split; try discriminate.
  intros _. now subst.
Qed.

(** X30.  A status carries a deployed URL only when the token is set and the
    output of the CLI shows a URL of the hosting domain and none of the
    error domain. *)
Theorem generateWebsite_deployed_url :
  forall (d : Fs.Disk) (intent : string) (filteredData : list json)
         (outputRoot publicBasePath projectId : string) (run : SiteGenerator.Run)
         (url : string),
    SiteGenerator.deployedUrl
      (snd (SiteGenerator.generateWebsite d intent filteredData outputRoot
              publicBasePath projectId run)) = Some url ->
    url <> "" /\
    (exists token, SiteGenerator.vercelToken run = Some token /\ token <> "") /\
    contains_hosting_url (cli_output (SiteGenerator.cli run)) /\
    ~ contains_error_url (cli_output (SiteGenerator.cli run)).
Proof.
  intros d intent filteredData outputRoot publicBasePath projectId run url.
  unfold SiteGenerator.generateWebsite.
  destruct (SiteGenerator.generate d intent filteredData _ projectId run)
    as [disk1 [u|e]] eqn:E; cbn [snd SiteGenerator.deployedUrl]; [|discriminate].
  intros ->. apply generate_completes in E as [plan [_ [_ [_ [_ Hurl]]]]].
  revert Hurl. generalize (fst (WebsiteValidator.validateAndFixWebsite
      (fst (SiteGenerator.generateFiles
              (match WebsiteGenerator.writeData d (Fs.join outputRoot projectId)
                       filteredData with
               | Ok disk2 => disk2 | Throw _ => d end)
              (Fs.join outputRoot projectId) filteredData
              (SiteGenerator.fileReplies run) 0 plan))
      (Fs.join outputRoot projectId)
      (map (fun f => (ArchitecturePlanner.fileName f, ArchitecturePlanner.purpose f)) plan)
      (SiteGenerator.client run) (SiteGenerator.review run)
      (SiteGenerator.fixReplies run))).
  intros disk3. unfold SiteGenerator.deploy.
  destruct (SiteGenerator.vercelToken run) as [[|c t]|] eqn:Et; cbn [snd];
    try discriminate.
  destruct (VercelDeployer.success _) eqn:Es; [|discriminate].
  pose proof (deployToVercel_success_inv _ _ _ _ _ Es)
    as [_ [Hhost [Herr [[u [Hu Hne]] _]]]].
  rewrite Hu. destruct (nonempty u); [|discriminate].
  intros H. injection H as <-.
  split; [exact Hne|]. split; [|auto].
  exists (String c t). split; [reflexivity | discriminate].
Qed.

(** The same run, deployed *)
Lemma generateWebsite_deployed_url_witness :
  contains_hosting_url (cli_output (SiteGenerator.cli deployedRun)).
Proof.
  apply (generateWebsite_deployed_url emptyDisk "a movie catalogue" twoFilms
           "generated" "/generated-sites" "project-1" deployedRun
           "https://film-site.vercel.app").
  vm_compute. reflexivity.
Defined.
